(* ===== verification/_CoqProject ===== *)
-Q . S2P
Prelude.v
FailoverModels.v
Election.v
Liveness.v
ElectionFacts.v
ElectionSafety.v
ElectionScenario.v
ElectionProgress.v
Effects.v
JsonDoc.v
Ledger.v
LedgerFacts.v
LedgerScenario.v
UpgradeModels.v
UpgradeProgress.v
UpgradeFacts.v
UpgradeScenario.v
ReceiptJournal.v
ReceiptJournalFacts.v
ReceiptJournalScenario.v
Maintenance.v
MaintenanceFacts.v
TrainingJournal.v
TrainingSupervisor.v
NativeProcesses.v
TrainingFacts.v
TrainingSafety.v
TrainingScenario.v
Sampling.v
SamplingFacts.v
Mixture.v
MixtureFacts.v
Placement.v
PlacementFacts.v
Limits.v
RecipePng.v
RecipePngFacts.v
ImageModels.v
ImageJobs.v
ImageDispatch.v
ImageJobFacts.v
ImageCleanupFacts.v
ImageResume.v
ImageScenario.v
Instances.v
InstanceWriters.v
ShardLink.v
Sharding.v
InstanceFacts.v
ShardingFacts.v
ShardingScenario.v
ShardGroups.v
Engines.v
EngineFacts.v
EngineSafety.v
EngineLife.v
CommandLines.v
EngineAdoption.v
EngineReconcile.v
EngineScenario.v
