(* ===== verification/Prelude.v ===== *)
(** * Coire: a verification library

    Coire serves and trains language models on a small home cluster: a core host
    (the API, its scheduler and the upgrade executor) and two Studios, each with a
    node agent.  This library models the parts of its Python code that decide who
    may act, what may be admitted and what has durably happened, and proves what
    makes them correct.

    ** The parts and how they interact

    - Three members (the core and both Studios) exchange heartbeats and signed
      votes and elect the one that serves the front end.
    - The scheduler places models on a Studio within its memory budget, evicting
      idle ones; the node agent has its own ledger of holds on memory and disk,
      which survives a crash of the agent.
    - An upgrade is driven by receipts: the executor appends them to a journal of
      files, the API ingests them, issues grants for the steps that change
      something and decides the outcome; the node agent closes its admission fence
      meanwhile and reports an inventory of the work it still has.
    - A Studio runs one training attempt at a time: a supervisor takes fenced
      commands, spawns and stops a native process group, and records attempts,
      commands and events in an SQLite journal.
    - A model instance goes through a logged state machine; one that is sharded is
      admitted on both Studios at once, its ranks are commanded through a durable queue,
      and the link between the Studios is judged from its probes.
    - API keys have a rate per minute and a token quota per month.
    - Datasets are split by content, mixed by exact quotas and sampled by a
      reproducible generator.
    - A Studio renders images: the node agent stages the inputs of a job, starts it on
      a worker process, uploads the outputs against short-lived grants and deletes them
      once the API has acknowledged them; a journal of files survives its crashes.  A
      recipe embedded in a PNG is read back by a streaming parser.
    - The node agent runs the model servers themselves: it starts a process per
      engine within its memory budget, probes it until it answers a generation, stops
      it, and writes a journal from which a restarted agent adopts the servers that are
      still alive; processes that it cannot account for are reported as orphans.

    ** Files

    Shared: [Prelude] (results, tests, sorting, sums, lists) and [Effects] (calls
    on a mutable object that return or raise, transactions, how to read a run
    backwards).

    Failover.  [FailoverModels]: models/failover.py, the wire contracts and the
    signature interface.  [Election]: failover_election.py and the node's
    participant.py, [ElectionParticipant] method by method.  [Liveness]:
    [PeerLiveness] of failover_poller.py.  [ElectionFacts], [ElectionSafety]: the
    cluster as a step relation (polls, votes, grants in any order and number,
    restarts) and that at most one member serves under a current quorum proof when
    the promotion threshold covers the lease and the detection window.
    [ElectionScenario]: an executable version with two concrete runs, one of which
    reaches two leaders with the default timings.  [ElectionProgress]: one exchange
    with a willing voter elects a ready candidate.

    Node ledger.  [JsonDoc], [Ledger]: reservations.py, [NodeReservationLedger]
    with its journal file.  [LedgerFacts], [LedgerScenario]: crash-atomic
    persistence as a refinement of the holds in memory, capacity bounds, replay,
    protected and released holds.

    Upgrades.  [UpgradeModels]: models/upgrades.py.  [UpgradeProgress]: state.py,
    service.py, persistence.py, grants.py and compatibility.py of
    coire_api/upgrades.  [UpgradeFacts], [UpgradeScenario]: success needs proof,
    ended operations do not change, activation happens at most once, an unchanged
    end was never activated.  [ReceiptJournal], [ReceiptJournalFacts],
    [ReceiptJournalScenario]: upgrade_journal.py, append and read back, tamper
    evidence, acknowledgments and the bound.  [Maintenance], [MaintenanceFacts]:
    the node's maintenance.py, epochs, release and inventory.

    Training.  [TrainingJournal]: training/journal.py.  [TrainingSupervisor]:
    training/supervisor.py with rejections.py and retention.py; a method that awaits
    is split where it does, and the steps interleave.  [NativeProcesses]: the class
    of that name in supervisor.py.  [TrainingFacts], [TrainingSafety],
    [TrainingScenario]: one slot, one spawn per attempt, release only after death,
    superseded fences refused, capacity, the event log, and a stop that undoes a
    release.

    Data.  [Sampling], [SamplingFacts]: training_sampling.py.  [Mixture],
    [MixtureFacts]: training_data.py and the contracts of models/datasets.py; from a
    compiled mixture to an epoch's order without a validation row.

    Placement.  [Placement]: coire_scheduler/placement.py, placement/service.py and
    the reservations that placement/executor.py writes.  [PlacementFacts]: the plan
    of an admission, and how far the reservations of a node can exceed its budget under
    any interleaving of these transactions: by what late loads, evictions and repeated
    reservations count again, and not otherwise.

    Instances.  [Instances]: instance/service.py, the writing routes, the single-node
    launch and drain of coire_scheduler/instances.py and the unload of
    placement/executor.py, over the tables of db.py ([Cluster]); the reservations of a
    node are a [Placement.Node].  [InstanceWriters]: the code that writes the state of an
    instance itself, for image workers (coire_scheduler/image_dispatch.py, images.py and
    image_residency.py, routes/admin_images.py) and upgrade smoke tests
    (upgrades/smoke_instance.py).  [InstanceFacts]: what each of these calls does to the log.
    [ShardLink]: coire_scheduler/sharding.py, the damped verdict on the link.
    [Sharding]: sharded_instances.py, shard_executor.py and shard_reconciler.py, one
    definition per transaction.  [ShardingFacts]: a sharded admission takes both Studios
    within their budgets or none (with the plans of [PlacementFacts]); the log of every
    instance that is not an image worker is its history under any interleaving of all these
    writers.  [ShardingScenario]: a launch, an image worker and a smoke test beside it, a
    lost rank with its fallback, and that the last stop of a launch that failed ends the
    executor.  [ShardGroups]: the node's sharding.py; a group has at most one launcher for
    as long as every restarted agent can read its file.

    Keys.  [Limits]: identity/limits.py and windows.py; the single admission
    statement is equivalent to the two steps it replaces.

    Images.  [RecipePng]: image_png.py, the reader of a file descriptor as a state
    transformer on the bytes that are left.  [RecipePngFacts]: it accepts exactly the
    encodings of the chunk grammar [valid_png], fails only with documented codes and
    streams payloads faithfully.  [ImageModels]: models/images.py and
    models/image_worker.py, the specification, profile, recipe and job contracts, and
    the seeds of a batch.  [ImageJobs]: image_jobs.py, the journal as a map of records
    with its state machine and the paged sweep.  [ImageDispatch]: image_jobs.py's input
    staging, image_transfer.py, image_cleanup.py and image_dispatch.py, over directories
    whose files have link counts, with a fault oracle for durable writes.
    [ImageJobFacts]: every dispatcher call as a sequence of journal calls, and the
    history of a job.  [ImageCleanupFacts]: what a cleanup may delete.  [ImageResume]: an
    interrupted cleanup can be finished.  [ImageScenario]: concrete runs, an upload cut
    off between link and unlink, and the pages of the sweep.

    Engines.  [Engines]: engines.py, [EngineManager] with its dictionary of engine
    objects (a heap of references, since a background thread keeps the object it was
    started with), the journal file of store.py, the process table of the host and the
    threads that wait for readiness, drain and stop; [System] interleaves them with the
    requests and the monitor.  [EngineFacts]: what one step may do to an engine object,
    and when a start is admitted.  [EngineSafety]: the live processes fit in the budget
    under every interleaving in which no live engine is replaced and no start deadline
    strikes a running process.  [EngineLife]: an engine is ready only after
    its own generation probe, and its state moves forward.  [CommandLines]: slugs,
    numbers and command lines can be read back.  [EngineAdoption]: a restarted agent
    adopts exactly the journalled servers that are still alive, healthy and its own,
    and finds again a server that it forgot.  [EngineReconcile]: after a restart every
    managed process is adopted, reported or gone.  [EngineScenario]: concrete runs, and that
    a start that timed out gives its memory back while its process lives on.

    ** Conventions

    A Python exception is the error side of [result]; a call that mutates an object
    is a state transformer [M] of [Effects].  Integers are unbounded, as Python's;
    times are integers (microseconds, as datetime has them).  A database table or a
    directory is a list or a map of its rows, and a transaction one step.  Code the
    repository does not contain is an argument: the signature scheme ([Crypto] with
    its law), SHA-256, canonical JSON encodings, process tables, clocks, and the
    outcomes of durable writes.

    Fuel.  The rejection loop of [Sampling.below] has no bound in the code either;
    [SamplingFacts.accepting] says that among [fuel] consecutive hashes one is below the
    limit, and every theorem about orders shows that they then exist.  The PNG reader's
    loops have fuel for one block more than the payload and one chunk more than the
    code's own maximum; [RecipePngFacts.png_failures_documented] shows that it never runs
    out.  [ImageScenario.sweep_covers] needs one page more than there are jobs.

    ** Not modelled

    Telemetry and logging; HTTP routes, clients and the web console; the DBOS
    workflows around placement, images, training and evaluation beyond the transactions
    on instances and reservations, whose steps are calls to services; the image worker
    process and the API side of image jobs except for the instances of their workers; upgrade recovery and the upgrade executor,
    which drive Docker, launchd and PostgreSQL; the Metal training loop and what a model
    server computes; the stderr files and CPU samples of engines; parsing of documents
    and repositories. *)
From stdpp Require Export prelude gmap strings list.
From Stdlib Require Export ZArith Lia Sorting.Sorted.

Open Scope Z_scope.

(** ** Results: a Python call either returns or raises *)

Inductive result (E A : Type) : Type :=
| Ok (a : A)
| Err (e : E).
Arguments Ok {E A} a.
Arguments Err {E A} e.

#[global] Instance result_ret E : MRet (result E) := λ A a, Ok a.
#[global] Instance result_bind E : MBind (result E) := λ A B f m,
  match m with Ok a => f a | Err e => Err e end.
#[global] Instance result_fmap E : FMap (result E) := λ A B f m,
  match m with Ok a => Ok (f a) | Err e => Err e end.

#[global] Instance result_eq_dec {E A} `{EqDecision E, EqDecision A} : EqDecision (result E A).
Proof. solve_decision. Defined.

(** [raise_if c e] is the Python statement [if c: raise e]. *)
Definition raise_if {E} (c : bool) (e : E) : result E unit :=
  if c then Err e else Ok tt.

Definition is_ok {E A} (m : result E A) : bool :=
  match m with Ok _ => true | Err _ => false end.

Lemma bind_Ok {E A B} (m : result E A) (f : A → result E B) b :
  m ≫= f = Ok b ↔ ∃ a, m = Ok a ∧ f a = Ok b.
Proof.
  destruct m as [a|e]; simpl; split.
  - by exists a.
  - by intros (? & [= ->] & ?).
  - done.
  - by intros (? & ? & ?).
Qed.

Lemma raise_if_bind_Ok {E B} c e (k : result E B) b :
  (raise_if c e ;; k) = Ok b ↔ c = false ∧ k = Ok b.
Proof. destruct c; simpl; split; [done|by intros []|done|by intros []]. Qed.

Lemma raise_if_false {E B} c e (k : result E B) :
  c = false → (raise_if c e ;; k) = k.
Proof. by intros ->. Qed.

Lemma raise_if_true {E B} c e (k : result E B) :
  c = true → (raise_if c e ;; k) = Err e.
Proof. by intros ->. Qed.

(** ** Tactics *)

(** Split one boolean test or match of a hypothesis or of the goal. *)
Ltac case_test :=
  match goal with
  | H : context [if ?b then _ else _] |- _ =>
      lazymatch b with context [if _ then _ else _] => fail | _ => destruct b eqn:? end
  | |- context [if ?b then _ else _] =>
      lazymatch b with context [if _ then _ else _] => fail | _ => destruct b eqn:? end
  end.

(** Read a successful run backwards: every [raise_if] gives its guard. *)
Ltac inv_ok :=
  repeat match goal with
  | H : Ok _ = Ok _ |- _ => injection H as H; subst
  | H : Err _ = Ok _ |- _ => discriminate H
  | H : Ok _ = Err _ |- _ => discriminate H
  | H : mret _ = Ok _ |- _ => unfold mret, result_ret in H
  | H : (raise_if _ _ ;; _) = Ok _ |- _ =>
      apply raise_if_bind_Ok in H as [? H]
  | H : _ ≫= _ = Ok _ |- _ => apply bind_Ok in H as (? & ? & H)
  end.

(** Turn boolean connectives into propositions. *)
Ltac bool_prop :=
  repeat match goal with
  | H : _ && _ = true |- _ => apply andb_true_iff in H as [? ?]
  | H : _ || _ = false |- _ => apply orb_false_iff in H as [? ?]
  | H : negb _ = true |- _ => apply negb_true_iff in H
  | H : negb _ = false |- _ => apply negb_false_iff in H
  | H : bool_decide _ = true |- _ => apply bool_decide_eq_true in H
  | H : bool_decide _ = false |- _ => apply bool_decide_eq_false in H
  end.

(** ** Tests, as Python's [==], [in] and [is None] *)

Definition is_in {A} `{EqDecision A} (x : A) (l : list A) : bool := bool_decide (x ∈ l).
Definition same {A} `{EqDecision A} (x y : A) : bool := bool_decide (x = y).

Definition present {A} (o : option A) : bool := match o with Some _ => true | None => false end.
Definition absent {A} (o : option A) : bool := negb (present o).
Definition nonempty {A} (l : list A) : bool := match l with [] => false | _ => true end.

Lemma same_true {A} `{EqDecision A} (x y : A) : same x y = true ↔ x = y.
Proof. unfold same. apply bool_decide_eq_true. Qed.
Lemma same_false {A} `{EqDecision A} (x y : A) : same x y = false ↔ x ≠ y.
Proof. unfold same. apply bool_decide_eq_false. Qed.
Lemma same_refl {A} `{EqDecision A} (x : A) : same x x = true.
Proof. by apply same_true. Qed.
Lemma is_in_true {A} `{EqDecision A} (x : A) l : is_in x l = true ↔ x ∈ l.
Proof. unfold is_in. apply bool_decide_eq_true. Qed.

(** Turn the guards of a successful run into propositions. *)
Ltac guards :=
  repeat match goal with
  | H : _ && _ = true |- _ => apply andb_true_iff in H as [? ?]
  | H : _ || _ = false |- _ => apply orb_false_iff in H as [? ?]
  | H : negb _ = true |- _ => apply negb_true_iff in H
  | H : negb _ = false |- _ => apply negb_false_iff in H
  | H : same _ _ = true |- _ => apply (proj1 (same_true _ _)) in H
  | H : same _ _ = false |- _ => apply (proj1 (same_false _ _)) in H
  | H : (_ =? _) = true |- _ => apply Z.eqb_eq in H
  | H : String.eqb _ _ = true |- _ => apply String.eqb_eq in H
  | H : is_in _ _ = true |- _ => apply (proj1 (is_in_true _ _)) in H
  end.

(** ** Stable sort by an integer key: Python's [sorted(xs, key=...)] *)

Section sort_on.
Context {A : Type} (key : A → Z).

Fixpoint insert_on (x : A) (l : list A) : list A :=
  match l with
  | [] => [x]
  | y :: l' => if key x <=? key y then x :: y :: l' else y :: insert_on x l'
  end.

Definition sorted_on (l : list A) : list A := foldr insert_on [] l.

Lemma insert_on_perm x l : insert_on x l ≡ₚ x :: l.
Proof.
  induction l as [|y l IH]; simpl; [done|].
  case_match; [done|]. rewrite IH. apply Permutation_swap.
Qed.

Lemma sorted_on_perm l : sorted_on l ≡ₚ l.
Proof. induction l as [|x l IH]; simpl; [done|]. by rewrite insert_on_perm, IH. Qed.

Lemma insert_on_sorted x l :
  Sorted (λ a b, key a ≤ key b) l → Sorted (λ a b, key a ≤ key b) (insert_on x l).
Proof.
  induction l as [|y l IH]; simpl; intros Hs; [by repeat constructor|].
  destruct (Z.leb_spec (key x) (key y)); [constructor; [done|by constructor]|].
  apply Sorted_inv in Hs as [Hs Hd]. constructor; [by apply IH|].
  destruct l as [|z l]; simpl; [constructor; lia|].
  case_match; constructor; [lia|by inversion Hd].
Qed.

Lemma sorted_on_sorted l : Sorted (λ a b, key a ≤ key b) (sorted_on l).
Proof. induction l; simpl; [constructor|by apply insert_on_sorted]. Qed.

Lemma sorted_on_strongly_sorted l : StronglySorted (λ a b, key a ≤ key b) (sorted_on l).
Proof. apply Sorted_StronglySorted; [intros ???; lia|apply sorted_on_sorted]. Qed.

Lemma elem_of_sorted_on x l : x ∈ sorted_on l ↔ x ∈ l.
Proof. by rewrite sorted_on_perm. Qed.
Lemma sorted_on_id l :
  Sorted (λ a b, key a ≤ key b) l → sorted_on l = l.
Proof.
  induction l as [|x l IH]; [done|]. intros [Hs Hd]%Sorted_inv. simpl. rewrite IH by done.
  destruct Hd as [|y l' Hxy]; [done|]. simpl. by rewrite (proj2 (Z.leb_le _ _) Hxy).
Qed.
End sort_on.

(** ** Sums *)

Fixpoint sum_Z (l : list Z) : Z :=
  match l with [] => 0 | x :: l' => x + sum_Z l' end.

Lemma sum_Z_app l1 l2 : sum_Z (l1 ++ l2) = sum_Z l1 + sum_Z l2.
Proof. induction l1; simpl; lia. Qed.

Lemma sum_Z_nonneg l : (∀ x, x ∈ l → 0 ≤ x) → 0 ≤ sum_Z l.
Proof.
  induction l as [|x l IH]; simpl; intros H; [done|].
  assert (0 ≤ x) by (apply H; set_solver).
  assert (0 ≤ sum_Z l) by (apply IH; set_solver). lia.
Qed.

#[global] Instance sum_Z_proper : Proper ((≡ₚ) ==> (=)) sum_Z.
Proof. induction 1; simpl; lia. Qed.

(** ** Lists without duplicates *)

Lemma size_list_to_set_le `{Countable A} (l : list A) :
  (size (list_to_set l : gset A) ≤ length l)%nat.
Proof.
  induction l as [|x l IH]; [done|]; simpl.
  destruct (decide (x ∈ (list_to_set l : gset A))) as [Hx|Hx].
  - replace ({[x]} ∪ list_to_set l : gset A) with (list_to_set l : gset A) by set_solver. lia.
  - rewrite size_union by set_solver. rewrite size_singleton. lia.
Qed.

Lemma size_list_to_set_NoDup `{Countable A} (l : list A) :
  size (list_to_set l : gset A) = length l → NoDup l.
Proof.
  induction l as [|x l IH]; simpl; intros Hs; [constructor|].
  pose proof (size_list_to_set_le l).
  destruct (decide (x ∈ (list_to_set l : gset A))) as [Hx|Hx].
  - replace ({[x]} ∪ list_to_set l : gset A) with (list_to_set l : gset A) in Hs by set_solver.
    lia.
  - rewrite size_union in Hs by set_solver. rewrite size_singleton in Hs.
    constructor; [by rewrite <- (elem_of_list_to_set (C := gset A))|]. apply IH. lia.
Qed.

(** A list whose image under [f] has no duplicates determines its elements by [f]. *)
Lemma NoDup_fmap_inj {A B} (f : A → B) (l : list A) x y :
  NoDup (f <$> l) → x ∈ l → y ∈ l → f x = f y → x = y.
Proof.
  induction l as [|z l IH]; simpl; intros Hnd Hx Hy Hf; [by apply not_elem_of_nil in Hx|].
  apply NoDup_cons in Hnd as [Hz Hnd].
  apply elem_of_cons in Hx as [->|Hx], Hy as [->|Hy]; auto.
  - destruct Hz. rewrite Hf. by apply list_elem_of_fmap_2.
  - destruct Hz. rewrite <- Hf. by apply list_elem_of_fmap_2.
Qed.

(** [List.find] on a decidable test. *)
Lemma find_Some_elem {A} (f : A → bool) l x : List.find f l = Some x → x ∈ l ∧ f x = true.
Proof. intros H%List.find_some. by rewrite list_elem_of_In. Qed.

Lemma find_is_Some {A} (f : A → bool) l x :
  x ∈ l → f x = true → ∃ y, List.find f l = Some y.
Proof.
  induction l as [|y l IH]; simpl; intros Hx Hf; [by apply not_elem_of_nil in Hx|].
  destruct (f y) eqn:E; [by eexists|].
  apply elem_of_cons in Hx as [->|Hx]; [congruence|auto].
Qed.

(** Filters and maps that agree on the list's elements. *)
Lemma filter_ext_in {A} (P Q : A → Prop) `{∀ x, Decision (P x), ∀ x, Decision (Q x)} (l : list A) :
  (∀ x, x ∈ l → P x ↔ Q x) → filter P l = filter Q l.
Proof.
  induction l as [|x l IH]; intros Heq; [done|].
  rewrite !filter_cons. rewrite IH by (intros; apply Heq; set_solver).
  pose proof (Heq x ltac:(set_solver)). repeat case_decide; tauto || done.
Qed.

Lemma filter_all {A} (P : A → Prop) `{∀ x, Decision (P x)} (l : list A) :
  Forall P l → filter P l = l.
Proof.
  induction 1 as [|x l Hx Hl IH]; [done|]. rewrite filter_cons_True by done. by rewrite IH.
Qed.

Lemma filter_none {A} (P : A → Prop) `{∀ x, Decision (P x)} (l : list A) :
  (∀ x, x ∈ l → ¬ P x) → filter P l = [].
Proof.
  induction l as [|x l IH]; intros Hn; [done|]. rewrite filter_cons_False by (apply Hn; set_solver).
  apply IH. intros. apply Hn. set_solver.
Qed.

Lemma fmap_ext_in {A B} (f g : A → B) (l : list A) : (∀ x, x ∈ l → f x = g x) → f <$> l = g <$> l.
Proof. intros Heq. apply list_fmap_ext. intros i x Hx. apply Heq. by eapply list_elem_of_lookup_2. Qed.

(** [max] of a list with a default: Python's [max([d, *xs])]. *)
Lemma foldr_max_le d l b : foldr Z.max d l ≤ b ↔ d ≤ b ∧ ∀ x, x ∈ l → x ≤ b.
Proof.
  induction l as [|y l IH]; simpl; [set_solver|].
  rewrite Z.max_lub_iff, IH. split.
  - intros (? & ? & ?). split; [done|]. intros x [->|?]%elem_of_cons; auto.
  - intros [? Hl]. split_and!; [apply Hl; set_solver|done|]. intros. apply Hl. set_solver.
Qed.
