(* ===== verification/FailoverModels.v ===== *)
(** * Contracts of the failover tier

    The records of [packages/coire-core/src/coire_core/models/failover.py]
    with their pydantic validators as boolean functions.  Datetimes are
    integers (microseconds since the epoch), which is Python's resolution.
    The signature scheme of [failover_crypto.py] wraps the third-party
    [cryptography] package and is an interface here: [Crypto] has its
    operations and [CryptoLaws] the one documented law the code relies on. *)
From S2P Require Import Prelude.
Open Scope Z_scope.

(** ** Signed material *)

(** The JSON value that [_canonical_json] encodes; keys are listed in the
    order [sort_keys=True] gives.  A datetime is a JSON string of its own. *)
#[warnings="-register-all"]
Inductive json :=
| JNum (n : Z)
| JStr (s : string)
| JTime (t : Z)
| JNull
| JArr (l : list json)
| JObj (fields : list (string * json)).

Class Crypto := {
  sign_ed25519 : json → string → string;
  verify_ed25519 : json → string → string → bool;
  public_key_b64 : string → string;
  sha256_hex : json → string;
}.

Class CryptoLaws `{Crypto} := {
  verify_sign : ∀ m k, verify_ed25519 m (sign_ed25519 m k) (public_key_b64 k) = true;
}.

(** ** Membership *)

Definition FAILOVER_MEMBER_NAMES : list string :=
  ["coire-core"; "coire-edge-a"; "coire-edge-b"].

Definition known_member (n : string) : bool := bool_decide (n ∈ FAILOVER_MEMBER_NAMES).

Record FailoverMember := mkMember {
  fm_name : string;
  fm_priority : Z;
  fm_public_key : string;
}.

(** The field constraints of [FailoverMember]. *)
Definition FailoverMember_valid (m : FailoverMember) : bool :=
  known_member (fm_name m) && (0 <=? fm_priority m) && (fm_priority m <=? 2)
  && negb (bool_decide (fm_public_key m = "")).

Record FailoverMembershipConfig := mkMembership {
  mc_epoch : Z;
  mc_members : list FailoverMember;
  mc_signing_key_id : string;
}.

(** [fixed_three_member_cluster]: the validator raises unless both hold. *)
Definition fixed_three_member_cluster (c : FailoverMembershipConfig) : bool :=
  bool_decide ((list_to_set (fm_name <$> mc_members c) : gset string)
               = list_to_set FAILOVER_MEMBER_NAMES)
  && bool_decide (size (list_to_set (fm_priority <$> mc_members c) : gset Z)
                  = length (mc_members c)).

Definition FailoverMembershipConfig_valid (c : FailoverMembershipConfig) : bool :=
  (1 <=? mc_epoch c) && bool_decide (length (mc_members c) = 3%nat)
  && negb (bool_decide (mc_signing_key_id c = ""))
  && forallb FailoverMember_valid (mc_members c)
  && fixed_three_member_cluster c.

(** [next(member for member in members if member.name == name)]. *)
Definition member_named (c : FailoverMembershipConfig) (n : string) : option FailoverMember :=
  List.find (λ m, bool_decide (fm_name m = n)) (mc_members c).

(** ** Heartbeats, votes and proofs *)

Record FailoverHeartbeat := mkHeartbeat {
  hb_member : string;
  hb_sent_at : Z;
  hb_signature : string;
}.

Definition FailoverHeartbeat_canonical (h : FailoverHeartbeat) : json :=
  JObj [("member", JStr (hb_member h)); ("sent_at", JTime (hb_sent_at h))].

Record ElectionVoteRequest := mkVoteRequest {
  vr_epoch : Z;
  vr_term : Z;
  vr_candidate : string;
  vr_signature : string;
}.

Definition ElectionVoteRequest_canonical (r : ElectionVoteRequest) : json :=
  JObj [("candidate", JStr (vr_candidate r)); ("epoch", JNum (vr_epoch r));
        ("term", JNum (vr_term r))].

Record ElectionVoteGrant := mkGrant {
  vg_epoch : Z;
  vg_term : Z;
  vg_candidate : string;
  vg_voter : string;
  vg_expires_at : Z;
  vg_signature : string;
}.

#[global] Instance grant_eq_dec : EqDecision ElectionVoteGrant.
Proof. solve_decision. Defined.

Definition ElectionVoteGrant_valid (g : ElectionVoteGrant) : bool :=
  (1 <=? vg_epoch g) && (1 <=? vg_term g)
  && known_member (vg_candidate g) && known_member (vg_voter g).

Definition grant_is_current (now : Z) (g : ElectionVoteGrant) : bool := now <? vg_expires_at g.

Definition ElectionVoteGrant_canonical (g : ElectionVoteGrant) : json :=
  JObj [("candidate", JStr (vg_candidate g)); ("epoch", JNum (vg_epoch g));
        ("expires_at", JTime (vg_expires_at g)); ("term", JNum (vg_term g));
        ("voter", JStr (vg_voter g))].

(** [model_copy(update={"signature": ...})] *)
Definition grant_with_signature (g : ElectionVoteGrant) (s : string) : ElectionVoteGrant :=
  mkGrant (vg_epoch g) (vg_term g) (vg_candidate g) (vg_voter g) (vg_expires_at g) s.

Record PromotionProof := mkProof {
  pp_epoch : Z;
  pp_term : Z;
  pp_candidate : string;
  pp_grants : list ElectionVoteGrant;
}.

#[global] Instance proof_eq_dec : EqDecision PromotionProof.
Proof. solve_decision. Defined.

(** The field bounds and [coherent_distinct_current_grants]. *)
Definition PromotionProof_valid (p : PromotionProof) : bool :=
  (1 <=? pp_epoch p) && (1 <=? pp_term p)
  && bool_decide (length (pp_grants p) = 2%nat)
  && known_member (pp_candidate p)
  && bool_decide (size (list_to_set (vg_voter <$> pp_grants p) : gset string) = 2%nat)
  && forallb (λ g, (vg_epoch g =? pp_epoch p) && (vg_term g =? pp_term p)
                   && bool_decide (vg_candidate g = pp_candidate p)) (pp_grants p).

Definition proof_is_current (now : Z) (p : PromotionProof) : bool :=
  forallb (grant_is_current now) (pp_grants p).

Definition grant_json (g : ElectionVoteGrant) : json :=
  JObj [("candidate", JStr (vg_candidate g)); ("epoch", JNum (vg_epoch g));
        ("expires_at", JTime (vg_expires_at g)); ("signature", JStr (vg_signature g));
        ("term", JNum (vg_term g)); ("voter", JStr (vg_voter g))].

Definition PromotionProof_canonical (p : PromotionProof) : json :=
  JObj [("candidate", JStr (pp_candidate p)); ("epoch", JNum (pp_epoch p));
        ("grants", JArr (grant_json <$> pp_grants p)); ("term", JNum (pp_term p))].

Section signed.
Context `{Crypto}.

(** A grant carries the signature of its voter. *)
Definition grant_signed_by (key : string) (g : ElectionVoteGrant) : bool :=
  verify_ed25519 (ElectionVoteGrant_canonical g) (vg_signature g) key.

(** [PromotionProof.is_valid_for] *)
Definition proof_is_valid_for (c : FailoverMembershipConfig) (now : Z)
    (p : PromotionProof) : bool :=
  (mc_epoch c =? pp_epoch p) && proof_is_current now p
  && forallb (λ g, match member_named c (vg_voter g) with
                   | Some m => grant_signed_by (fm_public_key m) g
                   | None => false
                   end) (pp_grants p).
End signed.

(** ** Events, overrides, hand-back and leases *)

Inductive FailoverEventKind :=
| PROMOTED | EV_DRAINING | FENCED | HANDBACK | BREAK_GLASS
| OVERRIDE_INHIBIT | OVERRIDE_BREAK_GLASS.

(** [event_id] is a fresh random UUID in the source and is left out. *)
Record FailoverEvent := mkEvent {
  ev_term : Z;
  ev_kind : FailoverEventKind;
  ev_host : string;
  ev_occurred_at : Z;
  ev_proof_digest : string;
}.

Inductive FailoverOverrideKind := INHIBIT | BREAK_GLASS_PROMOTE.

#[global] Instance override_kind_eq_dec : EqDecision FailoverOverrideKind.
Proof. solve_decision. Defined.

Record FailoverOverride := mkOverride {
  fo_kind : FailoverOverrideKind;
  fo_actor_id : string;
  fo_reason : string;
  fo_expires_at : Z;
  fo_signature : string;
}.

#[global] Instance override_eq_dec : EqDecision FailoverOverride.
Proof. solve_decision. Defined.

Definition override_is_current (now : Z) (o : FailoverOverride) : bool := now <? fo_expires_at o.

Definition override_kind_json (k : FailoverOverrideKind) : json :=
  JStr match k with INHIBIT => "inhibit" | BREAK_GLASS_PROMOTE => "break_glass_promote" end.

Definition FailoverOverride_canonical (o : FailoverOverride) : json :=
  JObj [("actor_id", JStr (fo_actor_id o)); ("expires_at", JTime (fo_expires_at o));
        ("kind", override_kind_json (fo_kind o)); ("reason", JStr (fo_reason o))].

Record HandbackNotice := mkHandback {
  hn_epoch : Z;
  hn_term : Z;
  hn_holder : string;
  hn_successor : string;
  hn_expires_at : Z;
  hn_signature : string;
}.

Definition handback_is_current (now : Z) (n : HandbackNotice) : bool := now <? hn_expires_at n.

Definition HandbackNotice_canonical (n : HandbackNotice) : json :=
  JObj [("epoch", JNum (hn_epoch n)); ("expires_at", JTime (hn_expires_at n));
        ("holder", JStr (hn_holder n)); ("successor", JStr (hn_successor n));
        ("term", JNum (hn_term n))].

Record FailoverLease := mkLease {
  fl_holder : string;
  fl_proof : option PromotionProof;
  fl_break_glass : option FailoverOverride;
}.

(** [has_one_authority] *)
Definition FailoverLease_valid (l : FailoverLease) : bool :=
  known_member (fl_holder l)
  && negb (bool_decide (fl_proof l = None) && bool_decide (fl_break_glass l = None))
  && match fl_proof l with
     | Some p => bool_decide (pp_candidate p = fl_holder l)
     | None => true
     end.

(** ** Facts about a valid membership *)


Section membership_facts.
Context (c : FailoverMembershipConfig) (Hc : FailoverMembershipConfig_valid c = true).

Lemma membership_parts :
  1 ≤ mc_epoch c ∧ length (mc_members c) = 3%nat
  ∧ forallb FailoverMember_valid (mc_members c) = true
  ∧ (list_to_set (fm_name <$> mc_members c) : gset string) = list_to_set FAILOVER_MEMBER_NAMES
  ∧ NoDup (fm_priority <$> mc_members c).
Proof.
  pose proof Hc as H. unfold FailoverMembershipConfig_valid, fixed_three_member_cluster in H.
  bool_prop. split_and!; [lia|done|done|done|].
  apply size_list_to_set_NoDup. by rewrite length_fmap.
Qed.

Lemma membership_names_NoDup : NoDup (fm_name <$> mc_members c).
Proof.
  destruct membership_parts as (_ & Hlen & _ & Hset & _).
  apply size_list_to_set_NoDup. rewrite Hset, length_fmap, Hlen. reflexivity.
Qed.

Lemma member_named_known n :
  n ∈ FAILOVER_MEMBER_NAMES →
  ∃ m, member_named c n = Some m ∧ m ∈ mc_members c ∧ fm_name m = n.
Proof.
  destruct membership_parts as (_ & _ & _ & Hset & _). intros Hn.
  assert (n ∈ fm_name <$> mc_members c) as (m & -> & Hm)%list_elem_of_fmap.
  { rewrite <- (elem_of_list_to_set (C := gset string)), Hset. set_solver. }
  destruct (find_is_Some (λ m', bool_decide (fm_name m' = fm_name m)) (mc_members c) m)
    as [y Hy]; [done|by rewrite bool_decide_eq_true|].
  exists y. apply find_Some_elem in Hy as Hy'. destruct Hy'; bool_prop. by split_and!.
Qed.

Lemma member_named_elem n m : member_named c n = Some m → m ∈ mc_members c ∧ fm_name m = n.
Proof. intros H%find_Some_elem. destruct H; bool_prop. done. Qed.

Lemma member_known m : m ∈ mc_members c → fm_name m ∈ FAILOVER_MEMBER_NAMES.
Proof.
  destruct membership_parts as (_ & _ & _ & Hset & _). intros Hm.
  rewrite <- (elem_of_list_to_set (C := gset string)), <- Hset, elem_of_list_to_set.
  by apply list_elem_of_fmap_2.
Qed.

Lemma member_unique m1 m2 :
  m1 ∈ mc_members c → m2 ∈ mc_members c → fm_name m1 = fm_name m2 → m1 = m2.
Proof. intros. eapply NoDup_fmap_inj; eauto using membership_names_NoDup. Qed.

Lemma member_priority_unique m1 m2 :
  m1 ∈ mc_members c → m2 ∈ mc_members c → fm_priority m1 = fm_priority m2 → m1 = m2.
Proof.
  destruct membership_parts as (_ & _ & _ & _ & Hp). intros.
  eapply (NoDup_fmap_inj fm_priority); eauto.
Qed.

Lemma member_named_eq m : m ∈ mc_members c → member_named c (fm_name m) = Some m.
Proof.
  intros Hm. destruct (member_named_known (fm_name m)) as (m' & Hm' & Hin & Hn);
    [by apply member_known|].
  by rewrite Hm', (member_unique m' m).
Qed.
End membership_facts.
