(* ===== verification/Election.v ===== *)
(** * The election participant

    [ElectionParticipant] of
    [packages/coire-core/src/coire_core/failover_election.py] and the two
    methods that [StudioParticipant] of
    [apps/coire-node/src/coire_node/failover/participant.py] overrides.
    The constructor arguments are the record [Config], the mutable attributes
    the record [Participant]; each method is a function from a state to a
    state.  Telemetry (spans, gauges, counters) is left out; the journal sink
    and the role listener are kept as the lists of what they were given. *)
From S2P Require Import Prelude FailoverModels.
Open Scope Z_scope.

Inductive MemberHealth := HEALTHY | DEGRADED | UNREACHABLE.
Inductive ServiceRole := STANDBY | CANDIDATE | ELECTED | DRAINING.

#[global] Instance MemberHealth_eq_dec : EqDecision MemberHealth.
Proof. solve_decision. Defined.
#[global] Instance ServiceRole_eq_dec : EqDecision ServiceRole.
Proof. solve_decision. Defined.

Record MemberObservation := mkObservation {
  mo_name : string;
  mo_health : MemberHealth;
  mo_since : Z;
}.

(** Durations in microseconds. *)
Record ElectionTimings := mkTimings {
  tm_promotion : Z;
  tm_demotion : Z;
  tm_lease : Z;
  tm_drain : Z;
}.

(** [demotion_is_slower] raises when this is false. *)
Definition demotion_is_slower (t : ElectionTimings) : bool := tm_promotion t <? tm_demotion t.

(** [timedelta / 3]: the quotient rounded to the nearest microsecond.  A third
    of an integer is never half-way between two integers, so there is no tie. *)
Definition third (d : Z) : Z := (d + 1) / 3.

Record Config := mkConfig {
  ep_name : string;
  ep_membership : FailoverMembershipConfig;
  ep_timings : ElectionTimings;
  ep_private_key : string;
  ep_has_journal : bool;
  ep_has_listener : bool;
  (** [_restart_fence_until] of a [StudioParticipant]; [None] for the base class. *)
  ep_restart_fence : option Z;
}.

Record Participant := mkParticipant {
  p_role : ServiceRole;
  p_term : Z;
  p_proof : option PromotionProof;
  p_reservation_held : bool;
  p_in_flight : Z;
  p_observations : list MemberObservation;
  p_override : option FailoverOverride;
  p_received : gmap (Z * string) ElectionVoteGrant;
  p_issued : gmap Z ElectionVoteGrant;
  p_closed : bool;
  p_outage : bool;
  p_reclaim_since : option Z;
  p_drain_started : option Z;
  p_now : Z;
  p_published : option (ServiceRole * option PromotionProof);
  p_journal : list FailoverEvent;
  p_notified : list (ServiceRole * option PromotionProof);
}.

(** Attribute assignments, one per mutable attribute. *)
Definition set_p_role (v : ServiceRole) (s : Participant) : Participant :=
  mkParticipant v (p_term s) (p_proof s) (p_reservation_held s) (p_in_flight s) (p_observations s) (p_override s) (p_received s) (p_issued s) (p_closed s) (p_outage s) (p_reclaim_since s) (p_drain_started s) (p_now s) (p_published s) (p_journal s) (p_notified s).
Definition set_p_term (v : Z) (s : Participant) : Participant :=
  mkParticipant (p_role s) v (p_proof s) (p_reservation_held s) (p_in_flight s) (p_observations s) (p_override s) (p_received s) (p_issued s) (p_closed s) (p_outage s) (p_reclaim_since s) (p_drain_started s) (p_now s) (p_published s) (p_journal s) (p_notified s).
Definition set_p_proof (v : option PromotionProof) (s : Participant) : Participant :=
  mkParticipant (p_role s) (p_term s) v (p_reservation_held s) (p_in_flight s) (p_observations s) (p_override s) (p_received s) (p_issued s) (p_closed s) (p_outage s) (p_reclaim_since s) (p_drain_started s) (p_now s) (p_published s) (p_journal s) (p_notified s).
Definition set_p_reservation_held (v : bool) (s : Participant) : Participant :=
  mkParticipant (p_role s) (p_term s) (p_proof s) v (p_in_flight s) (p_observations s) (p_override s) (p_received s) (p_issued s) (p_closed s) (p_outage s) (p_reclaim_since s) (p_drain_started s) (p_now s) (p_published s) (p_journal s) (p_notified s).
Definition set_p_in_flight (v : Z) (s : Participant) : Participant :=
  mkParticipant (p_role s) (p_term s) (p_proof s) (p_reservation_held s) v (p_observations s) (p_override s) (p_received s) (p_issued s) (p_closed s) (p_outage s) (p_reclaim_since s) (p_drain_started s) (p_now s) (p_published s) (p_journal s) (p_notified s).
Definition set_p_observations (v : list MemberObservation) (s : Participant) : Participant :=
  mkParticipant (p_role s) (p_term s) (p_proof s) (p_reservation_held s) (p_in_flight s) v (p_override s) (p_received s) (p_issued s) (p_closed s) (p_outage s) (p_reclaim_since s) (p_drain_started s) (p_now s) (p_published s) (p_journal s) (p_notified s).
Definition set_p_override (v : option FailoverOverride) (s : Participant) : Participant :=
  mkParticipant (p_role s) (p_term s) (p_proof s) (p_reservation_held s) (p_in_flight s) (p_observations s) v (p_received s) (p_issued s) (p_closed s) (p_outage s) (p_reclaim_since s) (p_drain_started s) (p_now s) (p_published s) (p_journal s) (p_notified s).
Definition set_p_received (v : gmap (Z * string) ElectionVoteGrant) (s : Participant) : Participant :=
  mkParticipant (p_role s) (p_term s) (p_proof s) (p_reservation_held s) (p_in_flight s) (p_observations s) (p_override s) v (p_issued s) (p_closed s) (p_outage s) (p_reclaim_since s) (p_drain_started s) (p_now s) (p_published s) (p_journal s) (p_notified s).
Definition set_p_issued (v : gmap Z ElectionVoteGrant) (s : Participant) : Participant :=
  mkParticipant (p_role s) (p_term s) (p_proof s) (p_reservation_held s) (p_in_flight s) (p_observations s) (p_override s) (p_received s) v (p_closed s) (p_outage s) (p_reclaim_since s) (p_drain_started s) (p_now s) (p_published s) (p_journal s) (p_notified s).
Definition set_p_closed (v : bool) (s : Participant) : Participant :=
  mkParticipant (p_role s) (p_term s) (p_proof s) (p_reservation_held s) (p_in_flight s) (p_observations s) (p_override s) (p_received s) (p_issued s) v (p_outage s) (p_reclaim_since s) (p_drain_started s) (p_now s) (p_published s) (p_journal s) (p_notified s).
Definition set_p_outage (v : bool) (s : Participant) : Participant :=
  mkParticipant (p_role s) (p_term s) (p_proof s) (p_reservation_held s) (p_in_flight s) (p_observations s) (p_override s) (p_received s) (p_issued s) (p_closed s) v (p_reclaim_since s) (p_drain_started s) (p_now s) (p_published s) (p_journal s) (p_notified s).
Definition set_p_reclaim_since (v : option Z) (s : Participant) : Participant :=
  mkParticipant (p_role s) (p_term s) (p_proof s) (p_reservation_held s) (p_in_flight s) (p_observations s) (p_override s) (p_received s) (p_issued s) (p_closed s) (p_outage s) v (p_drain_started s) (p_now s) (p_published s) (p_journal s) (p_notified s).
Definition set_p_drain_started (v : option Z) (s : Participant) : Participant :=
  mkParticipant (p_role s) (p_term s) (p_proof s) (p_reservation_held s) (p_in_flight s) (p_observations s) (p_override s) (p_received s) (p_issued s) (p_closed s) (p_outage s) (p_reclaim_since s) v (p_now s) (p_published s) (p_journal s) (p_notified s).
Definition set_p_now (v : Z) (s : Participant) : Participant :=
  mkParticipant (p_role s) (p_term s) (p_proof s) (p_reservation_held s) (p_in_flight s) (p_observations s) (p_override s) (p_received s) (p_issued s) (p_closed s) (p_outage s) (p_reclaim_since s) (p_drain_started s) v (p_published s) (p_journal s) (p_notified s).
Definition set_p_published (v : option (ServiceRole * option PromotionProof)) (s : Participant) : Participant :=
  mkParticipant (p_role s) (p_term s) (p_proof s) (p_reservation_held s) (p_in_flight s) (p_observations s) (p_override s) (p_received s) (p_issued s) (p_closed s) (p_outage s) (p_reclaim_since s) (p_drain_started s) (p_now s) v (p_journal s) (p_notified s).
Definition set_p_journal (v : list FailoverEvent) (s : Participant) : Participant :=
  mkParticipant (p_role s) (p_term s) (p_proof s) (p_reservation_held s) (p_in_flight s) (p_observations s) (p_override s) (p_received s) (p_issued s) (p_closed s) (p_outage s) (p_reclaim_since s) (p_drain_started s) (p_now s) (p_published s) v (p_notified s).
Definition set_p_notified (v : list (ServiceRole * option PromotionProof)) (s : Participant) : Participant :=
  mkParticipant (p_role s) (p_term s) (p_proof s) (p_reservation_held s) (p_in_flight s) (p_observations s) (p_override s) (p_received s) (p_issued s) (p_closed s) (p_outage s) (p_reclaim_since s) (p_drain_started s) (p_now s) (p_published s) (p_journal s) v.

(** [ElectionParticipant.__init__] after its checks; [now] is its clock read. *)
Definition initial_participant (standing_reservation : bool) (now : Z) : Participant :=
  mkParticipant STANDBY 1 None standing_reservation 0 [] None ∅ ∅ false false None None now
                None [] [].

(** The constructor raises unless both checks of [__init__] pass. *)
Definition init_ok (c : Config) : bool :=
  known_member (ep_name c) && demotion_is_slower (ep_timings c).

Definition is_leader_role (r : ServiceRole) : bool :=
  match r with ELECTED | DRAINING => true | _ => false end.

(** ** Views of the observations *)

Definition observed (s : Participant) (n : string) : option MemberObservation :=
  List.find (λ o, bool_decide (mo_name o = n)) (p_observations s).

Inductive HigherStatus := Wait | Down | Leader.

Definition higher_status (c : Config) (s : Participant) (n : string) (now : Z) : HigherStatus :=
  match observed s n with
  | None => Wait
  | Some o =>
      match mo_health o with
      | UNREACHABLE => if tm_promotion (ep_timings c) <=? now - mo_since o then Down else Wait
      | _ => Leader
      end
  end.

(** [_visible]: this member and every other one not observed unreachable. *)
Definition sees (s : Participant) (n : string) : bool :=
  match observed s n with
  | Some o => negb (bool_decide (mo_health o = UNREACHABLE))
  | None => false
  end.

Definition visible (c : Config) (s : Participant) : gset string :=
  {[ep_name c]} ∪
  list_to_set (filter (λ n, n ≠ ep_name c ∧ sees s n = true)
                      (fm_name <$> mc_members (ep_membership c))).

(** [_priority]; [None] stands for the [StopIteration] of an unknown name. *)
Definition priority_of (c : Config) (n : string) : option Z :=
  fm_priority <$> member_named (ep_membership c) n.

Definition public_key_of (c : Config) (n : string) : option string :=
  fm_public_key <$> member_named (ep_membership c) n.

Definition lower_visible (c : Config) (s : Participant) : bool :=
  match priority_of c (ep_name c) with
  | Some mine =>
      existsb (λ m, (mine <? fm_priority m) && bool_decide (fm_name m ∈ visible c s))
              (mc_members (ep_membership c))
  | None => false
  end.

Definition higher_recovered (c : Config) (s : Participant) (now : Z) : bool :=
  match priority_of c (ep_name c) with
  | Some mine =>
      existsb (λ m, (fm_priority m <? mine) &&
                    match observed s (fm_name m) with
                    | Some o => bool_decide (mo_health o = HEALTHY)
                                && (tm_demotion (ep_timings c) <=? now - mo_since o)
                    | None => false
                    end)
              (mc_members (ep_membership c))
  | None => false
  end.

Definition inhibit_applies (c : Config) (s : Participant) (now : Z) : bool :=
  negb (bool_decide (ep_name c = "coire-core")) &&
  match p_override s with
  | Some o => bool_decide (fo_kind o = INHIBIT) && override_is_current now o
  | None => false
  end.

Definition break_glass_ok (s : Participant) (now : Z) : bool :=
  match p_override s with
  | Some o => bool_decide (fo_kind o = BREAK_GLASS_PROMOTE) && override_is_current now o
  | None => false
  end.

(** [eligible_leader]: scan the members by priority. *)
Fixpoint scan_leader (c : Config) (s : Participant) (now : Z) (ms : list FailoverMember)
    : option string :=
  match ms with
  | [] => None
  | m :: ms' =>
      if bool_decide (fm_name m = ep_name c)
      then if inhibit_applies c s now then None else Some (ep_name c)
      else match higher_status c s (fm_name m) now with
           | Down => scan_leader c s now ms'
           | Wait => None
           | Leader => Some (fm_name m)
           end
  end.

Definition eligible_leader (c : Config) (s : Participant) (now : Z) : option string :=
  scan_leader c s now (sorted_on fm_priority (mc_members (ep_membership c))).

(** The least string, as [sorted(...)[0]]. *)
Fixpoint min_string (l : list string) : option string :=
  match l with
  | [] => None
  | x :: l' => match min_string l' with
               | None => Some x
               | Some y => Some (if String.leb x y then x else y)
               end
  end.

Section participant.
Context `{Crypto} (c : Config).

Definition proof_digest (p : option PromotionProof) : string :=
  sha256_hex match p with Some p => PromotionProof_canonical p | None => JStr "fenced" end.

Definition override_is_authentic (o : option FailoverOverride) : bool :=
  match o, public_key_of c "coire-core" with
  | Some o, Some k => verify_ed25519 (FailoverOverride_canonical o) (fo_signature o) k
  | _, _ => false
  end.

(** [_record] *)
Definition record_event (k : FailoverEventKind) (p : option PromotionProof) (s : Participant)
    : Participant :=
  if ep_has_journal c
  then set_p_journal (p_journal s ++ [mkEvent (p_term s) k (ep_name c) (p_now s)
                                              (proof_digest p)]) s
  else s.

(** [_emit] *)
Definition emit (s : Participant) : Participant :=
  let signature := (p_role s, p_proof s) in
  if bool_decide (p_published s = Some signature) then s
  else let s := set_p_published (Some signature) s in
       if ep_has_listener c then set_p_notified (p_notified s ++ [signature]) s else s.

(** [_fence] *)
Definition fence (outage : bool) (s : Participant) : Participant :=
  let previous := p_proof s in
  let was_leader := is_leader_role (p_role s) in
  let s := set_p_closed true (set_p_proof None (set_p_role STANDBY s)) in
  let s := if outage then set_p_outage true s else s in
  if was_leader then record_event FENCED previous s else s.

(** [_begin_drain] *)
Definition begin_drain (now : Z) (s : Participant) : Participant :=
  if bool_decide (p_role s = DRAINING) then s
  else
    let previous := p_proof s in
    let s := set_p_drain_started (Some now) (set_p_proof None (set_p_role DRAINING s)) in
    record_event EV_DRAINING previous s.

(** [_finish_drain_if_idle] *)
Definition finish_drain_if_idle (s : Participant) : Participant :=
  if bool_decide (p_role s = DRAINING) then
    if (0 <? p_in_flight s) &&
       match p_drain_started s with
       | Some d => p_now s - d <? tm_drain (ep_timings c)
       | None => false
       end
    then s
    else record_event HANDBACK None (set_p_closed true (set_p_role STANDBY s))
  else s.

(** [_promote] *)
Definition promote (p : option PromotionProof) (break_glass : bool) (s : Participant)
    : Participant :=
  let first := negb (bool_decide (p_role s = ELECTED)) in
  let s := set_p_reclaim_since None (set_p_outage false (set_p_reservation_held true
             (set_p_role ELECTED (set_p_proof p s)))) in
  if first then record_event (if break_glass then BREAK_GLASS else PROMOTED) p s else s.

Definition sign_grant (g : ElectionVoteGrant) : ElectionVoteGrant :=
  grant_with_signature g (sign_ed25519 (ElectionVoteGrant_canonical g) (ep_private_key c)).

(** A fresh signed grant of this member for [candidate] in the current term. *)
Definition new_grant (epoch term : Z) (candidate : string) (now : Z) : ElectionVoteGrant :=
  sign_grant (mkGrant epoch term candidate (ep_name c)
                      (now + tm_lease (ep_timings c)) "unsigned").

Definition issued_elsewhere (s : Participant) (candidate : string) (now : Z) : bool :=
  existsb (λ '(_, g), negb (bool_decide (vg_candidate g = candidate)) && grant_is_current now g)
          (map_to_list (p_issued s)).

Definition still_long (now : Z) (g : ElectionVoteGrant) : bool :=
  third (tm_lease (ep_timings c)) <? vg_expires_at g - now.

(** [_ensure_self_grant] *)
Definition ensure_self_grant (now : Z) (s : Participant) : Participant :=
  if issued_elsewhere s (ep_name c) now then s
  else
    let fresh := match p_received s !! (p_term s, ep_name c) with
                 | Some g => grant_is_current now g && bool_decide (vg_candidate g = ep_name c)
                             && still_long now g
                 | None => false
                 end in
    if fresh then s
    else set_p_received (<[(p_term s, ep_name c) :=
           new_grant (mc_epoch (ep_membership c)) (p_term s) (ep_name c) now]> (p_received s)) s.

(** The dict comprehension of [_try_proof]. *)
Definition countable_grant (s : Participant) (now : Z) (voter : string)
    (g : ElectionVoteGrant) : bool :=
  bool_decide (vg_candidate g = ep_name c) && grant_is_current now g
  && match public_key_of c voter with Some k => grant_signed_by k g | None => false end.

Definition counted_grants (s : Participant) (now : Z) : list (string * ElectionVoteGrant) :=
  omap (λ '((t, v), g), if (t =? p_term s) && countable_grant s now v g
                        then Some (v, g) else None)
       (map_to_list (p_received s)).

Definition counted (s : Participant) (now : Z) (v : string) : option ElectionVoteGrant :=
  snd <$> List.find (λ '(v', _), bool_decide (v' = v)) (counted_grants s now).

(** [_try_proof] *)
Definition try_proof (s : Participant) (now : Z) : option PromotionProof :=
  mine ← counted s now (ep_name c);
  other ← min_string (filter (λ v, v ≠ ep_name c) (fst <$> counted_grants s now));
  theirs ← counted s now other;
  let p := mkProof (mc_epoch (ep_membership c)) (p_term s) (ep_name c) [mine; theirs] in
  if PromotionProof_valid p && proof_is_valid_for (ep_membership c) now p
  then Some p else None.

(** [_proof_ok] *)
Definition proof_ok (s : Participant) (now : Z) : bool :=
  match p_proof s with
  | Some p => proof_is_current now p && proof_is_valid_for (ep_membership c) now p
  | None => false
  end.

(** [ElectionParticipant._may_campaign]: the answer and the new state. *)
Definition may_campaign_base (now : Z) (leader : option string) (s : Participant)
    : bool * Participant :=
  let quorum := bool_decide (2 ≤ size (visible c s))%nat in
  let break_glass := break_glass_ok s now && bool_decide (leader = Some (ep_name c)) in
  if negb (quorum || break_glass) then (false, s)
  else if p_outage s && lower_visible c s then
    let since := default now (p_reclaim_since s) in
    let s := set_p_reclaim_since (Some since) s in
    if now - since <? tm_demotion (ep_timings c) then (false, s) else (true, s)
  else (true, set_p_reclaim_since None s).

Definition restart_fenced (now : Z) : bool :=
  match ep_restart_fence c with Some until => now <? until | None => false end.

(** [StudioParticipant._may_campaign] *)
Definition may_campaign (now : Z) (leader : option string) (s : Participant)
    : bool * Participant :=
  if restart_fenced now then (false, s) else may_campaign_base now leader s.

(** [_campaign]: first the branch that does not stand. *)
Definition stand_down (leader : option string) (s : Participant) : Participant :=
  let s := if bool_decide (leader = Some (ep_name c)) then s else set_p_reclaim_since None s in
  if bool_decide (p_role s = CANDIDATE) then set_p_proof None (set_p_role STANDBY s) else s.

Definition become_candidate (s : Participant) : Participant :=
  if bool_decide (p_role s = STANDBY) then
    let s := if p_closed s then set_p_received ∅ (set_p_term (p_term s + 1) s) else s in
    set_p_role CANDIDATE (set_p_closed false s)
  else s.

Definition campaign (now : Z) (s : Participant) : Participant :=
  let leader := eligible_leader c s now in
  if negb (bool_decide (leader = Some (ep_name c))) then stand_down leader s
  else
    let (may, s) := may_campaign now leader s in
    if negb may then stand_down leader s
    else
      let s := ensure_self_grant now (become_candidate s) in
      match try_proof s now with
      | Some p => promote (Some p) false s
      | None => if break_glass_ok s now then promote None true s else s
      end.

(** [_hold_or_fence] *)
Definition hold_or_fence (now : Z) (s : Participant) : Participant :=
  let quorum := bool_decide (2 ≤ size (visible c s))%nat in
  if negb quorum && negb (break_glass_ok s now) then fence true s
  else
    let proof_current := proof_ok s now in
    if proof_current &&
       match p_proof s with
       | Some p => forallb (still_long now) (pp_grants p)
       | None => false
       end
    then s
    else if bool_decide (p_proof s = None) && break_glass_ok s now then s
    else
      let s := ensure_self_grant now s in
      match try_proof s now with
      | Some p => set_p_proof (Some p) s
      | None => if proof_current then s else set_p_proof None (set_p_role CANDIDATE s)
      end.

(** [_advance] *)
Definition advance (now : Z) (s : Participant) : Participant :=
  if inhibit_applies c s now then emit (fence false s)
  else if is_leader_role (p_role s) && higher_recovered c s now then
    emit (finish_drain_if_idle (begin_drain now s))
  else if bool_decide (p_role s = DRAINING) then emit (finish_drain_if_idle s)
  else if bool_decide (p_role s = ELECTED) then emit (hold_or_fence now s)
  else emit (campaign now s).

(** [observe]: the role it returns is [p_role] of the new state. *)
Definition observe (observations : list MemberObservation) (now in_flight : Z)
    (override : option FailoverOverride) (s : Participant) : Participant :=
  let s := set_p_observations observations s in
  let s := set_p_override (if override_is_authentic override then override else None) s in
  advance now (set_p_now now (set_p_in_flight in_flight s)).

(** [ElectionParticipant.vote]: the grant, if any, and the new state. *)
Definition vote_base (epoch term : Z) (candidate : string) (now : Z) (s : Participant)
    : option ElectionVoteGrant * Participant :=
  if negb (epoch =? mc_epoch (ep_membership c)) || bool_decide (candidate = ep_name c)
  then (None, s)
  else if negb (known_member candidate)
          || negb (bool_decide (eligible_leader c s now = Some candidate))
  then (None, s)
  else if is_leader_role (p_role s) then (None, s)
  else if issued_elsewhere s candidate now then (None, s)
  else if term <? p_term s then (None, s)
  else
    let s := if p_term s <? term then set_p_term term s else s in
    let existing := p_issued s !! p_term s in
    if match existing with
       | Some g => negb (bool_decide (vg_candidate g = candidate)) && grant_is_current now g
       | None => false
       end then (None, s)
    else if match existing with
            | Some g => grant_is_current now g && still_long now g
            | None => false
            end then (existing, s)
    else
      let signed := new_grant epoch (p_term s) candidate now in
      (Some signed, set_p_issued (<[p_term s := signed]> (p_issued s)) s).

(** [StudioParticipant.vote] *)
Definition vote (epoch term : Z) (candidate : string) (now : Z) (s : Participant)
    : option ElectionVoteGrant * Participant :=
  if restart_fenced now then (None, s) else vote_base epoch term candidate now s.

(** [receive_grant] *)
Definition receive_grant (g : ElectionVoteGrant) (now : Z) (s : Participant)
    : bool * Participant :=
  if negb (bool_decide (vg_candidate g = ep_name c))
     || negb (vg_epoch g =? mc_epoch (ep_membership c))
     || negb (vg_term g =? p_term s) || negb (grant_is_current now g)
  then (false, s)
  else if negb match public_key_of c (vg_voter g) with
               | Some k => grant_signed_by k g
               | None => false
               end
  then (false, s)
  else
    let store := (true, set_p_received (<[(vg_term g, vg_voter g) := g]> (p_received s)) s) in
    match p_received s !! (vg_term g, vg_voter g) with
    | Some existing =>
        if grant_is_current now existing then
          if negb (bool_decide (vg_candidate existing = vg_candidate g))
             || (vg_expires_at g <? vg_expires_at existing)
          then (false, s)
          else if vg_expires_at g =? vg_expires_at existing
          then (bool_decide (vg_signature existing = vg_signature g), s)
          else store
        else store
    | None => store
    end.

(** [accept_handback] *)
Definition accept_handback (n : HandbackNotice) (now : Z) (s : Participant)
    : bool * Participant :=
  if negb (bool_decide (hn_holder n = ep_name c))
     || negb (hn_epoch n =? mc_epoch (ep_membership c))
     || negb (handback_is_current now n)
     || match priority_of c (hn_successor n), priority_of c (ep_name c) with
        | Some theirs, Some mine => mine <=? theirs
        | _, _ => true
        end
  then (false, s)
  else if negb match public_key_of c (hn_successor n) with
               | Some k => verify_ed25519 (HandbackNotice_canonical n) (hn_signature n) k
               | None => false
               end
  then (false, s)
  else if bool_decide (p_role s = STANDBY) then (true, s)
  else if negb (is_leader_role (p_role s)) then (false, s)
  else (true, emit (finish_drain_if_idle (begin_drain now (set_p_now now s)))).

(** [serving(now)] *)
Definition serving (s : Participant) (now : Z) : bool :=
  if negb (bool_decide (p_role s = ELECTED)) then false
  else if break_glass_ok s now && bool_decide (p_proof s = None) then true
  else proof_ok s now.

(** [lease] *)
Definition lease (s : Participant) : option FailoverLease :=
  if negb (bool_decide (p_role s = ELECTED)) then None
  else match p_proof s with
       | Some p => Some (mkLease (ep_name c) (Some p) None)
       | None =>
           match p_override s with
           | Some o => if bool_decide (fo_kind o = BREAK_GLASS_PROMOTE)
                       then Some (mkLease (ep_name c) None (Some o)) else None
           | None => None
           end
       end.

(** [adopt_term] *)
Definition adopt_term (term : Z) (s : Participant) : Participant :=
  if (term <=? p_term s) || is_leader_role (p_role s) then s
  else set_p_received ∅ (set_p_term term s).

(** [issue_heartbeat] *)
Definition issue_heartbeat (now : Z) : FailoverHeartbeat :=
  let unsigned := mkHeartbeat (ep_name c) now "unsigned" in
  mkHeartbeat (ep_name c) now
    (sign_ed25519 (FailoverHeartbeat_canonical unsigned) (ep_private_key c)).

(** [issue_vote_request]: it reads [self._now], not its argument. *)
Definition issue_vote_request (s : Participant) : option ElectionVoteRequest :=
  if bool_decide (p_role s = CANDIDATE) || bool_decide (p_role s = ELECTED) then
    if bool_decide (eligible_leader c s (p_now s) = Some (ep_name c)) then
      let unsigned := mkVoteRequest (mc_epoch (ep_membership c)) (p_term s) (ep_name c)
                                    "unsigned" in
      Some (mkVoteRequest (vr_epoch unsigned) (vr_term unsigned) (vr_candidate unsigned)
             (sign_ed25519 (ElectionVoteRequest_canonical unsigned) (ep_private_key c)))
    else None
  else None.
End participant.
