(* ===== verification/Liveness.v ===== *)
(** * Heartbeat damping

    [PeerLiveness] of [packages/coire-core/src/coire_core/failover_poller.py]:
    a slow beat is degraded, several missed beats are unreachable, recovery
    takes more than one success.  The five dicts are finite maps; latencies
    are integers in the unit of the budget, since the code only compares
    them. *)
From S2P Require Import Prelude FailoverModels Election.
Open Scope Z_scope.

Record LivenessConfig := mkLivenessConfig {
  lc_failure_limit : Z;
  lc_recovery_beats : Z;
  lc_latency_budget : Z;
}.

(** [PeerLiveness.__init__] raises when this is false. *)
Definition LivenessConfig_valid (k : LivenessConfig) : bool :=
  negb ((lc_failure_limit k <? 1) || (lc_recovery_beats k <? 1)).

Record PeerLiveness := mkLiveness {
  pl_failures : gmap string Z;
  pl_recoveries : gmap string Z;
  pl_health : gmap string MemberHealth;
  pl_since : gmap string Z;
  pl_down_since : gmap string Z;
}.

Definition empty_liveness : PeerLiveness := mkLiveness ∅ ∅ ∅ ∅ ∅.

(** [dict.setdefault(key, value)] *)
Definition setdefault {A} (n : string) (v : A) (d : gmap string A) : gmap string A :=
  match d !! n with Some _ => d | None => <[n := v]> d end.

(** The failing branch of [note]. *)
Definition note_failed (k : LivenessConfig) (n : string) (now : Z) (l : PeerLiveness)
    : PeerLiveness :=
  let failures := default 0 (pl_failures l !! n) + 1 in
  let down := setdefault n now (pl_down_since l) in
  let limit := lc_failure_limit k <=? failures in
  mkLiveness (<[n := failures]> (pl_failures l)) (<[n := 0]> (pl_recoveries l))
    (if limit then <[n := UNREACHABLE]> (pl_health l) else pl_health l)
    (if limit then <[n := default now (down !! n)]> (pl_since l) else pl_since l)
    down.

(** The succeeding branch of [note]. *)
Definition note_ok (k : LivenessConfig) (n : string) (latency now : Z) (l : PeerLiveness)
    : PeerLiveness :=
  let failures := <[n := 0]> (pl_failures l) in
  let down := delete n (pl_down_since l) in
  let current := pl_health l !! n in
  if lc_latency_budget k <? latency then
    mkLiveness failures (<[n := 0]> (pl_recoveries l)) (<[n := DEGRADED]> (pl_health l))
      (if bool_decide (current = Some DEGRADED) then pl_since l else <[n := now]> (pl_since l))
      down
  else if bool_decide (current = Some UNREACHABLE) || bool_decide (current = Some DEGRADED) then
    let recoveries := default 0 (pl_recoveries l !! n) + 1 in
    if lc_recovery_beats k <=? recoveries then
      mkLiveness failures (<[n := 0]> (pl_recoveries l)) (<[n := HEALTHY]> (pl_health l))
        (<[n := now]> (pl_since l)) down
    else mkLiveness failures (<[n := recoveries]> (pl_recoveries l)) (pl_health l)
        (pl_since l) down
  else
    mkLiveness failures (pl_recoveries l) (<[n := HEALTHY]> (pl_health l))
      (setdefault n now (pl_since l)) down.

(** [note] *)
Definition note (k : LivenessConfig) (n : string) (ok : bool) (latency now : Z)
    (l : PeerLiveness) : PeerLiveness :=
  if ok then note_ok k n latency now l else note_failed k n now l.

(** [observations]: the view and the state, which gains the own [since].
    [self._since[name]] always has an entry ([observed_since] below), so the
    default is never read. *)
Definition observations (self_name : string) (now : Z) (l : PeerLiveness)
    : list MemberObservation * PeerLiveness :=
  let mine := mkObservation self_name HEALTHY (default now (pl_since l !! self_name)) in
  let since := setdefault self_name now (pl_since l) in
  (mine :: ((λ '(n, h), mkObservation n h (default now (since !! n)))
            <$> map_to_list (pl_health l)),
   mkLiveness (pl_failures l) (pl_recoveries l) (pl_health l) since (pl_down_since l)).

(** ** The invariant of the five dicts *)

Definition LivenessInv (l : PeerLiveness) : Prop :=
  ∀ n h, pl_health l !! n = Some h → is_Some (pl_since l !! n).

#[global] Arguments note_failed : simpl never.
#[global] Arguments note_ok : simpl never.

Lemma lookup_setdefault {A} n (v : A) d m :
  setdefault n v d !! m =
  match d !! m with Some x => Some x | None => if decide (n = m) then Some v else None end.
Proof.
  unfold setdefault. destruct (d !! n) eqn:En.
  - destruct (d !! m) eqn:Em; [done|]. case_decide; [congruence|done].
  - rewrite lookup_insert. case_decide; subst; [by rewrite En|]. by destruct (d !! m).
Qed.

Lemma note_ok_frame k n lat now l m :
  n ≠ m →
  pl_health (note_ok k n lat now l) !! m = pl_health l !! m
  ∧ pl_since (note_ok k n lat now l) !! m = pl_since l !! m
  ∧ pl_down_since (note_ok k n lat now l) !! m = pl_down_since l !! m.
Proof.
  intros Hne. unfold note_ok, setdefault.
  repeat case_match; simpl; by rewrite ?lookup_insert_ne, ?lookup_delete_ne by done.
Qed.

Lemma note_failed_frame k n now l m :
  n ≠ m →
  pl_health (note_failed k n now l) !! m = pl_health l !! m
  ∧ pl_since (note_failed k n now l) !! m = pl_since l !! m
  ∧ pl_down_since (note_failed k n now l) !! m = pl_down_since l !! m.
Proof.
  intros Hne. unfold note_failed, setdefault. simpl.
  repeat case_match; simpl; by rewrite ?lookup_insert_ne by done.
Qed.

Lemma note_ok_down k n lat now l : pl_down_since (note_ok k n lat now l) !! n = None.
Proof. unfold note_ok. repeat case_match; simpl; by rewrite lookup_delete_eq. Qed.

Lemma note_failed_down k n now l :
  pl_down_since (note_failed k n now l) !! n = Some (default now (pl_down_since l !! n)).
Proof.
  unfold note_failed. simpl. rewrite lookup_setdefault, decide_True by done.
  by destruct (pl_down_since l !! n).
Qed.

Lemma note_failed_failures k n now l :
  pl_failures (note_failed k n now l) !! n = Some (default 0 (pl_failures l !! n) + 1).
Proof. unfold note_failed. simpl. by rewrite lookup_insert_eq. Qed.

Lemma note_ok_failures k n lat now l : pl_failures (note_ok k n lat now l) !! n = Some 0.
Proof. unfold note_ok. repeat case_match; simpl; by rewrite lookup_insert_eq. Qed.

(** A failed beat either leaves the label and its time alone, or labels the
    peer unreachable since the first miss of the run. *)
Lemma note_failed_health k n now l :
  (pl_health (note_failed k n now l) !! n = pl_health l !! n
   ∧ pl_since (note_failed k n now l) !! n = pl_since l !! n
   ∧ default 0 (pl_failures l !! n) + 1 < lc_failure_limit k)
  ∨ (pl_health (note_failed k n now l) !! n = Some UNREACHABLE
     ∧ pl_since (note_failed k n now l) !! n = pl_down_since (note_failed k n now l) !! n
     ∧ lc_failure_limit k ≤ default 0 (pl_failures l !! n) + 1).
Proof.
  unfold note_failed. simpl.
  destruct (Z.leb_spec (lc_failure_limit k) (default 0 (pl_failures l !! n) + 1)).
  - right. rewrite !lookup_insert_eq, lookup_setdefault, decide_True by done.
    split_and!; [done| |lia]. by destruct (pl_down_since l !! n).
  - left. split_and!; [done|done|lia].
Qed.

Lemma note_ok_health k n lat now l :
  pl_health (note_ok k n lat now l) !! n = Some UNREACHABLE →
  pl_health l !! n = Some UNREACHABLE
  ∧ pl_since (note_ok k n lat now l) !! n = pl_since l !! n.
Proof.
  unfold note_ok. repeat case_match; simpl; rewrite ?lookup_insert_eq; intros; simplify_eq; done.
Qed.

Lemma note_inv k n ok lat now l : LivenessInv l → LivenessInv (note k n ok lat now l).
Proof.
  intros Hs m h. unfold note. destruct ok.
  - destruct (decide (n = m)) as [<-|Hne].
    + unfold note_ok, setdefault. repeat case_match; simpl; bool_prop;
        rewrite ?lookup_insert_eq; eauto; intros; destruct_or?; bool_prop; eauto.
    + destruct (note_ok_frame k n lat now l m Hne) as (-> & -> & _). apply Hs.
  - destruct (decide (n = m)) as [<-|Hne].
    + destruct (note_failed_health k n now l) as [(-> & -> & _)|(_ & -> & _)]; [apply Hs|].
      rewrite note_failed_down. eauto.
    + destruct (note_failed_frame k n now l m Hne) as (-> & -> & _). apply Hs.
Qed.

(** Looking a peer up in the view reads the dicts. *)
Lemma observed_observations self n now l s :
  n ≠ self → p_observations s = (observations self now l).1 →
  observed s n = (λ h, mkObservation n h (default now (setdefault self now (pl_since l) !! n)))
                 <$> pl_health l !! n.
Proof.
  intros Hne Hs. unfold observed. rewrite Hs. simpl. rewrite bool_decide_eq_false_2 by congruence.
  destruct (pl_health l !! n) as [h|] eqn:Eh; simpl.
  - apply elem_of_map_to_list in Eh. revert Eh.
    pose proof (NoDup_fst_map_to_list (pl_health l)) as Hnd. revert Hnd.
    induction (map_to_list (pl_health l)) as [|[m h'] ls IH]; simpl; intros Hnd Hin;
      [by apply not_elem_of_nil in Hin|].
    apply NoDup_cons in Hnd as [Hm Hnd].
    apply elem_of_cons in Hin as [[= -> ->]|Hin]; [by rewrite bool_decide_eq_true_2|].
    rewrite bool_decide_eq_false_2; [by apply IH|].
    intros ->. destruct Hm. by apply (list_elem_of_fmap_2 fst) in Hin.
  - destruct (List.find _ _) as [o|] eqn:Ef; [|done].
    apply find_Some_elem in Ef as [Hin Ho]. bool_prop.
    apply list_elem_of_fmap in Hin as ([m h] & -> & Hin). simpl in Ho. subst m.
    apply elem_of_map_to_list in Hin. congruence.
Qed.

Lemma observations_health self now l : pl_health (observations self now l).2 = pl_health l.
Proof. done. Qed.

Lemma observations_since self now l n :
  n ≠ self → pl_since (observations self now l).2 !! n = pl_since l !! n.
Proof.
  intros Hne. simpl. rewrite lookup_setdefault.
  destruct (pl_since l !! n); [done|]. by rewrite decide_False by congruence.
Qed.

(** ** Runs of beats *)

Fixpoint note_run (k : LivenessConfig) (n : string) (ok : bool) (lat : Z) (times : list Z)
    (l : PeerLiveness) : PeerLiveness :=
  match times with
  | [] => l
  | t :: ts => note_run k n ok lat ts (note k n ok lat t l)
  end.

Lemma note_failed_run_state k n lat ts : ∀ l,
  default 0 (pl_failures (note_run k n false lat ts l) !! n)
  = default 0 (pl_failures l !! n) + Z.of_nat (length ts)
  ∧ (∀ d, pl_down_since l !! n = Some d → pl_down_since (note_run k n false lat ts l) !! n = Some d).
Proof.
  induction ts as [|t ts IH]; intros l; [split; [simpl; lia|done]|]. cbn [note_run note length].
  destruct (IH (note_failed k n t l)) as [Hf Hd]. split.
  - rewrite Hf, note_failed_failures. simpl. lia.
  - intros d Hdl. apply Hd. by rewrite note_failed_down, Hdl.
Qed.

Lemma note_failed_run_health k n lat ts : ∀ l d,
  pl_down_since l !! n = Some d →
  lc_failure_limit k ≤ default 0 (pl_failures l !! n) + Z.of_nat (length ts) →
  ts ≠ [] →
  pl_health (note_run k n false lat ts l) !! n = Some UNREACHABLE
  ∧ pl_since (note_run k n false lat ts l) !! n = Some d.
Proof.
  induction ts as [|t ts IH]; intros l d Hd Hlen Hne; [done|]. cbn [note_run note].
  destruct ts as [|t' ts].
  - cbn [note_run]. destruct (note_failed_health k n t l) as [(_ & _ & Hlt)|(-> & -> & _)].
    + simpl in Hlen. lia.
    + by rewrite note_failed_down, Hd.
  - apply IH; [by rewrite note_failed_down, Hd| |done].
    rewrite note_failed_failures. simpl in *. lia.
Qed.

(** Missed beats: after a success, a run of misses at [t :: ts] that is
    at least [failure_limit] long labels the peer unreachable, and the label
    dates from the first miss [t], not from the miss that crossed the limit. *)
Theorem missed_run_unreachable (k : LivenessConfig) n lat0 t0 lat t ts (l : PeerLiveness) :
  lc_failure_limit k ≤ 1 + Z.of_nat (length ts) →
  let l' := note_run k n false lat (t :: ts) (note k n true lat0 t0 l) in
  pl_health l' !! n = Some UNREACHABLE ∧ pl_since l' !! n = Some t.
Proof.
  intros Hlim. cbn [note_run note]. set (l0 := note_ok k n lat0 t0 l).
  assert (Hf : default 0 (pl_failures l0 !! n) = 0).
  { by unfold l0; rewrite note_ok_failures. }
  assert (Hd : pl_down_since (note_failed k n t l0) !! n = Some t).
  { by rewrite note_failed_down, (note_ok_down k n lat0 t0 l : pl_down_since l0 !! n = None). }
  destruct ts as [|t1 ts].
  - cbn [note_run length] in *. destruct (note_failed_health k n t l0) as [(_ & _ & Hlt)|(-> & -> & _)]; [lia|].
    by rewrite Hd.
  - apply note_failed_run_health; [done| |done].
    rewrite note_failed_failures. simpl in *. lia.
Qed.

(** Fewer misses than the limit leave the label and its time alone. *)
Lemma note_failed_run_short k n lat ts : ∀ l,
  default 0 (pl_failures l !! n) + Z.of_nat (length ts) < lc_failure_limit k →
  pl_health (note_run k n false lat ts l) !! n = pl_health l !! n
  ∧ pl_since (note_run k n false lat ts l) !! n = pl_since l !! n.
Proof.
  induction ts as [|t ts IH]; intros l Hlt; [done|]. cbn [note_run note].
  destruct (IH (note_failed k n t l)) as [-> ->].
  - rewrite note_failed_failures. simpl in *. lia.
  - destruct (note_failed_health k n t l) as [(-> & -> & _)|(_ & _ & Hle)]; [done|].
    simpl in Hlt. lia.
Qed.

Lemma note_fast_run k n lat ts : ∀ l,
  lat ≤ lc_latency_budget k →
  pl_health l !! n = Some UNREACHABLE →
  default 0 (pl_recoveries l !! n) + Z.of_nat (length ts) < lc_recovery_beats k →
  pl_health (note_run k n true lat ts l) !! n = Some UNREACHABLE
  ∧ pl_since (note_run k n true lat ts l) !! n = pl_since l !! n
  ∧ default 0 (pl_recoveries (note_run k n true lat ts l) !! n)
    = default 0 (pl_recoveries l !! n) + Z.of_nat (length ts).
Proof.
  induction ts as [|t ts IH]; intros l Hlat Hh Hlt; [split_and!; [done|done|simpl; lia]|]. cbn [note_run note].
  set (l1 := note_ok k n lat t l).
  assert (pl_health l1 !! n = Some UNREACHABLE ∧ pl_since l1 !! n = pl_since l !! n
    ∧ default 0 (pl_recoveries l1 !! n) = default 0 (pl_recoveries l !! n) + 1) as (H1 & H2 & H3).
  { unfold l1, note_ok. rewrite Hh, (proj2 (Z.ltb_ge _ _)) by lia. simpl.
    simpl in Hlt. rewrite (proj2 (Z.leb_gt _ _)) by lia. simpl.
    by rewrite lookup_insert_eq. }
  destruct (IH l1) as (-> & -> & ->); [done|done|simpl in Hlt; rewrite H3; lia|].
  split_and!; [done|done|rewrite H3; simpl; lia].
Qed.

(** Recovery is damped: an unreachable peer stays unreachable, since the
    same moment, through any run of fast beats shorter than [recovery_beats];
    the beat at [t] that completes the run makes it healthy since [t]. *)
Theorem recovery_run_damped (k : LivenessConfig) n lat t ts (l : PeerLiveness) :
  lat ≤ lc_latency_budget k →
  pl_health l !! n = Some UNREACHABLE →
  default 0 (pl_recoveries l !! n) = 0 →
  Z.of_nat (length ts) + 1 = lc_recovery_beats k →
  let before := note_run k n true lat ts l in
  let after := note k n true lat t before in
  pl_health before !! n = Some UNREACHABLE ∧ pl_since before !! n = pl_since l !! n
  ∧ pl_health after !! n = Some HEALTHY ∧ pl_since after !! n = Some t.
Proof.
  intros Hlat Hh Hr Hlen before after.
  destruct (note_fast_run k n lat ts l) as (H1 & H2 & H3); [done|done|lia|].
  split_and!; [done|done| |]; unfold after; simpl; unfold note_ok;
    fold before in H1, H3; rewrite H1, (proj2 (Z.ltb_ge _ _)) by lia; simpl;
    rewrite H3, (proj2 (Z.leb_le _ _)) by lia; simpl; by rewrite lookup_insert_eq.
Qed.

Definition demo_thresholds : LivenessConfig := mkLivenessConfig 3 2 50.
Definition silent_peer : PeerLiveness :=
  note_run demo_thresholds "coire-core" false 0 [10; 12; 14]
           (note demo_thresholds "coire-core" true 5 8 empty_liveness).

Lemma missed_run_unreachable_witness :
  pl_health silent_peer !! "coire-core" = Some UNREACHABLE
  ∧ pl_since silent_peer !! "coire-core" = Some 10.
Proof.
  apply (missed_run_unreachable demo_thresholds "coire-core" 5 8 0 10 [12; 14] empty_liveness).
  vm_compute. discriminate.
Defined.

Lemma recovery_run_damped_witness :
  let before := note_run demo_thresholds "coire-core" true 5 [20] silent_peer in
  let after := note demo_thresholds "coire-core" true 5 22 before in
  pl_health before !! "coire-core" = Some UNREACHABLE
  ∧ pl_since before !! "coire-core" = pl_since silent_peer !! "coire-core"
  ∧ pl_health after !! "coire-core" = Some HEALTHY ∧ pl_since after !! "coire-core" = Some 22.
Proof.
  apply (recovery_run_damped demo_thresholds "coire-core" 5 22 [20] silent_peer).
  - vm_compute. discriminate.
  - vm_compute. reflexivity.
  - vm_compute. reflexivity.
  - reflexivity.
Defined.
