(* ===== verification/ElectionFacts.v ===== *)
(** * What one method of the participant can change

    Lemmas on single calls of [Election]: what [advance] may do to the role,
    the proof and the stored grants, what a vote commits to, and when two
    grants are enough to be promoted. *)
From S2P Require Import Prelude FailoverModels Election.
Open Scope Z_scope.

(** ** Bookkeeping does not touch the protocol state *)

(** The attributes the protocol reads. *)
Definition view (s : Participant) :=
  (p_role s, p_term s, p_proof s, p_received s, p_issued s, p_observations s, p_override s).

Section facts.
Context `{Crypto} (c : Config).

Lemma view_record_event k p s : view (record_event c k p s) = view s.
Proof. unfold record_event. by case_match. Qed.

Lemma view_emit s : view (emit c s) = view s.
Proof. unfold emit. repeat case_match; done. Qed.

(** [issued_elsewhere] reads only the issued grants. *)
Lemma issued_elsewhere_false s n now :
  issued_elsewhere s n now = false ↔
  ∀ t g, p_issued s !! t = Some g → vg_candidate g ≠ n → vg_expires_at g ≤ now.
Proof.
  unfold issued_elsewhere. split.
  - intros Hf t g Hg Hne. apply elem_of_map_to_list in Hg.
    destruct (Z.ltb_spec now (vg_expires_at g)) as [Hlt|]; [|done].
    assert (existsb (λ '(_, g0), negb (bool_decide (vg_candidate g0 = n)) && grant_is_current now g0)
                    (map_to_list (p_issued s)) = true) as Ht; [|congruence].
    apply existsb_exists. exists (t, g). split; [by apply list_elem_of_In|].
    rewrite bool_decide_eq_false_2 by done. simpl. by apply Z.ltb_lt.
  - intros Hall. apply not_true_iff_false. intros ([t g] & Hin & Hc)%existsb_exists.
    apply list_elem_of_In, elem_of_map_to_list in Hin. bool_prop.
    unfold grant_is_current in *. specialize (Hall t g Hin). 
    assert (vg_expires_at g ≤ now) by auto. lia.
Qed.

(** ** The leader a member would follow *)

Definition higher_than (n m : string) : Prop :=
  ∃ pn pm, priority_of c n = Some pn ∧ priority_of c m = Some pm ∧ pn < pm.

Context (Hmem : FailoverMembershipConfig_valid (ep_membership c) = true).
Context (Hname : ep_name c ∈ FAILOVER_MEMBER_NAMES).

Lemma priority_of_member m : m ∈ mc_members (ep_membership c) →
  priority_of c (fm_name m) = Some (fm_priority m).
Proof. intros. unfold priority_of. by rewrite member_named_eq. Qed.

Lemma higher_than_member n m :
  higher_than n m → ∃ a b, a ∈ mc_members (ep_membership c) ∧ b ∈ mc_members (ep_membership c)
    ∧ fm_name a = n ∧ fm_name b = m ∧ fm_priority a < fm_priority b.
Proof.
  intros (pn & pm & Hn & Hm & Hlt). unfold priority_of in *.
  destruct (member_named _ n) as [a|] eqn:Ea; [|done].
  destruct (member_named _ m) as [b|] eqn:Eb; [|done]. simplify_eq/=.
  apply member_named_elem in Ea as [? ?], Eb as [? ?]. by exists a, b.
Qed.

(** Whoever the scan names comes after members that are all down. *)
Lemma scan_leader_spec s now ms n :
  StronglySorted (λ a b, fm_priority a ≤ fm_priority b) ms →
  scan_leader c s now ms = Some n →
  ∃ a, a ∈ ms ∧ fm_name a = n
    ∧ (n = ep_name c ∨ higher_status c s n now = Leader)
    ∧ ∀ b, b ∈ ms → fm_priority b < fm_priority a →
           fm_name b ≠ ep_name c ∧ higher_status c s (fm_name b) now = Down.
Proof.
  induction ms as [|m ms IH]; simpl; intros Hs Hn; [done|].
  apply StronglySorted_inv in Hs as [Hs Hall]. rewrite Forall_forall in Hall.
  case_bool_decide as Hm.
  - destruct (inhibit_applies c s now); [done|]. injection Hn as <-.
    exists m. split_and!; [set_solver|done|by left|].
    intros b [->|Hb]%elem_of_cons Hlt; [lia|]. specialize (Hall b Hb). simpl in Hall. lia.
  - destruct (higher_status c s (fm_name m) now) eqn:Est; [done| |].
    + destruct (IH Hs Hn) as (a & Ha & Hna & Hl & Hd).
      exists a. split_and!; [set_solver|done|done|].
      intros b [->|Hb]%elem_of_cons Hlt; [done|]. by apply Hd.
    + injection Hn as <-. exists m. split_and!; [set_solver|done|by right|].
      intros b [->|Hb]%elem_of_cons Hlt; [lia|]. specialize (Hall b Hb). simpl in Hall. lia.
Qed.

Lemma eligible_leader_spec s now n :
  eligible_leader c s now = Some n →
  n ∈ FAILOVER_MEMBER_NAMES
  ∧ (n ≠ ep_name c → higher_status c s n now = Leader ∧ higher_than n (ep_name c))
  ∧ (∀ h, higher_than h n → h ≠ ep_name c ∧ higher_status c s h now = Down).
Proof.
  intros Hl. destruct (scan_leader_spec s now _ n (sorted_on_strongly_sorted _ _) Hl)
    as (a & Ha & <- & Hlead & Hdown).
  rewrite elem_of_sorted_on in Ha.
  assert (Hdown' : ∀ h, higher_than h (fm_name a) →
            h ≠ ep_name c ∧ higher_status c s h now = Down).
  { intros h (b & a' & Hb & Ha' & <- & Heq & Hlt)%higher_than_member.
    rewrite (member_unique _ Hmem a' a) in Hlt by done.
    apply Hdown; [by rewrite elem_of_sorted_on|done]. }
  split_and!; [by eapply member_known| |done].
  intros Hne. destruct Hlead as [?|Hlead]; [done|]. split; [done|].
  destruct (member_named_known _ Hmem _ Hname) as (me & _ & Hme & Hmen).
  destruct (Z.lt_trichotomy (fm_priority a) (fm_priority me)) as [Hlt|[Heq|Hgt]].
  - exists (fm_priority a), (fm_priority me). rewrite <- Hmen. by rewrite !priority_of_member.
  - apply (member_priority_unique _ Hmem) in Heq; [|done|done]. congruence.
  - destruct (Hdown me) as [Hne' _]; [by rewrite elem_of_sorted_on|lia|]. congruence.
Qed.

End facts.

Section polls.
Context `{Crypto} (c : Config).

(** ** Counting grants *)

Lemma elem_of_counted_grants s now v g :
  (v, g) ∈ counted_grants c s now ↔
  p_received s !! (p_term s, v) = Some g ∧ countable_grant c s now v g = true.
Proof.
  unfold counted_grants. rewrite list_elem_of_omap. split.
  - intros ([[t w] g'] & Hin & Hf). apply elem_of_map_to_list in Hin.
    case_match; [|done]. bool_prop. simplify_eq.
    match goal with E : (_ =? _) = true |- _ => apply Z.eqb_eq in E; subst end. done.
  - intros [Hr Hc]. exists ((p_term s, v), g). split; [by apply elem_of_map_to_list|].
    by rewrite Z.eqb_refl, Hc.
Qed.

Lemma counted_spec s now v g :
  counted c s now v = Some g ↔
  p_received s !! (p_term s, v) = Some g ∧ countable_grant c s now v g = true.
Proof.
  rewrite <- elem_of_counted_grants. unfold counted. split.
  - destruct (List.find _ _) as [[w g']|] eqn:Ef; [|done]. simpl. intros [= <-].
    apply find_Some_elem in Ef as [Hin Hw]. by bool_prop; subst.
  - intros Hin. destruct (find_is_Some (λ '(v', _), bool_decide (v' = v))
      (counted_grants c s now) (v, g)) as [[w g'] Hf]; [done|by rewrite bool_decide_eq_true|].
    rewrite Hf. simpl. apply find_Some_elem in Hf as [Hin' Hw]. bool_prop; subst.
    apply elem_of_counted_grants in Hin as [H1 _], Hin' as [H2 _]. congruence.
Qed.

Lemma min_string_elem l x : min_string l = Some x → x ∈ l.
Proof.
  revert x. induction l as [|y l IH]; simpl; intros x Hx; [done|].
  destruct (min_string l) as [z|]; [|set_solver].
  injection Hx as <-. case_match; [set_solver|]. right. by apply IH.
Qed.

Lemma min_string_is_Some l x : x ∈ l → is_Some (min_string l).
Proof. destruct l as [|y l]; simpl; [set_solver|]. destruct (min_string l); eauto. Qed.

(** What a successful [_try_proof] has in hand. *)
Lemma try_proof_spec s now p :
  try_proof c s now = Some p →
  ∃ g1 w g2, p = mkProof (mc_epoch (ep_membership c)) (p_term s) (ep_name c) [g1; g2]
    ∧ p_received s !! (p_term s, ep_name c) = Some g1
    ∧ p_received s !! (p_term s, w) = Some g2 ∧ w ≠ ep_name c
    ∧ countable_grant c s now (ep_name c) g1 = true ∧ countable_grant c s now w g2 = true
    ∧ PromotionProof_valid p = true ∧ proof_is_valid_for (ep_membership c) now p = true.
Proof.
  unfold try_proof. intros Hp.
  destruct (counted c s now (ep_name c)) as [g1|] eqn:E1; [|done]. simpl in Hp.
  destruct (min_string _) as [w|] eqn:E2; [|done]. simpl in Hp.
  destruct (counted c s now w) as [g2|] eqn:E3; [|done]. simpl in Hp.
  case_match eqn:E4; [|done]. injection Hp as <-. bool_prop.
  apply counted_spec in E1 as [? ?], E3 as [? ?].
  apply min_string_elem, list_elem_of_filter in E2 as [? _].
  by exists g1, w, g2.
Qed.

(** ** One poll *)

(** A proof is held only while elected. *)
Definition proof_while_elected (s : Participant) : Prop :=
  p_proof s ≠ None → p_role s = ELECTED.

(** What [advance] may have done between [s] and [s']. *)
Record advanced (now : Z) (s s' : Participant) : Prop := {
  av_observations : p_observations s' = p_observations s;
  av_issued : p_issued s' = p_issued s;
  av_received k g : p_received s' !! k = Some g →
    p_received s !! k = Some g
    ∨ (k = (p_term s', ep_name c)
       ∧ g = new_grant c (mc_epoch (ep_membership c)) (p_term s') (ep_name c) now
       ∧ issued_elsewhere s (ep_name c) now = false
       ∧ (p_role s = ELECTED ∨ restart_fenced c now = false));
  av_elected : p_role s' = ELECTED →
    p_role s = ELECTED
    ∨ (eligible_leader c s now = Some (ep_name c) ∧ restart_fenced c now = false);
  av_proof p : p_proof s' = Some p →
    p_role s' = ELECTED
    ∧ (p_proof s = Some p
       ∨ ∃ g1 w g2, pp_grants p = [g1; g2] ∧ w ≠ ep_name c
           ∧ p_received s' !! (p_term s', ep_name c) = Some g1
           ∧ p_received s' !! (p_term s', w) = Some g2);
}.

Lemma advanced_view now s s1 s2 : view s2 = view s1 → advanced now s s1 → advanced now s s2.
Proof. intros [= H1 H2 H3 H4 H5 H6 H7] []. split; rewrite ?H1, ?H2, ?H3, ?H4, ?H5, ?H6; eauto. Qed.

(** Leaving the elected role with the grants untouched. *)
Lemma advanced_drop now s s' :
  p_observations s' = p_observations s → p_issued s' = p_issued s →
  p_received s' = p_received s → p_role s' ≠ ELECTED → p_proof s' = None → advanced now s s'.
Proof. intros ?? Hr ? Hp. split; rewrite ?Hr, ?Hp; try done. by left. Qed.

(** Keeping role, proof and grants. *)
Lemma advanced_keep now s s' :
  proof_while_elected s →
  p_observations s' = p_observations s → p_issued s' = p_issued s →
  p_received s' = p_received s → p_role s' = p_role s → p_proof s' = p_proof s →
  advanced now s s'.
Proof.
  intros Hpe ?? Hr Hrole Hp. split; rewrite ?Hr, ?Hp, ?Hrole; try done; [by left|by left|].
  intros p Hs. split; [apply Hpe; congruence|by left].
Qed.

Lemma advanced_fence now b s : advanced now s (fence c b s).
Proof.
  unfold fence. destruct (is_leader_role (p_role s)).
  - eapply advanced_view; [apply view_record_event|]. apply advanced_drop; by destruct b.
  - apply advanced_drop; by destruct b.
Qed.

Lemma view_finish_drain s :
  view (finish_drain_if_idle c s) = view s
  ∨ (p_role s = DRAINING ∧ view (finish_drain_if_idle c s) = view (set_p_role STANDBY s)).
Proof.
  unfold finish_drain_if_idle. case_bool_decide; [|by left].
  case_match; [by left|]. right. by rewrite view_record_event.
Qed.

Lemma advanced_finish_drain now s s' :
  advanced now s s' → p_role s' = DRAINING → p_proof s' = None →
  advanced now s (finish_drain_if_idle c s').
Proof.
  intros Ha Hr Hp. destruct (view_finish_drain s') as [Hv|[_ Hv]].
  - by eapply advanced_view.
  - eapply advanced_view; [exact Hv|]. destruct Ha. split; simpl; eauto; congruence.
Qed.

Lemma begin_drain_spec now s :
  proof_while_elected s → p_role s ≠ CANDIDATE →
  advanced now s (begin_drain c now s) ∧ p_role (begin_drain c now s) = DRAINING
  ∧ p_proof (begin_drain c now s) = None.
Proof.
  intros Hpe Hc. unfold begin_drain. case_bool_decide as Hd.
  - assert (p_proof s = None).
    { destruct (p_proof s) eqn:E; [|done]. rewrite Hpe in Hd; [done|congruence]. }
    split_and!; [by apply advanced_keep|done|done].
  - pose proof (view_record_event c EV_DRAINING (p_proof s)
      (set_p_drain_started (Some now) (set_p_proof None (set_p_role DRAINING s)))) as Hv.
    split_and!.
    + eapply advanced_view; [exact Hv|]. by apply advanced_drop.
    + by injection Hv.
    + by injection Hv.
Qed.

(** [_ensure_self_grant] adds at most the fresh grant of this member. *)
Lemma ensure_self_grant_spec now s :
  let s' := ensure_self_grant c now s in
  view s' = (p_role s, p_term s, p_proof s, p_received s', p_issued s, p_observations s,
             p_override s)
  ∧ ∀ k g, p_received s' !! k = Some g →
      p_received s !! k = Some g
      ∨ (k = (p_term s, ep_name c)
         ∧ g = new_grant c (mc_epoch (ep_membership c)) (p_term s) (ep_name c) now
         ∧ issued_elsewhere s (ep_name c) now = false).
Proof.
  unfold ensure_self_grant. destruct (issued_elsewhere s (ep_name c) now) eqn:Ei; [by auto|].
  simpl. case_match; [by auto|]. split; [done|]. intros k g. simpl.
  rewrite lookup_insert. case_decide; [|by left]. intros [= <-]. right. by subst.
Qed.

Lemma advanced_self_grant now s :
  proof_while_elected s → p_role s = ELECTED ∨ restart_fenced c now = false →
  advanced now s (ensure_self_grant c now s).
Proof.
  intros Hpe Hf. pose proof (ensure_self_grant_spec now s) as [Hv Hr].
  injection Hv as H1 H2 H3 H5 H6 H7.
  split; rewrite ?H1, ?H2, ?H3, ?H5, ?H6; try done; [|by left|].
  - intros k g Hk. destruct (Hr k g Hk) as [?|(-> & -> & ?)]; [by left|by right].
  - intros p Hp. split; [apply Hpe; congruence|by left].
Qed.

(** Adopting a proof assembled from the stored grants. *)
Lemma advanced_adopt_proof now s s1 s2 p :
  advanced now s s1 → try_proof c s1 now = Some p →
  p_role s2 = ELECTED → p_proof s2 = Some p →
  p_observations s2 = p_observations s1 → p_issued s2 = p_issued s1 →
  p_received s2 = p_received s1 → p_term s2 = p_term s1 →
  (p_role s = ELECTED ∨ (eligible_leader c s now = Some (ep_name c)
                         ∧ restart_fenced c now = false)) →
  advanced now s s2.
Proof.
  intros [] (g1 & w & g2 & -> & ? & ? & ? & _)%try_proof_spec Hr Hp Ho Hi Hre Ht Hel.
  split; rewrite ?Hr, ?Hp, ?Ho, ?Hi, ?Hre, ?Ht; eauto.
  intros p [= <-]. split; [done|]. right. simpl. by exists g1, w, g2.
Qed.

Lemma advanced_hold now s :
  proof_while_elected s → p_role s = ELECTED → advanced now s (hold_or_fence c now s).
Proof.
  intros Hpe Hr. unfold hold_or_fence.
  case_test; [apply advanced_fence|]. case_test; [by apply advanced_keep|].
  case_test; [by apply advanced_keep|].
  pose proof (advanced_self_grant now s Hpe (or_introl Hr)) as Ha.
  pose proof (ensure_self_grant_spec now s) as [Hv _]. injection Hv as H1' H2' H3' H5' H6' H7'.
  destruct (try_proof c (ensure_self_grant c now s) now) as [p|] eqn:Ep.
  - eapply advanced_adopt_proof; eauto; simpl; congruence.
  - destruct (proof_ok c s now); [exact Ha|]. destruct Ha. split; simpl; eauto; done.
Qed.

Lemma may_campaign_view now l s : view (may_campaign c now l s).2 = view s.
Proof.
  unfold may_campaign, may_campaign_base. repeat (case_match; simpl; try done).
Qed.

Lemma may_campaign_fence now l s : (may_campaign c now l s).1 = true → restart_fenced c now = false.
Proof. unfold may_campaign. by destruct (restart_fenced c now). Qed.

Lemma advanced_stand_down now l s s1 :
  view s1 = view s → proof_while_elected s → p_role s ≠ ELECTED →
  advanced now s (stand_down c l s1).
Proof.
  intros Hv Hpe Hr. injection Hv as H1 H2 H3 H4 H5 H6 H7.
  assert (p_proof s = None). { destruct (p_proof s) eqn:E; [|done]. destruct Hr. apply Hpe. congruence. }
  unfold stand_down.
  destruct (bool_decide (l = Some (ep_name c))); simpl; case_bool_decide; simpl;
    apply advanced_drop; simpl; congruence.
Qed.

(** Becoming a candidate keeps or clears the stored grants. *)
Lemma become_candidate_spec s :
  p_role s ≠ ELECTED → p_role s ≠ DRAINING →
  let s' := become_candidate s in
  p_role s' = CANDIDATE ∧ p_proof s' = p_proof s ∧ p_issued s' = p_issued s
  ∧ p_observations s' = p_observations s ∧ p_override s' = p_override s
  ∧ (p_received s' = p_received s ∧ p_term s' = p_term s
     ∨ p_received s' = ∅ ∧ p_term s' = p_term s + 1).
Proof.
  intros H1 H2. unfold become_candidate. case_bool_decide.
  - destruct (p_closed s); simpl; auto 10.
  - destruct (p_role s); try done; auto 10.
Qed.

Lemma issued_elsewhere_ext s s' n now :
  p_issued s' = p_issued s → issued_elsewhere s' n now = issued_elsewhere s n now.
Proof. intros Hi. unfold issued_elsewhere. by rewrite Hi. Qed.

(** The state in which [_campaign] counts grants. *)
Lemma advanced_standing now s s1 :
  view s1 = view s → p_role s ≠ ELECTED → p_role s ≠ DRAINING → proof_while_elected s →
  restart_fenced c now = false →
  let s2 := ensure_self_grant c now (become_candidate s1) in
  advanced now s s2 ∧ p_role s2 = CANDIDATE ∧ p_override s2 = p_override s.
Proof.
  intros Hv H1 H2 Hpe Hf. injection Hv as E1 E2 E3 E4 E5 E6 E7.
  destruct (become_candidate_spec s1) as (B1 & B2 & B3 & B4 & B5 & B6); [congruence..|].
  assert (Hp : p_proof s = None).
  { destruct (p_proof s) eqn:E; [|done]. destruct H1. apply Hpe. congruence. }
  pose proof (ensure_self_grant_spec now (become_candidate s1)) as [Hv Hr].
  injection Hv as F1 F2 F3 F5 F6 F7.
  split_and!; [|congruence|congruence].
  split; try (rewrite ?F1, ?F2, ?F3, ?F5, ?F6; congruence).
  intros k g Hk. destruct (Hr k g Hk) as [Hk'|(-> & -> & Hi)].
  - left. destruct B6 as [[Hre _]|[Hre _]]; rewrite Hre in Hk'; [congruence|].
    by rewrite lookup_empty in Hk'.
  - right. rewrite F2. split_and!; [done|done| |by right].
    rewrite <- Hi. symmetry. apply issued_elsewhere_ext. congruence.
Qed.

Lemma view_promote p b s :
  view (promote c p b s)
  = (ELECTED, p_term s, p, p_received s, p_issued s, p_observations s, p_override s).
Proof. unfold promote. case_match; [by rewrite view_record_event|done]. Qed.

Lemma advanced_campaign now s :
  proof_while_elected s → p_role s ≠ ELECTED → p_role s ≠ DRAINING →
  advanced now s (campaign c now s).
Proof.
  intros Hpe H1 H2. unfold campaign.
  destruct (bool_decide (eligible_leader c s now = Some (ep_name c))) eqn:El; simpl;
    [|by apply advanced_stand_down]. bool_prop.
  pose proof (may_campaign_view now (eligible_leader c s now) s) as Hv.
  pose proof (may_campaign_fence now (eligible_leader c s now) s) as Hf.
  destruct (may_campaign c now (eligible_leader c s now) s) as [may s1]. simpl in Hv, Hf.
  destruct may; simpl; [|by apply advanced_stand_down].
  destruct (advanced_standing now s s1) as (Ha & Hc & Ho); auto.
  set (s2 := ensure_self_grant c now (become_candidate s1)) in *.
  destruct (try_proof c s2 now) as [p|] eqn:Ep.
  - pose proof (view_promote (Some p) false s2) as V. injection V as V1 V2 V3 V4 V5 V6 V7.
    eapply advanced_adopt_proof; eauto.
  - case_match; [|done]. pose proof (view_promote None true s2) as V.
    injection V as V1 V2 V3 V4 V5 V6 V7. destruct Ha.
    split; rewrite ?V1, ?V2, ?V3, ?V4, ?V5, ?V6; eauto. done.
Qed.

Lemma advanced_advance now s : proof_while_elected s → advanced now s (advance c now s).
Proof.
  intros Hpe. unfold advance.
  case_test; [eapply advanced_view; [apply view_emit|]; apply advanced_fence|].
  case_test.
  { eapply advanced_view; [apply view_emit|]. bool_prop.
    destruct (begin_drain_spec now s) as (? & ? & ?);
      [done|by destruct (p_role s)|by apply advanced_finish_drain]. }
  case_bool_decide as Hd.
  { eapply advanced_view; [apply view_emit|]. apply advanced_finish_drain; [by apply advanced_keep|done|].
    destruct (p_proof s) eqn:E; [|done]. rewrite Hpe in Hd; [done|congruence]. }
  case_bool_decide as He; (eapply advanced_view; [apply view_emit|]).
  - by apply advanced_hold.
  - by apply advanced_campaign.
Qed.

(** The state on which [observe] runs [_advance]. *)
Definition observing (obs : list MemberObservation) (now fl : Z) (o : option FailoverOverride)
    (s : Participant) : Participant :=
  set_p_now now (set_p_in_flight fl
    (set_p_override (if override_is_authentic c o then o else None) (set_p_observations obs s))).

Lemma advanced_observe obs now fl o s :
  proof_while_elected s → advanced now (observing obs now fl o s) (observe c obs now fl o s).
Proof. intros Hpe. by apply advanced_advance. Qed.

Lemma advanced_proof_while_elected now s s' : advanced now s s' → proof_while_elected s'.
Proof.
  intros [] Hp. destruct (p_proof s') as [p|] eqn:E; [|done]. by destruct (av_proof0 p).
Qed.

(** ** Votes and received grants *)

Lemma vote_spec epoch term cand now s g s' :
  vote c epoch term cand now s = (g, s') →
  view s' = (p_role s, p_term s', p_proof s, p_received s, p_issued s', p_observations s,
             p_override s)
  ∧ p_term s ≤ p_term s'
  ∧ match g with
    | None => p_issued s' = p_issued s
    | Some g =>
        is_leader_role (p_role s) = false ∧ restart_fenced c now = false
        ∧ cand ≠ ep_name c ∧ eligible_leader c s now = Some cand
        ∧ issued_elsewhere s cand now = false
        ∧ (p_issued s' = p_issued s ∧ p_issued s !! p_term s' = Some g ∧ now < vg_expires_at g
           ∧ vg_candidate g = cand
           ∨ g = new_grant c epoch (p_term s') cand now
             ∧ p_issued s' = <[p_term s' := g]> (p_issued s)
             ∧ ∀ g', p_issued s !! p_term s' = Some g' →
                     vg_candidate g' = cand ∨ vg_expires_at g' ≤ now)
    end.
Proof.
  unfold vote. destruct (restart_fenced c now); [by intros [= <- <-]|].
  unfold vote_base.
  case_test; [by intros [= <- <-]|]. case_test; [by intros [= <- <-]|].
  case_test; [by intros [= <- <-]|]. case_test; [by intros [= <- <-]|].
  case_test; [by intros [= <- <-]|]. bool_prop.
  set (s1 := if p_term s <? term then set_p_term term s else s).
  assert (Hv : view s1 = (p_role s, p_term s1, p_proof s, p_received s, p_issued s,
                          p_observations s, p_override s)) by (unfold s1; by case_match).
  assert (Ht : p_term s ≤ p_term s1).
  { unfold s1. destruct (Z.ltb_spec (p_term s) term); simpl; lia. }
  injection Hv as E1 E3 E4 E5 E6 E7. rewrite E5.
  case_test.
  { intros [= <- <-]. split_and!; [|done|done]. unfold view. congruence. }
  case_test.
  { intros [= <- <-]. split_and!; [unfold view; congruence|done|].
    destruct (p_issued s !! p_term s1) as [g|] eqn:Eg; rewrite ?Eg in *; [|done].
    bool_prop. split_and!; try done. left. unfold grant_is_current in *.
    split_and!; [done|done|lia|]. destruct (decide (vg_candidate g = cand)) as [|Hn]; [done|].
    rewrite bool_decide_eq_false_2 in * by done. simpl in *. congruence. }
  intros [= <- <-]. split; [unfold view; simpl; congruence|]. split; [done|].
  split_and!; try done. right. split_and!; [done|simpl; congruence|].
  intros g' Hg'. simpl in Hg'. rewrite Hg' in *. unfold grant_is_current in *.
  destruct (decide (vg_candidate g' = cand)) as [|Hn]; [by left|]. right.
  rewrite bool_decide_eq_false_2 in * by done. simpl in *. lia.
Qed.

Lemma receive_grant_spec g now s b s' :
  receive_grant c g now s = (b, s') →
  (s' = s) ∨
  (b = true ∧ s' = set_p_received (<[(vg_term g, vg_voter g) := g]> (p_received s)) s
   ∧ vg_candidate g = ep_name c ∧ vg_epoch g = mc_epoch (ep_membership c)
   ∧ vg_term g = p_term s ∧ now < vg_expires_at g
   ∧ ∃ k, public_key_of c (vg_voter g) = Some k ∧ grant_signed_by k g = true).
Proof.
  unfold receive_grant. case_test; [by intros [= <- <-]; left|].
  destruct (public_key_of c (vg_voter g)) as [k|]; simpl; [|by intros [= <- <-]; left].
  destruct (grant_signed_by k g) eqn:Ek; simpl; [|by intros [= <- <-]; left].
  bool_prop.
  assert (Hok : (true, set_p_received (<[(vg_term g, vg_voter g) := g]> (p_received s)) s) = (b, s') →
    (s' = s) ∨
    (b = true ∧ s' = set_p_received (<[(vg_term g, vg_voter g) := g]> (p_received s)) s
     ∧ vg_candidate g = ep_name c ∧ vg_epoch g = mc_epoch (ep_membership c)
     ∧ vg_term g = p_term s ∧ now < vg_expires_at g
     ∧ ∃ k', Some k = Some k' ∧ grant_signed_by k' g = true)).
  { intros [= <- <-]. right. unfold grant_is_current in *.
    split_and!; try done; try lia. eauto. }
  repeat case_match; try (intros [= <- <-]; by left); exact Hok.
Qed.

(** Giving the lease back keeps the grants and leaves the elected role. *)
Lemma accept_handback_spec n now s b s' :
  proof_while_elected s → accept_handback c n now s = (b, s') →
  s' = s ∨
  (b = true ∧ p_role s' ≠ ELECTED ∧ p_proof s' = None ∧ p_received s' = p_received s
   ∧ p_issued s' = p_issued s ∧ p_observations s' = p_observations s ∧ p_term s' = p_term s).
Proof.
  intros Hpe. unfold accept_handback.
  case_test; [by intros [= <- <-]; left|]. case_test; [by intros [= <- <-]; left|].
  case_test; [by intros [= <- <-]; left|]. case_test; [by intros [= <- <-]; left|].
  intros [= <- <-]. right. bool_prop. split; [done|].
  set (s0 := set_p_now now s).
  assert (Hb : let s1 := begin_drain c now s0 in p_role s1 = DRAINING ∧ p_proof s1 = None
    ∧ p_received s1 = p_received s ∧ p_issued s1 = p_issued s
    ∧ p_observations s1 = p_observations s ∧ p_term s1 = p_term s).
  { unfold begin_drain. case_bool_decide as Hd.
    - split_and!; try done. simpl. destruct (p_proof s) eqn:E; [|done].
      simpl in Hd. rewrite Hpe in Hd; [done|congruence].
    - unfold record_event. by destruct (ep_has_journal c). }
  destruct Hb as (B1 & B2 & B3 & B4 & B5 & B6).
  pose proof (view_emit c (finish_drain_if_idle c (begin_drain c now s0))) as Hv.
  destruct (view_finish_drain (begin_drain c now s0)) as [Hf|[_ Hf]];
    rewrite Hf in Hv; injection Hv as V1 V2 V3 V4 V5 V6 V7;
    simpl in *; split_and!; congruence.
Qed.
End polls.
