(* ===== verification/ElectionSafety.v ===== *)
(** * At most one quorum leader

    The three members of the cluster as one transition system: each node runs
    an [ElectionParticipant] fed by its own [PeerLiveness]; polls, votes,
    grants, hand-backs and Studio restarts interleave freely.  The theorem is
    that two members never both hold a current quorum proof, provided the
    promotion threshold covers the lease and the time a silent peer can go
    unnoticed ([window]).  [split_brain] shows that the margin is needed: with
    promotion equal to lease, as in the default settings, a run leads to two
    leaders. *)
From S2P Require Import Prelude FailoverModels Election Liveness ElectionFacts.
Open Scope Z_scope.

Record Node := mkNode {
  n_cfg : Config;
  n_part : Participant;
  n_live : PeerLiveness;
  (** The moment of the latest poll and the clock of the latest vote. *)
  n_moment : Z;
  n_voted : Z;
}.

(** [sys_signed] is every grant signed so far, [sys_time] the real time. *)
Record System := mkSystem {
  sys_nodes : gmap string Node;
  sys_signed : list ElectionVoteGrant;
  sys_time : Z;
}.

Section system.
Context `{Crypto} (mc : FailoverMembershipConfig) (tm : ElectionTimings)
        (lk : LivenessConfig) (window : Z).

Definition verifies (g : ElectionVoteGrant) : bool :=
  match member_named mc (vg_voter g) with
  | Some m => grant_signed_by (fm_public_key m) g
  | None => false
  end.

(** A peer that is not labelled unreachable has been silent for at most
    [window]: the poll loop ran often enough. *)
Definition prompt (l : PeerLiveness) (now : Z) : Prop :=
  ∀ h d, pl_health l !! h ≠ Some UNREACHABLE → pl_down_since l !! h = Some d →
         now - d ≤ window.

Definition own_grant (s : Participant) (name : string) : list ElectionVoteGrant :=
  option_list (p_received s !! (p_term s, name)).

Inductive step : System → System → Prop :=
| step_time N S T t :
    T ≤ t → step (mkSystem N S T) (mkSystem N S t)
(** a heartbeat result of the poll at [m] *)
| step_note N S T i n peer ok lat m :
    N !! i = Some n → n_moment n ≤ m ≤ T → peer ≠ i →
    step (mkSystem N S T)
      (mkSystem (<[i := mkNode (n_cfg n) (n_part n) (note lk peer ok lat m (n_live n)) m
                               (n_voted n)]> N) S T)
(** the participant advances on the view of the poll at [m] *)
| step_observe N S T i n m fl o :
    N !! i = Some n → n_moment n ≤ m ≤ T → prompt (n_live n) m →
    let view := observations i m (n_live n) in
    let s' := observe (n_cfg n) view.1 m fl o (n_part n) in
    step (mkSystem N S T)
      (mkSystem (<[i := mkNode (n_cfg n) s' view.2 m (n_voted n)]> N) (own_grant s' i ++ S) T)
(** a vote request is served *)
| step_vote N S T i n epoch term cand now g s' :
    N !! i = Some n → n_voted n ≤ now ≤ T →
    vote (n_cfg n) epoch term cand now (n_part n) = (g, s') →
    step (mkSystem N S T)
      (mkSystem (<[i := mkNode (n_cfg n) s' (n_live n) (n_moment n) now]> N)
                (option_list g ++ S) T)
(** a grant arrives: one that was signed, or one that does not verify *)
| step_receive N S T i n g now b s' :
    N !! i = Some n → (g ∈ S ∨ verifies g = false) →
    receive_grant (n_cfg n) g now (n_part n) = (b, s') →
    step (mkSystem N S T)
      (mkSystem (<[i := mkNode (n_cfg n) s' (n_live n) (n_moment n) (n_voted n)]> N) S T)
| step_adopt N S T i n term :
    N !! i = Some n →
    step (mkSystem N S T)
      (mkSystem (<[i := mkNode (n_cfg n) (adopt_term term (n_part n)) (n_live n) (n_moment n)
                               (n_voted n)]> N) S T)
| step_handback N S T i n hb now b s' :
    N !! i = Some n → accept_handback (n_cfg n) hb now (n_part n) = (b, s') →
    step (mkSystem N S T)
      (mkSystem (<[i := mkNode (n_cfg n) s' (n_live n) (n_moment n) (n_voted n)]> N) S T)
(** a Studio agent restarts: votes and observations are lost, the restart
    fence keeps it silent for one lease *)
| step_restart N S T i n :
    N !! i = Some n →
    let c := n_cfg n in
    let c' := mkConfig (ep_name c) (ep_membership c) (ep_timings c) (ep_private_key c)
                       (ep_has_journal c) (ep_has_listener c) (Some (T + tm_lease tm)) in
    step (mkSystem N S T)
      (mkSystem (<[i := mkNode c' (initial_participant true T) empty_liveness (n_moment n)
                               (n_voted n)]> N) S T).

(** Every member has just been constructed. *)
Definition initial (y : System) : Prop :=
  sys_signed y = [] ∧ (∀ i, i ∈ FAILOVER_MEMBER_NAMES → is_Some (sys_nodes y !! i)) ∧
  ∀ i n, sys_nodes y !! i = Some n →
    i ∈ FAILOVER_MEMBER_NAMES ∧ ep_name (n_cfg n) = i ∧ ep_membership (n_cfg n) = mc
    ∧ ep_timings (n_cfg n) = tm
    ∧ (∃ b t, n_part n = initial_participant b t) ∧ n_live n = empty_liveness
    ∧ n_moment n ≤ sys_time y ∧ n_voted n ≤ sys_time y.

Definition reachable (y : System) : Prop := ∃ y0, initial y0 ∧ rtc step y0 y.

(** ** The invariant *)

Abbreviation L := (tm_lease tm).

Definition self_grant (i : string) (g : ElectionVoteGrant) : Prop :=
  vg_voter g = i ∧ vg_candidate g = i.
Definition vote_of (i : string) (g : ElectionVoteGrant) : Prop :=
  vg_voter g = i ∧ vg_candidate g ≠ i.

(** Whatever silence of [h] this view dates, it began at [x - window] or later. *)
Definition silent_after (l : PeerLiveness) (h : string) (x : Z) : Prop :=
  ∀ d, (pl_down_since l !! h = Some d → x - window ≤ d)
       ∧ (pl_health l !! h = Some UNREACHABLE → pl_since l !! h = Some d → x - window ≤ d).

Record NodeInv (S : list ElectionVoteGrant) (T : Z) (i : string) (n : Node) : Prop := {
  ni_known : i ∈ FAILOVER_MEMBER_NAMES;
  ni_cfg : ep_name (n_cfg n) = i ∧ ep_membership (n_cfg n) = mc ∧ ep_timings (n_cfg n) = tm;
  ni_time : n_moment n ≤ T ∧ n_voted n ≤ T;
  ni_live : LivenessInv (n_live n);
  ni_role : proof_while_elected (n_part n);
  ni_unfenced : p_role (n_part n) = ELECTED → restart_fenced (n_cfg n) (n_moment n) = false;
  ni_issued t g : p_issued (n_part n) !! t = Some g → g ∈ S ∧ vote_of i g;
  ni_received k g : p_received (n_part n) !! k = Some g →
    g ∈ S ∧ k = (vg_term g, vg_voter g) ∧ vg_candidate g = i;
  ni_proof p : p_proof (n_part n) = Some p →
    ∃ g1 g2, pp_grants p = [g1; g2] ∧ g1 ∈ S ∧ g2 ∈ S ∧ self_grant i g1
             ∧ vg_voter g2 ≠ i ∧ vg_candidate g2 = i;
  ni_self_bound g : g ∈ S → self_grant i g → vg_expires_at g ≤ n_moment n + L;
  ni_vote_bound g : g ∈ S → vote_of i g → vg_expires_at g ≤ n_voted n + L;
  ni_vote_up g : g ∈ S → vote_of i g → higher_than (n_cfg n) (vg_candidate g) i;
  ni_vote_cover g : g ∈ S → vote_of i g → n_voted n < vg_expires_at g →
    (∃ t g', p_issued (n_part n) !! t = Some g' ∧ vg_candidate g' = vg_candidate g
             ∧ vg_expires_at g ≤ vg_expires_at g')
    ∨ (∃ f, ep_restart_fence (n_cfg n) = Some f ∧ vg_expires_at g ≤ f);
  ni_vote_one g g' : g ∈ S → g' ∈ S → vote_of i g → vote_of i g' →
    n_voted n < vg_expires_at g → n_voted n < vg_expires_at g' →
    vg_candidate g = vg_candidate g';
  ni_snapshot g h : g ∈ S → self_grant i g → h ≠ i →
    silent_after (n_live n) h (vg_expires_at g - L)
    ∨ (pl_health (n_live n) !! h = Some UNREACHABLE
       ∧ ∃ o, observed (n_part n) h = Some o ∧ mo_health o = UNREACHABLE);
  ni_lock s g : s ∈ S → g ∈ S → self_grant i s → vote_of i g →
    n_moment n < vg_expires_at s → n_moment n < vg_expires_at g →
    n_voted n < vg_expires_at g →
    p_role (n_part n) ≠ ELECTED
    ∧ silent_after (n_live n) (vg_candidate g) (vg_expires_at s - L);
}.

Definition Inv (y : System) : Prop :=
  ∀ i n, sys_nodes y !! i = Some n → NodeInv (sys_signed y) (sys_time y) i n.

(** A node is not concerned by grants that others sign, nor by time passing. *)
Lemma NodeInv_frame S S' T T' i n :
  T ≤ T' → (∀ g, g ∈ S → g ∈ S') → (∀ g, g ∈ S' → vg_voter g = i → g ∈ S) →
  NodeInv S T i n → NodeInv S' T' i n.
Proof.
  intros HT Hin Hout [].
  assert (Hs : ∀ g, g ∈ S' → self_grant i g → g ∈ S) by (intros g ? []; auto).
  assert (Hv : ∀ g, g ∈ S' → vote_of i g → g ∈ S) by (intros g ? []; auto).
  split; try done; try (intros; eauto; fail).
  - lia.
  - intros t g Hg. destruct (ni_issued0 t g Hg). auto.
  - intros k g Hg. destruct (ni_received0 k g Hg) as (? & ? & ?). auto.
  - intros p Hp. destruct (ni_proof0 p Hp) as (g1 & g2 & ? & ? & ? & ? & ? & ?).
    exists g1, g2. auto 10.
Qed.

Context (Hmc : FailoverMembershipConfig_valid mc = true) (Hwin : 0 ≤ window)
        (Hmargin : L + window ≤ tm_promotion tm).

(** ** Heartbeats *)

Lemma silent_after_note l h x peer ok lat m :
  x ≤ m → silent_after l h x → silent_after (note lk peer ok lat m l) h x.
Proof.
  intros Hx Hs. unfold note. destruct (decide (peer = h)) as [<-|Hne].
  - destruct ok; intros d; split.
    + by rewrite note_ok_down.
    + intros [Hu Heq]%note_ok_health. rewrite Heq. by apply (proj2 (Hs d)).
    + rewrite note_failed_down. intros [= <-].
      destruct (pl_down_since l !! peer) as [d|] eqn:Ed; simpl; [exact (proj1 (Hs d) Ed)|lia].
    + intros Hu. destruct (note_failed_health lk peer m l) as [(Hh & -> & _)|(_ & -> & _)].
      * apply (proj2 (Hs d)). congruence.
      * rewrite note_failed_down. intros [= <-].
        destruct (pl_down_since l !! peer) as [d|] eqn:Ed; simpl; [exact (proj1 (Hs d) Ed)|lia].
  - intros d. destruct ok.
    + destruct (note_ok_frame lk peer lat m l h Hne) as (-> & -> & ->). apply Hs.
    + destruct (note_failed_frame lk peer m l h Hne) as (-> & -> & ->). apply Hs.
Qed.

(** A beat keeps an unreachable label, or the silence starts afresh. *)
Lemma unreachable_note l h x peer ok lat m :
  x ≤ m → pl_health l !! h = Some UNREACHABLE →
  silent_after (note lk peer ok lat m l) h x
  ∨ pl_health (note lk peer ok lat m l) !! h = Some UNREACHABLE.
Proof.
  intros Hx Hu. unfold note. destruct (decide (peer = h)) as [<-|Hne].
  - destruct ok.
    + destruct (decide (pl_health (note_ok lk peer lat m l) !! peer = Some UNREACHABLE));
        [by right|].
      left. intros d. by rewrite note_ok_down.
    + right. by destruct (note_failed_health lk peer m l) as [(-> & _)|(-> & _)].
  - right. destruct ok.
    + by destruct (note_ok_frame lk peer lat m l h Hne) as (-> & _).
    + by destruct (note_failed_frame lk peer m l h Hne) as (-> & _).
Qed.

Lemma restart_fenced_mono c a b :
  a ≤ b → restart_fenced c a = false → restart_fenced c b = false.
Proof. unfold restart_fenced. destruct (ep_restart_fence c); [|done]. lia. Qed.

Lemma node_note S T i n peer ok lat m :
  n_moment n ≤ m ≤ T → NodeInv S T i n →
  NodeInv S T i (mkNode (n_cfg n) (n_part n) (note lk peer ok lat m (n_live n)) m (n_voted n)).
Proof.
  intros Hm []. split; simpl; try done.
  - lia.
  - by apply note_inv.
  - intros Hr. eapply restart_fenced_mono; [|by apply ni_unfenced0]. lia.
  - intros g Hg Hs. specialize (ni_self_bound0 g Hg Hs). lia.
  - intros g h Hg Hs Hh. specialize (ni_self_bound0 g Hg Hs).
    destruct (ni_snapshot0 g h Hg Hs Hh) as [Hsil|[Hu Ho]].
    + left. apply silent_after_note; [lia|done].
    + destruct (unreachable_note (n_live n) h (vg_expires_at g - L) peer ok lat m);
        [lia|done|by left|by right].
  - intros s g Hs Hg Hss Hv H1 H2 H3. specialize (ni_self_bound0 s Hs Hss).
    destruct (ni_lock0 s g Hs Hg Hss Hv) as [? ?]; [lia|lia|lia|].
    split; [done|]. apply silent_after_note; [lia|done].
Qed.

(** ** Votes *)

Lemma leader_observed c s n now :
  higher_status c s n now = Leader →
  ∃ o, observed s n = Some o ∧ mo_health o ≠ UNREACHABLE.
Proof.
  unfold higher_status. destruct (observed s n) as [o|]; [|done].
  destruct (mo_health o) eqn:E; intros Hl; try (exists o; split; congruence).
  by destruct (_ <=? _).
Qed.

Lemma new_grant_fields c epoch term cand now :
  let g := new_grant c epoch term cand now in
  vg_voter g = ep_name c ∧ vg_candidate g = cand ∧ vg_term g = term
  ∧ vg_expires_at g = now + tm_lease (ep_timings c).
Proof. done. Qed.

(** The candidate a node votes for was alive in its latest view, so any
    silence of it that a later view reports began after the own grants. *)
Lemma node_vote_silent S T i n now cand :
  NodeInv S T i n → eligible_leader (n_cfg n) (n_part n) now = Some cand → cand ≠ i →
  higher_than (n_cfg n) cand i ∧
  ∀ s, s ∈ S → self_grant i s → silent_after (n_live n) cand (vg_expires_at s - L).
Proof.
  intros [] Hl Hne. destruct ni_cfg0 as (Hn & Hm & Ht).
  destruct (eligible_leader_spec (n_cfg n)) with (s := n_part n) (now := now) (n := cand)
    as (_ & Hlead & _); [by rewrite Hm|by rewrite Hn|done|].
  destruct Hlead as [Hst Hup]; [congruence|]. rewrite Hn in Hup. split; [done|].
  intros s Hs Hss. destruct (ni_snapshot0 s cand Hs Hss Hne) as [|(_ & o & Ho & Hu)]; [done|].
  destruct (leader_observed _ _ _ _ Hst) as (o' & Ho' & Hu'). congruence.
Qed.

Lemma restart_fenced_false c now f :
  restart_fenced c now = false → ep_restart_fence c = Some f → f ≤ now.
Proof. unfold restart_fenced. intros Hf Hr. rewrite Hr in Hf. lia. Qed.

(** An older vote that is still current was for the same candidate. *)
Lemma node_vote_agrees S T i n now cand g :
  NodeInv S T i n → n_voted n ≤ now → restart_fenced (n_cfg n) now = false →
  issued_elsewhere (n_part n) cand now = false →
  g ∈ S → vote_of i g → now < vg_expires_at g → vg_candidate g = cand.
Proof.
  intros [] Hn Hf Hi Hg Hv Hlt.
  destruct (ni_vote_cover0 g Hg Hv) as [(t & g' & Hg' & Hc & Hle)|(f & Hfe & Hle)]; [lia| |].
  - destruct (decide (vg_candidate g' = cand)) as [|Hne]; [congruence|].
    rewrite issued_elsewhere_false in Hi. specialize (Hi t g' Hg' Hne). lia.
  - pose proof (restart_fenced_false _ _ _ Hf Hfe). lia.
Qed.

Lemma node_vote S T i n epoch term cand now g s' :
  n_voted n ≤ now ≤ T → NodeInv S T i n →
  vote (n_cfg n) epoch term cand now (n_part n) = (g, s') →
  NodeInv (option_list g ++ S) T i (mkNode (n_cfg n) s' (n_live n) (n_moment n) now).
Proof.
  intros Hnow Hinv Hvote. pose proof Hinv as [].
  destruct ni_cfg0 as (Hn & Hm & Ht).
  apply vote_spec in Hvote as (Hv & _ & Hg). injection Hv as E1 E3 E4 E6 E7.
  destruct g as [g|]; simpl.
  2:{ split; simpl; rewrite ?E1, ?E3, ?E4, ?Hg; unfold observed; rewrite ?E6; try done.
      - lia.
      - unfold proof_while_elected. by rewrite E1, E3.
      - intros g Hgs Hvo. specialize (ni_vote_bound0 g Hgs Hvo). lia.
      - intros g Hgs Hvo Hlt. apply ni_vote_cover0; auto; lia.
      - intros g g' ? ? ? ? ? ?. apply ni_vote_one0; auto; lia.
      - intros s g ? ? ? ? ? ? ?. apply ni_lock0; auto; lia. }
  destruct Hg as (Hlr & Hrf & Hne & Hel & Hie & Hcase). rewrite Hn in Hne.
  destruct (node_vote_silent S T i n now cand Hinv Hel Hne) as [Hup Hsil].
  assert (Hold : p_issued s' = p_issued (n_part n) ∧ g ∈ S ∧ vote_of i g ∧ vg_candidate g = cand
                   ∧ vg_expires_at g ≤ n_voted n + L
                 ∨ g = new_grant (n_cfg n) epoch (p_term s') cand now
                   ∧ p_issued s' = <[p_term s' := g]> (p_issued (n_part n))).
  { destruct Hcase as [(Hi & Hl & _ & Hc)|(-> & Hi & _)]; [left|by right].
    destruct (ni_issued0 _ _ Hl) as [? ?]. split_and!; eauto. }
  assert (Hgc : vg_candidate g = cand).
  { destruct Hold as [(_ & _ & _ & ? & _)|[-> _]]; done. }
  assert (Hgv : vote_of i g).
  { destruct Hold as [(_ & _ & ? & _)|[-> _]]; [done|]. split; simpl; congruence. }
  assert (Hge : vg_expires_at g ≤ now + L).
  { destruct Hold as [(_ & _ & _ & _ & ?)|[-> _]]; simpl; rewrite ?Ht; lia. }
  assert (Hself : ∀ x, x ∈ g :: S → self_grant i x → x ∈ S).
  { intros x [->|]%elem_of_cons [? ?]; [|done]. destruct Hgv; congruence. }
  assert (Hvotes : ∀ x, x ∈ g :: S → vote_of i x → x = g ∨ x ∈ S) by (intros x ?%elem_of_cons; tauto).
  split; simpl; rewrite ?E1, ?E3, ?E4; unfold observed; rewrite ?E6; try done.
  - lia.
  - unfold proof_while_elected. by rewrite E1, E3.
  - intros t x. destruct Hold as [(-> & Hgs & _)|(_ & ->)].
    + intros Hx. destruct (ni_issued0 t x Hx). split; [set_solver|done].
    + rewrite lookup_insert. case_decide; [intros [= <-]; split; [set_solver|done]|].
      intros Hx. destruct (ni_issued0 t x Hx). split; [set_solver|done].
  - intros k x Hx. destruct (ni_received0 k x Hx) as (? & ? & ?). split_and!; [set_solver|done..].
  - intros p Hp. destruct (ni_proof0 p Hp) as (g1 & g2 & ? & ? & ? & ? & ? & ?).
    exists g1, g2. split_and!; try done; set_solver.
  - intros x Hx Hs. apply ni_self_bound0; auto.
  - intros x Hx Hv. destruct (Hvotes x Hx Hv) as [->|Hx']; [lia|].
    specialize (ni_vote_bound0 x Hx' Hv). lia.
  - intros x Hx Hv. destruct (Hvotes x Hx Hv) as [->|Hx']; [by rewrite Hgc|by apply ni_vote_up0].
  - intros x Hx Hv Hlt. destruct (Hvotes x Hx Hv) as [->|Hx'].
    { left. destruct Hcase as [(Hi & Hl & _ & _)|(_ & Hi & _)]; rewrite Hi.
      - by exists (p_term s'), g.
      - exists (p_term s'), g. by rewrite lookup_insert_eq. }
    destruct (ni_vote_cover0 x Hx' Hv) as [(t & g' & Hg' & Hc & Hle)|?]; [lia|left|by right].
    destruct Hcase as [(Hi & _)|(Hgn & Hi & Hover)]; rewrite Hi; [by exists t, g'|].
    destruct (decide (t = p_term s')) as [->|Hnt].
    + exists (p_term s'), g. rewrite lookup_insert_eq. split; [done|].
      assert (Hgn' : vg_expires_at g = now + L) by (subst g; simpl; by rewrite Ht).
      pose proof (ni_vote_bound0 x Hx' Hv). split; [|lia].
      destruct (Hover g' Hg') as [Hc'|Hexp]; [congruence|lia].
    + exists t, g'. by rewrite lookup_insert_ne by done.
  - assert (Hag : ∀ x, x ∈ g :: S → vote_of i x → now < vg_expires_at x → vg_candidate x = cand).
    { intros x Hx Hv Hlt. destruct (Hvotes x Hx Hv) as [->|Hx']; [done|].
      eapply node_vote_agrees; eauto; lia. }
    intros x y Hx Hy Hvx Hvy Hlx Hly. by rewrite (Hag x), (Hag y).
  - intros x h Hx Hs Hh. apply ni_snapshot0; auto.
  - intros s x Hs Hx Hss Hv H1 H2 H3. split; [by destruct (p_role (n_part n))|].
    assert (vg_candidate x = cand) as ->; [|by apply Hsil; auto].
    destruct (Hvotes x Hx Hv) as [->|Hx']; [done|]. eapply node_vote_agrees; eauto; lia.
Qed.

(** ** Polls *)

(** A view taken from the liveness dicts shows what they hold. *)
Lemma observed_view c obs m fl o i l s h :
  obs = (observations i m l).1 → h ≠ i → LivenessInv l →
  observed (observing c obs m fl o s) h
  = match pl_health l !! h, pl_since l !! h with
    | Some x, Some d => Some (mkObservation h x d)
    | _, _ => None
    end.
Proof.
  intros -> Hne Hl. rewrite (observed_observations i h m l) by done.
  destruct (pl_health l !! h) as [x|] eqn:Ex; [|done]. simpl.
  destruct (Hl h x Ex) as [d Hd]. by rewrite lookup_setdefault, Hd.
Qed.

(** While an own grant and a vote are both current, the member voted for is
    not yet counted as down, so this node cannot lead. *)
Lemma locked_not_leader S T i n m fl o s g :
  NodeInv S T i n → s ∈ S → g ∈ S → vote_of i g →
  silent_after (n_live n) (vg_candidate g) (vg_expires_at s - L) → m < vg_expires_at s →
  eligible_leader (n_cfg n)
    (observing (n_cfg n) (observations i m (n_live n)).1 m fl o (n_part n)) m ≠ Some i.
Proof.
  intros [] Hs Hg Hv Hsil Hlt Hel. destruct ni_cfg0 as (Hn & Hm & Ht).
  apply eligible_leader_spec in Hel as (_ & _ & Hdown); [|by rewrite Hm|by rewrite Hn].
  destruct (Hdown (vg_candidate g)) as [Hne Hst]; [by apply ni_vote_up0|].
  unfold higher_status in Hst. rewrite Hn in Hne.
  rewrite (observed_view _ _ _ _ _ i (n_live n)) in Hst by done.
  destruct (pl_health (n_live n) !! vg_candidate g) as [x|] eqn:Ex; [|done].
  destruct (ni_live0 _ _ Ex) as [d Hd]. rewrite Hd in Hst. simpl in Hst.
  destruct x; try done. destruct (Hsil d) as [_ Hu]. specialize (Hu Ex Hd).
  destruct (Z.leb_spec (tm_promotion (ep_timings (n_cfg n))) (m - d)); [|done].
  rewrite Ht in *. lia.
Qed.

(** A fresh own grant excludes every current vote. *)
Lemma fresh_excludes_votes S T i n m g :
  NodeInv S T i n → n_moment n ≤ m → issued_elsewhere (n_part n) i m = false →
  p_role (n_part n) = ELECTED ∨ restart_fenced (n_cfg n) m = false →
  g ∈ S → vote_of i g → m < vg_expires_at g → n_voted n < vg_expires_at g → False.
Proof.
  intros [] Hm Hi Hr Hg Hv Hlt Hlv.
  destruct (ni_vote_cover0 g Hg Hv Hlv) as [(t & g' & Hg' & Hc & Hle)|(f & Hf & Hle)].
  - destruct (ni_issued0 t g' Hg') as [_ [_ Hne]].
    rewrite issued_elsewhere_false in Hi. specialize (Hi t g' Hg' Hne). lia.
  - assert (f ≤ m); [|lia]. destruct Hr as [Hr|Hr].
    + pose proof (restart_fenced_false _ _ _ (ni_unfenced0 Hr) Hf). lia.
    + by eapply restart_fenced_false.
Qed.

Lemma silent_after_observations l h x i m :
  h ≠ i → silent_after l h x → silent_after (observations i m l).2 h x.
Proof.
  intros Hne Hs d. rewrite observations_health, observations_since by done. apply Hs.
Qed.

Lemma node_observe S T i n m fl o :
  n_moment n ≤ m ≤ T → prompt (n_live n) m → NodeInv S T i n →
  let view := observations i m (n_live n) in
  let s' := observe (n_cfg n) view.1 m fl o (n_part n) in
  NodeInv (own_grant s' i ++ S) T i (mkNode (n_cfg n) s' view.2 m (n_voted n)).
Proof.
  intros Hm Hprompt Hinv view s'. pose proof Hinv as [].
  destruct ni_cfg0 as (Hn & Hmem & Ht).
  set (s0 := observing (n_cfg n) view.1 m fl o (n_part n)).
  assert (Ha : advanced (n_cfg n) m s0 s') by (by apply advanced_observe).
  pose proof (advanced_proof_while_elected _ _ _ _ Ha) as Hpe.
  destruct Ha as [Ao Ai Ar Ae Ap]. rewrite Hn in Ar, Ae, Ap.
  set (fresh := new_grant (n_cfg n) (mc_epoch (ep_membership (n_cfg n))) (p_term s') i m) in *.
  assert (Hself : self_grant i fresh) by (by split).
  assert (Hexp : vg_expires_at fresh = m + L) by (simpl; by rewrite Ht).
  assert (Hin : ∀ g, g ∈ own_grant s' i ++ S →
            g ∈ S ∨ (g = fresh ∧ issued_elsewhere s0 i m = false
                     ∧ (p_role s0 = ELECTED ∨ restart_fenced (n_cfg n) m = false))).
  { intros g [Hg|]%elem_of_app; [|by left]. unfold own_grant in Hg.
    destruct (p_received s' !! (p_term s', i)) as [x|] eqn:Ex; [|by apply not_elem_of_nil in Hg].
    apply list_elem_of_singleton in Hg as ->.
    destruct (Ar _ _ Ex) as [Hr|(_ & ? & ?)]; [left|by right]. by destruct (ni_received0 _ _ Hr). }
  assert (Hrec : ∀ k g, p_received s' !! k = Some g →
            g ∈ own_grant s' i ++ S ∧ k = (vg_term g, vg_voter g) ∧ vg_candidate g = i).
  { intros k g Hk. destruct (Ar k g Hk) as [Hr|(-> & -> & _)].
    - destruct (ni_received0 _ _ Hr) as (? & ? & ?). split_and!; [set_solver|done..].
    - split_and!; [|by unfold fresh; simpl; rewrite Hn|done].
      apply elem_of_app. left. unfold own_grant. rewrite Hk. set_solver. }
  assert (Hvote : ∀ g, g ∈ own_grant s' i ++ S → vote_of i g → g ∈ S).
  { intros g Hg [? ?]. destruct (Hin g Hg) as [|[-> _]]; [done|]. by destruct Hself. }
  assert (Hobs : ∀ h, h ≠ i → pl_health (n_live n) !! h = Some UNREACHABLE →
            ∃ x, observed s' h = Some x ∧ mo_health x = UNREACHABLE).
  { intros h Hh Hu. unfold observed. rewrite Ao. fold (observed s0 h). unfold s0.
    rewrite (observed_view _ _ _ _ _ i (n_live n)), Hu by done.
    destruct (ni_live0 _ _ Hu) as [d ->]. eauto. }
  split; simpl; try done.
  - lia.
  - intros h x Hx. destruct (ni_live0 h x Hx) as [d Hd].
    unfold view; simpl. rewrite lookup_setdefault, Hd. eauto.
  - intros Hr. destruct (Ae Hr) as [Hr0|[_ ?]]; [|done].
    eapply restart_fenced_mono; [|by apply ni_unfenced0]. lia.
  - intros t g Hg. rewrite Ai in Hg. destruct (ni_issued0 t g Hg). split; [set_solver|done].
  - intros p Hp. destruct (Ap p Hp) as [_ [Hp0|(g1 & w & g2 & Hgs & Hw & H1 & H2)]].
    + destruct (ni_proof0 p Hp0) as (g1 & g2 & ? & ? & ? & ? & ? & ?).
      exists g1, g2. split_and!; try done; set_solver.
    + destruct (Hrec _ _ H1) as (? & E1 & ?), (Hrec _ _ H2) as (? & E2 & ?).
      exists g1, g2. split_and!; try done; [split; congruence|congruence].
  - intros g Hg Hs. destruct (Hin g Hg) as [Hg'|[-> _]]; [|lia].
    specialize (ni_self_bound0 g Hg' Hs). lia.
  - intros g Hg Hv. apply ni_vote_bound0; auto.
  - intros g Hg Hv. apply ni_vote_up0; auto.
  - intros g Hg Hv. rewrite Ai. apply ni_vote_cover0; auto.
  - intros g g' Hg Hg' Hv Hv'. apply ni_vote_one0; auto.
  - intros g h Hg Hs Hh. destruct (Hin g Hg) as [Hg'|[-> _]].
    + destruct (ni_snapshot0 g h Hg' Hs Hh) as [Hsil|[Hu _]]; [left|right; auto].
      by apply (silent_after_observations (n_live n)).
    + destruct (decide (pl_health (n_live n) !! h = Some UNREACHABLE)) as [Hu|Hu];
        [right; auto|left].
      rewrite Hexp. intros d. split; [|done]. intros Hd. specialize (Hprompt h d Hu Hd). lia.
  - intros s g Hs Hg Hss Hv H1 H2 H3. specialize (Hvote g Hg Hv).
    destruct (Hin s Hs) as [Hs'|(-> & Hi & Hr)].
    + destruct (ni_lock0 s g Hs' Hvote Hss Hv) as [Hne Hsil]; [lia..|]. split.
      * intros Hr. destruct (Ae Hr) as [?|[Hel _]]; [done|].
        by eapply (locked_not_leader S T i n m fl o s g).
      * destruct (ni_vote_up0 g Hvote Hv) as (? & ? & ? & ? & ?).
        apply (silent_after_observations (n_live n)); [by destruct Hv|done].
    + destruct (fresh_excludes_votes S T i n m g); auto; lia.
Qed.

(** ** The other calls *)

(** A call that keeps or drops what the node holds and signs nothing. *)
Lemma node_keep S T i n s' :
  NodeInv S T i n →
  (p_role s' = ELECTED → p_role (n_part n) = ELECTED) →
  (p_proof s' = None ∨ p_proof s' = p_proof (n_part n) ∧ p_role s' = p_role (n_part n)) →
  (∀ k g, p_received s' !! k = Some g →
     g ∈ S ∧ k = (vg_term g, vg_voter g) ∧ vg_candidate g = i) →
  p_issued s' = p_issued (n_part n) → p_observations s' = p_observations (n_part n) →
  NodeInv S T i (mkNode (n_cfg n) s' (n_live n) (n_moment n) (n_voted n)).
Proof.
  intros [] Hr Hp Hrec Hi Ho. split; simpl; rewrite ?Hi; unfold observed; rewrite ?Ho;
    try done; auto.
  - intros Hne. destruct Hp as [?|[Hp Hrole]]; [done|]. rewrite Hrole. apply ni_role0. congruence.
  - intros p Hps. destruct Hp as [?|[Hp _]]; [congruence|]. apply ni_proof0. congruence.
  - intros s g ? ? ? ? ? ? ?. destruct (ni_lock0 s g) as [? ?]; auto.
Qed.

Lemma verifies_key c g k :
  ep_membership c = mc → public_key_of c (vg_voter g) = Some k → grant_signed_by k g = true →
  verifies g = true.
Proof.
  unfold public_key_of, verifies. intros ->. destruct (member_named mc _); [|done].
  by intros [= ->].
Qed.

Lemma node_receive S T i n g now b s' :
  NodeInv S T i n → (g ∈ S ∨ verifies g = false) →
  receive_grant (n_cfg n) g now (n_part n) = (b, s') →
  NodeInv S T i (mkNode (n_cfg n) s' (n_live n) (n_moment n) (n_voted n)).
Proof.
  intros Hinv Hg Hr. pose proof Hinv as []. destruct ni_cfg0 as (Hn & Hm & _).
  apply receive_grant_spec in Hr as [->|(_ & -> & Hc & _ & Ht & _ & k & Hk & Hs)].
  - by apply node_keep; auto.
  - apply node_keep; auto. simpl. intros k' x. rewrite lookup_insert.
    case_decide as Hk'; [|by apply ni_received0]. intros [= <-].
    split_and!; [|done|congruence]. destruct Hg as [|Hg]; [done|].
    by rewrite (verifies_key _ _ _ Hm Hk Hs) in Hg.
Qed.

Lemma node_adopt S T i n term :
  NodeInv S T i n →
  NodeInv S T i (mkNode (n_cfg n) (adopt_term term (n_part n)) (n_live n) (n_moment n)
                        (n_voted n)).
Proof.
  intros Hinv. pose proof Hinv as []. apply node_keep; auto; unfold adopt_term; case_match; auto.
  intros k g. simpl. by rewrite lookup_empty.
Qed.

Lemma node_handback S T i n hb now b s' :
  NodeInv S T i n → accept_handback (n_cfg n) hb now (n_part n) = (b, s') →
  NodeInv S T i (mkNode (n_cfg n) s' (n_live n) (n_moment n) (n_voted n)).
Proof.
  intros Hinv Hh. pose proof Hinv as [].
  destruct (accept_handback_spec _ _ _ _ _ _ ni_role0 Hh)
    as [->|(_ & Hr & Hp & Hre & Hi & Ho & _)].
  - by apply node_keep; auto.
  - apply node_keep; rewrite ?Hre; auto; done.
Qed.

Lemma node_restart S T i n :
  NodeInv S T i n →
  let c := n_cfg n in
  let c' := mkConfig (ep_name c) (ep_membership c) (ep_timings c) (ep_private_key c)
                     (ep_has_journal c) (ep_has_listener c) (Some (T + L)) in
  NodeInv S T i (mkNode c' (initial_participant true T) empty_liveness (n_moment n) (n_voted n)).
Proof.
  intros [] c c'.
  split; simpl; try done; try exact ni_cfg0; try (intros ??; by rewrite lookup_empty).
  - by intros [].
  - intros g Hg Hv Hlt. right. exists (T + L). specialize (ni_vote_bound0 g Hg Hv). split; [done|lia].
  - intros g h Hg Hs Hh. left. intros d; simpl; by rewrite !lookup_empty.
Qed.

(** ** The invariant holds in every reachable state *)

Lemma Inv_update N S S' T i n n' :
  Inv (mkSystem N S T) → N !! i = Some n →
  (∀ g, g ∈ S → g ∈ S') → (∀ g, g ∈ S' → vg_voter g ≠ i → g ∈ S) →
  NodeInv S' T i n' → Inv (mkSystem (<[i := n']> N) S' T).
Proof.
  intros HI Hn Hin Hout Hn' j x. simpl. rewrite lookup_insert. case_decide as Hj.
  - intros [= <-]. by subst.
  - intros Hx. eapply NodeInv_frame; [done|done| |by apply (HI j x Hx)].
    intros g Hg <-. apply Hout; auto.
Qed.

Lemma step_Inv y y' : step y y' → Inv y → Inv y'.
Proof.
  intros Hs HI. destruct Hs as [N S T t Ht|N S T i n peer ok lat m Hn Hm Hp
    |N S T i n m fl o Hn Hm Hp view s'|N S T i n epoch term cand now g s' Hn Hnow Hv
    |N S T i n g now b s' Hn Hg Hr|N S T i n term Hn|N S T i n hb now b s' Hn Hh|N S T i n Hn c c'].
  - intros j n Hn. eapply NodeInv_frame; [exact Ht|done|done|by apply HI].
  - eapply Inv_update; [done|done|done|done|]. apply node_note; [done|by apply (HI i n Hn)].
  - eapply Inv_update; [done|done|set_solver| |apply node_observe; [done|done|by apply (HI i n Hn)]].
    intros g [Hg|]%elem_of_app Hne; [|done]. destruct Hne.
    unfold own_grant in Hg. destruct (p_received _ !! _) as [x|] eqn:Ex;
      [|by apply not_elem_of_nil in Hg]. apply list_elem_of_singleton in Hg as ->.
    pose proof (node_observe S T i n m fl o Hm Hp (HI i n Hn)) as [].
    simpl in *. by destruct (ni_received0 _ _ Ex) as (_ & [= _ ->] & _).
  - pose proof (node_vote S T i n epoch term cand now g s' Hnow (HI i n Hn) Hv) as Hnv.
    eapply Inv_update; [done|done|set_solver| |exact Hnv].
    intros x [Hx|]%elem_of_app Hne; [|done]. destruct Hne.
    destruct g as [g|]; [|by apply not_elem_of_nil in Hx]. apply list_elem_of_singleton in Hx as ->.
    apply vote_spec in Hv as (_ & _ & _ & _ & _ & _ & _ & Hc).
    destruct (HI i n Hn) as []. destruct ni_cfg0 as (<- & _).
    destruct Hc as [(_ & Hl & _)|[-> _]]; [|done]. by destruct (ni_issued0 _ _ Hl) as [_ [? _]].
  - eapply Inv_update; [done|done|done|done|]. eapply node_receive; eauto.
  - eapply Inv_update; [done|done|done|done|]. apply node_adopt. by apply (HI i n Hn).
  - eapply Inv_update; [done|done|done|done|]. eapply node_handback; eauto.
  - eapply Inv_update; [done|done|done|done|]. apply node_restart. by apply (HI i n Hn).
Qed.

Lemma initial_Inv y : initial y → Inv y.
Proof.
  intros (HS & _ & Hall) i n Hn. rewrite HS.
  destruct (Hall i n Hn) as (? & ? & ? & ? & (b & t & Hp) & Hl & ? & ?).
  split; rewrite ?Hp, ?Hl; simpl; try done; try (intros ??; by rewrite lookup_empty);
    try (intros; match goal with Hx : _ ∈ [] |- _ => by apply not_elem_of_nil in Hx end).
  by intros [].
Qed.

Lemma reachable_Inv y : reachable y → Inv y.
Proof.
  intros (y0 & H0 & Hr). apply initial_Inv in H0.
  induction Hr; eauto using step_Inv.
Qed.

Lemma reachable_present y i :
  reachable y → i ∈ FAILOVER_MEMBER_NAMES → is_Some (sys_nodes y !! i).
Proof.
  intros (y0 & (_ & Hp & _) & Hr) Hi. revert Hp.
  induction Hr as [y|y y1 y' Hs Hr IH]; intros Hp; [by apply Hp|]. apply IH.
  intros k Hk. destruct Hs; simpl in *; try apply Hp; try done;
    rewrite lookup_insert; case_decide; eauto.
Qed.

(** A member that serves under a quorum proof, not under break-glass. *)
Definition quorum_leader (n : Node) (now : Z) : bool :=
  serving (n_cfg n) (n_part n) now && negb (bool_decide (p_proof (n_part n) = None)).

Lemma quorum_leader_spec S T i n now :
  NodeInv S T i n → quorum_leader n now = true →
  p_role (n_part n) = ELECTED
  ∧ ∃ s g, s ∈ S ∧ g ∈ S ∧ self_grant i s ∧ vg_voter g ≠ i ∧ vg_candidate g = i
           ∧ now < vg_expires_at s ∧ now < vg_expires_at g ∧ vg_voter g ∈ FAILOVER_MEMBER_NAMES.
Proof.
  intros [] Hq. unfold quorum_leader, serving in Hq. bool_prop.
  destruct (bool_decide (p_role (n_part n) = ELECTED)) eqn:Er; [|done]. bool_prop. split; [done|].
  destruct (p_proof (n_part n)) as [p|] eqn:Ep; [|done]. simpl in *.
  rewrite andb_false_r in *. unfold proof_ok in *. rewrite Ep in *. bool_prop.
  destruct (ni_proof0 p eq_refl) as (s & g & Hgs & ? & ? & ? & ? & ?).
  unfold proof_is_valid_for, proof_is_current, grant_is_current in *.
  rewrite Hgs in *. simpl in *. bool_prop.
  exists s, g. split_and!; try done; try lia.
  destruct (member_named _ (vg_voter g)) as [m|] eqn:Em; [|done].
  apply member_named_elem in Em as [? <-]. destruct ni_cfg0 as (_ & Hm & _).
  eapply member_known; [|done]. by rewrite Hm.
Qed.

Lemma two_quorums_meet i j a b :
  i ∈ FAILOVER_MEMBER_NAMES → j ∈ FAILOVER_MEMBER_NAMES → a ∈ FAILOVER_MEMBER_NAMES →
  b ∈ FAILOVER_MEMBER_NAMES → i ≠ j → a ≠ i → b ≠ j → a = j ∨ b = i ∨ a = b.
Proof.
  unfold FAILOVER_MEMBER_NAMES. rewrite !elem_of_cons, !elem_of_nil.
  intros Hi Hj Ha Hb. destruct_or!; subst; auto; done.
Qed.

(** C1. At most one leader: in every state the cluster can reach, however
    polls, votes, grants, hand-backs, restarts and lost or forged messages
    interleave, two members that both serve under a current quorum proof are
    the same member, provided the promotion threshold is at least the lease
    plus the time a silent peer may go unnoticed. *)
Theorem at_most_one_quorum_leader y i j ni nj :
  reachable y → sys_nodes y !! i = Some ni → sys_nodes y !! j = Some nj →
  quorum_leader ni (sys_time y) = true → quorum_leader nj (sys_time y) = true → i = j.
Proof.
  intros Hre Hi Hj Qi Qj. pose proof (reachable_Inv y Hre) as HI. destruct (decide (i = j)) as [|Hne]; [done|exfalso].
  pose proof (HI i ni Hi) as Ii. pose proof (HI j nj Hj) as Ij.
  destruct (quorum_leader_spec _ _ _ _ _ Ii Qi) as (Ri & si & gi & ? & ? & ? & Hvi & Hci & ? & ? & Ki).
  destruct (quorum_leader_spec _ _ _ _ _ Ij Qj) as (Rj & sj & gj & ? & ? & ? & Hvj & Hcj & ? & ? & Kj).
  destruct (ni_time _ _ _ _ Ii), (ni_time _ _ _ _ Ij).
  destruct (two_quorums_meet i j (vg_voter gi) (vg_voter gj)) as [E|[E|E]]; try done;
    try (by eapply ni_known).
  - destruct (ni_lock _ _ _ _ Ij sj gi) as [? _]; try done; [split; congruence|lia..].
  - destruct (ni_lock _ _ _ _ Ii si gj) as [? _]; try done; [split; congruence|lia..].
  - destruct (reachable_present y (vg_voter gi) Hre Ki) as [nk Ek].
    pose proof (HI _ _ Ek) as Ik. destruct (ni_time _ _ _ _ Ik).
    destruct Hne. rewrite <- Hci, <- Hcj.
    eapply (ni_vote_one _ _ _ _ Ik gi gj); try done; try lia; split; congruence.
Qed.
End system.
