(* ===== verification/ElectionScenario.v ===== *)
(** * Runs of the cluster

    An executable version of the steps of [ElectionSafety], a concrete
    signature scheme, and two runs: an ordinary election, and the run that
    reaches two leaders when the promotion threshold equals the lease. *)
From stdpp Require Import pretty.
From S2P Require Import Prelude FailoverModels Election Liveness ElectionFacts ElectionSafety.
Open Scope Z_scope.

(** ** A signature scheme that satisfies the law: the text, tagged by the key *)

Fixpoint render (j : json) : string :=
  match j with
  | JNum n | JTime n => pretty n
  | JStr s => "'" +:+ s +:+ "'"
  | JNull => "null"
  | JArr l => "[" +:+ foldr (λ x acc, render x +:+ "," +:+ acc) "]" l
  | JObj fs => "{" +:+ foldr (λ '(k, x) acc, k +:+ ":" +:+ render x +:+ "," +:+ acc) "}" fs
  end.

#[global] Instance tag_crypto : Crypto := {|
  sign_ed25519 m k := k +:+ "|" +:+ render m;
  verify_ed25519 m s k := bool_decide (s = k +:+ "|" +:+ render m);
  public_key_b64 k := k;
  sha256_hex m := render m;
|}.

#[global] Instance tag_crypto_laws : CryptoLaws.
Proof. split. intros. by apply bool_decide_eq_true. Qed.

(** ** Actions *)

Inductive action :=
| ATime (t : Z)
| ANote (i peer : string) (ok : bool) (lat m : Z)
| AObserve (i : string) (m : Z)
| AVote (i : string) (term : Z) (cand : string) (now : Z)
| ADeliver (i : string) (k : nat) (now : Z)
| ARestart (i : string).

Section exec.
Context `{Crypto} (mc : FailoverMembershipConfig) (tm : ElectionTimings)
        (lk : LivenessConfig) (window : Z).

Definition prompt_b (l : PeerLiveness) (now : Z) : bool :=
  forallb (λ '(h, d), bool_decide (pl_health l !! h = Some UNREACHABLE)
                      || (now - d <=? window)) (map_to_list (pl_down_since l)).

Lemma prompt_b_true l now : prompt_b l now = true → prompt window l now.
Proof.
  unfold prompt_b. rewrite forallb_forall. intros Hall h d Hh Hd.
  specialize (Hall (h, d)). simpl in Hall.
  rewrite bool_decide_eq_false_2 in Hall by done. simpl in Hall.
  assert ((now - d <=? window) = true); [|lia].
  apply Hall. by apply list_elem_of_In, elem_of_map_to_list.
Qed.

Definition in_range (a b c : Z) : bool := (a <=? b) && (b <=? c).

Definition exec (y : System) (a : action) : option System :=
  let (N, S, T) := y in
  match a with
  | ATime t => if T <=? t then Some (mkSystem N S t) else None
  | ANote i peer ok lat m =>
      n ← N !! i;
      if in_range (n_moment n) m T && negb (bool_decide (peer = i)) then
        Some (mkSystem (<[i := mkNode (n_cfg n) (n_part n) (note lk peer ok lat m (n_live n)) m
                                      (n_voted n)]> N) S T)
      else None
  | AObserve i m =>
      n ← N !! i;
      if in_range (n_moment n) m T && prompt_b (n_live n) m then
        let view := observations i m (n_live n) in
        let s' := observe (n_cfg n) view.1 m 0 None (n_part n) in
        Some (mkSystem (<[i := mkNode (n_cfg n) s' view.2 m (n_voted n)]> N)
                       (own_grant s' i ++ S) T)
      else None
  | AVote i term cand now =>
      n ← N !! i;
      if in_range (n_voted n) now T then
        let (g, s') := vote (n_cfg n) (mc_epoch mc) term cand now (n_part n) in
        Some (mkSystem (<[i := mkNode (n_cfg n) s' (n_live n) (n_moment n) now]> N)
                       (option_list g ++ S) T)
      else None
  | ADeliver i k now =>
      n ← N !! i; g ← S !! k;
      let (_, s') := receive_grant (n_cfg n) g now (n_part n) in
      Some (mkSystem (<[i := mkNode (n_cfg n) s' (n_live n) (n_moment n) (n_voted n)]> N) S T)
  | ARestart i =>
      n ← N !! i;
      let c := n_cfg n in
      let c' := mkConfig (ep_name c) (ep_membership c) (ep_timings c) (ep_private_key c)
                         (ep_has_journal c) (ep_has_listener c) (Some (T + tm_lease tm)) in
      Some (mkSystem (<[i := mkNode c' (initial_participant true T) empty_liveness (n_moment n)
                                    (n_voted n)]> N) S T)
  end.

Lemma in_range_spec a b c : in_range a b c = true → a ≤ b ≤ c.
Proof. unfold in_range. intros. bool_prop. lia. Qed.

Lemma exec_step y a y' : exec y a = Some y' → step mc tm lk window y y'.
Proof.
  destruct y as [N S T]. unfold exec. intros He. destruct a.
  - case_match eqn:E; simplify_eq. constructor. lia.
  - destruct (N !! i) as [n|] eqn:En; [|done]. simpl in He. case_match eqn:E; simplify_eq.
    bool_prop. apply step_note; eauto using in_range_spec.
  - destruct (N !! i) as [n|] eqn:En; [|done]. simpl in He. case_match eqn:E; simplify_eq.
    bool_prop. apply step_observe; eauto using in_range_spec, prompt_b_true.
  - destruct (N !! i) as [n|] eqn:En; [|done]. simpl in He. case_match eqn:E; simplify_eq.
    destruct (vote _ _ _ _ _ _) as [g s'] eqn:Ev. simplify_eq.
    eapply step_vote; eauto using in_range_spec.
  - destruct (N !! i) as [n|] eqn:En; [|done]. simpl in He.
    destruct (S !! k) as [g|] eqn:Eg; [|done]. simpl in He.
    destruct (receive_grant _ _ _ _) as [b s'] eqn:Ev. simplify_eq.
    eapply step_receive; eauto. left. by eapply list_elem_of_lookup_2.
  - destruct (N !! i) as [n|] eqn:En; [|done]. simpl in He. simplify_eq. by apply step_restart.
Qed.

Definition run (acts : list action) (y : System) : option System :=
  foldl (λ o a, y ← o; exec y a) (Some y) acts.

Lemma run_steps acts y y' : run acts y = Some y' → rtc (step mc tm lk window) y y'.
Proof.
  revert y y'. induction acts as [|a acts IH] using rev_ind; intros y y' Hr; unfold run in *.
  - simpl in Hr. simplify_eq. apply rtc_refl.
  - rewrite foldl_app in Hr. simpl in Hr.
    destruct (foldl _ _ acts) as [y1|] eqn:E; [|done]. simpl in Hr.
    eapply rtc_r; [exact (IH _ _ E)|exact (exec_step _ _ _ Hr)].
Qed.
End exec.

(** ** A deployment *)

Definition demo_membership : FailoverMembershipConfig :=
  mkMembership 1 [mkMember "coire-core" 0 "kc"; mkMember "coire-edge-a" 1 "ka";
                  mkMember "coire-edge-b" 2 "kb"] "core-1".

Definition demo_node (tm : ElectionTimings) (name key : string) : Node :=
  mkNode (mkConfig name demo_membership tm key true true None)
         (initial_participant true 0) empty_liveness 0 0.

Definition demo_system (tm : ElectionTimings) : System :=
  mkSystem {["coire-core" := demo_node tm "coire-core" "kc";
             "coire-edge-a" := demo_node tm "coire-edge-a" "ka";
             "coire-edge-b" := demo_node tm "coire-edge-b" "kb"]} [] 0.

Lemma demo_initial tm : initial demo_membership tm (demo_system tm).
Proof.
  split; [done|]. split.
  - intros i. unfold FAILOVER_MEMBER_NAMES. rewrite !elem_of_cons, elem_of_nil.
    intros Hi. destruct_or!; subst; eauto; done.
  - intros i n. simpl. rewrite !lookup_insert_Some, lookup_singleton_Some.
    intros Hi. destruct_or!; destruct_and!; subst; split_and!; simpl; try done; eauto; set_solver.
Qed.

Definition sec (n : Z) : Z := n * 1000000.
Definition demo_liveness : LivenessConfig := mkLivenessConfig 3 3 50.

(** Core falls silent at time 0; edge-b votes for edge-a after [at_] seconds. *)
Definition election_run (at_ : Z) : list action :=
  [ATime (sec 4);
   ANote "coire-edge-a" "coire-core" false 0 0; ANote "coire-edge-a" "coire-core" false 0 (sec 2);
   ANote "coire-edge-a" "coire-core" false 0 (sec 4); ANote "coire-edge-a" "coire-edge-b" true 5 (sec 4);
   ANote "coire-edge-b" "coire-core" false 0 0; ANote "coire-edge-b" "coire-core" false 0 (sec 2);
   ANote "coire-edge-b" "coire-core" false 0 (sec 4); ANote "coire-edge-b" "coire-edge-a" true 5 (sec 4);
   ATime (sec at_); AObserve "coire-edge-a" (sec at_); AObserve "coire-edge-b" (sec at_);
   AVote "coire-edge-b" 1 "coire-edge-a" (sec at_); ADeliver "coire-edge-a" 0 (sec at_);
   AObserve "coire-edge-a" (sec at_)].

(** Edge-b restarts; core answers edge-a slowly once and then misses beats
    while edge-a renews its own grant, loses edge-b's and votes for core. *)
Definition split_run : list action :=
  election_run 15 ++
  [ATime (sec 16); ARestart "coire-edge-b";
   ATime (sec 22); ANote "coire-edge-b" "coire-core" false 0 (sec 18);
   ANote "coire-edge-b" "coire-core" false 0 (sec 20); ANote "coire-edge-b" "coire-core" false 0 (sec 22);
   ANote "coire-edge-b" "coire-edge-a" true 5 (sec 22);
   ANote "coire-edge-a" "coire-core" true 100 (sec 21); AObserve "coire-edge-a" (sec 21);
   ATime (sec 30); ANote "coire-edge-a" "coire-core" false 0 (sec 24);
   ANote "coire-edge-a" "coire-core" false 0 (sec 30); AObserve "coire-edge-a" (sec 30);
   ANote "coire-core" "coire-edge-a" true 5 (sec 30); AObserve "coire-core" (sec 30);
   ATime (sec 31); AVote "coire-edge-a" 1 "coire-core" (sec 31);
   ADeliver "coire-core" 0 (sec 31); AObserve "coire-core" (sec 31);
   ATime (sec 36); ANote "coire-edge-a" "coire-core" false 0 (sec 36);
   AObserve "coire-edge-a" (sec 36);
   ATime (sec 39); AObserve "coire-edge-b" (sec 39); AObserve "coire-edge-a" (sec 39);
   AVote "coire-edge-b" 1 "coire-edge-a" (sec 39); ADeliver "coire-edge-a" 0 (sec 39);
   AObserve "coire-edge-a" (sec 39); ATime (sec 40)].

(** promotion, demotion, lease, drain *)
Definition default_timings : ElectionTimings := mkTimings (sec 15) (sec 45) (sec 15) (sec 30).
Definition safe_timings : ElectionTimings := mkTimings (sec 21) (sec 45) (sec 15) (sec 30).

Definition leads (y : System) (i : string) : bool :=
  match sys_nodes y !! i with Some n => quorum_leader n (sys_time y) | None => false end.

Lemma reachable_run tm window acts y :
  run demo_membership tm demo_liveness window acts (demo_system tm) = Some y →
  reachable demo_membership tm demo_liveness window y.
Proof. intros Hr%run_steps. exists (demo_system tm). by split; [apply demo_initial|]. Qed.

Lemma leads_node y i : leads y i = true →
  ∃ n, sys_nodes y !! i = Some n ∧ quorum_leader n (sys_time y) = true.
Proof. unfold leads. destruct (sys_nodes y !! i); [eauto|done]. Qed.

Definition elected_system : option System :=
  Eval cbv delta [demo_system] in
  run demo_membership safe_timings demo_liveness (sec 6) (election_run 21)
      (demo_system safe_timings).

(** C1 at the end of an ordinary election: edge-a leads, alone. *)
Lemma at_most_one_quorum_leader_witness :
  match elected_system with
  | Some y => leads y "coire-edge-a" = true ∧ ∀ j, leads y j = true → "coire-edge-a" = j
  | None => False
  end.
Proof.
  destruct elected_system as [y|] eqn:Er; [|vm_compute in Er; discriminate Er].
  assert (Ha : leads y "coire-edge-a" = true)
    by (vm_compute in Er; injection Er as <-; vm_compute; reflexivity).
  split; [exact Ha|]. intros j Hj.
  destruct (leads_node y _ Ha) as (na & Ea & Qa). destruct (leads_node y j Hj) as (nj & Ej & Qj).
  refine (at_most_one_quorum_leader demo_membership safe_timings demo_liveness (sec 6)
            _ _ _ y "coire-edge-a" j na nj _ Ea Ej Qa Qj).
  - vm_compute. reflexivity.
  - vm_compute. discriminate.
  - vm_compute. discriminate.
  - apply (reachable_run safe_timings (sec 6) (election_run 21)). exact Er.
Defined.

(** C24. The margin of C1 is needed: with the shipped thresholds, where the
    promotion threshold equals the lease, and polls every six seconds, the
    cluster reaches a state in which edge-a and core both serve under a
    current quorum proof. *)
Theorem split_brain_with_default_timings :
  ∃ y, reachable demo_membership default_timings demo_liveness (sec 6) y
       ∧ leads y "coire-edge-a" = true ∧ leads y "coire-core" = true.
Proof.
  destruct (run demo_membership default_timings demo_liveness (sec 6) split_run
                (demo_system default_timings)) as [y|] eqn:Er;
    [|vm_compute in Er; discriminate Er].
  exists y. split; [exact (reachable_run _ _ _ _ Er)|].
  vm_compute in Er. injection Er as <-. vm_compute. done.
Qed.
