(* ===== verification/ElectionProgress.v ===== *)
(** * A healthy candidate is elected

    One exchange suffices: a candidate with no eligible leader above it polls, asks
    for a vote, stores the grant and polls again, and is then elected and serves. *)
From S2P Require Import Prelude FailoverModels Election Liveness ElectionFacts.
Open Scope Z_scope.

Section progress.
Context `{Crypto} (c : Config).

(** A member that has just looked around. *)
Definition looking (obs : list MemberObservation) : Participant :=
  set_p_observations obs (initial_participant true 0).

(** The observations make this member the eligible leader of a visible quorum. *)
Definition ready (obs : list MemberObservation) (now : Z) : Prop :=
  eligible_leader c (looking obs) now = Some (ep_name c)
  ∧ (2 ≤ size (visible c (looking obs)))%nat ∧ restart_fenced c now = false.

Lemma eligible_leader_ext s s' now :
  p_observations s = p_observations s' → p_override s = p_override s' →
  eligible_leader c s now = eligible_leader c s' now.
Proof.
  intros Ho Hv. unfold eligible_leader. induction (sorted_on _ _) as [|m ms IH]; [done|]. simpl.
  unfold inhibit_applies, higher_status, observed. by rewrite IH, Ho, Hv.
Qed.

Lemma visible_ext s s' : p_observations s = p_observations s' → visible c s = visible c s'.
Proof.
  intros Ho. unfold visible. do 2 f_equal. apply filter_ext_in. intros n _.
  unfold sees, observed. by rewrite Ho.
Qed.

Lemma issued_elsewhere_later s n t t' :
  t ≤ t' → issued_elsewhere s n t = false → issued_elsewhere s n t' = false.
Proof.
  intros Ht Hf. apply not_true_iff_false. apply not_true_iff_false in Hf. intros Hx. apply Hf.
  unfold issued_elsewhere in *. rewrite existsb_exists in *. destruct Hx as ([k g] & Hin & Hg).
  exists (k, g). split; [done|]. unfold grant_is_current in *. bool_prop.
  apply andb_true_iff. split; [by apply negb_true_iff, bool_decide_eq_false|]. lia.
Qed.

(** What a ready member does in one poll. *)
Lemma advance_ready s obs now :
  p_role s = STANDBY ∨ p_role s = CANDIDATE → p_override s = None → p_observations s = obs →
  p_outage s = false → ready obs now →
  advance c now s =
  emit c (let s := ensure_self_grant c now (become_candidate (set_p_reclaim_since None s)) in
          match try_proof c s now with Some p => promote c (Some p) false s | None => s end).
Proof.
  intros Hr Ho Hobs Hout (Hel & Hq & Hf).
  assert (Hi : inhibit_applies c s now = false) by (unfold inhibit_applies; rewrite Ho; by destruct (negb _)).
  assert (El : eligible_leader c s now = Some (ep_name c)).
  { rewrite <- Hel. by apply eligible_leader_ext. }
  assert (Ev : visible c s = visible c (looking obs)) by (by apply visible_ext).
  assert (Hc : campaign c now s = let s := ensure_self_grant c now (become_candidate (set_p_reclaim_since None s)) in
    match try_proof c s now with Some p => promote c (Some p) false s | None => s end).
  { unfold campaign, may_campaign, may_campaign_base. rewrite El, Hf, Ev.
    rewrite !bool_decide_eq_true_2 by done. simpl. rewrite Hout. simpl.
    case_match; [done|]. unfold break_glass_ok at 1.
    pose proof (ensure_self_grant_spec c now (become_candidate (set_p_reclaim_since None s))) as [Hv _].
    injection Hv as _ _ _ _ _ Hov. rewrite Hov.
    destruct (become_candidate_spec (set_p_reclaim_since None s)) as (_ & _ & _ & _ & Hbo & _);
      [simpl; destruct Hr; congruence..|].
    rewrite Hbo. simpl. by rewrite Ho. }
  unfold advance. rewrite Hi, Hc. destruct Hr as [Hr|Hr]; rewrite Hr; simpl;
    by rewrite ?bool_decide_eq_false_2 by done.
Qed.

(** The grants a candidate has in its current term. *)
Lemma try_proof_alone s now :
  (∀ v g, p_received s !! (p_term s, v) = Some g → v = ep_name c) → try_proof c s now = None.
Proof.
  intros Halone. unfold try_proof. destruct (counted c s now (ep_name c)); [|done]. simpl.
  rewrite filter_none; [done|]. intros v ([w g] & -> & Hin)%list_elem_of_fmap Hne.
  apply elem_of_counted_grants in Hin as [Hr _]. simpl in Hne. by apply Hne, (Halone w g).
Qed.

Lemma try_proof_quorum s now mine voter theirs :
  voter ≠ ep_name c →
  p_received s !! (p_term s, ep_name c) = Some mine → p_received s !! (p_term s, voter) = Some theirs →
  (∀ v g, p_received s !! (p_term s, v) = Some g → v = ep_name c ∨ v = voter) →
  countable_grant c s now (ep_name c) mine = true → countable_grant c s now voter theirs = true →
  let p := mkProof (mc_epoch (ep_membership c)) (p_term s) (ep_name c) [mine; theirs] in
  PromotionProof_valid p = true → proof_is_valid_for (ep_membership c) now p = true →
  try_proof c s now = Some p.
Proof.
  intros Hne Hm Ht Honly Cm Ct p Hv Hfor. unfold try_proof.
  rewrite (proj2 (counted_spec c s now (ep_name c) mine)) by done. simpl.
  assert (Hin : voter ∈ filter (λ v, v ≠ ep_name c) (fst <$> counted_grants c s now)).
  { apply list_elem_of_filter. split; [done|]. apply list_elem_of_fmap. exists (voter, theirs).
    split; [done|]. by apply elem_of_counted_grants. }
  destruct (min_string_is_Some _ _ Hin) as [w Hw]. rewrite Hw. simpl.
  assert (w = voter) as ->.
  { apply min_string_elem, list_elem_of_filter in Hw as [Hwn ([w' g] & -> & Hg)%list_elem_of_fmap].
    apply elem_of_counted_grants in Hg as [Hg _]. destruct (Honly _ _ Hg); [done|done]. }
  rewrite (proj2 (counted_spec c s now voter theirs)) by done. simpl. fold p. by rewrite Hv, Hfor.
Qed.

(** What [_emit] and [_ensure_self_grant] leave alone. *)
Definition fields (s : Participant) :=
  (p_role s, p_term s, p_proof s, p_issued s, p_outage s, p_now s, (p_observations s, p_override s)).

Lemma emit_fields s : fields (emit c s) = fields s ∧ p_received (emit c s) = p_received s.
Proof. unfold emit. by repeat (case_match; simpl). Qed.

Lemma ensure_self_grant_fields now s : fields (ensure_self_grant c now s) = fields s.
Proof. unfold ensure_self_grant. by repeat (case_match; simpl). Qed.

Definition own (term now : Z) : ElectionVoteGrant :=
  new_grant c (mc_epoch (ep_membership c)) term (ep_name c) now.

(** A ready member without grants becomes a candidate with its own. *)
Lemma first_poll s obs now fl :
  p_role s = STANDBY ∨ p_role s = CANDIDATE → p_outage s = false → p_received s = ∅ →
  issued_elsewhere s (ep_name c) now = false → ready obs now →
  let s1 := observe c obs now fl None s in
  fields s1 = (CANDIDATE, p_term s1, p_proof s, p_issued s, false, now, (obs, None))
  ∧ p_received s1 = {[(p_term s1, ep_name c) := own (p_term s1) now]} ∧ p_term s ≤ p_term s1.
Proof.
  intros Hr Hout Hrec Hiss Hready. unfold observe. simpl override_is_authentic.
  set (s0 := set_p_now now _).
  rewrite (advance_ready s0 obs now) by done. cbv zeta.
  destruct (become_candidate_spec (set_p_reclaim_since None s0)) as (B1 & B2 & B3 & B4 & B5 & B6);
    [simpl; destruct Hr; congruence..|].
  set (s1 := become_candidate _) in *.
  assert (Hrec1 : p_received s1 = ∅) by (destruct B6 as [[-> _]|[-> _]]; done).
  assert (Hf1 : p_outage s1 = false ∧ p_now s1 = now).
  { unfold s1, become_candidate. case_bool_decide; simpl; [case_match|]; by split. }
  assert (He : ensure_self_grant c now s1
    = set_p_received {[(p_term s1, ep_name c) := own (p_term s1) now]} s1).
  { unfold ensure_self_grant. rewrite (issued_elsewhere_ext s s1) by done.
    rewrite Hiss, Hrec1, lookup_empty. by rewrite insert_empty. }
  rewrite He. rewrite try_proof_alone.
  - rewrite (proj1 (emit_fields _)), (proj2 (emit_fields _)). simpl.
    assert (Hterm : ∀ x, p_term (emit c x) = p_term x) by (intros x; unfold emit; by repeat case_match).
    rewrite Hterm. simpl. unfold fields. simpl. destruct Hf1 as [-> ->].
    rewrite B1, B2, B3, B4, B5. split; [done|]. split; [done|].
    destruct B6 as [[_ ->]|[_ ->]]; simpl; lia.
  - simpl. intros v g Hv. apply lookup_singleton_Some in Hv as [[= <-] _]. done.
Qed.

(** A grant of [voter] for [candidate] in the term, valid at [now] for this membership. *)
Definition good_grant (term : Z) (candidate voter : string) (now : Z) (g : ElectionVoteGrant) : Prop :=
  vg_epoch g = mc_epoch (ep_membership c) ∧ vg_term g = term ∧ vg_candidate g = candidate
  ∧ vg_voter g = voter ∧ grant_is_current now g = true
  ∧ match public_key_of c voter with Some k => grant_signed_by k g = true | None => False end.

Lemma good_countable s voter now g :
  good_grant (p_term s) (ep_name c) voter now g → countable_grant c s now voter g = true.
Proof.
  intros (_ & _ & Hc & _ & Hcur & Hk). unfold countable_grant. rewrite Hc, Hcur.
  rewrite bool_decide_eq_true_2 by done. simpl. by destruct (public_key_of c voter).
Qed.

Lemma quorum_proof_valid term mine voter theirs now :
  voter ≠ ep_name c → known_member (ep_name c) = true → 1 ≤ mc_epoch (ep_membership c) → 1 ≤ term →
  good_grant term (ep_name c) (ep_name c) now mine → good_grant term (ep_name c) voter now theirs →
  let p := mkProof (mc_epoch (ep_membership c)) term (ep_name c) [mine; theirs] in
  PromotionProof_valid p = true ∧ proof_is_valid_for (ep_membership c) now p = true
  ∧ proof_is_current now p = true.
Proof.
  intros Hne Hk He Ht (E1 & T1 & C1 & V1 & N1 & K1) (E2 & T2 & C2 & V2 & N2 & K2) p.
  assert (Hcur : proof_is_current now p = true).
  { unfold proof_is_current. simpl. by rewrite N1, N2. }
  split_and!; [| |done].
  - assert (Hs : size (list_to_set [ep_name c; voter] : gset string) = 2%nat).
    { rewrite list_to_set_cons, list_to_set_singleton, size_union, !size_singleton; [done|]. set_solver. }
    unfold PromotionProof_valid. cbn [p pp_epoch pp_term pp_candidate pp_grants forallb].
    change (vg_voter <$> [mine; theirs]) with [vg_voter mine; vg_voter theirs].
    rewrite Hk, E1, T1, C1, V1, E2, T2, C2, V2.
    by rewrite !andb_true_iff, !bool_decide_eq_true, !Z.eqb_eq, !Z.leb_le.
  - unfold proof_is_valid_for. rewrite Hcur. simpl. rewrite Z.eqb_refl, V1, V2. simpl.
    unfold public_key_of in K1, K2.
    destruct (member_named _ (ep_name c)); [|done]. destruct (member_named _ voter); [|done].
    simpl in K1, K2. by rewrite K1, K2.
Qed.

Context `{!CryptoLaws}.

Lemma new_grant_good (vc : Config) term candidate now t :
  ep_membership vc = ep_membership c → now ≤ t < now + tm_lease (ep_timings vc) →
  public_key_of c (ep_name vc) = Some (public_key_b64 (ep_private_key vc)) →
  good_grant term candidate (ep_name vc) t
    (new_grant vc (mc_epoch (ep_membership c)) term candidate now).
Proof.
  intros Hm Ht Hk. unfold good_grant. rewrite Hk. simpl. split_and!; [done..| |].
  - unfold grant_is_current. simpl. lia.
  - unfold grant_signed_by, new_grant, sign_grant. simpl. apply verify_sign.
Qed.

(** A candidate with its own grant and another's is elected at its next poll. *)
Lemma second_poll s obs t1 now fl voter theirs :
  p_role s = CANDIDATE → p_outage s = false → 1 ≤ p_term s →
  p_received s = <[(p_term s, voter) := theirs]> {[(p_term s, ep_name c) := own (p_term s) t1]} →
  issued_elsewhere s (ep_name c) now = false → ready obs now → voter ≠ ep_name c →
  known_member (ep_name c) = true → 1 ≤ mc_epoch (ep_membership c) →
  public_key_of c (ep_name c) = Some (public_key_b64 (ep_private_key c)) →
  0 < tm_lease (ep_timings c) → t1 ≤ now → good_grant (p_term s) (ep_name c) voter now theirs →
  let s' := observe c obs now fl None s in
  p_role s' = ELECTED ∧ is_Some (p_proof s') ∧ serving c s' now = true.
Proof.
  intros Hrole Hout Hterm Hrec Hiss Hready Hne Hkn Hep Hkey Hlease Hnow Hgood.
  unfold observe. simpl override_is_authentic. set (s0 := set_p_now now _).
  rewrite (advance_ready s0 obs now) by auto. cbv zeta.
  assert (Hb : become_candidate (set_p_reclaim_since None s0) = set_p_reclaim_since None s0).
  { unfold become_candidate. rewrite bool_decide_eq_false_2; [done|]. simpl. by rewrite Hrole. }
  rewrite Hb. set (s1 := set_p_reclaim_since None s0).
  assert (He : ∃ mine, good_grant (p_term s) (ep_name c) (ep_name c) now mine
    ∧ p_received (ensure_self_grant c now s1)
      = <[(p_term s, ep_name c) := mine]> (<[(p_term s, voter) := theirs]> ∅)).
  { unfold ensure_self_grant. rewrite (issued_elsewhere_ext s s1), Hiss by done. simpl. rewrite Hrec.
    rewrite lookup_insert_ne, lookup_singleton_eq by congruence.
    destruct (grant_is_current now (own (p_term s) t1) && _ && _) eqn:Ef; simpl.
    - exists (own (p_term s) t1). bool_prop. split.
      + apply new_grant_good; [done| |done]. unfold grant_is_current, own, new_grant in *. simpl in *. lia.
      + rewrite Hrec. rewrite <- insert_empty. by rewrite insert_insert_ne by congruence.
    - exists (own (p_term s) now). split; [apply new_grant_good; [done|lia|done]|].
      rewrite <- insert_empty, (insert_insert_ne _ (p_term s, voter)), insert_insert_eq by congruence. done. }
  destruct He as (mine & Hmine & Hrec').
  pose proof (ensure_self_grant_fields now s1) as Hf. set (s2 := ensure_self_grant c now s1) in *.
  injection Hf as F1 F2 F3 F4 F5 F6 F7 F8.
  destruct (quorum_proof_valid (p_term s) mine voter theirs now) as (Hv & Hfor & Hcur); [done..|].
  set (p := mkProof _ _ _ _) in *.
  assert (Hp : try_proof c s2 now = Some p).
  { pose proof (try_proof_quorum s2 now mine voter theirs) as Q. rewrite F2 in Q. apply Q; clear Q; try done.
    - by rewrite Hrec', lookup_insert_eq.
    - by rewrite Hrec', lookup_insert_ne, lookup_insert_eq by congruence.
    - intros v g. rewrite Hrec', !lookup_insert, lookup_empty.
      repeat case_decide; [left; congruence|right; congruence|done].
    - apply good_countable. by rewrite F2.
    - apply good_countable. by rewrite F2. }
  rewrite Hp. pose proof (view_emit c (promote c (Some p) false s2)) as V.
  rewrite view_promote in V. injection V as V1 _ V3 _ _ _ V7.
  unfold serving, break_glass_ok, proof_ok. rewrite V1, V3, V7, F8. simpl. split_and!; [done..|].
  by rewrite Hcur, Hfor.
Qed.

(** A voter that agrees and has not voted in the term, and may not lead itself. *)
Record willing (vc : Config) (sb : Participant) (term now : Z) : Prop := {
  wi_membership : ep_membership vc = ep_membership c;
  wi_other : ep_name vc ≠ ep_name c;
  wi_leader : eligible_leader vc sb now = Some (ep_name c);
  wi_role : is_leader_role (p_role sb) = false;
  wi_free : issued_elsewhere sb (ep_name c) now = false;
  wi_term : p_term sb ≤ term;
  wi_unvoted : p_issued sb !! term = None;
  wi_fence : restart_fenced vc now = false;
  wi_key : public_key_of c (ep_name vc) = Some (public_key_b64 (ep_private_key vc));
}.

Lemma willing_votes vc sb term now :
  known_member (ep_name c) = true → willing vc sb term now →
  ∃ sb', vote vc (mc_epoch (ep_membership c)) term (ep_name c) now sb
         = (Some (new_grant vc (mc_epoch (ep_membership c)) term (ep_name c) now), sb').
Proof.
  intros Hk [Hm Hne Hl Hr Hf Ht Hu Hfence Hkey]. unfold vote, vote_base. rewrite Hfence, Hm, Z.eqb_refl. simpl.
  rewrite bool_decide_eq_false_2 by congruence. rewrite Hk, Hl, bool_decide_eq_true_2 by done. simpl.
  rewrite Hr, Hf. rewrite (proj2 (Z.ltb_ge _ _)) by lia.
  assert (Hterm : p_term (if p_term sb <? term then set_p_term term sb else sb) = term).
  { destruct (Z.ltb_spec (p_term sb) term); simpl; lia. }
  assert (Hiss : p_issued (if p_term sb <? term then set_p_term term sb else sb) = p_issued sb).
  { by destruct (p_term sb <? term). }
  rewrite Hterm, Hiss, Hu. by eexists.
Qed.

(** C12. Elections succeed: when a member polls with every higher member down and a
    quorum in sight, it asks for a vote; a willing voter grants it; the grant is
    accepted; and at its next poll, while that grant is current, the member is elected
    with a quorum proof and serves. *)
Theorem election_round_elects s obs t1 fl vc sb tv tr obs2 t2 fl2 :
  known_member (ep_name c) = true → 1 ≤ mc_epoch (ep_membership c) → 0 < tm_lease (ep_timings c) →
  public_key_of c (ep_name c) = Some (public_key_b64 (ep_private_key c)) →
  p_role s = STANDBY ∨ p_role s = CANDIDATE → p_outage s = false → p_received s = ∅ → 1 ≤ p_term s →
  issued_elsewhere s (ep_name c) t1 = false → ready obs t1 → ready obs2 t2 →
  let s1 := observe c obs t1 fl None s in
  willing vc sb (p_term s1) tv →
  t1 ≤ t2 → tv ≤ tr → tv ≤ t2 → tr < tv + tm_lease (ep_timings vc) → t2 < tv + tm_lease (ep_timings vc) →
  ∃ request grant sb' s2,
    issue_vote_request c s1 = Some request
    ∧ vote vc (vr_epoch request) (vr_term request) (vr_candidate request) tv sb = (Some grant, sb')
    ∧ receive_grant c grant tr s1 = (true, s2)
    ∧ let s3 := observe c obs2 t2 fl2 None s2 in
      p_role s3 = ELECTED ∧ is_Some (p_proof s3) ∧ serving c s3 t2 = true.
Proof.
  intros Hkn Hep Hlease Hkey Hr Hout Hrec Hterm Hiss Hready Hready2 s1 Hw Ht Htr Htv Htr2 Ht2.
  destruct (first_poll s obs t1 fl Hr Hout Hrec Hiss Hready) as (Hf & Hrec1 & Hge). fold s1 in Hf, Hrec1, Hge.
  injection Hf as F1 F3 F4 F5 F6 F7 F8.
  destruct (willing_votes vc sb (p_term s1) tv Hkn Hw) as [sb' Hv].
  destruct Hw as [Hm Hne _ _ _ _ _ _ Hkey'].
  assert (El : eligible_leader c s1 t1 = Some (ep_name c)).
  { rewrite <- (proj1 Hready). by apply eligible_leader_ext. }
  set (g := new_grant vc _ _ _ _) in Hv.
  assert (Hgood : ∀ t, tv ≤ t < tv + tm_lease (ep_timings vc) →
    good_grant (p_term s1) (ep_name c) (ep_name vc) t g) by (intros t Hbt; by apply new_grant_good).
  destruct (Hgood tr) as (G1 & G2 & G3 & G4 & G5 & G6); [lia|].
  eexists _, g, sb', _. split_and!.
  - unfold issue_vote_request. rewrite F1, F6, El, (bool_decide_eq_true_2 (CANDIDATE = CANDIDATE)) by done.
    simpl. rewrite bool_decide_eq_true_2 by done. reflexivity.
  - exact Hv.
  - unfold receive_grant. rewrite G1, G2, G3, G4, G5, !Z.eqb_refl, bool_decide_eq_true_2 by done. simpl.
    rewrite Hkey' in *. rewrite G6. simpl. rewrite Hrec1, lookup_singleton_ne by congruence. reflexivity.
  - apply (second_poll _ obs2 t1 t2 fl2 (ep_name vc) g); simpl; try done; [lia| |apply Hgood; lia].
    eapply issued_elsewhere_later; [exact Ht|]. etrans; [|exact Hiss]. by apply issued_elsewhere_ext.
Qed.
End progress.

(** ** The core is down and edge-a takes over *)
From S2P Require Import ElectionSafety ElectionScenario.

Definition takeover_timings : ElectionTimings := mkTimings 30 60 15 10.
Definition takeover_config (name key : string) : Config :=
  mkConfig name demo_membership takeover_timings key true true None.
Definition takeover_view (peer : string) : list MemberObservation :=
  [mkObservation "coire-core" UNREACHABLE 0; mkObservation peer HEALTHY 0].

Lemma takeover_ready t : 30 ≤ t → ready (takeover_config "coire-edge-a" "ka") (takeover_view "coire-edge-b") t.
Proof.
  intros Ht. split_and!; [|vm_compute; lia|done].
  unfold eligible_leader.
  change (sorted_on fm_priority (mc_members (ep_membership (takeover_config "coire-edge-a" "ka"))))
    with (mc_members demo_membership).
  simpl. unfold higher_status. simpl. by rewrite (proj2 (Z.leb_le _ _)) by lia.
Qed.

Lemma election_round_elects_witness :
  let c := takeover_config "coire-edge-a" "ka" in
  let vc := takeover_config "coire-edge-b" "kb" in
  let sb := set_p_observations (takeover_view "coire-edge-a") (initial_participant true 0) in
  let s1 := observe c (takeover_view "coire-edge-b") 40 0 None (initial_participant true 0) in
  ∃ request grant sb' s2,
    issue_vote_request c s1 = Some request
    ∧ vote vc (vr_epoch request) (vr_term request) (vr_candidate request) 41 sb = (Some grant, sb')
    ∧ receive_grant c grant 42 s1 = (true, s2)
    ∧ let s3 := observe c (takeover_view "coire-edge-b") 43 0 None s2 in
      p_role s3 = ELECTED ∧ is_Some (p_proof s3) ∧ serving c s3 43 = true.
Proof.
  intros c vc sb s1.
  apply (election_round_elects c (initial_participant true 0) (takeover_view "coire-edge-b") 40 0 vc sb 41 42
    (takeover_view "coire-edge-b") 43 0); try (vm_compute; reflexivity); try (vm_compute; discriminate);
    [by left|by apply takeover_ready|by apply takeover_ready|].
  split; try (vm_compute; reflexivity); vm_compute; discriminate.
Defined.
