(* ===== verification/Effects.v ===== *)
(** * Stateful, fallible calls

    A method of a Python object reads and writes the object and either returns
    or raises; what it wrote before raising stays written.  [M S E A] is such a
    call: it maps the object's state to its outcome and the state it leaves. *)
From S2P Require Import Prelude.
Open Scope Z_scope.

Definition M (S E A : Type) : Type := S → result E A * S.

Section monad.
Context {S E : Type}.

#[global] Instance M_ret : MRet (M S E) := λ A a s, (Ok a, s).
#[global] Instance M_bind : MBind (M S E) := λ A B f m s,
  match m s with
  | (Ok a, s') => f a s'
  | (Err e, s') => (Err e, s')
  end.

Definition get : M S E S := λ s, (Ok s, s).
Definition put (s : S) : M S E unit := λ _, (Ok tt, s).
Definition modify (f : S → S) : M S E unit := λ s, (Ok tt, f s).
Definition throw {A} (e : E) : M S E A := λ s, (Err e, s).
(** [if c: raise e] *)
Definition throw_if (c : bool) (e : E) : M S E unit := if c then throw e else mret tt.
(** A call that does not touch the state. *)
Definition lift {A} (r : result E A) : M S E A := λ s, (r, s).
(** A value that is missing raises. *)
Definition some_or {A} (e : E) (o : option A) : M S E A :=
  match o with Some a => mret a | None => throw e end.
(** [with journal.transaction():] commits what the body wrote if it returns, and
    rolls all of it back if it raises. *)
Definition transaction {A} (m : M S E A) : M S E A := λ s,
  match m s with
  | (Ok a, s') => (Ok a, s')
  | (Err e, _) => (Err e, s)
  end.
(** [try: m except e: h(e); raise] *)
Definition on_error {A} (m : M S E A) (h : E → M S E unit) : M S E A := λ s,
  match m s with
  | (Err e, s') => mbind (λ _, throw e) (h e) s'
  | r => r
  end.
(** [try: m finally: h()] *)
Definition finally {A} (m : M S E A) (h : M S E unit) : M S E A := λ s,
  match m s with
  | (Ok a, s') => mbind (λ _, mret a) h s'
  | (Err e, s') => mbind (λ _, throw e) h s'
  end.
(** [try: m except ...: raise g(e)] *)
Definition map_error {A} (g : E → E) (m : M S E A) : M S E A := λ s,
  match m s with
  | (Err e, s') => (Err (g e), s')
  | r => r
  end.
(** [for x in xs: f(x)] *)
Fixpoint for_each {A} (f : A → M S E unit) (xs : list A) : M S E unit :=
  match xs with
  | [] => mret tt
  | x :: xs => mbind (λ _, for_each f xs) (f x)
  end.
End monad.

(** How a call runs, by its first step. *)
Section run.
Context {S E A B : Type}.
Implicit Types (m : M S E A) (f : A → M S E B) (s : S).

Lemma run_bind_Ok m f s b s' :
  (m ≫= f) s = (Ok b, s') ↔ ∃ a s1, m s = (Ok a, s1) ∧ f a s1 = (Ok b, s').
Proof.
  unfold mbind, M_bind. destruct (m s) as [[a|e] s1]; split.
  - by exists a, s1.
  - by intros (? & ? & [= -> ->] & ?).
  - done.
  - by intros (? & ? & ? & ?).
Qed.

Lemma run_bind_cases m f s r s' :
  (m ≫= f) s = (r, s') →
  (∃ e, m s = (Err e, s') ∧ r = Err e) ∨ (∃ a s1, m s = (Ok a, s1) ∧ f a s1 = (r, s')).
Proof.
  unfold mbind, M_bind. destruct (m s) as [[a|e] s1]; intros Hr; [right; eauto|left].
  simplify_eq. eauto.
Qed.

Lemma run_throw_if_Err c e s e' s' :
  @throw_if S E c e s = (Err e', s') ↔ c = true ∧ e' = e ∧ s' = s.
Proof. destruct c; cbv; naive_solver. Qed.

Lemma run_some_or_Err e (o : option A) s e' s' :
  @some_or S E A e o s = (Err e', s') ↔ o = None ∧ e' = e ∧ s' = s.
Proof. destruct o; cbv; naive_solver. Qed.

Lemma run_throw_if_Ok c e s (u : unit) s' :
  @throw_if S E c e s = (Ok u, s') ↔ c = false ∧ s' = s.
Proof. destruct c, u; cbv; naive_solver. Qed.

Lemma run_some_or_Ok e (o : option A) s a s' :
  @some_or S E A e o s = (Ok a, s') ↔ o = Some a ∧ s' = s.
Proof. destruct o; cbv; naive_solver. Qed.

Lemma run_ret_Ok a s a' s' : (mret a : M S E A) s = (Ok a', s') ↔ a' = a ∧ s' = s.
Proof. cbv. naive_solver. Qed.

Lemma run_get_Ok s s1 s' : @get S E s = (Ok s1, s') ↔ s1 = s ∧ s' = s.
Proof. cbv. naive_solver. Qed.

Lemma run_throw_Ok e s a s' : @throw S E A e s = (Ok a, s') ↔ False.
Proof. cbv. naive_solver. Qed.

Lemma run_lift_Ok (r : result E A) s a s' :
  @lift S E A r s = (Ok a, s') ↔ r = Ok a ∧ s' = s.
Proof. cbv. naive_solver. Qed.

Lemma run_transaction_Ok m s a s' : transaction m s = (Ok a, s') ↔ m s = (Ok a, s').
Proof. unfold transaction. destruct (m s) as [[]]; naive_solver. Qed.

Lemma run_transaction_Err m s e s' : transaction m s = (Err e, s') → s' = s.
Proof. unfold transaction. destruct (m s) as [[]]; naive_solver. Qed.

Lemma run_transaction_raises m s e : (m s).1 = Err e → transaction m s = (Err e, s).
Proof. unfold transaction. destruct (m s) as [[]]; simpl; congruence. Qed.

Lemma run_on_error m (h : E → M S E unit) s r s' :
  on_error m h s = (r, s') →
  (m s = (r, s') ∧ is_ok r = true)
  ∨ ∃ e s1, m s = (Err e, s1) ∧ (h e ≫= λ _, throw e) s1 = (r, s').
Proof.
  unfold on_error. destruct (m s) as [[a|e] s1] eqn:Em; intros Hr; [left|right; eauto].
  by injection Hr as <- <-.
Qed.

Lemma run_modify_Ok g s (u : unit) s' :
  @modify S E g s = (Ok u, s') ↔ s' = g s.
Proof. destruct u. cbv. naive_solver. Qed.
End run.

(** Read a successful run backwards, one call at a time. *)
Ltac inv_run :=
  repeat match goal with
  | H : (_ ≫= _) _ = (Ok _, _) |- _ =>
      apply run_bind_Ok in H as (? & ? & ? & H)
  | H : throw_if _ _ _ = (Ok _, _) |- _ => apply run_throw_if_Ok in H as [? ->]
  | H : some_or _ _ _ = (Ok _, _) |- _ => apply run_some_or_Ok in H as [? ->]
  | H : mret _ _ = (Ok _, _) |- _ => apply run_ret_Ok in H as [-> ->]
  | H : get _ = (Ok _, _) |- _ => apply run_get_Ok in H as [-> ->]
  | H : throw _ _ = (Ok _, _) |- _ => apply run_throw_Ok in H as []
  | H : lift _ _ = (Ok _, _) |- _ => apply run_lift_Ok in H as [? ->]
  | H : modify _ _ = (Ok _, _) |- _ => apply run_modify_Ok in H as ->
  | H : transaction _ _ = (Ok _, _) |- _ => apply (proj1 (run_transaction_Ok _ _ _ _)) in H
  | H : (Ok _, _) = (Ok _, _) |- _ => injection H as ? ?; subst
  | H : (Err _, _) = (Ok _, _) |- _ => discriminate H
  end.

Ltac units := repeat match goal with u : unit |- _ => destruct u end.

(** Split a run at its first call: it raised, or it returned and the rest ran. *)
Ltac walk H :=
  repeat match type of H with
  | (_ ≫= _) _ = (_, _) =>
      let Hm := fresh "Hm" in
      apply run_bind_cases in H as [(? & Hm & ->)|(? & ? & Hm & H)];
      [ first [ apply run_throw_if_Err in Hm as (? & -> & ->)
              | apply run_some_or_Err in Hm as (? & -> & ->)
              | discriminate Hm
              | idtac ]
      | first [ apply run_throw_if_Ok in Hm as [? ->]
              | apply run_some_or_Ok in Hm as [? ->]
              | apply run_get_Ok in Hm as [-> ->]
              | apply run_modify_Ok in Hm as ->
              | idtac ] ]
  end.

(** [preserved I m]: whatever [m] returns or raises, it leaves a state in [I]. *)
Definition preserved {S E A} (I : S → Prop) (m : M S E A) : Prop :=
  ∀ s, I s → I (m s).2.

Create HintDb effects discriminated.

Section preserved.
Context {S E : Type} (I : S → Prop).

Lemma preserved_ret {A} (a : A) : preserved I (mret a : M S E A).
Proof. by intros s. Qed.
Lemma preserved_get : preserved I (@get S E).
Proof. by intros s. Qed.
Lemma preserved_throw {A} e : preserved I (@throw S E A e).
Proof. by intros s. Qed.
Lemma preserved_throw_if c e : preserved I (@throw_if S E c e).
Proof. by destruct c; intros s. Qed.
Lemma preserved_lift {A} r : preserved I (@lift S E A r).
Proof. by intros s. Qed.
Lemma preserved_some_or {A} e (o : option A) : preserved I (@some_or S E A e o).
Proof. by destruct o; intros s. Qed.
Lemma preserved_bind {A B} (m : M S E A) (f : A → M S E B) :
  preserved I m → (∀ a, preserved I (f a)) → preserved I (m ≫= f).
Proof.
  intros Hm Hf s Hs. unfold mbind, M_bind. specialize (Hm s Hs).
  destruct (m s) as [[a|e] s1]; simpl in *; [by apply Hf|done].
Qed.
Lemma preserved_transaction {A} (m : M S E A) : preserved I m → preserved I (transaction m).
Proof. intros Hm s Hs. unfold transaction. specialize (Hm s Hs). by destruct (m s) as [[] ?]. Qed.
Lemma preserved_on_error {A} (m : M S E A) h :
  preserved I m → (∀ e, preserved I (h e)) → preserved I (on_error m h).
Proof.
  intros Hm Hh s Hs. unfold on_error. specialize (Hm s Hs).
  destruct (m s) as [[|e] s1]; [done|].
  apply (preserved_bind _ _ (Hh e)); [intros; apply preserved_throw|done].
Qed.
Lemma preserved_modify g : (∀ s, I s → I (g s)) → preserved I (@modify S E g).
Proof. intros Hg s. apply Hg. Qed.
End preserved.

#[export] Hint Resolve preserved_ret preserved_get preserved_throw preserved_throw_if
  preserved_lift preserved_some_or preserved_bind preserved_modify preserved_transaction preserved_on_error : effects.

(** [steps R m]: whatever [m] returns or raises, the state it leaves is related to the
    state it found. *)
Definition steps {S E A} (R : relation S) (m : M S E A) : Prop := ∀ s, R s (m s).2.

Section steps.
Context {S E : Type} (R : relation S) `{!PreOrder R}.

Lemma steps_same {A} (m : M S E A) : (∀ s, (m s).2 = s) → steps R m.
Proof. intros H s. by rewrite H. Qed.
Lemma steps_ret {A} (a : A) : steps R (mret a : M S E A).
Proof. by apply steps_same. Qed.
Lemma steps_get : steps R (@get S E).
Proof. by apply steps_same. Qed.
Lemma steps_throw {A} e : steps R (throw e : M S E A).
Proof. by apply steps_same. Qed.
Lemma steps_throw_if c e : steps R (@throw_if S E c e).
Proof. apply steps_same. by destruct c. Qed.
Lemma steps_some_or {A} e (o : option A) : steps R (@some_or S E A e o).
Proof. apply steps_same. by destruct o. Qed.
Lemma steps_modify f : (∀ s, R s (f s)) → steps R (@modify S E f).
Proof. intros Hf s. apply Hf. Qed.
Lemma steps_bind {A B} (m : M S E A) (f : A → M S E B) :
  steps R m → (∀ a, steps R (f a)) → steps R (m ≫= f).
Proof.
  intros Hm Hf s. unfold mbind, M_bind. specialize (Hm s).
  destruct (m s) as [[a|e] s1]; simpl in *; [|done]. etrans; [done|apply Hf].
Qed.
Lemma steps_transaction {A} (m : M S E A) : steps R m → steps R (transaction m).
Proof. intros Hm s. unfold transaction. specialize (Hm s). by destruct (m s) as [[] ?]. Qed.
Lemma steps_finally {A} (m : M S E A) h : steps R m → steps R h → steps R (finally m h).
Proof.
  intros Hm Hh s. unfold finally. specialize (Hm s).
  destruct (m s) as [[a|e] s1]; simpl in *; (etrans; [done|]).
  - apply (steps_bind h (λ _, mret a)); [done|intros; apply steps_ret].
  - apply (steps_bind h (λ _, throw e)); [done|intros; apply steps_throw].
Qed.
Lemma steps_on_error {A} (m : M S E A) h : steps R m → (∀ e, steps R (h e)) → steps R (on_error m h).
Proof.
  intros Hm Hh s. unfold on_error. specialize (Hm s).
  destruct (m s) as [[a|e] s1]; simpl in *; [done|]. etrans; [done|].
  apply (steps_bind (h e) (λ _, throw e)); [done|intros; apply steps_throw].
Qed.
Lemma steps_map_error {A} g (m : M S E A) : steps R m → steps R (map_error g m).
Proof. intros Hm s. unfold map_error. specialize (Hm s). by destruct (m s) as [[]]. Qed.
Lemma steps_for_each {A} (f : A → M S E unit) xs : (∀ x, steps R (f x)) → steps R (for_each f xs).
Proof.
  intros Hf. induction xs as [|x xs IH]; simpl; [apply steps_ret|].
  apply steps_bind; [apply Hf|done].
Qed.
(** The same at one state. *)
Lemma steps_read {A} (f : S → M S E A) : (∀ s, R s (f s s).2) → steps R (get ≫= f).
Proof. intros Hf s. apply Hf. Qed.
Lemma steps_transaction_at {A} (m : M S E A) s : R s (m s).2 → R s (transaction m s).2.
Proof. intros Hm. unfold transaction. by destruct (m s) as [[] ?]. Qed.
Lemma steps_bind_at {A B} (m : M S E A) (f : A → M S E B) s :
  R s (m s).2 → (∀ a, steps R (f a)) → R s ((m ≫= f) s).2.
Proof.
  intros Hm Hf. unfold mbind, M_bind. destruct (m s) as [[a|e] s1]; simpl in *; [|done].
  etrans; [done|apply Hf].
Qed.
Lemma steps_some_or_at {A B} e (o : option A) (f : A → M S E B) s :
  (∀ a, o = Some a → R s (f a s).2) → R s ((some_or e o ≫= f) s).2.
Proof. intros Hf. destruct o as [a|]; [by apply Hf|done]. Qed.
Lemma steps_throw_if_at {B} c e (f : unit → M S E B) s :
  (c = false → R s (f tt s).2) → R s ((throw_if c e ≫= f) s).2.
Proof. intros Hf. destruct c; [done|by apply Hf]. Qed.
End steps.
