(* ===== verification/JsonDoc.v ===== *)
(** * Parsed JSON documents

    What [json.loads] builds, before the objects become dictionaries: an object
    is its list of pairs in the order of the text, so that a repeated key can
    still be seen (the [object_pairs_hook] of the journals). *)
From S2P Require Import Prelude.
Open Scope Z_scope.

#[local] Set Warnings "-register-all".
Inductive js :=
| VNull
| VBool (b : bool)
| VInt (z : Z)
(** a float, with its integer value when it has one *)
| VFloat (exact : option Z)
| VStr (s : string)
| VArr (l : list js)
| VObj (fields : list (string * js)).

Fixpoint field (name : string) (fields : list (string * js)) : option js :=
  match fields with
  | [] => None
  | (k, v) :: rest => if String.eqb k name then Some v else field name rest
  end.

(** Every object, at every depth, has distinct keys. *)
Fixpoint unique_keys (v : js) : bool :=
  match v with
  | VArr l => forallb unique_keys l
  | VObj fs => bool_decide (NoDup (fs.*1)) && forallb (λ '(_, x), unique_keys x) fs
  | _ => true
  end.

(** [v == n] for an integer [n]: Python compares floats by value. *)
Definition equals_int (v : js) (n : Z) : bool :=
  match v with
  | VInt z => z =? n
  | VFloat (Some z) => z =? n
  | VBool b => (if b then 1 else 0) =? n
  | _ => false
  end.

Definition as_string (v : js) : option string :=
  match v with VStr s => Some s | _ => None end.
Definition as_int (v : js) : option Z :=
  match v with VInt z => Some z | _ => None end.
Definition as_bool (v : js) : option bool :=
  match v with VBool b => Some b | _ => None end.

Fixpoint all_strings (l : list js) : option (list string) :=
  match l with
  | [] => Some []
  | v :: l' => s ← as_string v; rest ← all_strings l'; Some (s :: rest)
  end.

Lemma all_strings_map l : all_strings (VStr <$> l) = Some l.
Proof. induction l as [|s l IH]; [done|]. cbn [fmap list_fmap all_strings as_string mbind option_bind]. by rewrite IH. Qed.
