(* ===== verification/Ledger.v ===== *)
(** * The node's reservation ledger

    [ReservationLedger] of coire_node/reservations.py: memory and disk holds of
    one node, journalled so that a restarted agent finds them again.  The state
    is the object's dictionaries together with the journal file; the host (file
    system, memory, engine and trainer callbacks) is the argument [Host], one
    snapshot of it per call.  [Reservation.model_validate] and its siblings are
    pydantic: the class [Wire] is what the ledger relies on.  A request is kept
    in the metadata as its validated value, where the code keeps its dump. *)
From stdpp Require Import pretty.
From S2P Require Import Prelude Effects JsonDoc.
Open Scope Z_scope.

Abbreviation uuid := string (only parsing).
Abbreviation path := string (only parsing).

(** ** Data: models/acquisition.py *)

Inductive ReservationState := HELD | RELEASED | EXPIRED.
#[global] Instance ReservationState_eq : EqDecision ReservationState.
Proof. solve_decision. Defined.

Record ReservationRequest := mkRequest {
  rr_idempotency_key : uuid;
  rr_workflow_id : uuid;
  rr_variant_id : uuid;
  rr_memory_bytes : Z;
  rr_disk_bytes : Z;
}.
#[global] Instance ReservationRequest_eq : EqDecision ReservationRequest.
Proof. solve_decision. Defined.

Record Reservation := mkReservation {
  rv_id : uuid;
  rv_state : ReservationState;
  rv_memory_bytes : Z;
  rv_disk_bytes : Z;
  rv_occupants : list string;
}.
#[global] Instance Reservation_eq : EqDecision Reservation.
Proof. solve_decision. Defined.

(** [uuid.UUID(text)] followed by [str], and the pydantic models as JSON. *)
Class Wire := {
  uuid_parse : string → option uuid;
  dump_reservation : Reservation → js;
  validate_reservation : js → option Reservation;
  dump_request : ReservationRequest → js;
  validate_request : js → option ReservationRequest;
  dump_size : js → Z;
}.

Section models.
Context `{Wire}.

Definition canonical (u : uuid) : Prop := uuid_parse u = Some u.

Definition ReservationRequest_valid (r : ReservationRequest) : bool :=
  bool_decide (uuid_parse (rr_idempotency_key r) = Some (rr_idempotency_key r))
  && bool_decide (uuid_parse (rr_workflow_id r) = Some (rr_workflow_id r))
  && bool_decide (uuid_parse (rr_variant_id r) = Some (rr_variant_id r))
  && (0 <? rr_memory_bytes r) && (0 <? rr_disk_bytes r).

Definition Reservation_valid (r : Reservation) : bool :=
  bool_decide (uuid_parse (rv_id r) = Some (rv_id r))
  && (0 <? rv_memory_bytes r) && (0 <? rv_disk_bytes r).
End models.

(** Pydantic reads back what it dumped, and a dump repeats no key. *)
Class WireLaws `{Wire} : Prop := {
  validate_dump_reservation r :
    Reservation_valid r = true → validate_reservation (dump_reservation r) = Some r;
  validate_dump_request r :
    ReservationRequest_valid r = true → validate_request (dump_request r) = Some r;
  unique_dump_reservation r : unique_keys (dump_reservation r) = true;
  unique_dump_request r : unique_keys (dump_request r) = true;
  dump_request_not_null r : dump_request r ≠ VNull;
  validate_reservation_valid v r :
    validate_reservation v = Some r → Reservation_valid r = true;
  validate_request_valid v r :
    validate_request v = Some r → ReservationRequest_valid r = true;
  uuid_parse_canonical s u : uuid_parse s = Some u → uuid_parse u = Some u;
}.

Record Metadata := mkMetadata {
  md_request : option ReservationRequest;
  md_disk_root : option path;
  md_disk_device : option Z;
  md_disk_floor_bytes : Z;
  md_require_stop : bool;
  md_disk_credit_bytes : Z;
  md_materialized_paths : list path;
  md_owner_kind : option string;
}.
#[global] Instance Metadata_eq : EqDecision Metadata.
Proof. solve_decision. Defined.

(** The journal file: absent, not openable, or a file whose ownership and mode
    are private or not, with its length and what [json.loads] makes of it. *)
Inductive JournalFile :=
| NoFile
| OpenFails
| File (private : bool) (size : Z) (content : option js).

Record Ledger := mkLedger {
  l_items : gmap uuid Reservation;
  l_metadata : gmap uuid Metadata;
  l_owners : gset uuid;
  l_unavailable : bool;
  l_file : JournalFile;
}.

Definition set_items v (s : Ledger) := mkLedger v (l_metadata s) (l_owners s) (l_unavailable s) (l_file s).
Definition set_metadata v (s : Ledger) := mkLedger (l_items s) v (l_owners s) (l_unavailable s) (l_file s).
Definition set_owners v (s : Ledger) := mkLedger (l_items s) (l_metadata s) v (l_unavailable s) (l_file s).
Definition set_unavailable v (s : Ledger) := mkLedger (l_items s) (l_metadata s) (l_owners s) v (l_file s).
Definition set_file v (s : Ledger) := mkLedger (l_items s) (l_metadata s) (l_owners s) (l_unavailable s) v.

Inductive LedgerError :=
| LedgerUnavailable
| Refused (impossible : bool) (required committed budget : Z)
| Conflict (required committed : Z)
| InvalidRequest
| UnsafeScope
| NotAdmitted
| HostError.
#[global] Instance LedgerError_eq : EqDecision LedgerError.
Proof. solve_decision. Defined.

(** How the write of the journal ends: it is replaced, or it fails before or
    after the rename. *)
Inductive Write := Written | FailedBefore | FailedAfter.

Record Host := mkHost {
  h_is_symlink : path → bool;
  h_is_dir : path → bool;
  (** [resolve(strict=True)], [stat().st_dev] and [disk_usage().free]; [None]
      is an [OSError] *)
  h_resolve : path → option path;
  h_st_dev : path → option Z;
  h_disk_free : path → option Z;
  h_store_root : path;
  h_training_root : path;
  (** [int(fraction * total)] *)
  h_budget : Z;
  h_committed_engine_bytes : Z;
  (** the callbacks; the outer [None] is a callback that is not configured, the
      inner one a call that raises or returns no integer *)
  h_additional_held : option (path → option Z);
  h_quota : option Z;
  h_quota_usage : option (option Z);
  h_admitted : bool;
  h_release_check : uuid → bool;
  h_footprint : uuid → option Z;
  h_write : Write;
}.

Definition is_absolute (p : path) : bool := String.prefix "/" p.
Definition is_relative_to (p root : path) : bool :=
  String.eqb p root || String.prefix (root +:+ "/") p.

Definition MAX_JOURNAL_BYTES : Z := 16 * 1024 * 1024.
Definition owner_kind_ok (k : option string) : bool :=
  match k with None => true | Some s => String.eqb s "artifact-import" end.

Section ledger.
Context `{Wire}.

(** ** Reading the journal *)

Definition optional_fields : gset string :=
  {["disk_credit_bytes"; "materialized_paths"; "owner_kind"]}.
Definition required_fields : gset string :=
  {["reservation"; "request"; "disk_root"; "disk_device"; "disk_floor_bytes"; "require_stop"]}.

Definition require (b : bool) : option unit := if b then Some tt else None.

(** [null], or a value of the right type: [Some None] and [Some (Some a)]. *)
Definition nullable {A} (read : js → option A) (v : js) : option (option A) :=
  match v with VNull => Some None | _ => Some <$> read v end.

Definition load_paths (v : js) : option (list path) :=
  match v with
  | VArr l => ps ← all_strings l; require (forallb is_absolute ps);; Some ps
  | _ => None
  end.

Definition load_owner_kind (v : js) : option (option string) :=
  k ← nullable as_string v; require (owner_kind_ok k);; Some k.

(** The identity a stored request must repeat. *)
Definition request_matches (ident : uuid) (item : Reservation)
    (request : option ReservationRequest) : bool :=
  bool_decide (rv_id item = ident)
  && match request with
     | None => true
     | Some q => bool_decide (rr_idempotency_key q = ident)
                 && (rr_memory_bytes q =? rv_memory_bytes item)
                 && (rr_disk_bytes q =? rv_disk_bytes item)
     end.

Definition both_or_neither {A B} (a : option A) (b : option B) : bool :=
  match a, b with None, None | Some _, Some _ => true | _, _ => false end.

Definition load_record (key : string) (record : js) : option (uuid * Reservation * Metadata) :=
  ident ← uuid_parse key;
  fs ← match record with VObj fs => Some fs | _ => None end;
  require (bool_decide (list_to_set (fs.*1) ∖ optional_fields = required_fields));;
  item ← field "reservation" fs ≫= validate_reservation;
  credit ← as_int (default (VInt 0) (field "disk_credit_bytes" fs));
  require ((0 <=? credit) && (credit <=? rv_disk_bytes item));;
  paths ← load_paths (default (VArr []) (field "materialized_paths" fs));
  owner_kind ← load_owner_kind (default VNull (field "owner_kind" fs));
  request ← field "request" fs ≫= nullable validate_request;
  require (request_matches ident item request);;
  disk_root ← field "disk_root" fs ≫= nullable as_string;
  require (match disk_root with Some p => is_absolute p | None => true end);;
  disk_device ← field "disk_device" fs ≫= nullable as_int;
  require (match disk_device with Some d => 0 <=? d | None => true end);;
  floor ← field "disk_floor_bytes" fs ≫= as_int;
  require (0 <=? floor);;
  require_stop ← field "require_stop" fs ≫= as_bool;
  require (both_or_neither disk_root disk_device);;
  Some (ident, item,
        mkMetadata request disk_root disk_device floor require_stop credit paths owner_kind).

(** Legacy holds prove neither their file system nor their request. *)
Definition legacy_metadata : Metadata := mkMetadata None None None 0 false 0 [] None.

Definition load_legacy (key : string) (value : js) : option (uuid * Reservation * Metadata) :=
  ident ← uuid_parse key;
  item ← validate_reservation value;
  require (bool_decide (rv_id item = ident));;
  Some (ident, item, legacy_metadata).

(** The loops of [_load]: [self._metadata] is written as records are read. *)
Fixpoint load_all (read : string → js → option (uuid * Reservation * Metadata))
    (records : list (string * js)) (items : gmap uuid Reservation)
    (md : gmap uuid Metadata) : option (gmap uuid Reservation) * gmap uuid Metadata :=
  match records with
  | [] => (Some items, md)
  | (key, record) :: rest =>
      match read key record with
      | None => (None, md)
      | Some (ident, item, m) =>
          load_all read rest (<[ident := item]> items) (<[ident := m]> md)
      end
  end.

Definition load_document (v : js) (md : gmap uuid Metadata)
    : option (gmap uuid Reservation) * gmap uuid Metadata :=
  match v with
  | VObj fs =>
      if match field "schema_version" fs with Some n => equals_int n 2 | None => false end then
        match field "items" fs with
        | Some (VObj records) =>
            if bool_decide (list_to_set (fs.*1) = ({["schema_version"; "items"]} : gset string))
            then load_all load_record records ∅ md else (None, md)
        | _ => (None, md)
        end
      else load_all load_legacy fs ∅ md
  | _ => (None, md)
  end.

Definition load (file : JournalFile) (md : gmap uuid Metadata)
    : option (gmap uuid Reservation) * gmap uuid Metadata :=
  match file with
  | NoFile => (Some ∅, md)
  | OpenFails => (None, md)
  | File private size content =>
      if negb private || (MAX_JOURNAL_BYTES <? size) then (None, md)
      else match content with
           | Some v => if unique_keys v then load_document v md else (None, md)
           | None => (None, md)
           end
  end.

(** [ReservationLedger.__init__]: an unreadable journal raises. *)
Definition init (file : JournalFile) : result LedgerError Ledger :=
  match load file ∅ with
  | (Some items, md) => Ok (mkLedger items md ∅ false file)
  | (None, _) => Err LedgerUnavailable
  end.

(** ** Writing the journal *)

Definition dump_opt {A} (f : A → js) (o : option A) : js :=
  match o with Some a => f a | None => VNull end.

Definition dump_record (item : Reservation) (m : Metadata) : js :=
  VObj [("reservation", dump_reservation item);
        ("request", dump_opt dump_request (md_request m));
        ("disk_root", dump_opt VStr (md_disk_root m));
        ("disk_device", dump_opt VInt (md_disk_device m));
        ("disk_floor_bytes", VInt (md_disk_floor_bytes m));
        ("require_stop", VBool (md_require_stop m));
        ("disk_credit_bytes", VInt (md_disk_credit_bytes m));
        ("materialized_paths", VArr (VStr <$> md_materialized_paths m));
        ("owner_kind", dump_opt VStr (md_owner_kind m))].

Definition dump_ledger (s : Ledger) : js :=
  VObj [("schema_version", VInt 2);
        ("items", VObj ((λ '(k, item),
                           (k, dump_record item (default legacy_metadata (l_metadata s !! k))))
                        <$> map_to_list (l_items s)))].

Abbreviation Call := (M Ledger LedgerError).

Definition save (h : Host) : Call unit :=
  s ← get;
  let data := dump_ledger s in
  let replaced := set_file (File true (dump_size data) (Some data)) in
  if MAX_JOURNAL_BYTES <? dump_size data
  then modify (set_unavailable true);; throw LedgerUnavailable
  else match h_write h with
       | Written => modify replaced
       | FailedBefore => modify (set_unavailable true);; throw LedgerUnavailable
       | FailedAfter => modify replaced;; modify (set_unavailable true);; throw LedgerUnavailable
       end.

Definition check_available : Call unit := s ← get; throw_if (l_unavailable s) LedgerUnavailable.

(** ** Accounting *)

Definition metadata_of (s : Ledger) (u : uuid) : Metadata :=
  default legacy_metadata (l_metadata s !! u).

Definition device (h : Host) (m : Metadata) : option Z :=
  match md_disk_root m with
  | None => None
  | Some root =>
      if h_is_symlink h root || negb (bool_decide (h_st_dev h root = md_disk_device m))
      then None else md_disk_device m
  end.

Definition unreleased (item : Reservation) : bool :=
  negb (bool_decide (rv_state item = RELEASED)).

(** A hold whose file system is unknown counts on every one. *)
Definition counts_on (h : Host) (dev : Z) (m : Metadata) : bool :=
  match device h m with None => true | Some d => d =? dev end.

Definition live_items (s : Ledger) : list (uuid * Reservation) :=
  filter (λ '(_, item), unreleased item = true) (map_to_list (l_items s)).

Definition live_on (h : Host) (dev : Z) (s : Ledger) : list (uuid * Reservation) :=
  filter (λ '(u, _), counts_on h dev (metadata_of s u) = true) (live_items s).

Definition local_disk_bytes (h : Host) (dev : Z) (s : Ledger) : Z :=
  sum_Z ((λ '(u, item), rv_disk_bytes item - md_disk_credit_bytes (metadata_of s u))
         <$> live_on h dev s).

Definition held_disk_bytes (h : Host) (disk_path : option path) (include_external : bool)
    : Call Z :=
  check_available;;
  let p := default (h_store_root h) disk_path in
  dev ← some_or HostError (h_st_dev h p);
  s ← get;
  let held := local_disk_bytes h dev s in
  match h_additional_held h with
  | Some other =>
      if include_external then
        o ← some_or LedgerUnavailable (other p);
        throw_if (o <? 0) LedgerUnavailable;;
        mret (held + o)
      else mret held
  | None => mret held
  end.

Definition measured (h : Host) (s : Ledger) (u : uuid) : Z :=
  if decide (u ∈ l_owners s) then
    match h_footprint h u with Some v => if 0 <=? v then v else 0 | None => 0 end
  else 0.

Definition memory_total (h : Host) (s : Ledger) : Z :=
  sum_Z ((λ '(u, item), Z.max (rv_memory_bytes item) (measured h s u)) <$> live_items s).

Definition held_bytes (h : Host) : Call Z :=
  check_available;; s ← get; mret (memory_total h s).

Definition disk_floor (h : Host) (dev disk_floor_bytes : Z) (s : Ledger) : Z :=
  foldr Z.max disk_floor_bytes
        ((λ '(u, _), md_disk_floor_bytes (metadata_of s u)) <$> live_on h dev s).

(** ** Operations *)

Definition bind_owner (h : Host) (u : uuid) : Call unit :=
  check_available;;
  modify (λ s, set_owners ({[u]} ∪ l_owners s) s);;
  s ← get;
  if bool_decide (is_Some (l_items s !! u)) && negb (md_require_stop (metadata_of s u)) then
    let m := metadata_of s u in
    modify (λ s, set_metadata
      (<[u := mkMetadata (md_request m) (md_disk_root m) (md_disk_device m)
                         (md_disk_floor_bytes m) true (md_disk_credit_bytes m)
                         (md_materialized_paths m) (md_owner_kind m)]> (l_metadata s)) s);;
    save h
  else mret tt.

(** The arguments of [hold]. *)
Record HoldScope := mkScope {
  sc_disk_path : option path;
  sc_disk_floor_bytes : Z;
  sc_require_stop : bool;
  sc_disk_credit_bytes : Z;
  sc_materialized_paths : list path;
  sc_owner_kind : option string;
}.

Definition scope_safe (h : Host) (request : ReservationRequest) (p : path) (sc : HoldScope)
    : bool :=
  is_absolute p && negb (h_is_symlink h p) && h_is_dir h p
  && (0 <=? sc_disk_floor_bytes sc)
  && (0 <=? sc_disk_credit_bytes sc) && (sc_disk_credit_bytes sc <=? rr_disk_bytes request)
  && forallb is_absolute (sc_materialized_paths sc)
  && owner_kind_ok (sc_owner_kind sc).

Definition hold_metadata (request : ReservationRequest) (p : path) (dev : Z) (sc : HoldScope)
    : Metadata :=
  mkMetadata (Some request) (Some p) (Some dev) (sc_disk_floor_bytes sc) (sc_require_stop sc)
             (sc_disk_credit_bytes sc) (sc_materialized_paths sc) (sc_owner_kind sc).

(** The artifact quota applies below the training root. *)
Definition check_quota (h : Host) (p : path) (effective_disk : Z) : Call unit :=
  match h_quota h, h_quota_usage h with
  | Some quota, Some observed =>
      if is_relative_to p (h_training_root h) then
        usage ← some_or LedgerUnavailable observed;
        throw_if (usage <? 0) LedgerUnavailable;;
        throw_if (quota <? usage + effective_disk) (Refused false effective_disk usage quota)
      else mret tt
  | _, _ => mret tt
  end.

Definition occupants (engines : Z) : list string :=
  if engines =? 0 then [] else ["engines:" +:+ pretty engines].

(** The admission of a request that no journalled hold answers. *)
Definition admission (h : Host) (request : ReservationRequest) (sc : HoldScope) (p : path)
    (dev : Z) (m : Metadata) : Call (Reservation * bool) :=
  throw_if (negb (h_admitted h)) NotAdmitted;;
  let budget := h_budget h in
  let engines := h_committed_engine_bytes h in
  held ← held_bytes h;
  let committed := engines + held in
  disk_free ← some_or HostError
    (match sc_disk_path sc with
     | None => h_disk_free h (h_store_root h)
     | Some _ => h_disk_free h p
     end);
  disk_held ← held_disk_bytes h (Some p) true;
  s ← get;
  let floor := disk_floor h dev (sc_disk_floor_bytes sc) s in
  throw_if (budget <? rr_memory_bytes request)
           (Refused true (rr_memory_bytes request) committed budget);;
  throw_if (budget <? committed + rr_memory_bytes request)
           (Refused false (rr_memory_bytes request) committed budget);;
  let effective_disk := rr_disk_bytes request - sc_disk_credit_bytes sc in
  check_quota h p effective_disk;;
  throw_if (disk_free <? disk_held + effective_disk + floor)
           (Refused false (rr_disk_bytes request) disk_held (Z.max 0 (disk_free - floor)));;
  let item := mkReservation (rr_idempotency_key request) HELD (rr_memory_bytes request)
                            (rr_disk_bytes request) (occupants engines) in
  modify (λ s, set_metadata (<[rv_id item := m]> (l_metadata s))
                 (set_items (<[rv_id item := item]> (l_items s)) s));;
  save h;;
  mret (item, true).

Definition hold (h : Host) (request : ReservationRequest) (sc : HoldScope)
    : Call (Reservation * bool) :=
  check_available;;
  throw_if (negb (ReservationRequest_valid request)) InvalidRequest;;
  let p := default (h_store_root h) (sc_disk_path sc) in
  throw_if (negb (scope_safe h request p sc)) UnsafeScope;;
  p ← some_or HostError (h_resolve h p);
  dev ← some_or HostError (h_st_dev h p);
  let m := hold_metadata request p dev sc in
  s ← get;
  match l_items s !! rr_idempotency_key request with
  | Some existing =>
      throw_if (negb (bool_decide (metadata_of s (rv_id existing) = m)))
               (Conflict (rr_memory_bytes request) (rv_memory_bytes existing));;
      mret (existing, false)
  | None => admission h request sc p dev m
  end.

Definition release (h : Host) (u : uuid) : Call bool :=
  check_available;;
  s ← get;
  match l_items s !! u with
  | None => mret false
  | Some item =>
      if bool_decide (rv_state item = RELEASED) then mret true
      else if md_require_stop (metadata_of s u)
              && negb (bool_decide (u ∈ l_owners s) && h_release_check h u)
      then mret false
      else
        modify (λ s, set_items
          (<[u := mkReservation (rv_id item) RELEASED (rv_memory_bytes item)
                                (rv_disk_bytes item) (rv_occupants item)]> (l_items s)) s);;
        save h;; mret true
  end.

Definition get_item (u : uuid) : Call (option Reservation) :=
  check_available;; s ← get; mret (l_items s !! u).

(** ** Projections *)

(** An inventory entry is the identity of an unreleased hold. *)
Definition upgrade_inventory : Call (list uuid) :=
  check_available;;
  s ← get;
  let '(persisted, md) := load (l_file s) (l_metadata s) in
  modify (set_metadata md);;
  items ← some_or LedgerUnavailable persisted;
  throw_if (negb (bool_decide (items = l_items s))) LedgerUnavailable;;
  mret ((λ '(_, item), rv_id item) <$> live_items s).

Definition disk_scopes (root : option path)
    : Call (list (Z * list path * option uuid * Z)) :=
  check_available;;
  s ← get;
  mret ((λ '(u, item),
           let m := metadata_of s u in
           (rv_disk_bytes item - md_disk_credit_bytes m, md_materialized_paths m,
            rr_workflow_id <$> md_request m, md_disk_credit_bytes m))
        <$> filter (λ '(u, _),
              match root, md_disk_root (metadata_of s u) with
              | Some r, Some p => is_relative_to p r
              | _, _ => true
              end = true) (live_items s)).

(** A protected scope without its request is a [TypeError]. *)
Definition owner_scopes (owner_kind : string) : Call (list (uuid * uuid)) :=
  check_available;;
  s ← get;
  let own := filter (λ '(u, _), md_owner_kind (metadata_of s u) = Some owner_kind)
                    (live_items s) in
  some_or HostError
    (mapM (λ '(u, _), q ← md_request (metadata_of s u); Some (u, rr_workflow_id q)) own).
End ledger.
