(* ===== verification/LedgerFacts.v ===== *)
(** * The reservation ledger never over-commits and survives a crash

    The ledger's invariant, the round trip of its journal, and what each
    operation promises: admission within the budget, idempotent replay,
    protected release, and a journal that always reloads to the state before or
    after the operation that was interrupted. *)
From stdpp Require Import pretty.
From S2P Require Import Prelude Effects JsonDoc Ledger.
Open Scope Z_scope.

(** The operating system: a resolved path is absolute, a device is a number. *)
Record HostOk (h : Host) : Prop := {
  host_resolve p q : h_resolve h p = Some q → is_absolute q = true;
  host_st_dev p d : h_st_dev h p = Some d → 0 ≤ d;
}.

Inductive op :=
| OpHold (request : ReservationRequest) (sc : HoldScope)
| OpRelease (u : uuid)
| OpBind (u : uuid)
| OpInventory.

Section facts.
Context `{WireLaws}.

Definition run_op (h : Host) (o : op) (s : Ledger) : Ledger :=
  match o with
  | OpHold request sc => (hold h request sc s).2
  | OpRelease u => (release h u s).2
  | OpBind u => (bind_owner h u s).2
  | OpInventory => (upgrade_inventory s).2
  end.

Definition run_ops (ops : list (Host * op)) (s : Ledger) : Ledger :=
  foldl (λ s '(h, o), run_op h o s) s ops.

(** ** The invariant *)

Record RecordInv (u : uuid) (item : Reservation) (m : Metadata) : Prop := {
  ri_id : rv_id item = u;
  ri_canonical : canonical u;
  ri_valid : Reservation_valid item = true;
  ri_credit : 0 ≤ md_disk_credit_bytes m ≤ rv_disk_bytes item;
  ri_floor : 0 ≤ md_disk_floor_bytes m;
  ri_paths : forallb is_absolute (md_materialized_paths m) = true;
  ri_owner : owner_kind_ok (md_owner_kind m) = true;
  ri_request : request_matches u item (md_request m) = true;
  ri_request_valid q : md_request m = Some q → ReservationRequest_valid q = true;
  ri_root p : md_disk_root m = Some p → is_absolute p = true;
  ri_device d : md_disk_device m = Some d → 0 ≤ d;
  ri_scope : both_or_neither (md_disk_root m) (md_disk_device m) = true;
}.

Record LedgerInv (s : Ledger) : Prop := {
  li_dom : dom (l_metadata s) = dom (l_items s);
  li_record u item m :
    l_items s !! u = Some item → l_metadata s !! u = Some m → RecordInv u item m;
}.

Lemma inv_metadata s u item :
  LedgerInv s → l_items s !! u = Some item →
  l_metadata s !! u = Some (metadata_of s u) ∧ RecordInv u item (metadata_of s u).
Proof.
  intros [Hd Hr] Hu. assert (u ∈ dom (l_metadata s)) as [m Hm]%elem_of_dom
    by (rewrite Hd; by apply elem_of_dom_2 in Hu).
  unfold metadata_of. rewrite Hm. simpl. split; [done|]. by apply (Hr u).
Qed.

(** ** The journal reads back what was written *)

Lemma dump_record_loads u item m :
  RecordInv u item m → load_record u (dump_record item m) = Some (u, item, m).
Proof.
  intros [Hid Hc Hv [Hcr1 Hcr2] Hf Hp Ho Hq Hqv Hr Hd Hs].
  assert (Hok : load_owner_kind (dump_opt VStr (md_owner_kind m)) = Some (md_owner_kind m)).
  { unfold load_owner_kind. destruct (md_owner_kind m) eqn:E; [|done].
    simpl. simpl in Ho. by rewrite Ho. }
  assert (Hrq : nullable validate_request (dump_opt dump_request (md_request m))
                = Some (md_request m)).
  { destruct (md_request m) as [q|] eqn:E; [|done]. cbn [dump_opt].
    pose proof (dump_request_not_null q). unfold nullable.
    destruct (dump_request q) eqn:Eq; [done|..]; by rewrite <- Eq, validate_dump_request by auto. }
  destruct m as [rq root dev fl rs cr ps ok]. unfold load_record. rewrite Hc. simpl in *.
  rewrite bool_decide_eq_true_2 by (vm_compute; reflexivity). simpl.
  rewrite validate_dump_reservation by done. simpl.
  rewrite (proj2 (Z.leb_le _ _) Hcr1), (proj2 (Z.leb_le _ _) Hcr2). simpl.
  rewrite all_strings_map. simpl. rewrite Hp. simpl. rewrite Hok. simpl. rewrite Hrq. simpl.
  rewrite Hq. simpl.
  destruct root as [p|], dev as [d|]; try done; simpl.
  - rewrite Hr by done. simpl. rewrite (proj2 (Z.leb_le 0 d)) by auto. simpl.
    by rewrite (proj2 (Z.leb_le _ _) Hf).
  - by rewrite (proj2 (Z.leb_le _ _) Hf).
Qed.

Lemma load_all_dump (f : uuid → Metadata) l items md :
  NoDup (l.*1) →
  (∀ k item, (k, item) ∈ l → load_record k (dump_record item (f k)) = Some (k, item, f k)) →
  load_all load_record ((λ '(k, item), (k, dump_record item (f k))) <$> l) items md
  = (Some (list_to_map l ∪ items), list_to_map ((λ '(k, _), (k, f k)) <$> l) ∪ md).
Proof.
  revert items md. induction l as [|[k item] l IH]; intros items md Hnd Hl.
  - simpl. by rewrite !(left_id_L ∅ (∪)).
  - apply NoDup_cons in Hnd as [Hk Hnd].
    cbn [fmap list_fmap load_all]. rewrite Hl by set_solver.
    rewrite IH; [|done|intros; apply Hl; set_solver].
    cbn [list_to_map fst snd uncurry foldr]. f_equal; [f_equal|].
    + rewrite <- insert_union_l, insert_union_r; [done|]. by apply not_elem_of_list_to_map_1.
    + rewrite <- insert_union_l, insert_union_r; [done|]. apply not_elem_of_list_to_map_1.
      rewrite <- list_fmap_compose. intros ([k' ?] & ? & Hin)%list_elem_of_fmap. simpl in *.
      subst. destruct Hk. apply list_elem_of_fmap. by eexists (_, _).
Qed.

Lemma dump_ledger_unique s : unique_keys (dump_ledger s) = true.
Proof.
  unfold dump_ledger. cbn [unique_keys]. rewrite bool_decide_eq_true_2 by (apply (bool_decide_unpack _); vm_compute; exact I).
  cbn [forallb unique_keys andb]. rewrite andb_true_r. apply andb_true_iff. split.
  - apply bool_decide_eq_true. rewrite <- list_fmap_compose.
    erewrite list_fmap_ext; [apply NoDup_fst_map_to_list|]. by intros ? [].
  - apply forallb_forall. intros [k v] Hin%list_elem_of_In.
    apply list_elem_of_fmap in Hin as ([u item] & [= -> ->] & _).
    unfold dump_record. cbn [unique_keys]. rewrite bool_decide_eq_true_2 by (apply (bool_decide_unpack _); vm_compute; exact I).
    destruct (default _ _) as [rq root dev fl rs cr ps ok].
    cbn [forallb md_request md_disk_root md_disk_device md_owner_kind md_materialized_paths
         unique_keys andb].
    rewrite unique_dump_reservation.
    replace (forallb unique_keys (VStr <$> ps)) with true by (induction ps; simpl; auto).
    destruct rq, root, dev, ok; simpl; by rewrite ?unique_dump_request.
Qed.

(** What reading [file] over the metadata [md] gives back is exactly [s]. *)
Definition reloads (file : JournalFile) (s : Ledger) : Prop :=
  load file ∅ = (Some (l_items s), l_metadata s).

Lemma dump_reloads s size :
  LedgerInv s → size ≤ MAX_JOURNAL_BYTES → reloads (File true size (Some (dump_ledger s))) s.
Proof.
  intros HI Hsz. unfold reloads, load. rewrite (proj2 (Z.ltb_ge _ _)) by lia. simpl negb.
  cbn [orb]. rewrite dump_ledger_unique. unfold dump_ledger, load_document.
  cbn [field String.eqb Ascii.eqb Bool.eqb equals_int Z.eqb Pos.eqb].
  rewrite bool_decide_eq_true_2 by (vm_compute; reflexivity).
  rewrite (load_all_dump (metadata_of s)).
  - rewrite list_to_map_to_list, !(right_id_L ∅ (∪)). f_equal. apply map_eq. intros u.
    destruct (l_items s !! u) as [item|] eqn:Eu.
    + destruct (inv_metadata s u item HI Eu) as [-> _]. apply elem_of_list_to_map.
      * rewrite <- list_fmap_compose.
        erewrite list_fmap_ext; [apply NoDup_fst_map_to_list|]. by intros ? [].
      * apply list_elem_of_fmap. exists (u, item). split; [done|]. by apply elem_of_map_to_list.
    + transitivity (@None Metadata); [|symmetry; apply not_elem_of_dom; rewrite (li_dom s HI);
        by apply not_elem_of_dom].
      apply not_elem_of_list_to_map_1. rewrite <- list_fmap_compose.
      intros ([k item] & -> & Hin)%list_elem_of_fmap. apply elem_of_map_to_list in Hin.
      simpl in Eu. congruence.
  - apply NoDup_fst_map_to_list.
  - intros k item Hin%elem_of_map_to_list. apply dump_record_loads.
    by apply inv_metadata.
Qed.

(** ** Saving *)

(** [save] changes the file and the availability only; when it returns, the
    file reloads to the state; when it raises, the ledger is unavailable and
    the file is the old one or reloads to the state. *)
Lemma save_spec h s r s' :
  LedgerInv s → save h s = (r, s') →
  l_items s' = l_items s ∧ l_metadata s' = l_metadata s ∧ l_owners s' = l_owners s
  ∧ (r = Ok tt ∧ l_unavailable s' = l_unavailable s ∧ reloads (l_file s') s
     ∨ r = Err LedgerUnavailable ∧ l_unavailable s' = true
       ∧ (l_file s' = l_file s ∨ reloads (l_file s') s)).
Proof.
  intros HI Hs. unfold save in Hs. cbv [mbind M_bind get modify throw] in Hs.
  destruct (MAX_JOURNAL_BYTES <? dump_size (dump_ledger s)) eqn:Esz; [|apply Z.ltb_ge in Esz;
    destruct (h_write h)]; simplify_eq/=; split_and!; try done.
  - right. auto.
  - left. split_and!; [done..|by apply dump_reloads].
  - right. auto.
  - right. split_and!; [done..|right]. by apply dump_reloads.
Qed.

(** ** What the operations do to the state *)

Lemma check_available_run s r s' :
  check_available s = (r, s') →
  s' = s ∧ (r = Ok tt ∧ l_unavailable s = false
            ∨ r = Err LedgerUnavailable ∧ l_unavailable s = true).
Proof.
  unfold check_available. cbv [mbind M_bind get throw_if throw mret M_ret].
  destruct (l_unavailable s); intros; simplify_eq; auto.
Qed.

Lemma held_bytes_run h s r s' :
  held_bytes h s = (r, s') →
  s' = s ∧ (l_unavailable s = false → r = Ok (memory_total h s)).
Proof.
  unfold held_bytes. cbv [mbind M_bind]. destruct (check_available s) as [rc sc] eqn:Ec.
  apply check_available_run in Ec as [-> [[-> ?]|[-> ?]]]; cbv [get mret M_ret];
    intros; simplify_eq; split; congruence.
Qed.

Lemma held_disk_bytes_run h p s r s' :
  held_disk_bytes h (Some p) true s = (r, s') →
  s' = s ∧ ∀ v, r = Ok v →
    ∃ dev ext, h_st_dev h p = Some dev ∧ 0 ≤ ext ∧ v = local_disk_bytes h dev s + ext.
Proof.
  unfold held_disk_bytes. intros Hr. apply run_bind_cases in Hr as [(e & Hm & ->)|([] & s1 & Hm & Hr)];
    apply check_available_run in Hm as [-> Hm]; [by split|].
  simpl default in Hr. walk Hr; [by split|].
  destruct (h_additional_held h) as [other|].
  - walk Hr; try (by split). apply run_ret_Ok in Hr || injection Hr as <- <-.
    split; [done|]. intros v [= <-]. eexists _, _. split_and!; [done| |done]. lia.
  - injection Hr as <- <-. split; [done|]. intros v [= <-]. exists x, 0. split_and!; [done..|lia].
Qed.

Definition held_item (h : Host) (q : ReservationRequest) : Reservation :=
  mkReservation (rr_idempotency_key q) HELD (rr_memory_bytes q) (rr_disk_bytes q)
                (occupants (h_committed_engine_bytes h)).

Definition with_record (u : uuid) (item : Reservation) (m : Metadata) (s : Ledger) : Ledger :=
  set_metadata (<[u := m]> (l_metadata s)) (set_items (<[u := item]> (l_items s)) s).

(** The admission decision of [hold], as a proposition. *)
Record Admission (h : Host) (q : ReservationRequest) (sc : HoldScope) (p : path) (dev : Z)
    (s : Ledger) : Prop := {
  ah_valid : ReservationRequest_valid q = true;
  ah_scope : scope_safe h q (default (h_store_root h) (sc_disk_path sc)) sc = true;
  ah_path : h_resolve h (default (h_store_root h) (sc_disk_path sc)) = Some p;
  ah_dev : h_st_dev h p = Some dev;
  ah_fresh : l_items s !! rr_idempotency_key q = None;
  ah_memory : h_committed_engine_bytes h + memory_total h s + rr_memory_bytes q ≤ h_budget h;
  ah_disk : ∃ free ext,
    (match sc_disk_path sc with
     | None => h_disk_free h (h_store_root h) | Some _ => h_disk_free h p end) = Some free
    ∧ 0 ≤ ext
    ∧ local_disk_bytes h dev s + ext + (rr_disk_bytes q - sc_disk_credit_bytes sc)
      + disk_floor h dev (sc_disk_floor_bytes sc) s ≤ free;
}.

Lemma check_quota_run h p eff s r s' : check_quota h p eff s = (r, s') → s' = s.
Proof.
  unfold check_quota. destruct (h_quota h), (h_quota_usage h); try (by intros [= ??]).
  case_match; [|by intros [= ??]]. intros Hr. walk Hr; try done.
  destruct (throw_if _ _ _) as [[]] eqn:E in Hr;
    [apply run_throw_if_Ok in E|apply run_throw_if_Err in E]; naive_solver.
Qed.

Lemma hold_cases h q sc s r s' :
  hold h q sc s = (r, s') →
  (s' = s ∧ ∀ item, r ≠ Ok (item, true))
  ∨ ∃ p dev,
      l_unavailable s = false ∧ Admission h q sc p dev s
      ∧ let s1 := with_record (rr_idempotency_key q) (held_item h q)
                              (hold_metadata q p dev sc) s in
        (save h s1 = (Ok tt, s') ∧ r = Ok (held_item h q, true)
         ∨ ∃ e, save h s1 = (Err e, s') ∧ r = Err e).
Proof.
  unfold hold. intros Hr.
  apply run_bind_cases in Hr as [(e & Hm & ->)|([] & s1 & Hm & Hr)];
    apply check_available_run in Hm as [-> Hm]; [by left|].
  destruct Hm as [[_ Hav]|[? _]]; [|done]. walk Hr; try (by left).
  rename x1 into p, x2 into dev.
  destruct (l_items s !! rr_idempotency_key q) as [existing|] eqn:Ei.
  { left. walk Hr; [by split|]. injection Hr as <- <-. by split. }
  unfold admission in Hr.
  apply run_bind_cases in Hr as [(e & Hm & ->)|([] & s1 & Hm & Hr)];
    [apply run_throw_if_Err in Hm as (_ & _ & ->); by left|apply run_throw_if_Ok in Hm as [_ ->]].
  apply run_bind_cases in Hr as [(e & Hm & ->)|(held & s1 & Hm & Hr)];
    apply held_bytes_run in Hm as [-> Hh]; [by left|].
  specialize (Hh Hav) as [= ->].
  apply run_bind_cases in Hr as [(e & Hm & ->)|(free & s1 & Hm & Hr)];
    [apply run_some_or_Err in Hm as (_ & _ & ->); by left|apply run_some_or_Ok in Hm as [? ->]].
  apply run_bind_cases in Hr as [(e & Hm & ->)|(dh & s1 & Hm & Hr)];
    apply held_disk_bytes_run in Hm as [-> Hd]; [by left|].
  specialize (Hd _ eq_refl) as (dev' & ext & Hdev' & Hext & ->).
  simplify_eq. walk Hr; try (by left);
    try (match goal with Hq : check_quota _ _ _ _ = _ |- _ =>
           apply check_quota_run in Hq as ->; by left end);
    match goal with Hq : check_quota _ _ _ _ = _ |- _ => apply check_quota_run in Hq as -> end;
    try (by left); bool_prop; right; exists p, dev; (split_and!; [done|..]).
  1, 3: split; try done; [lia|]; exists free, ext; split_and!; [done..|lia].
  - right. eauto.
  - left. injection Hr as <- <-. units; done.
Qed.

Lemma release_cases h u s r s' :
  release h u s = (r, s') →
  s' = s
  ∨ ∃ item, l_unavailable s = false ∧ l_items s !! u = Some item ∧ rv_state item ≠ RELEASED
      ∧ (md_require_stop (metadata_of s u) = true → u ∈ l_owners s ∧ h_release_check h u = true)
      ∧ let s1 := set_items (<[u := mkReservation (rv_id item) RELEASED (rv_memory_bytes item)
                                      (rv_disk_bytes item) (rv_occupants item)]> (l_items s)) s in
        (save h s1 = (Ok tt, s') ∧ r = Ok true) ∨ ∃ e, save h s1 = (Err e, s') ∧ r = Err e.
Proof.
  unfold release. intros Hr.
  apply run_bind_cases in Hr as [(e & Hm & ->)|([] & s1 & Hm & Hr)];
    apply check_available_run in Hm as [-> Hm]; [by left|].
  destruct Hm as [[_ Hav]|[? _]]; [|done]. walk Hr.
  destruct (l_items s !! u) as [item|]; [|left; by injection Hr].
  destruct (bool_decide (rv_state item = RELEASED)) eqn:Es; [left; by injection Hr|].
  destruct (md_require_stop _ && _) eqn:Eo; [left; by injection Hr|].
  right. exists item. bool_prop. split_and!; [done..| |].
  { intros Hs. rewrite Hs in Eo. simpl in Eo. bool_prop. done. }
  walk Hr; [right; eauto|]. left. injection Hr as <- <-. units; done.
Qed.

Definition protect (m : Metadata) : Metadata :=
  mkMetadata (md_request m) (md_disk_root m) (md_disk_device m) (md_disk_floor_bytes m) true
             (md_disk_credit_bytes m) (md_materialized_paths m) (md_owner_kind m).

Lemma bind_owner_cases h u s r s' :
  bind_owner h u s = (r, s') →
  s' = s ∨ s' = set_owners ({[u]} ∪ l_owners s) s
  ∨ is_Some (l_items s !! u) ∧ l_unavailable s = false
    ∧ save h (set_metadata (<[u := protect (metadata_of s u)]> (l_metadata s))
                           (set_owners ({[u]} ∪ l_owners s) s)) = (r, s').
Proof.
  unfold bind_owner. intros Hr.
  apply run_bind_cases in Hr as [(e & Hm & ->)|([] & s1 & Hm & Hr)];
    apply check_available_run in Hm as [-> Hm]; [by left|].
  destruct Hm as [[_ Hav]|[? _]]; [|done]. walk Hr. right.
  destruct (bool_decide (is_Some (l_items (set_owners ({[u]} ∪ l_owners s) s) !! u))
            && negb (md_require_stop _)) eqn:Eo; [|left; by injection Hr].
  bool_prop. right. split_and!; [done..|]. by walk Hr.
Qed.

(** ** The invariant is kept *)

Lemma with_record_inv u item m s :
  LedgerInv s → RecordInv u item m → LedgerInv (with_record u item m s).
Proof.
  intros [Hd Hr] Hrec. split; simpl.
  - rewrite !dom_insert_L. by rewrite Hd.
  - intros v i' m' Hi Hm. destruct (decide (u = v)) as [->|Hne].
    + rewrite lookup_insert_eq in Hi. rewrite lookup_insert_eq in Hm. by simplify_eq.
    + rewrite lookup_insert_ne in Hi by done. rewrite lookup_insert_ne in Hm by done. eauto.
Qed.

Lemma LedgerInv_ext s s' :
  l_items s' = l_items s → l_metadata s' = l_metadata s → LedgerInv s → LedgerInv s'.
Proof. intros Ei Em [Hd Hr]. split; rewrite Ei, Em; auto. Qed.

Lemma with_record_same s s' u item m :
  l_items s' = <[u := item]> (l_items s) → l_metadata s' = <[u := m]> (l_metadata s) →
  LedgerInv s → RecordInv u item m → LedgerInv s'.
Proof.
  intros Ei Em HI HR. eapply LedgerInv_ext; [| |by apply (with_record_inv u item m s)]; done.
Qed.

Lemma hold_record_inv h q sc p dev s :
  HostOk h → Admission h q sc p dev s →
  RecordInv (rr_idempotency_key q) (held_item h q) (hold_metadata q p dev sc).
Proof.
  intros [Hres Hst] [Hv Hs Hp Hd _ _ _]. unfold scope_safe in Hs.
  pose proof Hv as Hv'. unfold ReservationRequest_valid in Hv'. bool_prop.
  split; simpl; try done; try lia.
  - unfold Reservation_valid. simpl. rewrite bool_decide_eq_true_2 by done.
    apply andb_true_iff. split; lia.
  - unfold request_matches. simpl. rewrite !bool_decide_eq_true_2 by done. by rewrite !Z.eqb_refl.
  - by intros ? [= <-].
  - intros ? [= <-]. eauto.
  - intros ? [= <-]. eauto.
Qed.

Lemma release_record_inv u item m :
  RecordInv u item m →
  RecordInv u (mkReservation (rv_id item) RELEASED (rv_memory_bytes item) (rv_disk_bytes item)
                             (rv_occupants item)) m.
Proof. by intros []. Qed.

Lemma protect_record_inv u item m : RecordInv u item m → RecordInv u item (protect m).
Proof. by intros []. Qed.

Definition released_item (item : Reservation) : Reservation :=
  mkReservation (rv_id item) RELEASED (rv_memory_bytes item) (rv_disk_bytes item)
                (rv_occupants item).

Lemma released_inv u item s :
  LedgerInv s → l_items s !! u = Some item →
  LedgerInv (set_items (<[u := released_item item]> (l_items s)) s).
Proof.
  intros HI Hi. destruct (inv_metadata s u item HI Hi) as [Hm HR].
  eapply (with_record_same s _ u _ (metadata_of s u)); [done| |done|by apply release_record_inv].
  simpl. symmetry. by apply insert_id.
Qed.

Lemma protected_inv u item s :
  LedgerInv s → l_items s !! u = Some item →
  LedgerInv (set_metadata (<[u := protect (metadata_of s u)]> (l_metadata s))
                          (set_owners ({[u]} ∪ l_owners s) s)).
Proof.
  intros HI Hi. destruct (inv_metadata s u item HI Hi) as [Hm HR].
  eapply (with_record_same s _ u item); [|done|done|by apply protect_record_inv].
  simpl. symmetry. by apply insert_id.
Qed.

(** ** Loading *)

Lemma require_Some b : require b = Some tt ↔ b = true.
Proof. by destruct b. Qed.

Lemma nullable_Some {A} (f : js → option A) v a :
  nullable f v = Some (Some a) → f v = Some a.
Proof. unfold nullable. destruct v; [done|..]; destruct (f _); naive_solver. Qed.

Lemma load_record_inv key v u item m :
  load_record key v = Some (u, item, m) → RecordInv u item m.
Proof.
  unfold load_record. intros Hl.
  repeat match goal with
  | Hx : _ ≫= _ = Some _ |- _ => apply bind_Some in Hx as (? & ? & Hx)
  | Hx : require _ = Some ?x |- _ => destruct x; apply require_Some in Hx
  end.
  injection Hl as <- <- <-. unfold request_matches in *.
  assert (is_true (forallb is_absolute x5)) as Hps.
  { unfold load_paths in *. destruct (default (VArr []) _); try done.
    repeat match goal with
    | Hx : _ ≫= _ = Some _ |- _ => apply bind_Some in Hx as (? & ? & Hx)
    | Hx : require _ = Some ?x |- _ => destruct x; apply require_Some in Hx
    end. simplify_eq. done. }
  assert (owner_kind_ok x6 = true) as Hok.
  { unfold load_owner_kind in *.
    repeat match goal with
    | Hx : _ ≫= _ = Some _ |- _ => apply bind_Some in Hx as (? & ? & Hx)
    | Hx : require _ = Some ?x |- _ => destruct x; apply require_Some in Hx
    end. simplify_eq. done. }
  bool_prop. subst. split; simpl; try done; try lia.
  - by eapply uuid_parse_canonical.
  - by eapply validate_reservation_valid.
  - unfold request_matches. by rewrite bool_decide_eq_true_2.
  - intros q ->. eapply validate_request_valid, nullable_Some; done.
  - by intros p ->.
  - intros d ->. lia.
Qed.

Lemma load_legacy_inv key v u item m :
  load_legacy key v = Some (u, item, m) → RecordInv u item m.
Proof.
  unfold load_legacy. intros Hl.
  apply bind_Some in Hl as (u' & Hu & (item' & Hi & ([] & Hq%require_Some & Hl)%bind_Some)%bind_Some).
  bool_prop. simplify_eq. pose proof (validate_reservation_valid _ _ Hi) as Hv.
  split; simpl; try done.
  - by eapply uuid_parse_canonical.
  - unfold Reservation_valid in Hv. bool_prop. lia.
  - unfold request_matches. by rewrite bool_decide_eq_true_2.
Qed.

Definition MapsInv (items : gmap uuid Reservation) (md : gmap uuid Metadata) : Prop :=
  LedgerInv (mkLedger items md ∅ false NoFile).

Lemma load_all_inv read records items md items' md' :
  (∀ key v u item m, read key v = Some (u, item, m) → RecordInv u item m) →
  MapsInv items md → load_all read records items md = (Some items', md') → MapsInv items' md'.
Proof.
  intros Hread. revert items md. induction records as [|[key v] rs IH]; simpl;
    intros items md HI Hl; [by simplify_eq|].
  destruct (read key v) as [[[u item] m]|] eqn:E; [|done].
  eapply IH; [|done].
  eapply (with_record_same (mkLedger items md ∅ false NoFile) _ u item m); [done..|by eapply Hread].
Qed.

Lemma load_all_over read records items md :
  load_all read records items md
  = let '(r, md') := load_all read records items ∅ in (r, md' ∪ md).
Proof.
  assert (Hgen : ∀ md0 md1, load_all read records items (md0 ∪ md1)
    = let '(r, md') := load_all read records items md0 in (r, md' ∪ md1)).
  { revert items. induction records as [|[key v] rs IH]; simpl; intros items md0 md1; [done|].
    destruct (read key v) as [[[u item] m]|]; [|done]. by rewrite insert_union_l, IH. }
  rewrite <- Hgen. by rewrite (left_id_L ∅ (∪)).
Qed.

Lemma load_over file md :
  load file md = let '(r, md') := load file ∅ in (r, md' ∪ md).
Proof.
  destruct file as [| |pr size [v|]]; simpl; try (case_match; by rewrite ?(left_id_L ∅ (∪)));
    rewrite ?(left_id_L ∅ (∪)); try done.
  case_match; [by rewrite (left_id_L ∅ (∪))|].
  case_match; [|by rewrite (left_id_L ∅ (∪))].
  unfold load_document.
  repeat case_match; simplify_eq; rewrite ?(left_id_L ∅ (∪)); try done;
    rewrite load_all_over; by case_match; simplify_eq.
Qed.

Lemma load_inv file items md : load file ∅ = (Some items, md) → MapsInv items md.
Proof.
  assert (He : MapsInv ∅ ∅) by (split; [done|intros ???; simpl; by rewrite lookup_empty]).
  unfold load. destruct file as [| |pr size [v|]]; intros Hl; try done.
  - by simplify_eq.
  - case_match; [done|]. case_match; [|done]. unfold load_document in Hl.
    repeat case_match; try done;
      [eapply load_all_inv; [apply load_record_inv|done..]
      |eapply load_all_inv; [apply load_legacy_inv|done..]..].
  - by case_match.
Qed.

(** ** Crash safety *)

(** An available ledger agrees with its journal. *)
Definition Settled (s : Ledger) : Prop :=
  LedgerInv s ∧ (l_unavailable s = false → reloads (l_file s) s).

Lemma reloads_ext f s s' :
  l_items s' = l_items s → l_metadata s' = l_metadata s → reloads f s → reloads f s'.
Proof. unfold reloads. by intros -> ->. Qed.

Lemma save_settles h s0 s1 r s' :
  LedgerInv s1 → reloads (l_file s1) s0 → save h s1 = (r, s') →
  Settled s' ∧ (reloads (l_file s') s0 ∨ reloads (l_file s') s').
Proof.
  intros HI H0' Hs. destruct (save_spec h s1 r s' HI Hs) as (Ei & Em & _ & Hc).
  split; [split; [by eapply LedgerInv_ext|]|];
    destruct Hc as [(-> & _ & Hr)|(-> & Hu & [Ef|Hr])].
  - intros _. by eapply reloads_ext.
  - congruence.
  - intros _. by eapply reloads_ext.
  - right. by eapply reloads_ext.
  - left. by rewrite Ef.
  - right. by eapply reloads_ext.
Qed.

Lemma inventory_run s r s' :
  Settled s → upgrade_inventory s = (r, s') → s' = s.
Proof.
  unfold upgrade_inventory. intros [HI Hre] Hr.
  apply run_bind_cases in Hr as [(e & Hm & ->)|([] & s1 & Hm & Hr)];
    apply check_available_run in Hm as [-> Hm]; [done|].
  destruct Hm as [[_ Hav]|[? _]]; [|done]. specialize (Hre Hav). unfold reloads in Hre.
  walk Hr. rewrite load_over, Hre in Hr. rewrite (idemp_L (∪)) in Hr.
  assert (Hs : set_metadata (l_metadata s) s = s) by (by destruct s).
  walk Hr; rewrite ?Hs; try done. injection Hr as <- <-. by rewrite Hs.
Qed.

Lemma run_op_settled h o s :
  HostOk h → Settled s →
  let s' := run_op h o s in
  Settled s' ∧ (l_unavailable s = false → reloads (l_file s') s ∨ reloads (l_file s') s').
Proof.
  intros Hh HS s'. pose proof HS as [HI Hre].
  assert (Hsame : s' = s → Settled s' ∧
            (l_unavailable s = false → reloads (l_file s') s ∨ reloads (l_file s') s')).
  { intros ->. auto. }
  subst s'. destruct o as [q sc|u|u|]; simpl in *.
  - destruct (hold h q sc s) as [r s'] eqn:E. simpl in *.
    destruct (hold_cases _ _ _ _ _ _ E) as [[-> _]|(p & dev & Hav & Had & Hc)]; [auto|].
    assert (HI1 : LedgerInv (with_record (rr_idempotency_key q) (held_item h q)
                               (hold_metadata q p dev sc) s))
      by (by apply with_record_inv, (hold_record_inv h q sc p dev s)).
    destruct Hc as [[Hs _]|(e & Hs & _)]; eapply save_settles in Hs as [? ?]; eauto.
  - destruct (release h u s) as [r s'] eqn:E. simpl in *.
    destruct (release_cases _ _ _ _ _ E) as [->|(item & Hav & Hi & _ & _ & Hc)]; [auto|].
    pose proof (released_inv u item s HI Hi) as HI1.
    destruct Hc as [[Hs _]|(e & Hs & _)]; eapply save_settles in Hs as [? ?]; eauto.
  - destruct (bind_owner h u s) as [r s'] eqn:E. simpl in *.
    destruct (bind_owner_cases _ _ _ _ _ E) as [->|[->|([item Hi] & Hav & Hs)]]; [auto|..].
    + split; [split; [by apply (LedgerInv_ext s)|]|]; simpl; intros; [|left]; auto.
    + pose proof (protected_inv u item s HI Hi) as HI1.
      eapply save_settles in Hs as [? ?]; eauto.
  - destruct (upgrade_inventory s) as [r s'] eqn:E. simpl in *. apply Hsame.
    by eapply inventory_run.
Qed.

Lemma init_settled file s : init file = Ok s → Settled s.
Proof.
  unfold init. destruct (load file ∅) as [[items|] md] eqn:E; [|done]. intros [= <-].
  split; [|by intros _]. by eapply LedgerInv_ext, (load_inv _ _ _ E).
Qed.

Lemma run_ops_settled ops s :
  Settled s → Forall (λ '(h, _), HostOk h) ops → Settled (run_ops ops s).
Proof.
  revert s. induction ops as [|[h o] ops IH]; intros s HS Hh; [done|].
  apply Forall_cons in Hh as [Hh Hhs]. simpl. apply IH; [|done]. by apply run_op_settled.
Qed.

(** A restart: what a new agent builds from the journal file of [s]. *)
Definition restarts_to (f : JournalFile) (s : Ledger) : Prop :=
  ∃ s', init f = Ok s' ∧ l_items s' = l_items s ∧ l_metadata s' = l_metadata s.

Lemma reloads_restart f s : reloads f s → restarts_to f s.
Proof. unfold reloads, restarts_to, init. intros ->. by eexists. Qed.

(** C2. Crash safety of the ledger: whatever operations an agent has run
    since it loaded its journal, with whatever write failures, an available
    ledger's journal restarts to exactly its holds and their metadata; and an
    operation cut off at any write leaves a journal that restarts to the
    holds before it or to the holds after it. *)
Theorem journal_crash_atomic file s0 ops h o :
  init file = Ok s0 → Forall (λ '(h, _), HostOk h) ops → HostOk h →
  let s := run_ops ops s0 in
  l_unavailable s = false →
  restarts_to (l_file s) s
  ∧ (restarts_to (l_file (run_op h o s)) s
     ∨ restarts_to (l_file (run_op h o s)) (run_op h o s)).
Proof.
  intros Hi Hhs Hh s Hav.
  assert (HS : Settled s) by (eapply run_ops_settled, Hhs; by eapply init_settled).
  split; [by apply reloads_restart, HS|].
  destruct (run_op_settled h o s Hh HS) as [_ [Hr|Hr]]; [done|left|right];
    by apply reloads_restart.
Qed.

(** ** Admission *)

Lemma live_items_insert u item s md :
  l_items s !! u = None → unreleased item = true →
  live_items (set_metadata md (set_items (<[u := item]> (l_items s)) s))
  ≡ₚ (u, item) :: live_items s.
Proof.
  intros Hu Hl. unfold live_items. simpl. rewrite map_to_list_insert by done.
  by rewrite filter_cons_True by done.
Qed.

Lemma live_item s u item :
  (u, item) ∈ live_items s ↔ l_items s !! u = Some item ∧ unreleased item = true.
Proof. unfold live_items. rewrite list_elem_of_filter, elem_of_map_to_list. tauto. Qed.

Lemma metadata_of_insert_ne u v m s items :
  u ≠ v → metadata_of (set_metadata (<[u := m]> (l_metadata s)) (set_items items s)) v
          = metadata_of s v.
Proof. intros. unfold metadata_of. simpl. by rewrite lookup_insert_ne. Qed.

Lemma live_on_insert h dev u item m s :
  l_items s !! u = None → unreleased item = true → counts_on h dev m = true →
  live_on h dev (with_record u item m s) ≡ₚ (u, item) :: live_on h dev s.
Proof.
  intros Hu Hl Hc. unfold live_on.
  transitivity (filter (λ '(v, _), counts_on h dev (metadata_of (with_record u item m s) v) = true)
                       ((u, item) :: live_items s)).
  { apply filter_Permutation. by apply live_items_insert. }
  rewrite filter_cons_True
    by (unfold metadata_of; simpl; by rewrite lookup_insert_eq).
  apply Permutation_skip. erewrite filter_ext_in; [done|]. intros [v i'] [Hv _]%live_item.
  unfold with_record. rewrite metadata_of_insert_ne; [done|congruence].
Qed.

(** The ledger's own bound on memory: the reserved bytes of unreleased holds. *)
Definition reserved (s : Ledger) : Z :=
  sum_Z ((λ '(_, item), rv_memory_bytes item) <$> live_items s).

Lemma reserved_le_total h s : reserved s ≤ memory_total h s.
Proof.
  unfold reserved, memory_total. induction (live_items s) as [|[u item] l IH]; [done|].
  cbn [fmap list_fmap sum_Z] in *.
  pose proof (Z.le_max_l (rv_memory_bytes item) (measured h s u)). by apply Z.add_le_mono.
Qed.

Lemma memory_total_insert h u item m s :
  l_items s !! u = None → unreleased item = true →
  memory_total h (with_record u item m s)
  = Z.max (rv_memory_bytes item) (measured h s u) + memory_total h s.
Proof.
  intros Hu Hl. unfold memory_total, with_record.
  rewrite (live_items_insert u item s _ Hu Hl). simpl. done.
Qed.

Lemma reserved_insert u item m s :
  l_items s !! u = None → unreleased item = true →
  reserved (with_record u item m s) = rv_memory_bytes item + reserved s.
Proof.
  intros Hu Hl. unfold reserved, with_record. by rewrite (live_items_insert u item s _ Hu Hl).
Qed.

Lemma counts_on_hold h q p dev sc :
  h_st_dev h p = Some dev → counts_on h dev (hold_metadata q p dev sc) = true.
Proof.
  intros Hd. unfold counts_on, device. simpl. case_match eqn:E; [|done].
  case_match; simplify_eq. by apply Z.eqb_refl.
Qed.

Lemma local_disk_bytes_insert h dev u item m s :
  l_items s !! u = None → unreleased item = true → counts_on h dev m = true →
  local_disk_bytes h dev (with_record u item m s)
  = (rv_disk_bytes item - md_disk_credit_bytes m) + local_disk_bytes h dev s.
Proof.
  intros Hu Hl Hc. unfold local_disk_bytes. rewrite (live_on_insert h dev u item m s Hu Hl Hc).
  cbn [fmap list_fmap sum_Z]. f_equal.
  - unfold metadata_of. simpl. by rewrite lookup_insert_eq.
  - f_equal. apply fmap_ext_in. intros [v i'] [_ [Hv _]%live_item]%list_elem_of_filter.
    unfold with_record. rewrite metadata_of_insert_ne; [done|congruence].
Qed.

Lemma measured_ext h s s' u : l_owners s' = l_owners s → measured h s' u = measured h s u.
Proof. unfold measured. by intros ->. Qed.

Lemma saved_ok_same h s s' :
  LedgerInv s → save h s = (Ok tt, s') →
  l_items s' = l_items s ∧ l_metadata s' = l_metadata s ∧ l_owners s' = l_owners s.
Proof. intros HI Hs. by destruct (save_spec h s _ s' HI Hs) as (? & ? & ? & _). Qed.

Lemma live_items_ext s s' : l_items s' = l_items s → live_items s' = live_items s.
Proof. unfold live_items. by intros ->. Qed.

Lemma memory_total_ext h s s' :
  l_items s' = l_items s → l_owners s' = l_owners s → memory_total h s' = memory_total h s.
Proof.
  intros Ei Eo. unfold memory_total. rewrite (live_items_ext s s' Ei). f_equal.
  apply fmap_ext_in. intros [u item] _. by rewrite (measured_ext h s s' u Eo).
Qed.

Lemma local_disk_bytes_ext h dev s s' :
  l_items s' = l_items s → l_metadata s' = l_metadata s →
  local_disk_bytes h dev s' = local_disk_bytes h dev s.
Proof.
  intros Ei Em. unfold local_disk_bytes, live_on, metadata_of. by rewrite (live_items_ext s s' Ei), Em.
Qed.

(** Admission is within capacity: after [hold] created a hold, and as
    long as no owner was bound to its identity beforehand, the engines and
    all unreleased holds fit the memory budget; on the hold's file system the
    holds (with the trainers' share) leave at least every live hold's floor
    of the free space. *)
Theorem hold_within_capacity h q sc s item s' :
  HostOk h → LedgerInv s → rr_idempotency_key q ∉ l_owners s →
  hold h q sc s = (Ok (item, true), s') →
  h_committed_engine_bytes h + memory_total h s' ≤ h_budget h
  ∧ ∃ p dev free ext,
      h_resolve h (default (h_store_root h) (sc_disk_path sc)) = Some p
      ∧ h_st_dev h p = Some dev
      ∧ (match sc_disk_path sc with
         | None => h_disk_free h (h_store_root h) | Some _ => h_disk_free h p end) = Some free
      ∧ 0 ≤ ext
      ∧ local_disk_bytes h dev s' + ext + sc_disk_floor_bytes sc ≤ free
      ∧ ∀ u i, (u, i) ∈ live_on h dev s →
               local_disk_bytes h dev s' + ext + md_disk_floor_bytes (metadata_of s u) ≤ free.
Proof.
  intros Hh HI Hno Hr.
  destruct (hold_cases _ _ _ _ _ _ Hr) as [[_ Hn]|(p & dev & _ & Had & Hc)]; [by destruct (Hn item)|].
  destruct Hc as [[Hs [= ->]]|(e & _ & ?)]; [|done].
  pose proof (hold_record_inv h q sc p dev s Hh Had) as HR.
  destruct (saved_ok_same h _ _ (with_record_inv _ _ _ s HI HR) Hs) as (Ei & Em & Eo).
  destruct Had as [Hv _ Hp Hd Hf Hm (free & ext & Hfree & Hext & Hle)].
  rewrite (memory_total_ext h _ s' Ei Eo), memory_total_insert by done.
  assert (Hms : measured h s (rr_idempotency_key q) = 0)
    by (unfold measured; by rewrite decide_False).
  rewrite Hms. unfold ReservationRequest_valid in Hv. bool_prop. simpl rv_memory_bytes.
  split; [lia|]. exists p, dev, free, ext.
  rewrite (local_disk_bytes_ext h dev _ s' Ei Em), local_disk_bytes_insert
    by eauto using counts_on_hold.
  simpl. unfold disk_floor in Hle.
  match type of Hle with _ + foldr _ _ ?l ≤ _ =>
    pose proof (proj1 (foldr_max_le (sc_disk_floor_bytes sc) l _) (Z.le_refl _)) as [Hfl Hall] end.
  split_and!; try done; [lia|]. intros u i Hu.
  enough (md_disk_floor_bytes (metadata_of s u) ≤ foldr Z.max (sc_disk_floor_bytes sc)
            ((λ '(u, _), md_disk_floor_bytes (metadata_of s u)) <$> live_on h dev s)) by lia.
  apply Hall. apply list_elem_of_fmap. by exists (u, i).
Qed.

(** ** Runs of operations *)

(** What one operation can do to a hold: nothing, create it as held, or
    release it. *)
Lemma run_op_items h o s :
  HostOk h → LedgerInv s →
  l_items (run_op h o s) = l_items s
  ∨ (∃ q sc p dev, l_items (run_op h o s)
       = <[rr_idempotency_key q := held_item h q]> (l_items s) ∧ Admission h q sc p dev s)
  ∨ (∃ u item, l_items s !! u = Some item ∧ rv_state item ≠ RELEASED
       ∧ l_items (run_op h o s)
         = <[u := mkReservation (rv_id item) RELEASED (rv_memory_bytes item)
                                (rv_disk_bytes item) (rv_occupants item)]> (l_items s)).
Proof.
  intros Hh HI. destruct o as [q sc|u|u|]; simpl.
  - destruct (hold h q sc s) as [r s'] eqn:E. simpl.
    destruct (hold_cases _ _ _ _ _ _ E) as [[-> _]|(p & dev & _ & Had & Hc)]; [by left|].
    right; left. exists q, sc, p, dev. split; [|done].
    assert (HI1 := with_record_inv _ _ _ s HI (hold_record_inv h q sc p dev s Hh Had)).
    destruct Hc as [[Hs _]|(e & Hs & _)];
      by destruct (save_spec h _ _ s' HI1 Hs) as (-> & _).
  - destruct (release h u s) as [r s'] eqn:E. simpl.
    destruct (release_cases _ _ _ _ _ E) as [->|(item & _ & Hi & Hst & _ & Hc)]; [by left|].
    right; right. exists u, item. split_and!; [done..|].
    pose proof (released_inv u item s HI Hi) as HI1.
    destruct Hc as [[Hs _]|(e & Hs & _)]; by destruct (save_spec h _ _ s' HI1 Hs) as (-> & _).
  - destruct (bind_owner h u s) as [r s'] eqn:E. simpl. left.
    destruct (bind_owner_cases _ _ _ _ _ E) as [->|[->|([item Hi] & Hav & Hs)]]; [done..|].
    pose proof (protected_inv u item s HI Hi) as HI1.
    by destruct (save_spec h _ _ s' HI1 Hs) as (-> & _).
  - left. destruct (upgrade_inventory s) as [r s'] eqn:E. simpl. unfold upgrade_inventory in E.
    apply run_bind_cases in E as [(e & Hm & ->)|([] & s1 & Hm & Hr)];
      apply check_available_run in Hm as [-> Hm]; [done|]. walk Hr.
    destruct (load _ _) as [persisted md]. walk Hr; try done. by injection Hr as <- <-.
Qed.

Lemma run_op_inv h o s : HostOk h → Settled s → Settled (run_op h o s).
Proof. intros Hh HS. by apply run_op_settled. Qed.

Lemma live_items_release u item s :
  l_items s !! u = Some item → unreleased item = true →
  live_items s ≡ₚ (u, item) :: live_items (set_items (<[u := released_item item]> (l_items s)) s).
Proof.
  intros Hu Hl. unfold live_items. simpl.
  rewrite <- (insert_id (l_items s) u item Hu) at 1.
  rewrite <- (insert_delete_eq (l_items s) u item), <- (insert_delete_eq (l_items s) u (released_item item)).
  rewrite !map_to_list_insert by apply lookup_delete_eq.
  rewrite filter_cons_True, filter_cons_False by done. done.
Qed.

Lemma reserved_ext s s' : l_items s' = l_items s → reserved s' = reserved s.
Proof. intros Ei. unfold reserved. by rewrite (live_items_ext s s' Ei). Qed.

Lemma reserved_step h o s B :
  HostOk h → LedgerInv s → h_budget h ≤ B → 0 ≤ h_committed_engine_bytes h →
  reserved s ≤ B → reserved (run_op h o s) ≤ B.
Proof.
  intros Hh HI HB He Hs.
  destruct (run_op_items h o s Hh HI) as [Ei|[(q & sc & p & dev & Ei & Had)|(u & item & Hu & Hst & Ei)]].
  - by rewrite (reserved_ext s).
  - rewrite (reserved_ext (with_record (rr_idempotency_key q) (held_item h q)
                             (hold_metadata q p dev sc) s)) by done.
    rewrite reserved_insert by (done || by eapply ah_fresh).
    pose proof (ah_memory _ _ _ _ _ _ Had). pose proof (reserved_le_total h s). simpl. lia.
  - assert (Hl : unreleased item = true) by (unfold unreleased; by rewrite bool_decide_eq_false_2).
    rewrite (reserved_ext (set_items (<[u := released_item item]> (l_items s)) s)) by done.
    pose proof (inv_metadata s u item HI Hu) as [_ HR]. apply ri_valid in HR.
    unfold Reservation_valid in HR. bool_prop.
    unfold reserved in Hs. rewrite (live_items_release u item s Hu Hl) in Hs.
    change (rv_memory_bytes item
            + reserved (set_items (<[u := released_item item]> (l_items s)) s) ≤ B) in Hs. lia.
Qed.

(** C16. The node is never over-committed: from any loaded journal whose
    unreleased holds fit a bound [B], every sequence of operations on hosts
    with a budget of at most [B] keeps the reserved memory within [B],
    whatever engines run and whatever the owners' processes measure. *)
Theorem never_overcommitted file s0 B ops :
  init file = Ok s0 → reserved s0 ≤ B →
  Forall (λ '(h, _), HostOk h ∧ h_budget h ≤ B ∧ 0 ≤ h_committed_engine_bytes h) ops →
  reserved (run_ops ops s0) ≤ B.
Proof.
  intros Hi%init_settled. revert s0 Hi. induction ops as [|[h o] ops IH]; intros s0 HS Hs Hh; [done|].
  apply Forall_cons in Hh as [(Hh & HB & He) Hhs]. simpl.
  apply IH; [by apply run_op_inv|by apply reserved_step; [|apply HS|..]|done].
Qed.

(** ** Replay *)

Lemma hold_existing h q sc s p dev existing :
  l_unavailable s = false → ReservationRequest_valid q = true →
  scope_safe h q (default (h_store_root h) (sc_disk_path sc)) sc = true →
  h_resolve h (default (h_store_root h) (sc_disk_path sc)) = Some p → h_st_dev h p = Some dev →
  l_items s !! rr_idempotency_key q = Some existing →
  hold h q sc s
  = (if bool_decide (metadata_of s (rv_id existing) = hold_metadata q p dev sc)
     then Ok (existing, false)
     else Err (Conflict (rr_memory_bytes q) (rv_memory_bytes existing)), s).
Proof.
  intros Hav Hv Hs Hp Hd He. unfold hold, check_available.
  cbv [mbind M_bind get throw_if throw mret M_ret some_or]. rewrite Hav, Hv, Hs. simpl.
  rewrite Hp. simpl. rewrite Hd. simpl. rewrite He. by case_bool_decide.
Qed.

(** Replays are safe: once [hold] has created a hold, repeating the same
    request with the same scope returns that hold, unchanged and marked as not
    created, even on a host whose memory and disk are gone by now; and the
    same key with another payload or scope is a conflict.  Neither changes the
    ledger. *)
Theorem hold_replay h q sc s item s' h' q' sc' p' dev' :
  HostOk h → LedgerInv s → hold h q sc s = (Ok (item, true), s') →
  rr_idempotency_key q' = rr_idempotency_key q → ReservationRequest_valid q' = true →
  scope_safe h' q' (default (h_store_root h') (sc_disk_path sc')) sc' = true →
  h_resolve h' (default (h_store_root h') (sc_disk_path sc')) = Some p' →
  h_st_dev h' p' = Some dev' →
  ∃ p dev, h_resolve h (default (h_store_root h) (sc_disk_path sc)) = Some p
    ∧ h_st_dev h p = Some dev
    ∧ hold h' q' sc' s'
      = (if bool_decide (hold_metadata q p dev sc = hold_metadata q' p' dev' sc')
         then Ok (item, false)
         else Err (Conflict (rr_memory_bytes q') (rr_memory_bytes q)), s').
Proof.
  intros Hh HI Hr Hk Hv' Hs' Hp' Hd'.
  destruct (hold_cases _ _ _ _ _ _ Hr) as [[_ Hn]|(p & dev & Hav & Had & Hc)]; [by destruct (Hn item)|].
  destruct Hc as [[Hs [= ->]]|(e & _ & ?)]; [|done].
  pose proof (hold_record_inv h q sc p dev s Hh Had) as HR.
  destruct (save_spec h _ _ s' (with_record_inv _ _ _ s HI HR) Hs) as (Ei & Em & _ & Hc).
  destruct Hc as [(_ & Hav' & _)|(? & _)]; [|done].
  exists p, dev. destruct Had. split_and!; [done..|].
  rewrite (hold_existing h' q' sc' s' p' dev' (held_item h q)); try done.
  - simpl. unfold metadata_of. rewrite Em. simpl. by rewrite lookup_insert_eq.
  - by rewrite Hav'.
  - rewrite Ei, Hk. simpl. by rewrite lookup_insert_eq.
Qed.

(** ** Release *)

(** Unreleased, and not to be released before its owner's process is gone. *)
Definition protected_hold (u : uuid) (item : Reservation) (s : Ledger) : Prop :=
  l_items s !! u = Some item ∧ unreleased item = true
  ∧ md_require_stop (metadata_of s u) = true.

Lemma protected_ext u item s s' :
  l_items s' !! u = l_items s !! u → l_metadata s' !! u = l_metadata s !! u →
  protected_hold u item s → protected_hold u item s'.
Proof. unfold protected_hold, metadata_of. by intros -> ->. Qed.

Lemma run_op_protected h o s u item :
  HostOk h → Settled s → h_release_check h u = false →
  protected_hold u item s → protected_hold u item (run_op h o s).
Proof.
  intros Hh HS Hck Hp. pose proof HS as [HI _]. pose proof Hp as (Hi & Hl & Hst). destruct o as [q sc|v|v|]; simpl.
  - destruct (hold h q sc s) as [r s'] eqn:E. simpl.
    destruct (hold_cases _ _ _ _ _ _ E) as [[-> _]|(p & dev & _ & Had & Hc)]; [done|].
    pose proof (with_record_inv _ _ _ s HI (hold_record_inv h q sc p dev s Hh Had)) as HI1.
    assert (rr_idempotency_key q ≠ u) by (destruct Had; congruence).
    destruct Hc as [[Hs _]|(e & Hs & _)]; destruct (save_spec h _ _ s' HI1 Hs) as (Ei & Em & _);
      (eapply protected_ext; [..|done]; rewrite ?Ei, ?Em; simpl; by rewrite lookup_insert_ne).
  - destruct (release h v s) as [r s'] eqn:E. simpl.
    destruct (release_cases _ _ _ _ _ E) as [->|(i & _ & Hv & _ & Hown & Hc)]; [done|].
    assert (v ≠ u) by (intros ->; destruct (Hown Hst); congruence).
    pose proof (released_inv v i s HI Hv) as HI1.
    destruct Hc as [[Hs _]|(e & Hs & _)]; destruct (save_spec h _ _ s' HI1 Hs) as (Ei & Em & _);
      (eapply protected_ext; [..|done]; rewrite ?Ei, ?Em; simpl; by rewrite ?lookup_insert_ne).
  - destruct (bind_owner h v s) as [r s'] eqn:E. simpl.
    destruct (bind_owner_cases _ _ _ _ _ E) as [->|[->|([i Hv] & _ & Hs)]]; [done..|].
    destruct (save_spec h _ _ s' (protected_inv v i s HI Hv) Hs) as (Ei & Em & _).
    destruct (decide (v = u)) as [->|Hne].
    + unfold protected_hold, metadata_of. rewrite Ei, Em. simpl. by rewrite lookup_insert_eq.
    + eapply protected_ext; [..|done]; rewrite ?Ei, ?Em; simpl; by rewrite ?lookup_insert_ne.
  - destruct (upgrade_inventory s) as [r s'] eqn:E. simpl.
    by rewrite (inventory_run s r s' HS E).
Qed.

(** A protected hold outlives everything but its owner: a hold that must
    not be released before its process stopped keeps its memory and disk
    through any sequence of operations, and any restart of the agent, as long
    as no bound owner reports the process gone. *)
Theorem protected_hold_survives file s0 ops u item :
  init file = Ok s0 → protected_hold u item s0 →
  Forall (λ '(h, _), HostOk h ∧ h_release_check h u = false) ops →
  protected_hold u item (run_ops ops s0)
  ∧ (l_unavailable (run_ops ops s0) = false →
     ∃ s', init (l_file (run_ops ops s0)) = Ok s' ∧ protected_hold u item s').
Proof.
  intros Hi%init_settled Hp Hh.
  assert (Settled (run_ops ops s0) ∧ protected_hold u item (run_ops ops s0)) as [HS Hp'].
  { revert s0 Hi Hp. induction ops as [|[h o] ops IH]; intros s0 HS Hp; [done|].
    apply Forall_cons in Hh as [[Hh Hck] Hhs]. simpl.
    apply IH; [done|by apply run_op_inv|by apply run_op_protected]. }
  split; [done|]. intros Hav. destruct HS as [_ Hre].
  destruct (reloads_restart _ _ (Hre Hav)) as (s' & Hs' & Ei & Em).
  exists s'. split; [done|]. eapply protected_ext; [by rewrite Ei|by rewrite Em|done].
Qed.

Definition released_at (u : uuid) (s : Ledger) : Prop :=
  ∃ item, l_items s !! u = Some item ∧ rv_state item = RELEASED.

(** Release is final: no later operation brings a released hold back, so
    its bytes are never counted again. *)
Theorem released_is_final file s0 ops u :
  init file = Ok s0 → released_at u s0 → Forall (λ '(h, _), HostOk h) ops →
  released_at u (run_ops ops s0) ∧ ∀ item, (u, item) ∉ live_items (run_ops ops s0).
Proof.
  intros Hi%init_settled Hp Hh.
  assert (Hr : released_at u (run_ops ops s0)).
  { revert s0 Hi Hp. induction ops as [|[h o] ops IH]; intros s0 HS (item & Hu & Hst); [by exists item|].
    apply Forall_cons in Hh as [Hh Hhs]. simpl. apply IH; [done|by apply run_op_inv|].
    destruct (run_op_items h o s0 Hh (proj1 HS))
      as [Ei|[(q & sc & p & dev & Ei & Had)|(v & i & Hv & Hvs & Ei)]]; unfold released_at; rewrite Ei.
    - by exists item.
    - exists item. rewrite lookup_insert_ne; [done|]. destruct Had. congruence.
    - exists item. rewrite lookup_insert_ne; [done|]. congruence. }
  split; [done|]. destruct Hr as (item & Hu & Hst). intros i [Hi' Hl]%live_item.
  simplify_eq. unfold unreleased in Hl. by rewrite Hst in Hl.
Qed.
End facts.
