(* ===== verification/LedgerScenario.v ===== *)
(** * A ledger at work

    A concrete wire format that satisfies [WireLaws], a host with 100 units of
    memory, and the ledger's theorems on it. *)
From S2P Require Import Prelude Effects JsonDoc Ledger LedgerFacts.
Open Scope Z_scope.

Definition state_text (x : ReservationState) : string :=
  match x with HELD => "held" | RELEASED => "released" | EXPIRED => "expired" end.
Definition state_of_text (s : string) : option ReservationState :=
  if String.eqb s "held" then Some HELD else if String.eqb s "released" then Some RELEASED
  else if String.eqb s "expired" then Some EXPIRED else None.

Definition plain_dump_reservation (r : Reservation) : js :=
  VObj [("id", VStr (rv_id r)); ("state", VStr (state_text (rv_state r)));
        ("memory_bytes", VInt (rv_memory_bytes r)); ("disk_bytes", VInt (rv_disk_bytes r));
        ("occupants", VArr (VStr <$> rv_occupants r))].
Definition plain_dump_request (r : ReservationRequest) : js :=
  VObj [("idempotency_key", VStr (rr_idempotency_key r)); ("workflow_id", VStr (rr_workflow_id r));
        ("variant_id", VStr (rr_variant_id r)); ("memory_bytes", VInt (rr_memory_bytes r));
        ("disk_bytes", VInt (rr_disk_bytes r))].

Definition positive (z : Z) : option Z := if 0 <? z then Some z else None.

Definition plain_validate_reservation (v : js) : option Reservation :=
  match v with
  | VObj [("id", VStr i); ("state", VStr t); ("memory_bytes", VInt m); ("disk_bytes", VInt d);
          ("occupants", VArr os)] =>
      st ← state_of_text t; m ← positive m; d ← positive d; os ← all_strings os;
      Some (mkReservation i st m d os)
  | _ => None
  end.
Definition plain_validate_request (v : js) : option ReservationRequest :=
  match v with
  | VObj [("idempotency_key", VStr k); ("workflow_id", VStr w); ("variant_id", VStr x);
          ("memory_bytes", VInt m); ("disk_bytes", VInt d)] =>
      m ← positive m; d ← positive d; Some (mkRequest k w x m d)
  | _ => None
  end.

#[global] Instance plain_wire : Wire := {|
  uuid_parse := Some;
  dump_reservation := plain_dump_reservation;
  validate_reservation := plain_validate_reservation;
  dump_request := plain_dump_request;
  validate_request := plain_validate_request;
  dump_size _ := 1000;
|}.

Lemma positive_Some z z' : positive z = Some z' → z' = z ∧ (0 <? z) = true.
Proof. unfold positive. case_match; naive_solver. Qed.

Ltac split_literals :=
  repeat match goal with
  | H : match ?x with _ => _ end = Some _ |- _ => destruct x; try discriminate H
  end.

#[global] Instance plain_wire_laws : WireLaws.
Proof.
  split.
  - intros [i st m d os] Hv. unfold Reservation_valid in Hv. simpl in *. bool_prop.
    assert (state_of_text (state_text st) = Some st) as -> by (by destruct st).
    unfold positive. simpl. repeat case_match; try done. simpl. by rewrite all_strings_map.
  - intros [k w x m d] Hv. unfold ReservationRequest_valid in Hv. simpl in *. bool_prop.
    unfold positive. repeat case_match; done.
  - intros [i st m d os]. apply andb_true_iff. split; [vm_compute; done|].
    simpl. rewrite andb_true_r. induction os; simpl; auto.
  - done.
  - done.
  - intros v r Hv. unfold validate_reservation in Hv. simpl in Hv.
    unfold plain_validate_reservation in Hv. split_literals.
    repeat match goal with
    | Hx : _ ≫= _ = Some _ |- _ => apply bind_Some in Hx as (? & ? & Hx)
    | Hx : positive _ = Some _ |- _ => apply positive_Some in Hx as [-> Hx]
    end. simplify_eq. unfold Reservation_valid. simpl.
    rewrite bool_decide_eq_true_2 by done. by apply andb_true_iff.
  - intros v r Hv. unfold validate_request in Hv. simpl in Hv.
    unfold plain_validate_request in Hv. split_literals.
    repeat match goal with
    | Hx : _ ≫= _ = Some _ |- _ => apply bind_Some in Hx as (? & ? & Hx)
    | Hx : positive _ = Some _ |- _ => apply positive_Some in Hx as [-> Hx]
    end. simplify_eq. unfold ReservationRequest_valid. simpl.
    rewrite !bool_decide_eq_true_2 by done. by apply andb_true_iff.
  - done.
Qed.

(** ** A node with 100 units of memory, 10 of them used by engines *)

Definition demo_host (w : Write) (stopped : bool) : Host :=
  {| h_is_symlink _ := false; h_is_dir _ := true; h_resolve p := if is_absolute p then Some p else None;
     h_st_dev _ := Some 7; h_disk_free _ := Some 500; h_store_root := "/store";
     h_training_root := "/state/training"; h_budget := 100; h_committed_engine_bytes := 10;
     h_additional_held := Some (λ _, Some 20); h_quota := Some 400; h_quota_usage := Some (Some 0);
     h_admitted := true; h_release_check _ := stopped; h_footprint _ := None; h_write := w |}.

(** The same node later: no memory and no disk left. *)
Definition full_host : Host :=
  let h := demo_host Written false in
  {| h_is_symlink := h_is_symlink h; h_is_dir := h_is_dir h; h_resolve := h_resolve h;
     h_st_dev := h_st_dev h; h_disk_free _ := Some 0; h_store_root := h_store_root h;
     h_training_root := h_training_root h; h_budget := 0; h_committed_engine_bytes := 90;
     h_additional_held := h_additional_held h; h_quota := h_quota h; h_quota_usage := h_quota_usage h;
     h_admitted := false; h_release_check := h_release_check h; h_footprint := h_footprint h;
     h_write := Written |}.

Lemma demo_host_ok w b : HostOk (demo_host w b).
Proof. split; simpl; intros p q; [case_match; naive_solver|intros [= <-]; lia]. Qed.

Definition demo_request : ReservationRequest := mkRequest "r1" "w1" "v1" 40 100.
Definition demo_scope : HoldScope := mkScope None 30 true 0 [] None.
Definition empty_ledger : Ledger := mkLedger ∅ ∅ ∅ false NoFile.
Definition held_ledger : Ledger := (hold (demo_host Written false) demo_request demo_scope empty_ledger).2.
Definition demo_item : Reservation := mkReservation "r1" HELD 40 100 ["engines:10"].

Definition demo_ops : list (Host * op) :=
  [(demo_host Written false, OpHold demo_request demo_scope);
   (demo_host Written false, OpRelease "r1");
   (demo_host Written false, OpBind "r1");
   (demo_host Written false, OpHold (mkRequest "r2" "w2" "v2" 80 100) demo_scope);
   (demo_host Written false, OpInventory)].

Lemma demo_ops_ok : Forall (λ '(h, _), HostOk h) demo_ops.
Proof. repeat constructor; apply demo_host_ok. Qed.

Lemma journal_crash_atomic_witness :
  restarts_to (l_file (run_ops demo_ops empty_ledger)) (run_ops demo_ops empty_ledger)
  ∧ (restarts_to (l_file (run_op (demo_host FailedAfter true) (OpRelease "r1") (run_ops demo_ops empty_ledger)))
                 (run_ops demo_ops empty_ledger)
     ∨ restarts_to (l_file (run_op (demo_host FailedAfter true) (OpRelease "r1") (run_ops demo_ops empty_ledger)))
                   (run_op (demo_host FailedAfter true) (OpRelease "r1") (run_ops demo_ops empty_ledger))).
Proof.
  apply (journal_crash_atomic NoFile empty_ledger demo_ops (demo_host FailedAfter true) (OpRelease "r1")).
  - reflexivity.
  - exact demo_ops_ok.
  - apply demo_host_ok.
  - vm_compute. reflexivity.
Defined.

Lemma empty_inv : LedgerInv empty_ledger.
Proof. split; [done|intros ???; simpl; by rewrite lookup_empty]. Qed.

Lemma hold_within_capacity_witness :
  h_committed_engine_bytes (demo_host Written false) + memory_total (demo_host Written false) held_ledger ≤ 100.
Proof.
  refine (proj1 (hold_within_capacity (demo_host Written false) demo_request demo_scope
                   empty_ledger demo_item held_ledger _ _ _ _)).
  - apply demo_host_ok.
  - apply empty_inv.
  - set_solver.
  - vm_compute. reflexivity.
Defined.

Lemma never_overcommitted_witness : reserved (run_ops demo_ops empty_ledger) ≤ 100.
Proof.
  apply (never_overcommitted NoFile empty_ledger 100 demo_ops).
  - reflexivity.
  - vm_compute. discriminate.
  - repeat constructor; try apply demo_host_ok; simpl; lia.
Defined.

Lemma hold_replay_witness :
  hold full_host demo_request demo_scope held_ledger = (Ok (demo_item, false), held_ledger).
Proof.
  destruct (hold_replay (demo_host Written false) demo_request demo_scope empty_ledger demo_item
              held_ledger full_host demo_request demo_scope "/store" 7)
    as (p & dev & [= <-] & [= <-] & Hr).
  - apply demo_host_ok.
  - apply empty_inv.
  - vm_compute. reflexivity.
  - reflexivity.
  - vm_compute. reflexivity.
  - vm_compute. reflexivity.
  - reflexivity.
  - reflexivity.
  - rewrite Hr. rewrite bool_decide_eq_true_2 by reflexivity. reflexivity.
Defined.

Definition held_file : JournalFile := l_file held_ledger.
Definition reloaded : Ledger := mkLedger (l_items held_ledger) (l_metadata held_ledger) ∅ false held_file.

Lemma held_file_init : init held_file = Ok reloaded.
Proof. vm_compute. reflexivity. Qed.

Definition later_ops : list (Host * op) :=
  [(demo_host Written false, OpRelease "r1"); (demo_host Written false, OpBind "r1");
   (demo_host Written false, OpRelease "r1"); (full_host, OpHold (mkRequest "r2" "w2" "v2" 1 1) demo_scope)].

Lemma full_host_ok : HostOk full_host.
Proof. split; simpl; intros p q; [case_match; naive_solver|intros [= <-]; lia]. Qed.

Lemma protected_hold_survives_witness : protected_hold "r1" demo_item (run_ops later_ops reloaded).
Proof.
  refine (proj1 (protected_hold_survives held_file reloaded later_ops "r1" demo_item _ _ _)).
  - exact held_file_init.
  - vm_compute. auto.
  - repeat constructor; first [apply demo_host_ok|apply full_host_ok|reflexivity].
Defined.

Definition released_ledger : Ledger :=
  run_ops [(demo_host Written true, OpBind "r1"); (demo_host Written true, OpRelease "r1")] reloaded.
Definition released_reloaded : Ledger :=
  mkLedger (l_items released_ledger) (l_metadata released_ledger) ∅ false (l_file released_ledger).

Lemma released_is_final_witness : released_at "r1" (run_ops demo_ops released_reloaded).
Proof.
  refine (proj1 (released_is_final (l_file released_ledger) released_reloaded demo_ops "r1" _ _ _)).
  - vm_compute. reflexivity.
  - eexists. split; [vm_compute; reflexivity|reflexivity].
  - exact demo_ops_ok.
Defined.
