(* ===== verification/UpgradeModels.v ===== *)
(** * Upgrade authority

    The wire models of coire_core/models/upgrades.py that decide an upgrade:
    phases, releases, operations, plans, evidence and receipts, with their
    validators.  Identifiers and digests are strings (their patterns are left to
    pydantic), times are integers in microseconds, dictionaries are [gmap]s.
    SHA-256 over the canonical JSON and the JSON text of the evidence are
    parameters: the class [UpgradeCodec]. *)
From S2P Require Import Prelude.
Open Scope Z_scope.

Inductive UpgradeKind := STUDIO | CONTROL_PLANE.
#[global] Instance UpgradeKind_eq : EqDecision UpgradeKind.
Proof. solve_decision. Defined.

Inductive UpgradeAction := UPGRADE | ROLLBACK | BOOTSTRAP_HANDOVER.
#[global] Instance UpgradeAction_eq : EqDecision UpgradeAction.
Proof. solve_decision. Defined.

Inductive UpgradePhase :=
| ACCEPTED | PREFLIGHT | FENCING | DRAINING | STAGED | SMOKE_BEFORE | MIGRATING | ACTIVATING
| VERIFYING | QUALIFYING | COMMITTING | RESTORING | VERIFYING_SOURCE | RECOVERY_REQUIRED
| SUCCEEDED | FAILED_UNCHANGED | CANCELLED_UNCHANGED | ROLLED_BACK.
#[global] Instance UpgradePhase_eq : EqDecision UpgradePhase.
Proof. solve_decision. Defined.

Definition TERMINAL_UPGRADE_PHASES : list UpgradePhase :=
  [SUCCEEDED; FAILED_UNCHANGED; CANCELLED_UNCHANGED; ROLLED_BACK].
Definition terminal (p : UpgradePhase) : bool := is_in p TERMINAL_UPGRADE_PHASES.

Inductive Outcome := Intent | Complete | Failed | Unknown.
#[global] Instance Outcome_eq : EqDecision Outcome.
Proof. solve_decision. Defined.

(** ** Releases *)

Record UpgradeCompatibility := mkCompatibility {
  uc_source_sha256s : list string;
  uc_readable_schema_heads : list string;
  uc_native_journal_versions : list Z;
  uc_evidence_sha256 : option string;
}.
#[global] Instance UpgradeCompatibility_eq : EqDecision UpgradeCompatibility.
Proof. solve_decision. Defined.

Definition bounded_length {A} (l : list A) (lo hi : nat) : bool :=
  (lo <=? length l)%nat && (length l <=? hi)%nat.
Definition distinct {A} `{EqDecision A} (l : list A) : bool := bool_decide (NoDup l).

Definition UpgradeCompatibility_valid (c : UpgradeCompatibility) : bool :=
  bounded_length (uc_source_sha256s c) 1 32 && bounded_length (uc_readable_schema_heads c) 1 32
  && bounded_length (uc_native_journal_versions c) 1 16
  && forallb (λ v, (1 <=? v) && (v <=? 100)) (uc_native_journal_versions c)
  && distinct (uc_native_journal_versions c) && distinct (uc_source_sha256s c)
  && distinct (uc_readable_schema_heads c).

Record UpgradeServiceSpec := mkService {
  us_service : string;
  us_image_id : string;
  us_configuration_sha256 : string;
}.
#[global] Instance UpgradeServiceSpec_eq : EqDecision UpgradeServiceSpec.
Proof. solve_decision. Defined.

Record UpgradeReleaseManifest := mkManifest {
  um_kind : UpgradeKind;
  um_version : string;
  um_source_revision : string;
  um_platform : string;
  um_prepared_at : Z;
  um_compatibility : UpgradeCompatibility;
  um_artifact_sha256s : gmap string string;
  um_staged_bytes : Z;
  um_environment_id : option string;
  um_environment_sha256 : option string;
  um_project : option string;
  um_services : list UpgradeServiceSpec;
  um_schema_head : option string;
  um_compose_sha256 : option string;
  um_host_release_key : option string;
  um_paired_required : bool;
}.
#[global] Instance UpgradeReleaseManifest_eq : EqDecision UpgradeReleaseManifest.
Proof. solve_decision. Defined.

Definition COHORT_ORDER : list string :=
  ["coire-file-worker"; "coire-ops"; "coire-mcp"; "coire-scheduler"; "coire-api"; "coire-web"].

Definition target_shape (m : UpgradeReleaseManifest) : bool :=
  match um_kind m with
  | STUDIO =>
      String.eqb (um_platform m) "macos-arm64" && present (um_environment_id m)
      && present (um_environment_sha256 m) && absent (um_project m)
      && negb (nonempty (um_services m)) && absent (um_host_release_key m)
  | CONTROL_PLANE =>
      String.eqb (um_platform m) "linux-arm64" && present (um_project m)
      && nonempty (um_services m) && present (um_schema_head m) && present (um_compose_sha256 m)
      && absent (um_environment_id m) && absent (um_environment_sha256 m)
  end
  && distinct (us_service <$> um_services m)
  && same (us_service <$> um_services m)
          (filter (λ s, s ∈ us_service <$> um_services m) COHORT_ORDER).

Inductive ReleaseStatus := Prepared | Invalid | Retired.
#[global] Instance ReleaseStatus_eq : EqDecision ReleaseStatus.
Proof. solve_decision. Defined.

Record UpgradeRelease := mkRelease {
  ur_release_id : string;
  ur_manifest_sha256 : string;
  ur_manifest : UpgradeReleaseManifest;
  ur_prepared_artifact_id : string;
  ur_prepared_by : string;
  ur_status : ReleaseStatus;
}.
#[global] Instance UpgradeRelease_eq : EqDecision UpgradeRelease.
Proof. solve_decision. Defined.

(** The images of a release by service: a dict comprehension. *)
Definition image_ids (m : UpgradeReleaseManifest) : gmap string string :=
  foldl (λ d s, <[us_service s := us_image_id s]> d) ∅ (um_services m).

Definition release_pair_compatible (source target : UpgradeRelease) (action : UpgradeAction)
    (parent_job_id : option string) : bool :=
  let s := ur_manifest source in
  let t := ur_manifest target in
  if negb (same (um_kind s) (um_kind t)) || negb (same (um_platform s) (um_platform t))
     || negb (same (um_project s) (um_project t))
     || negb (is_in 3 (uc_native_journal_versions (um_compatibility s)))
     || negb (is_in 3 (uc_native_journal_versions (um_compatibility t)))
  then false
  else match action with
       | ROLLBACK =>
           present parent_job_id
           && is_in (ur_manifest_sha256 target) (uc_source_sha256s (um_compatibility s))
       | _ => is_in (ur_manifest_sha256 source) (uc_source_sha256s (um_compatibility t))
       end.

(** ** Operations *)

Record UpgradeOperation := mkOperation {
  uo_job_id : string;
  uo_action : UpgradeAction;
  uo_kind : UpgradeKind;
  uo_node : option string;
  uo_source_release_id : string;
  uo_target_release_id : string;
  uo_source_sha256 : string;
  uo_target_sha256 : string;
  uo_user_id : string;
  uo_key_id : option string;
  uo_idempotency_key : string;
  uo_request_sha256 : string;
  uo_generation : Z;
  uo_cohort : list string;
  (** drain, readiness, recovery and gateway-outage seconds *)
  uo_timing : Z * Z * Z * Z;
  uo_phase : UpgradePhase;
  uo_accepted_at : Z;
  uo_updated_at : Z;
  uo_finished_at : option Z;
  uo_cancel_requested : bool;
  uo_cancellation_allowed : bool;
  uo_reason : option string;
  uo_receipt_sequence : Z;
  uo_parent_job_id : option string;
  uo_retained_schema_head : option string;
}.
#[global] Instance UpgradeOperation_eq : EqDecision UpgradeOperation.
Proof. solve_decision. Defined.

(** [operation.model_copy(update=...)] on the fields that change. *)
Definition op_with (op : UpgradeOperation) (phase : UpgradePhase) (updated : Z)
    (finished : option Z) (cancel allowed : bool) (reason : option string) (seq : Z)
    (schema : option string) : UpgradeOperation :=
  mkOperation (uo_job_id op) (uo_action op) (uo_kind op) (uo_node op) (uo_source_release_id op)
    (uo_target_release_id op) (uo_source_sha256 op) (uo_target_sha256 op) (uo_user_id op)
    (uo_key_id op) (uo_idempotency_key op) (uo_request_sha256 op) (uo_generation op) (uo_cohort op)
    (uo_timing op) phase (uo_accepted_at op) updated finished cancel allowed reason seq
    (uo_parent_job_id op) schema.

Definition coherent_operation (op : UpgradeOperation) : bool :=
  Bool.eqb (same (uo_kind op) STUDIO) (present (uo_node op))
  && negb (String.eqb (uo_source_sha256 op) (uo_target_sha256 op))
  && Bool.eqb (terminal (uo_phase op)) (present (uo_finished_at op))
  && distinct (uo_cohort op).

(** The normalisation at the end of the validator. *)
Definition normalize_operation (op : UpgradeOperation) : UpgradeOperation :=
  if terminal (uo_phase op) && uo_cancellation_allowed op
  then op_with op (uo_phase op) (uo_updated_at op) (uo_finished_at op) (uo_cancel_requested op)
               false (uo_reason op) (uo_receipt_sequence op) (uo_retained_schema_head op)
  else op.

(** The immutable part of an operation: what [authority_sha256] covers. *)
Definition authority_view (op : UpgradeOperation) : UpgradeOperation :=
  op_with op ACCEPTED 0 None false false None 0 None.

(** ** Maintenance and plans *)

Inductive MaintenanceState := Fencing | Draining | Active | Recovering | Released.
#[global] Instance MaintenanceState_eq : EqDecision MaintenanceState.
Proof. solve_decision. Defined.

Record UpgradeMaintenance := mkMaintenance {
  mt_job_id : string;
  mt_generation : Z;
  mt_targets : list string;
  mt_state : MaintenanceState;
  mt_updated_at : Z;
  mt_drain_deadline_at : Z;
  mt_initiator_user_id : option string;
  mt_acknowledged_generations : gmap string Z;
}.
#[global] Instance UpgradeMaintenance_eq : EqDecision UpgradeMaintenance.
Proof. solve_decision. Defined.

Definition UpgradeMaintenance_valid (m : UpgradeMaintenance) : bool :=
  (1 <=? mt_generation m) && (mt_generation m <=? 2 ^ 63 - 1)
  && bounded_length (mt_targets m) 1 16 && distinct (mt_targets m)
  && forallb (λ '(t, g), is_in t (mt_targets m) && (g =? mt_generation m))
             (map_to_list (mt_acknowledged_generations m)).

Record BackupEvidence := mkBackup {
  be_backup_id : string;
  be_project : string;
  be_schema_head : string;
  be_created_at : Z;
  be_sha256_digest : string;
  be_size_bytes : Z;
  be_validated_at : Z;
  be_validation_sha256 : string;
}.
#[global] Instance BackupEvidence_eq : EqDecision BackupEvidence.
Proof. solve_decision. Defined.

Record UpgradeExecutionPlan := mkPlan {
  up_operation : UpgradeOperation;
  up_source : UpgradeRelease;
  up_target : UpgradeRelease;
  up_maintenance : UpgradeMaintenance;
  up_authorization_expires_at : Z;
  up_model_id : string;
  up_model_variant_id : string;
  up_model_slug : string;
  up_model_manifest_sha256 : string;
  up_peer_runtime_sha256 : option string;
  up_backup : option BackupEvidence;
  up_initial_schema_head : option string;
  up_initial_schema_sha256 : option string;
  up_schema_head_after : option string;
}.
#[global] Instance UpgradeExecutionPlan_eq : EqDecision UpgradeExecutionPlan.
Proof. solve_decision. Defined.

Definition needs_migration (p : UpgradeExecutionPlan) : bool :=
  negb (same (up_initial_schema_head p) (up_schema_head_after p)).

Definition paired_required (p : UpgradeExecutionPlan) : bool :=
  um_paired_required (ur_manifest (up_source p)) || um_paired_required (ur_manifest (up_target p)).

(** A schema head a release declares it can read. *)
Definition reads_schema (r : UpgradeRelease) (head : option string) : bool :=
  match head with
  | Some h => is_in h (uc_readable_schema_heads (um_compatibility (ur_manifest r)))
  | None => false
  end.

Definition bound_authority (p : UpgradeExecutionPlan) : bool :=
  let op := up_operation p in
  let m := up_maintenance p in
  same (uo_source_release_id op) (ur_release_id (up_source p))
  && same (uo_target_release_id op) (ur_release_id (up_target p))
  && same (uo_source_sha256 op) (ur_manifest_sha256 (up_source p))
  && same (uo_target_sha256 op) (ur_manifest_sha256 (up_target p))
  && same (uo_kind op) (um_kind (ur_manifest (up_source p)))
  && same (uo_kind op) (um_kind (ur_manifest (up_target p)))
  && same (uo_job_id op) (mt_job_id m) && (uo_generation op =? mt_generation m)
  && match uo_kind op with
     | CONTROL_PLANE =>
         present (up_initial_schema_head p) && present (up_initial_schema_sha256 p)
         && present (up_schema_head_after p)
         && reads_schema (up_source p) (up_initial_schema_head p)
         && reads_schema (up_source p) (up_schema_head_after p)
         && reads_schema (up_target p) (up_schema_head_after p)
         && negb (same (uo_action op) ROLLBACK && needs_migration p)
     | STUDIO =>
         absent (up_initial_schema_head p) && absent (up_initial_schema_sha256 p)
         && absent (up_schema_head_after p)
     end
  && negb (same (mt_state m) Released)
  && match mt_initiator_user_id m with Some u => same u (uo_user_id op) | None => true end
  && match uo_node op with
     | Some n => is_in n (mt_targets m) || is_in "cluster" (mt_targets m)
     | None => true
     end
  && same (um_project (ur_manifest (up_source p))) (um_project (ur_manifest (up_target p)))
  && release_pair_compatible (up_source p) (up_target p) (uo_action op) (uo_parent_job_id op)
  && (negb (paired_required p) || present (up_peer_runtime_sha256 p)).

Definition matches_plan (m : UpgradeMaintenance) (p : UpgradeExecutionPlan) : bool :=
  negb (same (mt_state m) Released)
  && same (mt_job_id m) (uo_job_id (up_operation p))
  && (mt_generation m =? uo_generation (up_operation p))
  && same (mt_targets m) (mt_targets (up_maintenance p))
  && (mt_drain_deadline_at m =? mt_drain_deadline_at (up_maintenance p))
  && same (mt_initiator_user_id m) (mt_initiator_user_id (up_maintenance p)).

(** The owners whose work a Core upgrade drains; [None] is the [ValueError]. *)
Definition core_upgrade_required_owners (p : UpgradeExecutionPlan) : option (gset string) :=
  match uo_kind (up_operation p) with
  | STUDIO => None
  | CONTROL_PLANE =>
      let targets := mt_targets (up_maintenance p) in
      if is_in "core" targets then
        Some {["requests"; "scheduler"; "runs"; "mcp"; "ops"; "feedback"; "files"; "renewals";
               "failover"]}
      else
        Some (foldr (λ '(service, owner) owners,
                       if is_in service targets then {[owner]} ∪ owners else owners)
                    {["requests"]}
                    [("coire-mcp", "mcp"); ("coire-ops", "ops"); ("coire-file-worker", "files")])
  end.

(** ** Evidence and receipts

    The diagnostic fields of the evidence that no decision reads (elapsed time,
    process and container identity) are left out. *)

Record UpgradeEvidence := mkEvidence {
  ev_runtime_sha256 : option string;
  ev_release_sha256 : option string;
  ev_schema_head : option string;
  ev_schema_before_sha256 : option string;
  ev_schema_after_sha256 : option string;
  ev_model_id : option string;
  ev_model_variant_id : option string;
  ev_peer_runtime_sha256 : option string;
  ev_collective_verified : option bool;
  ev_model_manifest_sha256 : option string;
  ev_output_sha256 : option string;
  ev_backup_validation_sha256 : option string;
  ev_check : option string;
  ev_generated_tokens : option Z;
  ev_service_image_ids : gmap string string;
  ev_source_verified : option bool;
  ev_artifacts_verified : option bool;
  ev_configuration_verified : option bool;
  ev_migration_exit_code : option Z;
  ev_migration_not_started_sha256 : option string;
  ev_cleanup_verified : option bool;
}.
#[global] Instance UpgradeEvidence_eq : EqDecision UpgradeEvidence.
Proof. solve_decision. Defined.

Inductive Restoration := NotRequired | Pending | Verified | RestorationFailed.
#[global] Instance Restoration_eq : EqDecision Restoration.
Proof. solve_decision. Defined.

Record UpgradeReceipt := mkReceipt {
  rc_job_id : string;
  rc_generation : Z;
  rc_sequence : Z;
  rc_effect_id : string;
  rc_phase : UpgradePhase;
  rc_occurred_at : Z;
  rc_outcome : Outcome;
  rc_observed_sha256 : option string;
  rc_reason : option string;
  rc_evidence : string;
  rc_restoration : Restoration;
}.
#[global] Instance UpgradeReceipt_eq : EqDecision UpgradeReceipt.
Proof. solve_decision. Defined.

Record UpgradeMigrationNotStarted := mkNotStarted {
  ns_job_id : string;
  ns_generation : Z;
  ns_plan_sha256 : string;
  ns_grant_id : string;
  ns_schema_head : string;
  ns_schema_sha256 : string;
  ns_observed_at : Z;
}.
#[global] Instance UpgradeMigrationNotStarted_eq : EqDecision UpgradeMigrationNotStarted.
Proof. solve_decision. Defined.

(** SHA-256 of the canonical JSON of a model, and [model_validate_json]. *)
Class UpgradeCodec := {
  sha256_operation : UpgradeOperation → string;
  sha256_plan : UpgradeExecutionPlan → string;
  sha256_receipt : UpgradeReceipt → string;
  sha256_not_started : UpgradeMigrationNotStarted → string;
  parse_evidence : string → option UpgradeEvidence;
}.

(** [UpgradeOperation.authority_sha256] and [UpgradeExecutionPlan.authority_sha256]
    digest the parts that never change. *)
Definition op_authority_sha256 `{UpgradeCodec} (op : UpgradeOperation) : string :=
  sha256_operation (authority_view op).

Definition plan_view (p : UpgradeExecutionPlan) : UpgradeExecutionPlan :=
  let m := up_maintenance p in
  mkPlan (authority_view (up_operation p)) (up_source p) (up_target p)
    (mkMaintenance (mt_job_id m) (mt_generation m) (mt_targets m) Fencing 0
       (mt_drain_deadline_at m) (mt_initiator_user_id m) ∅)
    0 (up_model_id p) (up_model_variant_id p) (up_model_slug p) (up_model_manifest_sha256 p)
    (up_peer_runtime_sha256 p) (up_backup p) (up_initial_schema_head p)
    (up_initial_schema_sha256 p) (up_schema_head_after p).
Definition plan_authority_sha256 `{UpgradeCodec} (p : UpgradeExecutionPlan) : string :=
  sha256_plan (plan_view p).
