(* ===== verification/UpgradeProgress.v ===== *)
(** * Upgrade progress

    The control plane's side of an upgrade: [validate_progress] of
    coire_api/upgrades/state.py, receipt ingestion and cancellation of
    upgrades/service.py, [append_receipt] of upgrades/persistence.py and the
    activation grants of upgrades/grants.py.  One operation's database rows are
    the record [OpRow]; each call runs under the operation lock, so a call is one
    atomic step.  The checks that look outside these rows (maintenance fences,
    deployed schema, prepared backup, live drain, actor authorisation, published
    host target) are the booleans of [Checks]. *)
From S2P Require Import Prelude Effects UpgradeModels.
Open Scope Z_scope.

Inductive UpgradeError := UpgradeConflict (why : string) | UpgradeUnavailable (why : string)
| UpgradeInvalid.

Definition FORWARD (p : UpgradePhase) : list UpgradePhase :=
  match p with
  | ACCEPTED => [PREFLIGHT]
  | PREFLIGHT => [FENCING; STAGED]
  | FENCING => [DRAINING]
  | DRAINING => [STAGED]
  | STAGED => [FENCING; SMOKE_BEFORE; MIGRATING; ACTIVATING]
  | SMOKE_BEFORE => [ACTIVATING]
  | MIGRATING => [ACTIVATING]
  | ACTIVATING => [VERIFYING]
  | VERIFYING => [QUALIFYING; COMMITTING]
  | QUALIFYING => [COMMITTING]
  | COMMITTING => [SUCCEEDED]
  | RESTORING => [VERIFYING_SOURCE]
  | VERIFYING_SOURCE => [ROLLED_BACK]
  | RECOVERY_REQUIRED => [RESTORING; VERIFYING_SOURCE]
  | SUCCEEDED | FAILED_UNCHANGED | CANCELLED_UNCHANGED | ROLLED_BACK => []
  end.

Definition has_receipt (p : UpgradePhase) (o : Outcome) (history : list UpgradeReceipt) : bool :=
  existsb (λ r, same (rc_phase r) p && same (rc_outcome r) o) history.

Definition permitted (p : UpgradePhase) (activated : bool) : list UpgradePhase :=
  FORWARD p ++ [p; RECOVERY_REQUIRED]
  ++ (if activated then [RESTORING] else [FAILED_UNCHANGED; CANCELLED_UNCHANGED]).

Definition is_true_opt (o : option bool) : bool := same o (Some true).

Section progress.
Context `{UpgradeCodec}.

Abbreviation Result := (result UpgradeError).

Definition read_evidence (text : string) : Result UpgradeEvidence :=
  match parse_evidence text with Some e => Ok e | None => Err UpgradeInvalid end.

(** ** [validate_progress], in its parts *)

Definition selection_decision (op : UpgradeOperation) (r : UpgradeReceipt) : bool :=
  same (uo_kind op) CONTROL_PLANE && same (rc_phase r) COMMITTING && same (rc_outcome r) Complete.

(** The guards every receipt passes. *)
Definition check_transition (op : UpgradeOperation) (r : UpgradeReceipt)
    (p : UpgradeExecutionPlan) (history : list UpgradeReceipt) (authorized : bool)
    : Result unit :=
  let activated := has_receipt ACTIVATING Intent history in
  let d := rc_phase r in
  raise_if (String.prefix "expired-recovery-" (rc_effect_id r)) (UpgradeConflict "expired");;
  raise_if (negb (same (rc_job_id r) (uo_job_id op)) || negb (rc_generation r =? uo_generation op)
            || negb (same (op_authority_sha256 op) (op_authority_sha256 (up_operation p)))
            || terminal (uo_phase op)) (UpgradeConflict "stale or terminal");;
  raise_if (is_in d [ACTIVATING; MIGRATING] && same (rc_outcome r) Intent && negb authorized)
           (UpgradeConflict "intent needs authority");;
  raise_if (is_in d [ACTIVATING; MIGRATING] && negb (same (rc_outcome r) Intent)
            && negb (has_receipt d Intent history)) (UpgradeConflict "completion without intent");;
  raise_if (is_in d [VERIFYING; QUALIFYING; COMMITTING; SUCCEEDED] && negb activated)
           (UpgradeConflict "progress without activation");;
  raise_if (negb (is_in d (permitted (uo_phase op) activated))) (UpgradeConflict "transition").

(** The release a terminal receipt must have observed, and its runtime. *)
Definition check_release (op : UpgradeOperation) (r : UpgradeReceipt) (p : UpgradeExecutionPlan)
    (history : list UpgradeReceipt) (ev : UpgradeEvidence) (success : bool) : Result unit :=
  let expected := if success then up_target p else up_source p in
  raise_if (negb (is_true_opt (ev_cleanup_verified ev))) (UpgradeConflict "cleanup");;
  raise_if (same (uo_kind op) CONTROL_PLANE && same (rc_phase r) SUCCEEDED
            && negb (has_receipt COMMITTING Complete history)) (UpgradeConflict "no selection");;
  raise_if (success && uo_cancel_requested op) (UpgradeConflict "cancelled");;
  raise_if (negb (same (rc_observed_sha256 r) (Some (ur_manifest_sha256 expected))))
           (UpgradeConflict "observed release");;
  raise_if (negb success && negb (is_true_opt (ev_source_verified ev)))
           (UpgradeConflict "source not verified");;
  raise_if (match uo_kind op with
            | STUDIO =>
                negb (same (ev_runtime_sha256 ev) (um_environment_sha256 (ur_manifest expected)))
            | CONTROL_PLANE =>
                negb (same (ev_service_image_ids ev) (image_ids (ur_manifest expected)))
            end) (UpgradeConflict "runtime");;
  raise_if (same (uo_kind op) CONTROL_PLANE
            && (negb (reads_schema expected (ev_schema_head ev))
                || (success && negb (same (ev_schema_head ev) (up_schema_head_after p)))))
           (UpgradeConflict "schema").

(** An unchanged ending: nothing was activated, and the schema is accounted for. *)
Definition check_unchanged (op : UpgradeOperation) (p : UpgradeExecutionPlan)
    (history : list UpgradeReceipt) (ev : UpgradeEvidence)
    (not_started : option UpgradeMigrationNotStarted) : Result unit :=
  raise_if (has_receipt ACTIVATING Intent history) (UpgradeConflict "activated");;
  if has_receipt MIGRATING Intent history then
    let same_schema :=
      same (ev_schema_head ev) (up_initial_schema_head p)
      && same (ev_schema_before_sha256 ev) (up_initial_schema_sha256 p)
      && same (ev_schema_after_sha256 ev) (up_initial_schema_sha256 p) in
    let completed :=
      same (ev_migration_exit_code ev) (Some 0) && same (ev_schema_head ev) (up_schema_head_after p) in
    let unchanged :=
      present (ev_migration_exit_code ev) && negb (same (ev_migration_exit_code ev) (Some 0))
      && same_schema in
    let fenced :=
      match not_started with
      | None => false
      | Some ns =>
          same (ns_job_id ns) (uo_job_id op) && (ns_generation ns =? uo_generation op)
          && same (ns_plan_sha256 ns) (plan_authority_sha256 p)
          && same (Some (ns_schema_head ns)) (up_initial_schema_head p)
          && same (Some (ns_schema_sha256 ns)) (up_initial_schema_sha256 p)
          && same (ev_migration_not_started_sha256 ev) (Some (sha256_not_started ns))
          && absent (ev_migration_exit_code ev) && same_schema
      end in
    raise_if (negb (completed || unchanged || fenced)
              || negb (reads_schema (up_source p) (ev_schema_head ev)))
             (UpgradeConflict "uncertain schema")
  else Ok tt.

(** The latest durable verification of the expected release. *)
Definition verification_of (phase : UpgradePhase) (sha : string) (history : list UpgradeReceipt)
    : option UpgradeReceipt :=
  List.find (λ r, same (rc_phase r) phase && same (rc_outcome r) Complete
                  && same (rc_observed_sha256 r) (Some sha)
                  && negb (String.eqb (rc_evidence r) "")) (rev history).

Definition binding_agrees (a b : UpgradeEvidence) : bool :=
  same (ev_model_id a) (ev_model_id b) && same (ev_model_variant_id a) (ev_model_variant_id b)
  && same (ev_model_manifest_sha256 a) (ev_model_manifest_sha256 b)
  && same (ev_output_sha256 a) (ev_output_sha256 b)
  && same (ev_generated_tokens a) (ev_generated_tokens b)
  && same (ev_runtime_sha256 a) (ev_runtime_sha256 b)
  && same (ev_service_image_ids a) (ev_service_image_ids b)
  && same (ev_schema_head a) (ev_schema_head b) && same (ev_check a) (ev_check b)
  && same (ev_collective_verified a) (ev_collective_verified b)
  && same (ev_peer_runtime_sha256 a) (ev_peer_runtime_sha256 b).

Definition enough_tokens (ev : UpgradeEvidence) : bool :=
  match ev_generated_tokens ev with Some n => 10 <=? n | None => false end.

Definition serves_asset (p : UpgradeExecutionPlan) (ev : UpgradeEvidence) : bool :=
  same (ev_model_id ev) (Some (up_model_id p))
  && same (ev_model_variant_id ev) (Some (up_model_variant_id p))
  && same (ev_model_manifest_sha256 ev) (Some (up_model_manifest_sha256 p)).

Definition check_verification (op : UpgradeOperation) (p : UpgradeExecutionPlan)
    (history : list UpgradeReceipt) (ev : UpgradeEvidence) (success : bool) : Result unit :=
  let expected := if success then up_target p else up_source p in
  match verification_of (if success then VERIFYING else VERIFYING_SOURCE)
          (ur_manifest_sha256 expected) history with
  | None => Err (UpgradeConflict "no durable verification")
  | Some v =>
      prior ← read_evidence (rc_evidence v);
      raise_if (negb (binding_agrees prior ev)) (UpgradeConflict "serving proof differs");;
      raise_if (negb (enough_tokens ev) || negb (present (ev_output_sha256 ev))
                || negb (serves_asset p ev)) (UpgradeConflict "no fresh serving evidence");;
      raise_if (same (uo_kind op) STUDIO && success && paired_required p
                && (negb (is_true_opt (ev_collective_verified ev))
                    || negb (same (ev_peer_runtime_sha256 ev) (up_peer_runtime_sha256 p))))
               (UpgradeConflict "no peer qualification")
  end.

Definition validate_progress (op : UpgradeOperation) (r : UpgradeReceipt)
    (p : UpgradeExecutionPlan) (history : list UpgradeReceipt) (authorized : bool)
    (not_started : option UpgradeMigrationNotStarted) : Result unit :=
  check_transition op r p history authorized;;
  if negb (terminal (rc_phase r)) && negb (selection_decision op r) then Ok tt
  else
    raise_if (negb (same (rc_outcome r) Complete) || String.eqb (rc_evidence r) "")
             (UpgradeConflict "terminal without verification");;
    ev ← read_evidence (rc_evidence r);
    let success := same (rc_phase r) SUCCEEDED || selection_decision op r in
    check_release op r p history ev success;;
    if is_in (rc_phase r) [FAILED_UNCHANGED; CANCELLED_UNCHANGED]
    then check_unchanged op p history ev not_started
    else check_verification op p history ev success.
End progress.

(** ** The database rows of one operation *)

Inductive Boundary := Migration | Runtime.
#[global] Instance Boundary_eq : EqDecision Boundary.
Proof. solve_decision. Defined.

(** [UpgradeGrantRow] *)
Record GrantRow := mkGrant {
  gr_job_id : string;
  gr_generation : Z;
  gr_boundary : Boundary;
  gr_expires_at : Z;
  gr_consumed_at : option Z;
}.

(** [UpgradeActivationGrant], the grant as the executor holds it *)
Record ActivationGrant := mkActivation {
  ag_job_id : string;
  ag_generation : Z;
  ag_boundary : Boundary;
  ag_grant_id : string;
  ag_expires_at : Z;
}.

Record OpRow := mkRow {
  ow_op : UpgradeOperation;
  ow_plan : option UpgradeExecutionPlan;
  ow_not_started : option UpgradeMigrationNotStarted;
  (** the receipt rows in insertion order, each with its stored digest *)
  ow_receipts : list (UpgradeReceipt * string);
  ow_grants : gmap string GrantRow;
  ow_active_slot : bool;
}.

Definition set_op v (s : OpRow) :=
  mkRow v (ow_plan s) (ow_not_started s) (ow_receipts s) (ow_grants s) (ow_active_slot s).
Definition set_receipts v (s : OpRow) :=
  mkRow (ow_op s) (ow_plan s) (ow_not_started s) v (ow_grants s) (ow_active_slot s).
Definition set_grants v (s : OpRow) :=
  mkRow (ow_op s) (ow_plan s) (ow_not_started s) (ow_receipts s) v (ow_active_slot s).
Definition set_active_slot v (s : OpRow) :=
  mkRow (ow_op s) (ow_plan s) (ow_not_started s) (ow_receipts s) (ow_grants s) v.

(** What the checks outside these rows answer. *)
Record Checks := mkChecks {
  ck_fenced : bool;
  ck_schema : bool;
  ck_backup : bool;
  ck_drained : bool;
  ck_authorized : bool;
  ck_published : bool;
  (** the length of a receipt's evidence in UTF-8 bytes *)
  ck_evidence_bytes : UpgradeReceipt → Z;
}.

Section rows.
Context `{UpgradeCodec}.
Abbreviation Call := (M OpRow UpgradeError).

Definition find_receipt (job : string) (generation sequence : Z)
    (rows : list (UpgradeReceipt * string)) : option (UpgradeReceipt * string) :=
  List.find (λ '(r, _), same (rc_job_id r) job && (rc_generation r =? generation)
                        && (rc_sequence r =? sequence)) rows.

(** [select ... where job and generation order by sequence limit 4097] *)
Definition stored_history (s : OpRow) : list (UpgradeReceipt * string) :=
  take 4097 (sorted_on (λ '(r, _), rc_sequence r)
    (filter (λ '(r, _), rc_job_id r = uo_job_id (ow_op s)
                        ∧ rc_generation r = uo_generation (ow_op s)) (ow_receipts s))).

Definition append_receipt (now : Z) (r : UpgradeReceipt) : Call bool :=
  s ← get;
  let op := ow_op s in
  throw_if (negb (uo_generation op =? rc_generation r)) (UpgradeConflict "stale owner");;
  match find_receipt (rc_job_id r) (rc_generation r) (rc_sequence r) (ow_receipts s) with
  | Some (_, sha) =>
      throw_if (negb (String.eqb sha (sha256_receipt r))) (UpgradeConflict "conflicting");;
      mret false
  | None =>
      throw_if (negb (rc_sequence r =? uo_receipt_sequence op + 1)) (UpgradeConflict "gap");;
      modify (λ s, set_op (op_with op (uo_phase op) now (uo_finished_at op)
                             (uo_cancel_requested op) (uo_cancellation_allowed op) (uo_reason op)
                             (rc_sequence r) (uo_retained_schema_head op))
                     (set_receipts (ow_receipts s ++ [(r, sha256_receipt r)]) s));;
      mret true
  end.

(** The stored history is complete, in sequence, and matches its digests. *)
Fixpoint history_verified (n : Z) (rows : list (UpgradeReceipt * string)) : bool :=
  match rows with
  | [] => true
  | (r, sha) :: rest =>
      (rc_sequence r =? n) && String.eqb (sha256_receipt r) sha && history_verified (n + 1) rest
  end.

(** The operation after an accepted receipt. *)
Definition progressed (now : Z) (kind : UpgradeKind) (r : UpgradeReceipt)
    (ev : option UpgradeEvidence) (op : UpgradeOperation) : UpgradeOperation :=
  let t := terminal (rc_phase r) in
  op_with op (rc_phase r) now
    (if t then Some now else uo_finished_at op)
    (uo_cancel_requested op)
    (if t then false
     else match kind with
          | CONTROL_PLANE =>
              if same (rc_phase r) COMMITTING && same (rc_outcome r) Complete then false
              else if same (rc_phase r) RESTORING then true
              else uo_cancellation_allowed op
          | STUDIO => uo_cancellation_allowed op
          end)
    (uo_reason op) (uo_receipt_sequence op)
    (if t && same kind CONTROL_PLANE
     then match ev with Some e => ev_schema_head e | None => uo_retained_schema_head op end
     else uo_retained_schema_head op).

(** [ingest_receipt]; the link observation of a restored pair is not part of
    these rows. *)
Definition ingest_receipt (ck : Checks) (now : Z) (r : UpgradeReceipt) : Call bool :=
  throw_if (String.prefix "expired-recovery-" (rc_effect_id r)) (UpgradeConflict "expired");;
  s ← get;
  let op := ow_op s in
  throw_if (negb (same (rc_job_id r) (uo_job_id op))) (UpgradeUnavailable "no such operation");;
  match find_receipt (rc_job_id r) (rc_generation r) (rc_sequence r) (ow_receipts s) with
  | Some _ => append_receipt now r
  | None =>
      p ← some_or (UpgradeConflict "no plan") (ow_plan s);
      let rows := stored_history s in
      let history := rows.*1 in
      throw_if (negb (Z.of_nat (length history) =? uo_receipt_sequence op)
                || (4096 <=? Z.of_nat (length history))) (UpgradeUnavailable "history bound");;
      throw_if (negb (history_verified 1 rows)) (UpgradeUnavailable "history content");;
      throw_if (256 * 1024 <? sum_Z (ck_evidence_bytes ck <$> (history ++ [r])))
               (UpgradeConflict "evidence bound");;
      lift (validate_progress op r p history false (ow_not_started s));;
      throw_if (selection_decision op r && negb (ck_authorized ck)) (UpgradeConflict "actor");;
      throw_if (same (uo_kind op) CONTROL_PLANE && same (rc_phase r) SUCCEEDED
                && negb (ck_published ck)) (UpgradeConflict "target not published");;
      appended ← append_receipt now r;
      if negb appended then mret false
      else
        modify (λ s,
          let s' := set_op (progressed now (uo_kind op) r (parse_evidence (rc_evidence r)) (ow_op s)) s in
          if terminal (rc_phase r) then set_active_slot false s' else s');;
        mret true
  end.

(** ** Activation grants *)

(** [require_migration_backup] of upgrades/compatibility.py, without its raise *)
Definition migration_backup_ok (p : UpgradeExecutionPlan) (now : Z) : bool :=
  same (uo_kind (up_operation p)) CONTROL_PLANE && needs_migration p
  && match up_backup p with
     | None => false
     | Some b =>
         same (Some (be_project b)) (um_project (ur_manifest (up_source p)))
         && same (Some (be_schema_head b)) (up_initial_schema_head p)
         && (be_created_at b <=? now) && (now - 24 * 3600 * 1000000 <=? be_created_at b)
         && (be_created_at b <=? be_validated_at b) && (be_validated_at b <=? now)
     end.

Definition at_boundary (p : UpgradePhase) : bool := is_in p [STAGED; SMOKE_BEFORE; MIGRATING].

Definition ready_core_staged (op : UpgradeOperation) (b : Boundary) (p : UpgradeExecutionPlan)
    (now : Z) (proof : UpgradeReceipt) (ev : UpgradeEvidence) : bool :=
  same (rc_phase proof) STAGED && is_true_opt (ev_artifacts_verified ev)
  && is_true_opt (ev_configuration_verified ev)
  && same (ev_release_sha256 ev) (Some (uo_target_sha256 op))
  && same (ev_service_image_ids ev) (image_ids (ur_manifest (up_target p)))
  && Bool.eqb (same b Migration) (needs_migration p)
  && (negb (needs_migration p)
      || (migration_backup_ok p now
          && match up_backup p with
             | None => false
             | Some bk => same (ev_backup_validation_sha256 ev) (Some (be_validation_sha256 bk))
             end)).

Definition ready_core_migrated (op : UpgradeOperation) (b : Boundary) (p : UpgradeExecutionPlan)
    (proof : UpgradeReceipt) (ev : UpgradeEvidence) : bool :=
  same (uo_phase op) MIGRATING && same (rc_phase proof) MIGRATING && same b Runtime
  && needs_migration p && same (ev_schema_head ev) (up_schema_head_after p)
  && same (ev_migration_exit_code ev) (Some 0).

Definition ready_studio (op : UpgradeOperation) (p : UpgradeExecutionPlan)
    (proof : UpgradeReceipt) (ev : UpgradeEvidence) : bool :=
  same (rc_phase proof) SMOKE_BEFORE && serves_asset p ev && present (ev_output_sha256 ev)
  && present (ev_runtime_sha256 ev) && same (ev_check ev) (Some "node")
  && is_true_opt (ev_cleanup_verified ev)
  && same (ev_runtime_sha256 ev) (um_environment_sha256 (ur_manifest (up_target p)))
  && enough_tokens ev.

(** [verify_activation_ready] *)
Definition activation_ready (op : UpgradeOperation) (b : Boundary) (p : UpgradeExecutionPlan)
    (now : Z) (rows : list (UpgradeReceipt * string)) : bool :=
  same (op_authority_sha256 op) (op_authority_sha256 (up_operation p))
  && at_boundary (uo_phase op)
  && (same (uo_phase op) MIGRATING || (now <? mt_drain_deadline_at (up_maintenance p)))
  && match last (sorted_on (λ '(r, _), rc_sequence r)
           (filter (λ '(r, _), rc_job_id r = uo_job_id op ∧ rc_generation r = uo_generation op)
                   rows)) with
     | None => false
     | Some (proof, _) =>
         same (rc_outcome proof) Complete
         && same (rc_observed_sha256 proof) (Some (uo_source_sha256 op))
         && negb (String.eqb (rc_evidence proof) "")
         && match parse_evidence (rc_evidence proof) with
            | None => false
            | Some ev =>
                match uo_kind op with
                | CONTROL_PLANE =>
                    if same (uo_phase op) STAGED then ready_core_staged op b p now proof ev
                    else ready_core_migrated op b p proof ev
                | STUDIO => same (uo_phase op) SMOKE_BEFORE && ready_studio op p proof ev
                end
            end
     end.

Definition grant_window : Z := 30 * 1000000.

Definition prerequisites (ck : Checks) (op : UpgradeOperation) (b : Boundary)
    (p : UpgradeExecutionPlan) (now : Z) (rows : list (UpgradeReceipt * string)) : bool :=
  ck_fenced ck && activation_ready op b p now rows && ck_schema ck && ck_backup ck
  && ck_drained ck && ck_authorized ck.

(** The grant of a boundary, if one was ever issued. *)
Definition grant_at (b : Boundary) (op : UpgradeOperation) (gs : gmap string GrantRow)
    : option (string * GrantRow) :=
  List.find (λ '(_, g), same (gr_job_id g) (uo_job_id op)
                        && (gr_generation g =? uo_generation op) && same (gr_boundary g) b)
            (map_to_list gs).

(** [issue]; [fresh] is the [uuid4()] of a new grant row. *)
Definition issue (ck : Checks) (now : Z) (fresh : string) (generation : Z) (source : string)
    (b : Boundary) : Call ActivationGrant :=
  s ← get;
  let op := ow_op s in
  throw_if (negb (generation =? uo_generation op) || negb (String.eqb source (uo_source_sha256 op))
            || present (uo_finished_at op) || uo_cancel_requested op
            || negb (at_boundary (uo_phase op))) (UpgradeConflict "boundary");;
  throw_if (same b Migration && same (uo_kind op) STUDIO) (UpgradeConflict "studio migration");;
  p ← some_or (UpgradeConflict "no plan") (ow_plan s);
  throw_if (negb (prerequisites ck op b p now (ow_receipts s))) (UpgradeConflict "prerequisites");;
  let expires := now + grant_window in
  match grant_at b op (ow_grants s) with
  | Some (id, g) =>
      throw_if (present (gr_consumed_at g)) (UpgradeConflict "consumed");;
      modify (λ s, set_grants (<[id := mkGrant (gr_job_id g) (gr_generation g) (gr_boundary g)
                                         expires (gr_consumed_at g)]> (ow_grants s)) s);;
      mret (mkActivation (uo_job_id op) (uo_generation op) b id expires)
  | None =>
      throw_if (present (ow_grants s !! fresh)) UpgradeInvalid;;
      modify (λ s, set_grants (<[fresh := mkGrant (uo_job_id op) (uo_generation op) b expires None]>
                                (ow_grants s)) s);;
      mret (mkActivation (uo_job_id op) (uo_generation op) b fresh expires)
  end.

Definition boundary_phase (b : Boundary) : UpgradePhase :=
  match b with Migration => MIGRATING | Runtime => ACTIVATING end.

Definition grant_matches (g : GrantRow) (a : ActivationGrant) : bool :=
  (gr_expires_at g =? ag_expires_at a) && same (gr_job_id g) (ag_job_id a)
  && (gr_generation g =? ag_generation a) && same (gr_boundary g) (ag_boundary a).

Definition intent_matches (op : UpgradeOperation) (a : ActivationGrant) (r : UpgradeReceipt) : bool :=
  (uo_generation op =? ag_generation a) && same (rc_job_id r) (uo_job_id op)
  && (rc_generation r =? uo_generation op) && same (rc_phase r) (boundary_phase (ag_boundary a))
  && same (rc_outcome r) Intent.

Definition fresh_intent (now : Z) (r : UpgradeReceipt) : bool :=
  (0 <=? now - rc_occurred_at r) && (now - rc_occurred_at r <=? grant_window).

(** [consume]; [later] is the second clock read, after the prerequisites. *)
Definition consume (ck : Checks) (now later : Z) (a : ActivationGrant) (r : UpgradeReceipt)
    : Call unit :=
  s ← get;
  let op := ow_op s in
  throw_if (negb (same (ag_job_id a) (uo_job_id op))) (UpgradeUnavailable "no such operation");;
  match ow_grants s !! ag_grant_id a with
  | None => throw (UpgradeConflict "stale grant")
  | Some g =>
      match gr_consumed_at g with
      | Some at_ =>
          throw_if (negb (grant_matches g a && intent_matches op a r
            && match find_receipt (rc_job_id r) (rc_generation r) (rc_sequence r) (ow_receipts s) with
               | None => false
               | Some (stored, sha) => String.eqb sha (sha256_receipt r) && same stored r
               end
            && (at_ <? gr_expires_at g) && (at_ <=? now) && (rc_occurred_at r <=? at_)))
            (UpgradeConflict "replay differs")
      | None =>
          throw_if (negb ((now <? gr_expires_at g) && grant_matches g a && intent_matches op a r
            && absent (uo_finished_at op) && negb (uo_cancel_requested op) && fresh_intent now r))
            (UpgradeConflict "stale grant");;
          p ← some_or (UpgradeConflict "no plan") (ow_plan s);
          throw_if (negb (prerequisites ck op (ag_boundary a) p now (ow_receipts s)))
                   (UpgradeConflict "prerequisites");;
          throw_if ((gr_expires_at g <=? later) || negb (fresh_intent later r))
                   (UpgradeConflict "expired during verification");;
          append_receipt later r;;
          modify (λ s,
            let op := ow_op s in
            set_grants (<[ag_grant_id a := mkGrant (gr_job_id g) (gr_generation g) (gr_boundary g)
                                             (gr_expires_at g) (Some later)]> (ow_grants s))
              (set_op (op_with op (boundary_phase (ag_boundary a)) later (uo_finished_at op)
                         (uo_cancel_requested op) (uo_cancellation_allowed op) (uo_reason op)
                         (uo_receipt_sequence op) (uo_retained_schema_head op)) s))
      end
  end.

(** ** Cancellation of a control-plane operation

    A Studio cancellation first asks the node and ingests its receipts; its
    last step is the same. *)
Definition request_cancellation (ck : Checks) (now : Z) : Call UpgradeOperation :=
  throw_if (negb (ck_authorized ck)) (UpgradeConflict "actor");;
  s ← get;
  let op := ow_op s in
  if present (uo_finished_at op) || uo_cancel_requested op then mret op
  else
    throw_if (same (uo_kind op) CONTROL_PLANE && negb (uo_cancellation_allowed op))
             (UpgradeConflict "boundary passed");;
    throw_if (same (uo_kind op) CONTROL_PLANE && same (uo_phase op) COMMITTING
              && match find_receipt (uo_job_id op) (uo_generation op) (uo_receipt_sequence op)
                         (ow_receipts s) with
                 | Some (d, _) => same (rc_phase d) COMMITTING && same (rc_outcome d) Complete
                 | None => false
                 end) (UpgradeConflict "boundary passed");;
    let op' := op_with op (uo_phase op) now (uo_finished_at op) true (uo_cancellation_allowed op)
                 (Some "administrator_cancelled") (uo_receipt_sequence op)
                 (uo_retained_schema_head op) in
    modify (set_op op');; mret op'.
End rows.
