(* ===== verification/UpgradeFacts.v ===== *)
(** * An upgrade ends only the way its receipts prove

    The rows of one operation as a transition system: receipts are ingested,
    grants issued and consumed, cancellation requested, in any order; a call
    that raises rolls its transaction back and is no step.  The invariant says
    what the receipts of a reachable operation look like. *)
From S2P Require Import Prelude Effects UpgradeModels UpgradeProgress.
Open Scope Z_scope.

Section facts.
Context `{UpgradeCodec}.

Definition hist (s : OpRow) : list UpgradeReceipt := (ow_receipts s).*1.

Inductive row_step : OpRow → OpRow → Prop :=
| step_ingest ck now r b s s' : ingest_receipt ck now r s = (Ok b, s') → row_step s s'
| step_issue ck now fresh gen src bd a s s' :
    issue ck now fresh gen src bd s = (Ok a, s') → row_step s s'
| step_consume ck now later a r s s' :
    consume ck now later a r s = (Ok tt, s') → row_step s s'
| step_cancel ck now op s s' : request_cancellation ck now s = (Ok op, s') → row_step s s'.

(** An accepted operation: no receipts, no grants. *)
Definition accepted (s : OpRow) : Prop :=
  uo_phase (ow_op s) = ACCEPTED ∧ uo_receipt_sequence (ow_op s) = 0
  ∧ uo_finished_at (ow_op s) = None ∧ ow_receipts s = [] ∧ ow_grants s = ∅.

Definition reachable_row (s : OpRow) : Prop := ∃ s0, accepted s0 ∧ rtc row_step s0 s.

(** ** What the calls do *)

Definition appended (now : Z) (r : UpgradeReceipt) (s : OpRow) : OpRow :=
  let op := ow_op s in
  set_op (op_with op (uo_phase op) now (uo_finished_at op) (uo_cancel_requested op)
            (uo_cancellation_allowed op) (uo_reason op) (rc_sequence r)
            (uo_retained_schema_head op))
         (set_receipts (ow_receipts s ++ [(r, sha256_receipt r)]) s).

Lemma append_receipt_run now r s b s' :
  append_receipt now r s = (Ok b, s') →
  uo_generation (ow_op s) = rc_generation r
  ∧ (b = false ∧ s' = s
       ∧ is_Some (find_receipt (rc_job_id r) (rc_generation r) (rc_sequence r) (ow_receipts s))
     ∨ b = true ∧ s' = appended now r s ∧ rc_sequence r = uo_receipt_sequence (ow_op s) + 1
       ∧ find_receipt (rc_job_id r) (rc_generation r) (rc_sequence r) (ow_receipts s) = None).
Proof.
  unfold append_receipt. intros Hr. inv_run.
  destruct (find_receipt _ _ _ _) as [[r0 sha]|] eqn:Ef; inv_run; guards;
    (split; [done|]); [left|right]; eauto.
Qed.

(** A receipt is new: it was validated against the whole history. *)
Lemma ingest_receipt_run ck now r s b s' :
  ingest_receipt ck now r s = (Ok b, s') →
  s' = s
  ∨ ∃ p, ow_plan s = Some p ∧ rc_job_id r = uo_job_id (ow_op s)
      ∧ uo_generation (ow_op s) = rc_generation r
      ∧ rc_sequence r = uo_receipt_sequence (ow_op s) + 1
      ∧ (length (stored_history s) < 4096)%nat
      ∧ validate_progress (ow_op s) r p ((stored_history s).*1) false (ow_not_started s) = Ok tt
      ∧ let s1 := appended now r s in
        let s2 := set_op (progressed now (uo_kind (ow_op s)) r (parse_evidence (rc_evidence r))
                            (ow_op s1)) s1 in
        s' = (if terminal (rc_phase r) then set_active_slot false s2 else s2).
Proof.
  unfold ingest_receipt. intros Hr. inv_run.
  destruct (find_receipt _ _ _ _) as [found|] eqn:Ef.
  { left. apply append_receipt_run in Hr as (_ & [(_ & -> & _)|(_ & _ & _ & ?)]); [done|congruence]. }
  inv_run. units.
  match goal with Ha : append_receipt _ _ _ = _ |- _ =>
    apply append_receipt_run in Ha as (Hg & [(-> & -> & [? ?])|(-> & -> & Hs & _)]) end;
    [congruence|].
  change (negb true) with false in Hr. cbv iota in Hr. inv_run. right. guards.
  eexists. split_and!; try done.
  match goal with Hl : (4096 <=? _) = false |- _ =>
    apply Z.leb_gt in Hl; rewrite length_fmap in Hl end. lia.
Qed.

Lemma issue_run ck now fresh gen src bd a s s' :
  issue ck now fresh gen src bd s = (Ok a, s') →
  uo_finished_at (ow_op s) = None
  ∧ ∃ id g, s' = set_grants (<[id := g]> (ow_grants s)) s
      ∧ gr_job_id g = uo_job_id (ow_op s) ∧ gr_generation g = uo_generation (ow_op s)
      ∧ gr_boundary g = bd ∧ gr_consumed_at g = None
      ∧ (∀ g0, ow_grants s !! id = Some g0 → gr_boundary g0 = bd ∧ gr_consumed_at g0 = None)
      ∧ (ow_grants s !! id = None → ∀ id0 g0, ow_grants s !! id0 = Some g0 →
           gr_job_id g0 = uo_job_id (ow_op s) → gr_generation g0 = uo_generation (ow_op s) →
           gr_boundary g0 ≠ bd).
Proof.
  unfold issue. intros Hr. inv_run. guards.
  split; [by destruct (uo_finished_at (ow_op s))|].
  destruct (grant_at bd (ow_op s) (ow_grants s)) as [[id g]|] eqn:Eg; inv_run.
  - apply find_Some_elem in Eg as [Hin%elem_of_map_to_list Hg]. guards.
    destruct (gr_consumed_at g) eqn:Ec; [done|].
    eexists id, _. split_and!; try done; simpl; try congruence.
    intros g0. rewrite Hin. intros [= <-]. done.
  - destruct (ow_grants s !! fresh) eqn:Ef; [done|].
    eexists fresh, _. split_and!; try done; [by rewrite Ef|].
    intros _ id0 g0 Hin Hj Hg Hb.
    destruct (find_is_Some (λ '(_, g), same (gr_job_id g) (uo_job_id (ow_op s))
                 && (gr_generation g =? uo_generation (ow_op s)) && same (gr_boundary g) bd)
                (map_to_list (ow_grants s)) (id0, g0)) as [y Hy].
    + by apply elem_of_map_to_list.
    + by rewrite Hj, Hg, Hb, !same_refl, Z.eqb_refl.
    + unfold grant_at in Eg. rewrite Hy in Eg. done.
Qed.

Lemma consume_run ck now later a r s s' :
  consume ck now later a r s = (Ok tt, s') →
  s' = s
  ∨ ∃ g p, ow_grants s !! ag_grant_id a = Some g ∧ ow_plan s = Some p
      ∧ gr_consumed_at g = None ∧ gr_boundary g = ag_boundary a
      ∧ uo_finished_at (ow_op s) = None ∧ uo_cancel_requested (ow_op s) = false
      ∧ rc_job_id r = uo_job_id (ow_op s) ∧ rc_generation r = uo_generation (ow_op s)
      ∧ rc_phase r = boundary_phase (gr_boundary g) ∧ rc_outcome r = Intent
      ∧ activation_ready (ow_op s) (gr_boundary g) p now (ow_receipts s) = true
      ∧ ∃ s1 b, append_receipt later r s = (Ok b, s1)
        ∧ s' = set_grants (<[ag_grant_id a := mkGrant (gr_job_id g) (gr_generation g)
                  (gr_boundary g) (gr_expires_at g) (Some later)]> (ow_grants s1))
                (set_op (op_with (ow_op s1) (boundary_phase (gr_boundary g)) later
                   (uo_finished_at (ow_op s1)) (uo_cancel_requested (ow_op s1))
                   (uo_cancellation_allowed (ow_op s1)) (uo_reason (ow_op s1))
                   (uo_receipt_sequence (ow_op s1)) (uo_retained_schema_head (ow_op s1))) s1).
Proof.
  unfold consume. intros Hr. inv_run.
  destruct (ow_grants s !! ag_grant_id a) as [g|] eqn:Eg; [|inv_run].
  destruct (gr_consumed_at g) as [at_|] eqn:Ec; [left; by inv_run|].
  inv_run. unfold grant_matches, intent_matches, prerequisites in *. guards.
  right. assert (gr_boundary g = ag_boundary a) as Hb by done. rewrite <- Hb in *.
  eexists g, _. split_and!; try done; try congruence.
  - by destruct (uo_finished_at (ow_op s)).
  - eauto.
Qed.

Lemma cancel_run ck now op s s' :
  request_cancellation ck now s = (Ok op, s') →
  s' = s
  ∨ uo_finished_at (ow_op s) = None
    ∧ s' = set_op (op_with (ow_op s) (uo_phase (ow_op s)) now (uo_finished_at (ow_op s)) true
                     (uo_cancellation_allowed (ow_op s)) (Some "administrator_cancelled")
                     (uo_receipt_sequence (ow_op s)) (uo_retained_schema_head (ow_op s))) s.
Proof.
  unfold request_cancellation. intros Hr. inv_run.
  destruct (_ || _) eqn:Ef; inv_run; [by left|]. guards. right. split; [|done].
  by destruct (uo_finished_at (ow_op s)).
Qed.

(** ** What [validate_progress] accepts *)

Lemma validate_transition op r p history auth ns :
  validate_progress op r p history auth ns = Ok tt →
  terminal (uo_phase op) = false
  ∧ (rc_phase r ∈ [ACTIVATING; MIGRATING] → rc_outcome r = Intent → auth = true)
  ∧ (rc_phase r ∈ [VERIFYING; QUALIFYING; COMMITTING; SUCCEEDED] →
     has_receipt ACTIVATING Intent history = true)
  ∧ rc_phase r ∈ permitted (uo_phase op) (has_receipt ACTIVATING Intent history).
Proof.
  unfold validate_progress, check_transition. intros Hv. inv_ok. guards.
  repeat match goal with
  | Hx : raise_if ?c _ = Ok _ |- _ => destruct c eqn:?; [discriminate Hx|clear Hx]
  | Hx : (raise_if _ _ ;; _) = Ok _ |- _ => apply raise_if_bind_Ok in Hx as [? Hx]
  end.
  guards. split_and!; try done.
  - intros Hp%is_in_true Ho%same_true. destruct auth; [done|].
    match goal with Hx : is_in _ [ACTIVATING; MIGRATING] && same _ Intent && _ = false |- _ =>
      rewrite Hp, Ho in Hx; done end.
  - intros Hp%is_in_true.
    match goal with Hx : is_in _ [VERIFYING; _; _; _] && _ = false |- _ =>
      rewrite Hp in Hx; simpl in Hx end. by guards.
Qed.

(** A terminal receipt is complete, its evidence parses, it was checked against
    the release it claims, and (unless nothing changed) against a durable
    verification of that release. *)
Lemma validate_terminal op r p history auth ns :
  validate_progress op r p history auth ns = Ok tt → terminal (rc_phase r) = true →
  rc_outcome r = Complete
  ∧ ∃ ev, parse_evidence (rc_evidence r) = Some ev
    ∧ let success := same (rc_phase r) SUCCEEDED || selection_decision op r in
      check_release op r p history ev success = Ok tt
      ∧ if is_in (rc_phase r) [FAILED_UNCHANGED; CANCELLED_UNCHANGED]
        then check_unchanged op p history ev ns = Ok tt
        else check_verification op p history ev success = Ok tt.
Proof.
  unfold validate_progress. intros Hv Ht. rewrite Ht in Hv. simpl negb in Hv.
  cbn [andb] in Hv. cbv iota in Hv. apply bind_Ok in Hv as ([] & _ & Hv). inv_ok. guards.
  split; [done|]. unfold read_evidence in *. destruct (parse_evidence _) as [ev|]; [|done].
  exists ev. split; [done|]. inv_ok. units. split; [done|]. by case_match.
Qed.

Lemma check_verification_run op p history ev success :
  check_verification op p history ev success = Ok tt →
  let expected := if success then up_target p else up_source p in
  ∃ v, v ∈ history ∧ rc_phase v = (if success then VERIFYING else VERIFYING_SOURCE)
    ∧ rc_outcome v = Complete ∧ rc_observed_sha256 v = Some (ur_manifest_sha256 expected)
    ∧ enough_tokens ev = true ∧ serves_asset p ev = true.
Proof.
  intros Hv expected. unfold check_verification in Hv.
  destruct (verification_of _ _ _) as [v|] eqn:Ev; [|done].
  apply find_Some_elem in Ev as [Hin Hx]. guards. inv_ok. guards.
  repeat match goal with Hx : raise_if ?c _ = Ok _ |- _ => destruct c eqn:?; [done|clear Hx] end.
  guards.
  exists v. split_and!; try done. by apply list_elem_of_In, in_rev, list_elem_of_In.
Qed.

(** ** The invariant *)

Definition is_intent (b : Boundary) (r : UpgradeReceipt) : Prop :=
  rc_phase r = boundary_phase b ∧ rc_outcome r = Intent.
#[global] Instance is_intent_dec b r : Decision (is_intent b r).
Proof. unfold is_intent. apply _. Defined.
Definition intents (b : Boundary) (h : list UpgradeReceipt) : nat := length (filter (is_intent b) h).

(** The receipts that justify [SUCCEEDED]: an activation intent, then a
    completed verification of the target, then the final receipt, complete and
    last, that observed the target running with the pinned model. *)
Definition success_proved (s : OpRow) : Prop :=
  uo_cancel_requested (ow_op s) = false
  ∧ ∃ p i j k ri rj rk ev,
      ow_plan s = Some p ∧ (i < j < k)%nat ∧ S k = length (hist s)
      ∧ hist s !! i = Some ri ∧ is_intent Runtime ri
      ∧ hist s !! j = Some rj ∧ rc_phase rj = VERIFYING ∧ rc_outcome rj = Complete
      ∧ rc_observed_sha256 rj = Some (ur_manifest_sha256 (up_target p))
      ∧ hist s !! k = Some rk ∧ rc_phase rk = SUCCEEDED ∧ rc_outcome rk = Complete
      ∧ rc_observed_sha256 rk = Some (ur_manifest_sha256 (up_target p))
      ∧ parse_evidence (rc_evidence rk) = Some ev
      ∧ ev_cleanup_verified ev = Some true ∧ enough_tokens ev = true ∧ serves_asset p ev = true.

Definition after_activation : list UpgradePhase := [VERIFYING; QUALIFYING; COMMITTING; SUCCEEDED].

Record RowInv (s : OpRow) : Prop := {
  rw_owner r : r ∈ hist s →
    rc_job_id r = uo_job_id (ow_op s) ∧ rc_generation r = uo_generation (ow_op s);
  rw_seq i r : hist s !! i = Some r → rc_sequence r = Z.of_nat i + 1;
  rw_count : uo_receipt_sequence (ow_op s) = Z.of_nat (length (hist s));
  rw_finished : present (uo_finished_at (ow_op s)) = terminal (uo_phase (ow_op s));
  rw_activated i r : hist s !! i = Some r → rc_phase r ∈ after_activation →
    has_receipt ACTIVATING Intent (take i (hist s)) = true;
  rw_success : uo_phase (ow_op s) = SUCCEEDED → success_proved s;
  rw_unchanged : uo_phase (ow_op s) ∈ [FAILED_UNCHANGED; CANCELLED_UNCHANGED] →
    has_receipt ACTIVATING Intent (hist s) = false;
  rw_grants id g : ow_grants s !! id = Some g →
    gr_job_id g = uo_job_id (ow_op s) ∧ gr_generation g = uo_generation (ow_op s);
  rw_unique i1 g1 i2 g2 : ow_grants s !! i1 = Some g1 → ow_grants s !! i2 = Some g2 →
    gr_boundary g1 = gr_boundary g2 → i1 = i2;
  rw_intents b : (intents b (hist s) ≤ 1)%nat
    ∧ (intents b (hist s) ≠ 0%nat → ∃ id g, ow_grants s !! id = Some g ∧ gr_boundary g = b
                                          ∧ gr_consumed_at g ≠ None);
}.

Lemma accepted_inv s : accepted s → RowInv s.
Proof.
  intros (Hp & Hn & Hf & Hr & Hg). assert (Hh : hist s = []) by (unfold hist; by rewrite Hr).
  split; rewrite ?Hh, ?Hp, ?Hf, ?Hg; try done; try set_solver.
Qed.

(** *** The history that [ingest_receipt] reads is the whole history *)

Lemma indexed_sorted {A} (key : A → Z) l c :
  (∀ i x, l !! i = Some x → key x = Z.of_nat i + c) → Sorted (λ a b, key a ≤ key b) l.
Proof.
  revert c. induction l as [|x l IH]; intros c Hk; constructor.
  - apply (IH (c + 1)). intros i y Hy. rewrite (Hk (S i) y Hy). lia.
  - destruct l as [|y l]; constructor.
    rewrite (Hk 0%nat x eq_refl), (Hk 1%nat y eq_refl). lia.
Qed.

Lemma stored_history_all s :
  RowInv s → (length (stored_history s) < 4096)%nat → stored_history s = ow_receipts s.
Proof.
  intros HI Hlen. unfold stored_history in *.
  rewrite filter_all in *.
  - rewrite sorted_on_id in *;
      [|eapply (indexed_sorted _ _ 1); intros i [r sha] Hi; apply (rw_seq s HI);
        unfold hist; by rewrite list_lookup_fmap, Hi..].
    rewrite length_take in Hlen. apply take_ge. lia.
  - apply Forall_forall. intros [r sha] Hin. apply (rw_owner s HI). unfold hist.
    apply list_elem_of_fmap. by exists (r, sha).
  - apply Forall_forall. intros [r sha] Hin. apply (rw_owner s HI). unfold hist.
    apply list_elem_of_fmap. by exists (r, sha).
Qed.

(** *** Terminal operations never change *)

Lemma terminal_finished s :
  RowInv s → terminal (uo_phase (ow_op s)) = true → uo_finished_at (ow_op s) ≠ None.
Proof. intros HI Ht Hf. pose proof (rw_finished s HI) as Hr. rewrite Ht, Hf in Hr. done. Qed.

Lemma terminal_step s s' :
  RowInv s → terminal (uo_phase (ow_op s)) = true → row_step s s' → s' = s.
Proof.
  intros HI Ht Hst. pose proof (terminal_finished s HI Ht) as Hf.
  destruct Hst as [ck now r b s s' Hr|ck now fresh gen src bd a s s' Hr|ck now later a r s s' Hr
                  |ck now op s s' Hr].
  - apply ingest_receipt_run in Hr as [->|(p & _ & _ & _ & _ & _ & Hv & _)]; [done|].
    apply validate_transition in Hv as [? _]. congruence.
  - apply issue_run in Hr as [? _]. done.
  - apply consume_run in Hr as [->|(g & p & _ & _ & _ & _ & ? & _)]; done.
  - apply cancel_run in Hr as [->|[? _]]; done.
Qed.

(** *** A receipt is appended *)

Lemma has_receipt_app p o h r :
  has_receipt p o (h ++ [r])
  = has_receipt p o h || (same (rc_phase r) p && same (rc_outcome r) o).
Proof. unfold has_receipt. rewrite existsb_app. simpl. by rewrite orb_false_r. Qed.

Lemma has_receipt_lookup p o h :
  has_receipt p o h = true → ∃ i r, h !! i = Some r ∧ rc_phase r = p ∧ rc_outcome r = o.
Proof.
  unfold has_receipt. rewrite existsb_exists. intros (r & Hin & Hr). guards.
  apply list_elem_of_In, list_elem_of_lookup in Hin as [i Hi]. eauto.
Qed.

Lemma intents_app b h r :
  intents b (h ++ [r]) = (intents b h + (if decide (is_intent b r) then 1 else 0))%nat.
Proof.
  unfold intents. rewrite filter_app, length_app. f_equal.
  rewrite filter_cons, filter_nil. by case_decide.
Qed.

Lemma append_inv s r s' :
  RowInv s →
  hist s' = hist s ++ [r] →
  uo_job_id (ow_op s') = uo_job_id (ow_op s) → uo_generation (ow_op s') = uo_generation (ow_op s) →
  rc_job_id r = uo_job_id (ow_op s) → rc_generation r = uo_generation (ow_op s) →
  rc_sequence r = uo_receipt_sequence (ow_op s) + 1 →
  uo_receipt_sequence (ow_op s') = rc_sequence r →
  uo_phase (ow_op s') = rc_phase r →
  present (uo_finished_at (ow_op s')) = terminal (rc_phase r) →
  (rc_phase r ∈ after_activation → has_receipt ACTIVATING Intent (hist s) = true) →
  (rc_phase r = SUCCEEDED → success_proved s') →
  (rc_phase r ∈ [FAILED_UNCHANGED; CANCELLED_UNCHANGED] →
   has_receipt ACTIVATING Intent (hist s) = false) →
  (∀ id g, ow_grants s' !! id = Some g →
     gr_job_id g = uo_job_id (ow_op s) ∧ gr_generation g = uo_generation (ow_op s)) →
  (∀ i1 g1 i2 g2, ow_grants s' !! i1 = Some g1 → ow_grants s' !! i2 = Some g2 →
     gr_boundary g1 = gr_boundary g2 → i1 = i2) →
  (∀ b, (intents b (hist s') ≤ 1)%nat
     ∧ (intents b (hist s') ≠ 0%nat → ∃ id g, ow_grants s' !! id = Some g ∧ gr_boundary g = b
                                          ∧ gr_consumed_at g ≠ None)) →
  RowInv s'.
Proof.
  intros HI Hh Hj Hg Hrj Hrg Hrs Hn Hp Hf Hact Hsu Hun Hgr Huq Hin. split; try done.
  - intros r0. rewrite Hh, Hj, Hg. intros [Hr0| ->%list_elem_of_singleton]%elem_of_app; [|done].
    by apply (rw_owner s HI).
  - intros i r0. rewrite Hh. intros [Hi|[Hi1 Hi2]]%lookup_app_Some; [by apply (rw_seq s HI)|].
    apply list_lookup_singleton_Some in Hi2 as [Hi2 <-]. rewrite Hrs, (rw_count s HI). lia.
  - rewrite Hn, Hrs, Hh, length_app, (rw_count s HI). simpl. lia.
  - by rewrite Hp.
  - intros i r0. rewrite Hh. intros [Hi|[Hi1 Hi2]]%lookup_app_Some Hr0.
    + rewrite take_app_le by (apply lookup_lt_Some in Hi; lia). by eapply (rw_activated s HI).
    + apply list_lookup_singleton_Some in Hi2 as [Hi2 <-].
      rewrite take_app_length' by lia. auto.
  - by rewrite Hp.
  - rewrite Hp, Hh, has_receipt_app. intros Hu. rewrite Hun by done. simpl.
    apply andb_false_iff. left. apply same_false. intros E. rewrite E in Hu. set_solver.
  - by rewrite Hj, Hg.
Qed.

(** What justifies success, found when the final receipt is accepted. *)
Lemma success_justified s r p ns :
  RowInv s → ow_plan s = Some p → rc_phase r = SUCCEEDED →
  validate_progress (ow_op s) r p (hist s) false ns = Ok tt →
  uo_cancel_requested (ow_op s) = false
  ∧ ∃ i j ri rj ev, (i < j < length (hist s))%nat ∧ hist s !! i = Some ri ∧ is_intent Runtime ri
    ∧ hist s !! j = Some rj ∧ rc_phase rj = VERIFYING ∧ rc_outcome rj = Complete
    ∧ rc_observed_sha256 rj = Some (ur_manifest_sha256 (up_target p))
    ∧ rc_outcome r = Complete ∧ rc_observed_sha256 r = Some (ur_manifest_sha256 (up_target p))
    ∧ parse_evidence (rc_evidence r) = Some ev
    ∧ ev_cleanup_verified ev = Some true ∧ enough_tokens ev = true ∧ serves_asset p ev = true.
Proof.
  intros HI Hp Hph Hv. apply validate_terminal in Hv as (Ho & ev & Hev & Hrel & Hver);
    [|by rewrite Hph].
  rewrite Hph, same_refl in Hrel, Hver. cbn [orb] in Hrel, Hver.
  change (is_in SUCCEEDED [FAILED_UNCHANGED; CANCELLED_UNCHANGED]) with false in Hver.
  apply check_verification_run in Hver as (v & Hin & Hvp & Hvo & Hvs & Ht & Ha).
  apply list_elem_of_lookup in Hin as [j Hj].
  assert (Hact := rw_activated s HI j v Hj). rewrite Hvp in Hact.
  destruct (has_receipt_lookup _ _ _ (Hact ltac:(set_solver))) as (i & ri & Hi & Hri & Hro).
  apply lookup_take_Some in Hi as [Hi Hij].
  unfold check_release in Hrel. inv_ok. guards.
  split; [done|]. apply lookup_lt_Some in Hj as Hlt.
  exists i, j, ri, v, ev. unfold is_true_opt in *. guards. split_and!; done || lia.
Qed.

(** *** Every step keeps the invariant *)

Lemma appended_hist now r s : hist (appended now r s) = hist s ++ [r].
Proof. unfold hist, appended. simpl. by rewrite fmap_app. Qed.

Lemma intents_no_new b s r :
  ¬ is_intent b r → intents b (hist s ++ [r]) = intents b (hist s).
Proof. intros Hn. rewrite intents_app. rewrite decide_False by done. lia. Qed.

Lemma ingest_inv ck now r b s s' :
  RowInv s → ingest_receipt ck now r s = (Ok b, s') → RowInv s'.
Proof.
  intros HI Hr. apply ingest_receipt_run in Hr as [->|(p & Hp & Hj & Hg & Hs & Hlen & Hv & Hs')]; [done|].
  rewrite (stored_history_all s HI Hlen) in Hv. fold (hist s) in Hv.
  pose proof (validate_transition _ _ _ _ _ _ Hv) as (Hnt & Hauth & Hact & _).
  assert (Hh' : hist s' = hist s ++ [r])
    by (rewrite <- (appended_hist now r s); cbv zeta in Hs'; rewrite Hs'; by case_match).
  assert (Hgr : ow_grants s' = ow_grants s) by (cbv zeta in Hs'; rewrite Hs'; by case_match).
  assert (Hpl : ow_plan s' = ow_plan s) by (cbv zeta in Hs'; rewrite Hs'; by case_match).
  assert (Hop : ow_op s' = progressed now (uo_kind (ow_op s)) r (parse_evidence (rc_evidence r))
                             (ow_op (appended now r s)))
    by (cbv zeta in Hs'; rewrite Hs'; by case_match).
  assert (Hni : ∀ bd, ¬ is_intent bd r).
  { intros bd [Hph Ho]. enough (false = true) by done. apply Hauth; [|done].
    rewrite Hph. destruct bd; set_solver. }
  assert (Hnf : uo_finished_at (ow_op s) = None).
  { pose proof (rw_finished s HI) as Hf. rewrite Hnt in Hf. by destruct (uo_finished_at _). }
  eapply (append_inv s r s'); try done; rewrite ?Hop; try done; simpl.
  - rewrite Hnf. by destruct (terminal (rc_phase r)).
  - intros Hph. destruct (success_justified s r p _ HI Hp Hph Hv)
      as (Hc & i & j & ri & rj & ev & Hij & Hi & Hii & Hjr & Hjp & Hjo & Hjs & Ho & Hos & Hev & Hcl & Ht & Ha).
    split; [by rewrite Hop|].
    exists p, i, j, (length (hist s)), ri, rj, r, ev. rewrite Hh', Hpl.
    split_and!; try done; try lia.
    + rewrite length_app. simpl. lia.
    + rewrite lookup_app_l; [done|]. by apply lookup_lt_Some in Hi.
    + rewrite lookup_app_l; [done|]. by apply lookup_lt_Some in Hjr.
    + rewrite lookup_app_r by lia. by rewrite Nat.sub_diag.
  - intros Hu. apply validate_terminal in Hv as (_ & ev & _ & _ & Hun);
      [|by apply is_in_true; clear -Hu; set_solver].
    rewrite (proj2 (is_in_true _ _) Hu) in Hun. unfold check_unchanged in Hun. inv_ok. done.
  - rewrite Hgr. apply (rw_grants s HI).
  - rewrite Hgr. apply (rw_unique s HI).
  - intros bd. rewrite Hh', intents_no_new, Hgr by done. apply (rw_intents s HI).
Qed.

(** A step that touches neither receipts nor phase. *)
Lemma same_receipts_inv s s' :
  RowInv s → ow_receipts s' = ow_receipts s → ow_plan s' = ow_plan s →
  uo_job_id (ow_op s') = uo_job_id (ow_op s) → uo_generation (ow_op s') = uo_generation (ow_op s) →
  uo_receipt_sequence (ow_op s') = uo_receipt_sequence (ow_op s) →
  terminal (uo_phase (ow_op s')) = false → uo_finished_at (ow_op s') = None →
  (∀ id g, ow_grants s' !! id = Some g →
     gr_job_id g = uo_job_id (ow_op s) ∧ gr_generation g = uo_generation (ow_op s)) →
  (∀ i1 g1 i2 g2, ow_grants s' !! i1 = Some g1 → ow_grants s' !! i2 = Some g2 →
     gr_boundary g1 = gr_boundary g2 → i1 = i2) →
  (∀ b id g, ow_grants s !! id = Some g → gr_boundary g = b → gr_consumed_at g ≠ None →
     ∃ id' g', ow_grants s' !! id' = Some g' ∧ gr_boundary g' = b ∧ gr_consumed_at g' ≠ None) →
  RowInv s'.
Proof.
  intros HI Hr Hp Hj Hg Hn Ht Hf Hgr Huq Hc.
  assert (Hh : hist s' = hist s) by (unfold hist; by rewrite Hr).
  assert (Hno : ∀ ph, terminal ph = true → uo_phase (ow_op s') ≠ ph) by (intros ph Hph E; rewrite E in Ht; congruence).
  split; rewrite ?Hh, ?Hj, ?Hg, ?Hn, ?Hf, ?Ht; try done; try apply HI.
  - intros E. by destruct (Hno SUCCEEDED).
  - intros E. rewrite elem_of_cons, list_elem_of_singleton in E.
    destruct E as [E|E]; [by destruct (Hno FAILED_UNCHANGED)|by destruct (Hno CANCELLED_UNCHANGED)].
  - intros b. destruct (rw_intents s HI b) as [Hle Hex]. split; [done|].
    intros (id & g & ? & ? & ?)%Hex. eauto.
Qed.

Lemma nonterminal s : RowInv s → uo_finished_at (ow_op s) = None → terminal (uo_phase (ow_op s)) = false.
Proof. intros HI Hf. rewrite <- (rw_finished s HI). by rewrite Hf. Qed.

Lemma issue_inv ck now fresh gen src bd a s s' :
  RowInv s → issue ck now fresh gen src bd s = (Ok a, s') → RowInv s'.
Proof.
  intros HI (Hf & id & g & -> & Hj & Hg & Hb & Hc & Hold & Hnew)%issue_run.
  eapply (same_receipts_inv s); try done; simpl.
  - by apply nonterminal.
  - intros i0 g0 [[<- <-]|[_ Hi]]%lookup_insert_Some; [done|]. by apply (rw_grants s HI) in Hi.
  - intros i1 g1 i2 g2 [[<- <-]|[Hn1 H1]]%lookup_insert_Some [[<- <-]|[Hn2 H2]]%lookup_insert_Some E;
      try done; [| |by eapply (rw_unique s HI)].
    + destruct (ow_grants s !! id) as [g0|] eqn:E0.
      * destruct (Hold g0 eq_refl). eapply (rw_unique s HI); [done..|congruence].
      * destruct (rw_grants s HI _ _ H2). destruct (Hnew eq_refl i2 g2); [done..|congruence].
    + destruct (ow_grants s !! id) as [g0|] eqn:E0.
      * destruct (Hold g0 eq_refl). eapply (rw_unique s HI); [done..|congruence].
      * destruct (rw_grants s HI _ _ H1). destruct (Hnew eq_refl i1 g1); [done..|congruence].
  - intros b i0 g0 Hi Hb0 Hc0. exists i0, g0. split; [|done].
    rewrite lookup_insert_ne; [done|]. intros ->. destruct (Hold g0 Hi). done.
Qed.

Lemma cancel_inv ck now op s s' :
  RowInv s → request_cancellation ck now s = (Ok op, s') → RowInv s'.
Proof.
  intros HI [->|[Hf ->]]%cancel_run; [done|].
  eapply (same_receipts_inv s); try done; simpl.
  - by apply nonterminal.
  - apply (rw_grants s HI).
  - apply (rw_unique s HI).
  - eauto.
Qed.

(** The consumed grant: its boundary had no intent before. *)
Lemma fresh_boundary s id g :
  RowInv s → ow_grants s !! id = Some g → gr_consumed_at g = None →
  intents (gr_boundary g) (hist s) = 0%nat.
Proof.
  intros HI Hg Hc. destruct (rw_intents s HI (gr_boundary g)) as [_ Hex].
  destruct (intents (gr_boundary g) (hist s)) eqn:E; [done|].
  destruct Hex as (id' & g' & Hg' & Hb & Hc'); [done|].
  assert (id' = id) by (by eapply (rw_unique s HI)). naive_solver.
Qed.

Lemma consume_grant_unique s id g t :
  RowInv s → ow_grants s !! id = Some g →
  let gs := <[id := mkGrant (gr_job_id g) (gr_generation g) (gr_boundary g) (gr_expires_at g)
                            (Some t)]> (ow_grants s) in
  (∀ i g0, gs !! i = Some g0 →
     gr_job_id g0 = uo_job_id (ow_op s) ∧ gr_generation g0 = uo_generation (ow_op s))
  ∧ (∀ i1 g1 i2 g2, gs !! i1 = Some g1 → gs !! i2 = Some g2 →
       gr_boundary g1 = gr_boundary g2 → i1 = i2)
  ∧ (∀ b i g0, ow_grants s !! i = Some g0 → gr_boundary g0 = b → gr_consumed_at g0 ≠ None →
       ∃ i' g', gs !! i' = Some g' ∧ gr_boundary g' = b ∧ gr_consumed_at g' ≠ None)
  ∧ ∃ g', gs !! id = Some g' ∧ gr_boundary g' = gr_boundary g ∧ gr_consumed_at g' ≠ None.
Proof.
  intros HI Hg gs. subst gs. split_and!.
  - intros i g0 [[<- <-]|[_ Hi]]%lookup_insert_Some; simpl; by eapply (rw_grants s HI).
  - intros i1 g1 i2 g2 [[<- <-]|[Hn1 H1]]%lookup_insert_Some [[<- <-]|[Hn2 H2]]%lookup_insert_Some E;
      try done; by eapply (rw_unique s HI).
  - intros b i g0 Hi Hb Hc. destruct (decide (id = i)) as [->|Hne].
    + eexists i, _. rewrite lookup_insert_eq. split; [done|]. simplify_eq. done.
    + exists i, g0. by rewrite lookup_insert_ne.
  - eexists. by rewrite lookup_insert_eq.
Qed.

Lemma boundary_phase_nonterminal b : terminal (boundary_phase b) = false.
Proof. by destruct b. Qed.

Lemma boundary_phase_inj b b' : boundary_phase b = boundary_phase b' → b = b'.
Proof. by destruct b, b'. Qed.

Lemma consume_inv ck now later a r s s' :
  RowInv s → consume ck now later a r s = (Ok tt, s') → RowInv s'.
Proof.
  intros HI [->|(g & p & Hg & Hp & Hc & Hb & Hf & _ & Hj & Hgen & Hph & Ho & _ & s1 & b & Ha & ->)]%consume_run;
    [done|].
  destruct (consume_grant_unique s _ g later HI Hg) as (Hgr & Huq & Hex & g' & Hg' & Hb' & Hc').
  apply append_receipt_run in Ha as (_ & [(_ & -> & _)|(_ & -> & Hs & _)]).
  - eapply (same_receipts_inv s); try done. apply boundary_phase_nonterminal.
  - pose proof (fresh_boundary s _ g HI Hg Hc) as H0.
    eapply (append_inv s r); try done; simpl; rewrite ?Hf, ?Hph.
    + unfold hist. simpl. by rewrite fmap_app.
    + by rewrite boundary_phase_nonterminal.
    + destruct (gr_boundary g); set_solver.
    + by destruct (gr_boundary g).
    + destruct (gr_boundary g); set_solver.
    + intros bd. change (hist _) with (hist (appended later r s)).
      rewrite appended_hist, intents_app. destruct (rw_intents s HI bd) as [Hle Hi].
      destruct (decide (is_intent bd r)) as [[Hbd _]|Hn].
      * assert (bd = gr_boundary g) as -> by (apply boundary_phase_inj; congruence).
        split; [lia|]. eauto.
      * rewrite Nat.add_0_r. split; [done|]. intros (id & g0 & ? & ? & ?)%Hi. eauto.
Qed.

Lemma step_inv s s' : RowInv s → row_step s s' → RowInv s'.
Proof.
  intros HI Hst. destruct Hst; eauto using ingest_inv, issue_inv, consume_inv, cancel_inv.
Qed.

Lemma reachable_inv s : reachable_row s → RowInv s.
Proof.
  intros (s0 & Ha & Hs). apply accepted_inv in Ha. induction Hs; eauto using step_inv.
Qed.

(** C3. Success is earned: an operation that reached SUCCEEDED was not
    cancelled, and its receipts contain an activation intent, later a completed
    verification of the target release, and last a complete receipt that
    observed the target release, with owned cleanup and at least ten tokens
    generated by the model the plan pins. *)
Theorem success_is_proved s :
  reachable_row s → uo_phase (ow_op s) = SUCCEEDED → success_proved s.
Proof. intros Hr. apply (rw_success s (reachable_inv s Hr)). Qed.

(** Endings are final: no receipt, grant, activation or cancellation
    changes anything of a finished operation. *)
Theorem terminal_is_final s s' :
  reachable_row s → terminal (uo_phase (ow_op s)) = true → rtc row_step s s' → s' = s.
Proof.
  intros Hr Ht Hs. pose proof (reachable_inv s Hr) as HI.
  induction Hs as [|x y z Hxy Hyz IH]; [done|].
  apply terminal_step in Hxy as ->; [|done..]. auto.
Qed.

(** C19. Each boundary is crossed at most once: whatever grants are issued,
    renewed, replayed or raced, the receipts of an operation contain at most
    one activation intent and at most one migration intent, and each of them
    has its consumed grant. *)
Theorem activation_at_most_once s b :
  reachable_row s →
  (intents b (hist s) ≤ 1)%nat
  ∧ (intents b (hist s) ≠ 0%nat →
     ∃ id g, ow_grants s !! id = Some g ∧ gr_boundary g = b ∧ gr_consumed_at g ≠ None).
Proof. intros Hr. apply (rw_intents s (reachable_inv s Hr)). Qed.

(** "Unchanged" is true: an operation that ended FAILED_UNCHANGED or
    CANCELLED_UNCHANGED never had an activation intent, and no later step gives
    it one. *)
Theorem unchanged_never_activated s s' :
  reachable_row s → uo_phase (ow_op s) ∈ [FAILED_UNCHANGED; CANCELLED_UNCHANGED] →
  rtc row_step s s' → intents Runtime (hist s') = 0%nat.
Proof.
  intros Hr Hp Hs. pose proof (reachable_inv s Hr) as HI.
  assert (Hs' : s' = s).
  { assert (Ht : terminal (uo_phase (ow_op s)) = true)
      by (apply is_in_true; clear -Hp; set_solver).
    clear Hp. induction Hs as [|x y z Hxy Hyz IH]; [done|].
    apply terminal_step in Hxy as ->; [|done..]. auto. }
  subst. pose proof (rw_unchanged s HI Hp) as Hn. unfold intents.
  destruct (filter _ _) as [|r l] eqn:Ef; [done|].
  assert (Hin : r ∈ filter (is_intent Runtime) (hist s)) by (rewrite Ef; set_solver).
  apply list_elem_of_filter in Hin as [[Hrp Hro] Hin%list_elem_of_In].
  enough (has_receipt ACTIVATING Intent (hist s) = true) by congruence.
  apply existsb_exists. exists r. split; [done|]. rewrite Hrp, Hro. done.
Qed.
End facts.
