(* ===== verification/UpgradeScenario.v ===== *)
(** * An upgrade of one Studio

    A run of the rows from acceptance to success, one that ends unchanged, and
    the theorems of [UpgradeFacts] on them. *)
From stdpp Require Import pretty.
From S2P Require Import Prelude Effects UpgradeModels UpgradeProgress UpgradeFacts.
Open Scope Z_scope.

Definition no_evidence : UpgradeEvidence :=
  mkEvidence None None None None None None None None None None None None None None ∅ None None None
             None None None.

(** The evidence of a node that served the pinned model from runtime [rt]. *)
Definition served (rt : string) (source : option bool) : UpgradeEvidence :=
  mkEvidence (Some rt) None None None None (Some "m") (Some "v") None None (Some "mm") (Some "out")
             None (Some "node") (Some 12) ∅ source None None None None (Some true).

#[global] Instance demo_codec : UpgradeCodec := {|
  sha256_operation op := uo_job_id op;
  sha256_plan p := uo_job_id (up_operation p);
  sha256_receipt r := pretty (rc_sequence r) +:+ rc_effect_id r;
  sha256_not_started _ := "ns";
  parse_evidence s :=
    if String.eqb s "target" then Some (served "env-t" None)
    else if String.eqb s "source" then Some (served "env-s" (Some true))
    else if String.eqb s "" then None else Some no_evidence;
|}.

Inductive row_action :=
| DoIngest (now : Z) (r : UpgradeReceipt)
| DoIssue (now : Z) (fresh : string)
| DoConsume (now later : Z) (a : ActivationGrant) (r : UpgradeReceipt)
| DoCancel (now : Z).

Definition all_ok : Checks := mkChecks true true true true true true (λ r, Z.of_nat (String.length (rc_evidence r))).

Definition exec_row (s : OpRow) (a : row_action) : option OpRow :=
  match a with
  | DoIngest now r =>
      match ingest_receipt all_ok now r s with (Ok _, s') => Some s' | _ => None end
  | DoIssue now fresh =>
      match issue all_ok now fresh (uo_generation (ow_op s)) (uo_source_sha256 (ow_op s)) Runtime s with
      | (Ok _, s') => Some s' | _ => None end
  | DoConsume now later a r =>
      match consume all_ok now later a r s with (Ok tt, s') => Some s' | _ => None end
  | DoCancel now => match request_cancellation all_ok now s with (Ok _, s') => Some s' | _ => None end
  end.

Lemma exec_row_step s a s' : exec_row s a = Some s' → row_step s s'.
Proof.
  destruct a; simpl; intros Hr; repeat case_match; simplify_eq.
  - by eapply step_ingest.
  - by eapply step_issue.
  - by eapply step_consume.
  - by eapply step_cancel.
Qed.

Fixpoint run_row (acts : list row_action) (s : OpRow) : option OpRow :=
  match acts with [] => Some s | a :: rest => s1 ← exec_row s a; run_row rest s1 end.

Lemma run_row_steps acts s s' : run_row acts s = Some s' → rtc row_step s s'.
Proof.
  revert s. induction acts as [|a acts IH]; simpl; intros s Hr; [simplify_eq; apply rtc_refl|].
  apply bind_Some in Hr as (s1 & Ha & Hr). eapply rtc_l; [by eapply exec_row_step|by apply IH].
Qed.

(** ** The deployment *)

Definition studio_manifest (env : string) (sources : list string) : UpgradeReleaseManifest :=
  mkManifest STUDIO "1.0" "rev" "macos-arm64" 0 (mkCompatibility sources ["h1"] [3] None)
             {["a" := "s"]} 1 (Some env) (Some env) None [] None None None false.
Definition source_release : UpgradeRelease :=
  mkRelease "r-s" "sha-s" (studio_manifest "env-s" ["sha-0"]) "art-s" "admin" Prepared.
Definition target_release : UpgradeRelease :=
  mkRelease "r-t" "sha-t" (studio_manifest "env-t" ["sha-s"]) "art-t" "admin" Prepared.
Definition demo_operation : UpgradeOperation :=
  mkOperation "job" UPGRADE STUDIO (Some "coire-edge-a") "r-s" "r-t" "sha-s" "sha-t" "admin" None
    "key" "req" 1 [] (900, 120, 300, 300) ACCEPTED 0 0 None false true None 0 None None.
Definition demo_plan : UpgradeExecutionPlan :=
  mkPlan demo_operation source_release target_release
    (mkMaintenance "job" 1 ["coire-edge-a"] Active 0 1000 (Some "admin") ∅)
    1000 "m" "v" "model" "mm" None None None None None.

Example demo_plan_valid :
  bound_authority demo_plan && coherent_operation demo_operation
  && target_shape (ur_manifest source_release) && target_shape (ur_manifest target_release) = true.
Proof. vm_compute. reflexivity. Qed.

Definition demo_row : OpRow := mkRow demo_operation (Some demo_plan) None [] ∅ true.
Definition receipt (n : Z) (p : UpgradePhase) (o : Outcome) (sha : option string) (ev : string)
    : UpgradeReceipt :=
  mkReceipt "job" 1 n "effect" p n o sha None ev NotRequired.

Definition demo_grant : ActivationGrant := mkActivation "job" 1 Runtime "g1" (10 + grant_window).

(** Preflight, staging and the smoke of the candidate. *)
Definition prepare_run : list row_action :=
  [DoIngest 1 (receipt 1 PREFLIGHT Complete (Some "sha-s") "x");
   DoIngest 2 (receipt 2 STAGED Complete (Some "sha-s") "x");
   DoIngest 3 (receipt 3 SMOKE_BEFORE Complete (Some "sha-s") "target")].

Definition success_run : list row_action :=
  prepare_run ++
  [DoIssue 10 "g1";
   DoConsume 11 12 demo_grant (receipt 4 ACTIVATING Intent None "");
   DoIngest 13 (receipt 5 ACTIVATING Complete (Some "sha-t") "x");
   DoIngest 14 (receipt 6 VERIFYING Complete (Some "sha-t") "target");
   DoIngest 15 (receipt 7 COMMITTING Complete (Some "sha-t") "target");
   DoIngest 16 (receipt 8 SUCCEEDED Complete (Some "sha-t") "target")].

Definition unchanged_run : list row_action :=
  prepare_run ++
  [DoCancel 9; DoIngest 10 (receipt 4 CANCELLED_UNCHANGED Complete (Some "sha-s") "source")].

(** The row a run ends in. *)
Definition ends (acts : list row_action) : OpRow := default demo_row (run_row acts demo_row).

Lemma demo_accepted : accepted demo_row.
Proof. done. Qed.

Lemma success_run_reachable : reachable_row (ends success_run).
Proof.
  exists demo_row. split; [exact demo_accepted|]. apply (run_row_steps success_run). vm_compute. reflexivity.
Qed.

Lemma unchanged_run_reachable : reachable_row (ends unchanged_run).
Proof.
  exists demo_row. split; [exact demo_accepted|]. apply (run_row_steps unchanged_run). vm_compute. reflexivity.
Qed.

Lemma success_is_proved_witness : success_proved (ends success_run).
Proof.
  apply (success_is_proved (ends success_run)).
  - exact success_run_reachable.
  - vm_compute. reflexivity.
Defined.

(** After success: a replayed receipt, a replayed activation, a cancellation. *)
Definition afterlife : list row_action :=
  [DoIngest 20 (receipt 8 SUCCEEDED Complete (Some "sha-t") "target");
   DoConsume 21 22 demo_grant (receipt 4 ACTIVATING Intent None ""); DoCancel 23].
Definition after_success : OpRow := default demo_row (run_row afterlife (ends success_run)).

Lemma terminal_is_final_witness : after_success = ends success_run.
Proof.
  apply (terminal_is_final (ends success_run) after_success).
  - exact success_run_reachable.
  - vm_compute. reflexivity.
  - apply (run_row_steps afterlife). vm_compute. reflexivity.
Defined.

Lemma activation_at_most_once_witness :
  intents Runtime (hist (ends success_run)) = 1%nat
  ∧ ∃ id g, ow_grants (ends success_run) !! id = Some g ∧ gr_boundary g = Runtime
            ∧ gr_consumed_at g ≠ None.
Proof.
  split; [vm_compute; reflexivity|].
  apply (proj2 (activation_at_most_once (ends success_run) Runtime success_run_reachable)).
  vm_compute. discriminate.
Defined.

Lemma unchanged_never_activated_witness : intents Runtime (hist (ends unchanged_run)) = 0%nat.
Proof.
  apply (unchanged_never_activated (ends unchanged_run) (ends unchanged_run)).
  - exact unchanged_run_reachable.
  - vm_compute. right. left.
  - apply rtc_refl.
Defined.
