(* ===== verification/ReceiptJournal.v ===== *)
(** * The executor's receipt journal

    [PrivateUpgradeStore] and [UpgradeReceiptJournal] of
    coire_core/upgrade_journal.py: hash-linked receipts in a private directory,
    one file each, appended under a lock.  The directory is a map from file
    names to files; a file carries whether its ownership, mode, link count and
    stability passed the checks of [read], its size, and the document it parses
    to.  The lock's and the writes' outcomes are the argument [Env]. *)
From Stdlib Require Import Ascii String.
From stdpp Require Import sorting.
From S2P Require Import Prelude Effects UpgradeModels.
Open Scope Z_scope.

Record UpgradeJournalEntry := mkEntry {
  je_receipt : UpgradeReceipt;
  je_previous_sha256 : option string;
  je_resource_identity : option string;
}.
#[global] Instance UpgradeJournalEntry_eq : EqDecision UpgradeJournalEntry.
Proof. solve_decision. Defined.

Record UpgradeReceiptAck := mkAck {
  ak_job_id : string;
  ak_generation : Z;
  ak_sequence : Z;
}.
#[global] Instance UpgradeReceiptAck_eq : EqDecision UpgradeReceiptAck.
Proof. solve_decision. Defined.

Inductive Document :=
| PlanDoc (p : UpgradeExecutionPlan)
| EntryDoc (e : UpgradeJournalEntry)
| AckDoc (a : UpgradeReceiptAck).

Record StoredFile := mkFile {
  sf_safe : bool;
  sf_size : Z;
  (** [None]: not JSON, a repeated key, or no model validates it *)
  sf_doc : option Document;
}.

Abbreviation Dir := (gmap string StoredFile).

Inductive JournalError := JConflict (why : string) | JUnavailable (why : string) | JInvalid.

Inductive WriteOutcome :=
| WriteOk
(** the write fails with [OSError] before or after the name is in place *)
| WriteFails (placed : bool).
Inductive LockOutcome := LockHeld | LockBusy | LockUnsafe.

Record Env := mkEnv {
  env_lock : LockOutcome;
  env_write : WriteOutcome;
  env_size : Document → Z;
}.

Definition MAX_DOCUMENT_BYTES : Z := 512 * 1024.

(** ** Names *)

Definition ascii_in (lo hi : ascii) (c : ascii) : bool :=
  (N_of_ascii lo <=? N_of_ascii c)%N && (N_of_ascii c <=? N_of_ascii hi)%N.
Definition is_digit (c : ascii) : bool := ascii_in "0" "9" c.
Definition is_alnum (c : ascii) : bool := is_digit c || ascii_in "A" "Z" c || ascii_in "a" "z" c.
Definition is_key_char (c : ascii) : bool :=
  is_alnum c || Ascii.eqb c "." || Ascii.eqb c "_" || Ascii.eqb c "-".

(** [A-Za-z0-9][A-Za-z0-9._-]{0,127} *)
Definition valid_key (key : string) : bool :=
  match list_ascii_of_string key with
  | [] => false
  | c :: rest => is_alnum c && forallb is_key_char rest && (length rest <=? 127)%nat
  end.

Definition digit (n : Z) : ascii := ascii_of_N (Z.to_N (48 + n)).

(** [width] decimal digits of [n], zero-padded. *)
Fixpoint pad (width : nat) (n : Z) : list ascii :=
  match width with
  | O => []
  | S w => pad w (n / 10) ++ [digit (n mod 10)]
  end.

Definition key_name (sequence : Z) : string :=
  "receipt-" +:+ string_of_list_ascii (pad 20 sequence) +:+ ".json".

(** [receipt-[0-9]{20}\.json] *)
Definition is_receipt_name (name : string) : bool :=
  let chars := list_ascii_of_string name in
  bool_decide (take 8 chars = list_ascii_of_string "receipt-")
  && forallb is_digit (take 20 (drop 8 chars))
  && (length (take 20 (drop 8 chars)) =? 20)%nat
  && bool_decide (drop 28 chars = list_ascii_of_string ".json").

Definition reserved_names : list string := ["journal.lock"; "plan.json"; "ack.json"].

Class EntryDigest := sha256_entry : UpgradeJournalEntry → string.

Section store.
Context `{UpgradeCodec, EntryDigest}.
Abbreviation Call := (M Dir JournalError).

(** ** [PrivateUpgradeStore] *)

Definition check_key (key : string) : Call unit :=
  throw_if (negb (valid_key key)) (JConflict "key").

(** [read]; the caller's model type is the reader [as_]. *)
Definition read {A} (as_ : Document → option A) (key : string) : Call (option A) :=
  check_key key;;
  d ← get;
  match d !! key with
  | None => mret None
  | Some f =>
      throw_if (negb (sf_safe f) || (MAX_DOCUMENT_BYTES <? sf_size f)) (JUnavailable "unsafe");;
      a ← some_or (JUnavailable "corrupt") (sf_doc f ≫= as_);
      mret (Some a)
  end.

Definition as_plan (d : Document) := match d with PlanDoc p => Some p | _ => None end.
Definition as_entry (d : Document) := match d with EntryDoc e => Some e | _ => None end.
Definition as_ack (d : Document) := match d with AckDoc a => Some a | _ => None end.

Definition write (env : Env) (key : string) (doc : Document) (replace : bool) : Call unit :=
  check_key key;;
  throw_if (MAX_DOCUMENT_BYTES <? env_size env doc) (JUnavailable "size");;
  d ← get;
  throw_if (negb replace && present (d !! key)) (JConflict "exists");;
  let place : Call unit := modify (insert key (mkFile true (env_size env doc) (Some doc))) in
  match env_write env with
  | WriteOk => place
  | WriteFails placed => (if placed then place else mret tt);; throw (JUnavailable "persist")
  end.

Definition ownership {A} (env : Env) (body : Call A) : Call A :=
  match env_lock env with
  | LockHeld => body
  | LockBusy => throw (JConflict "another owner")
  | LockUnsafe => throw (JUnavailable "lock")
  end.

(** ** [UpgradeReceiptJournal] *)

Definition key (sequence : Z) : Call string :=
  throw_if (negb ((1 <=? sequence) && (sequence <=? 2 ^ 63 - 1))) (JConflict "sequence");;
  mret (key_name sequence).

Definition receipt_names (d : Dir) : list string :=
  filter (λ n, n ∉ reserved_names) ((map_to_list d).*1).

(** The loop over the sorted names. *)
Fixpoint read_entries (op : UpgradeOperation) (sequence : Z) (previous : option string)
    (names : list string) : Call (list UpgradeJournalEntry) :=
  match names with
  | [] => mret []
  | name :: rest =>
      found ← read as_entry name;
      e ← some_or (JUnavailable "chain") found;
      expected ← key sequence;
      throw_if (negb (same (rc_job_id (je_receipt e)) (uo_job_id op)
                      && (rc_generation (je_receipt e) =? uo_generation op)
                      && (rc_sequence (je_receipt e) =? sequence)
                      && same (je_previous_sha256 e) previous
                      && String.eqb name expected)) (JUnavailable "chain");;
      es ← read_entries op (sequence + 1) (Some (sha256_entry e)) rest;
      mret (e :: es)
  end.

Definition entries (p : UpgradeExecutionPlan) : Call (list UpgradeJournalEntry) :=
  d ← get;
  let names := receipt_names d in
  let op := up_operation p in
  throw_if (negb (forallb is_receipt_name names)) (JUnavailable "unreconciled");;
  throw_if (4096 <? Z.of_nat (length names)) (JUnavailable "bound");;
  es ← read_entries op 1 None (merge_sort String.le names);
  ack ← read as_ack "ack.json";
  throw_if (match ack with
            | None => false
            | Some a => negb (same (ak_job_id a) (uo_job_id op) && (ak_generation a =? uo_generation op))
                        || (Z.of_nat (length es) <? ak_sequence a)
            end) (JUnavailable "acknowledgment");;
  mret es.

(** [__init__]: the plan the journal runs under. *)
Definition open_journal (env : Env) (p : UpgradeExecutionPlan) : Call UpgradeExecutionPlan :=
  ownership env (
    existing ← read as_plan "plan.json";
    plan ← match existing with
           | None => write env "plan.json" (PlanDoc p) false;; mret p
           | Some q =>
               throw_if (negb (String.eqb (plan_authority_sha256 q) (plan_authority_sha256 p)))
                        (JConflict "authority");;
               mret q
           end;
    entries plan;; mret plan).

Definition UpgradeReceipt_valid (r : UpgradeReceipt) : bool :=
  (1 <=? rc_generation r) && (rc_generation r <=? 2 ^ 63 - 1)
  && (1 <=? rc_sequence r) && (rc_sequence r <=? 2 ^ 63 - 1)
  && (String.eqb (rc_evidence r) "" || present (parse_evidence (rc_evidence r))).

Definition append (env : Env) (p : UpgradeExecutionPlan) (r : UpgradeReceipt)
    (resource : option string) : Call bool :=
  throw_if (negb (UpgradeReceipt_valid r)) JInvalid;;
  let op := up_operation p in
  throw_if (negb (same (rc_job_id r) (uo_job_id op) && (rc_generation r =? uo_generation op)))
           (JConflict "another owner");;
  ownership env (
    es ← entries p;
    let n := Z.of_nat (length es) in
    if rc_sequence r <=? n then
      existing ← some_or JInvalid (es !! Z.to_nat (rc_sequence r - 1));
      throw_if (negb (String.eqb (sha256_receipt (je_receipt existing)) (sha256_receipt r))
                || negb (same (je_resource_identity existing) resource)) (JConflict "replay");;
      mret false
    else
      throw_if (negb (rc_sequence r =? n + 1)) (JConflict "contiguous");;
      let e := mkEntry r (sha256_entry <$> last es) resource in
      name ← key (rc_sequence r);
      write env name (EntryDoc e) false;;
      mret true).

Definition page (env : Env) (p : UpgradeExecutionPlan) (after_sequence : Z)
    : Call (list UpgradeReceipt) :=
  throw_if (after_sequence <? 0) (JConflict "cursor");;
  ownership env (es ← entries p; mret (je_receipt <$> take 32 (drop (Z.to_nat after_sequence) es))).

Definition latest (env : Env) (p : UpgradeExecutionPlan) : Call (option UpgradeReceipt) :=
  ownership env (es ← entries p; mret (je_receipt <$> last es)).

Definition acknowledged_sequence (env : Env) (p : UpgradeExecutionPlan) : Call Z :=
  ownership env (
    entries p;;
    ack ← read as_ack "ack.json";
    mret (match ack with Some a => ak_sequence a | None => 0 end)).

Definition acknowledge (env : Env) (p : UpgradeExecutionPlan) (a : UpgradeReceiptAck) : Call unit :=
  let op := up_operation p in
  throw_if (negb (same (ak_job_id a) (uo_job_id op) && (ak_generation a =? uo_generation op)))
           (JConflict "another owner");;
  ownership env (
    es ← entries p;
    previous ← read as_ack "ack.json";
    throw_if ((Z.of_nat (length es) <? ak_sequence a)
              || match previous with Some b => ak_sequence a <? ak_sequence b | None => false end)
             (JConflict "acknowledgment");;
    write env "ack.json" (AckDoc a) true).
End store.
