(* ===== verification/ReceiptJournalFacts.v ===== *)
(** * The receipt journal reads back what was appended

    Zero-padded names sort like their numbers, so the directory listing is the
    sequence; an accepted directory is exactly a hash-linked chain. *)
From Stdlib Require Import Ascii String.
From stdpp Require Import sorting list_numbers.
From S2P Require Import Prelude Effects UpgradeModels ReceiptJournal.
Open Scope Z_scope.

(** ** Names *)

(** [String.compare] on the characters. *)
Fixpoint lcompare (a b : list ascii) : comparison :=
  match a, b with
  | [], [] => Eq
  | [], _ => Lt
  | _, [] => Gt
  | x :: a', y :: b' => match Ascii.compare x y with Eq => lcompare a' b' | c => c end
  end.

Lemma compare_string_of_list a b :
  String.compare (string_of_list_ascii a) (string_of_list_ascii b) = lcompare a b.
Proof.
  revert b. induction a as [|x a IH]; intros [|y b]; simpl; try done. by rewrite IH.
Qed.

Lemma ascii_compare_refl x : Ascii.compare x x = Eq.
Proof. unfold Ascii.compare. apply N.compare_refl. Qed.

Lemma lcompare_refl a : lcompare a a = Eq.
Proof. induction a as [|x a IH]; simpl; [done|]. by rewrite ascii_compare_refl. Qed.

Lemma lcompare_prefix p a b : lcompare (p ++ a) (p ++ b) = lcompare a b.
Proof. induction p as [|x p IH]; simpl; [done|]. by rewrite ascii_compare_refl. Qed.

Lemma lcompare_app a b s t :
  length a = length b →
  lcompare (a ++ s) (b ++ t) = match lcompare a b with Eq => lcompare s t | c => c end.
Proof.
  revert b. induction a as [|x a IH]; intros [|y b] Hl; simpl in *; try done; try lia.
  destruct (Ascii.compare x y); [|done..]. apply IH. lia.
Qed.

Lemma length_pad w n : length (pad w n) = w.
Proof. revert n. induction w as [|w IH]; intros n; simpl; [done|]. rewrite length_app, IH. simpl. lia. Qed.

Lemma digit_code n : 0 ≤ n < 10 → N_of_ascii (digit n) = Z.to_N (48 + n).
Proof. intros. unfold digit. apply N_ascii_embedding. lia. Qed.

Lemma digit_is_digit n : 0 ≤ n < 10 → is_digit (digit n) = true.
Proof.
  intros Hn. unfold is_digit, ascii_in. rewrite digit_code by done.
  change (N_of_ascii "0") with 48%N. change (N_of_ascii "9") with 57%N.
  apply andb_true_iff. split; apply N.leb_le; lia.
Qed.

Lemma pad_digits w n : forallb is_digit (pad w n) = true.
Proof.
  revert n. induction w as [|w IH]; intros n; simpl; [done|].
  rewrite forallb_app, IH. simpl. rewrite digit_is_digit by (apply Z.mod_pos_bound; lia). done.
Qed.

Lemma pad_lt w m n : 0 ≤ m < n → n < 10 ^ Z.of_nat w → lcompare (pad w m) (pad w n) = Lt.
Proof.
  revert m n. induction w as [|w IH]; intros m n Hm Hn; [simpl in Hn; lia|].
  cbn [pad]. rewrite lcompare_app by (by rewrite !length_pad).
  pose proof (Z.div_le_mono m n 10 ltac:(lia) ltac:(lia)) as Hd.
  destruct (decide (m / 10 = n / 10)) as [E|Hne].
  - rewrite E, lcompare_refl. simpl.
    pose proof (Z.div_mod m 10 ltac:(lia)). pose proof (Z.div_mod n 10 ltac:(lia)).
    pose proof (Z.mod_pos_bound m 10 ltac:(lia)). pose proof (Z.mod_pos_bound n 10 ltac:(lia)).
    unfold Ascii.compare. rewrite !digit_code by lia.
    assert ((Z.to_N (48 + m mod 10) < Z.to_N (48 + n mod 10))%N) as Hlt by lia.
    by rewrite (proj2 (N.compare_lt_iff _ _) Hlt).
  - rewrite IH; [done| |].
    + pose proof (Z.div_pos m 10 ltac:(lia) ltac:(lia)). lia.
    + apply Z.div_lt_upper_bound; [lia|]. rewrite Nat2Z.inj_succ, Z.pow_succ_r in Hn by lia. lia.
Qed.

Definition name_chars (n : Z) : list ascii :=
  list_ascii_of_string "receipt-" ++ pad 20 n ++ list_ascii_of_string ".json".

Lemma string_of_list_app a b :
  string_of_list_ascii (a ++ b) = string_of_list_ascii a +:+ string_of_list_ascii b.
Proof. induction a as [|x a IH]; simpl; [done|]. by rewrite IH. Qed.

Lemma key_name_chars n : key_name n = string_of_list_ascii (name_chars n).
Proof. unfold key_name, name_chars. by rewrite !string_of_list_app, !string_of_list_ascii_of_string. Qed.

Definition in_bounds (n : Z) : Prop := 0 ≤ n ≤ 2 ^ 63.

Lemma key_name_lt m n : in_bounds m → in_bounds n → m < n → String.compare (key_name m) (key_name n) = Lt.
Proof.
  unfold in_bounds. intros Hm Hn Hlt. rewrite !key_name_chars, compare_string_of_list. unfold name_chars.
  rewrite lcompare_prefix, lcompare_app by (by rewrite !length_pad).
  rewrite pad_lt; [done|lia|]. transitivity (2 ^ 64); [lia|]. by vm_compute.
Qed.

Lemma key_name_inj m n : in_bounds m → in_bounds n → key_name m = key_name n → m = n.
Proof.
  intros Hm Hn E. destruct (Z.lt_trichotomy m n) as [Hlt|[->|Hlt]]; [|done|].
  - pose proof (key_name_lt m n Hm Hn Hlt) as Hc. rewrite E in Hc.
    by rewrite key_name_chars, compare_string_of_list, lcompare_refl in Hc.
  - pose proof (key_name_lt n m Hn Hm Hlt) as Hc. rewrite E in Hc.
    by rewrite key_name_chars, compare_string_of_list, lcompare_refl in Hc.
Qed.

Lemma key_name_le m n : in_bounds m → in_bounds n → m ≤ n → String.le (key_name m) (key_name n).
Proof.
  intros Hm Hn Hle. destruct (decide (m = n)) as [->|Hne]; [done|].
  unfold String.le, String.leb. by rewrite key_name_lt by (done || lia).
Qed.

Lemma key_name_list n : list_ascii_of_string (key_name n) = name_chars n.
Proof. by rewrite key_name_chars, list_ascii_of_string_of_list_ascii. Qed.

Lemma key_name_is_receipt n : is_receipt_name (key_name n) = true.
Proof.
  unfold is_receipt_name. rewrite key_name_list. unfold name_chars.
  assert (Hpre : length (list_ascii_of_string "receipt-") = 8%nat) by done.
  revert Hpre. generalize (list_ascii_of_string "receipt-"). intros pre Hpre.
  replace 28%nat with (8 + 20)%nat by lia. rewrite <- drop_drop.
  rewrite take_app_length', drop_app_length', take_app_length', drop_app_length', pad_digits
    by (done || by rewrite length_pad).
  rewrite length_pad, !bool_decide_eq_true_2 by done. done.
Qed.

Lemma key_name_valid n : valid_key (key_name n) = true.
Proof.
  unfold valid_key. rewrite key_name_list. unfold name_chars.
  pose proof (pad_digits 20 n) as Hd. pose proof (length_pad 20 n) as Hl.
  revert Hd Hl. generalize (pad 20 n). intros ds Hd Hl. simpl.
  rewrite !forallb_app, length_app, Hl. simpl.
  replace (forallb is_key_char ds) with true; [done|].
  symmetry. apply forallb_forall. intros c Hc. rewrite forallb_forall in Hd.
  unfold is_key_char, is_alnum. by rewrite (Hd c Hc).
Qed.

Lemma key_name_not_reserved n : key_name n ∉ reserved_names.
Proof. unfold reserved_names, key_name. set_solver. Qed.

Lemma key_names_sorted k len :
  0 ≤ k → k + len ≤ 2 ^ 63 → Sorted String.le (key_name <$> seqZ k len).
Proof.
  intros Hk Hl. destruct (decide (0 ≤ len)) as [Hlen|]; [|by rewrite seqZ_nil by lia; constructor].
  revert k Hk Hl. pattern len. apply natlike_ind; [..|done].
  - intros. rewrite seqZ_nil by lia. constructor.
  - intros n Hn IH k Hk Hl. rewrite seqZ_cons by lia. replace (Z.pred (Z.succ n)) with n by lia.
    simpl. constructor; [apply IH; lia|].
    destruct (decide (n = 0)) as [->|Hn0]; [by rewrite seqZ_nil by lia; constructor|].
    rewrite seqZ_cons by lia. simpl. constructor. apply key_name_le; unfold in_bounds; lia.
Qed.

Section journal.
Context `{UpgradeCodec, EntryDigest}.

(** ** Reading *)

Definition stored {A} (as_ : Document → option A) (d : Dir) (name : string) (a : A) : Prop :=
  ∃ f, d !! name = Some f ∧ sf_safe f = true ∧ sf_size f ≤ MAX_DOCUMENT_BYTES
       ∧ sf_doc f ≫= as_ = Some a.

Lemma read_run {A} (as_ : Document → option A) name d o d' :
  read as_ name d = (Ok o, d') ↔
  valid_key name = true ∧ d' = d
  ∧ match o with None => d !! name = None | Some a => stored as_ d name a end.
Proof.
  unfold read, check_key. split.
  - intros Hr. inv_run. bool_prop. split; [done|].
    destruct (d !! name) as [f|] eqn:Ef; inv_run; [|done].
    bool_prop. split; [done|]. exists f. split_and!; try done. lia.
  - intros (Hk & -> & Ho). cbv [mbind M_bind get throw_if throw mret M_ret some_or]. rewrite Hk. simpl.
    destruct o as [a|].
    + destruct Ho as (f & -> & -> & Hs & Hd). simpl. rewrite (proj2 (Z.ltb_ge _ _)) by lia.
      unfold mbind in Hd. by rewrite Hd.
    + by rewrite Ho.
Qed.

(** Entries [es] from number [k] on, each linked to its predecessor. *)
Fixpoint Chain (d : Dir) (op : UpgradeOperation) (k : Z) (previous : option string)
    (es : list UpgradeJournalEntry) : Prop :=
  match es with
  | [] => True
  | e :: rest =>
      stored as_entry d (key_name k) e
      ∧ rc_job_id (je_receipt e) = uo_job_id op ∧ rc_generation (je_receipt e) = uo_generation op
      ∧ rc_sequence (je_receipt e) = k ∧ je_previous_sha256 e = previous
      ∧ 1 ≤ k ≤ 2 ^ 63 - 1
      ∧ Chain d op (k + 1) (Some (sha256_entry e)) rest
  end.

Lemma key_run k d n d' : key k d = (Ok n, d') ↔ 1 ≤ k ≤ 2 ^ 63 - 1 ∧ n = key_name k ∧ d' = d.
Proof.
  unfold key. split.
  - intros Hr. inv_run. bool_prop. split; [lia|done].
  - intros (Hk & -> & ->). cbv [mbind M_bind throw_if].
    assert ((1 <=? k) && (k <=? 2 ^ 63 - 1) = true) as ->
      by (apply andb_true_iff; split; lia). done.
Qed.

Lemma read_entries_run op k previous names d es d' :
  read_entries op k previous names d = (Ok es, d') ↔
  d' = d ∧ names = key_name <$> seqZ k (Z.of_nat (length es)) ∧ Chain d op k previous es.
Proof.
  revert k previous es. induction names as [|name names IH]; intros k previous es; simpl; split.
  - intros Hr. inv_run. done.
  - intros (-> & Hn & Hc). destruct es as [|e es]; [done|].
    simpl length in Hn. rewrite seqZ_cons in Hn by lia. done.
  - intros Hr. inv_run. bool_prop.
    repeat match goal with
    | Hx : read _ _ _ = _ |- _ => apply read_run in Hx as (_ & -> & Hx)
    | Hx : key _ _ = _ |- _ => apply key_run in Hx as (? & -> & ->)
    | Hx : read_entries _ _ _ _ _ = _ |- _ => apply IH in Hx as (-> & -> & ?)
    | Hx : same _ _ = true |- _ => apply (proj1 (bool_decide_eq_true _)) in Hx
    | Hx : String.eqb _ _ = true |- _ => apply String.eqb_eq in Hx as ->
    end.
    subst. simpl length. rewrite (seqZ_cons k) by lia.
    match goal with |- context [Z.pred (Z.of_nat (S (length ?l)))] =>
      replace (Z.pred (Z.of_nat (S (length l)))) with (Z.of_nat (length l)) by lia end.
    split; [done|]. split; [done|]. cbn [Chain]. split_and!; try done; lia.
  - intros (-> & Hn & Hc). destruct es as [|e es]; [done|].
    simpl length in Hn. rewrite seqZ_cons in Hn by lia.
    replace (Z.pred (Z.of_nat (S (length es)))) with (Z.of_nat (length es)) in Hn by lia.
    injection Hn as -> Hn. destruct Hc as (Hst & Hj & Hg & Hs & Hp & Hb & Hc).
    apply run_bind_Ok. exists (Some e), d. split; [apply read_run; split_and!; try done; apply key_name_valid|].
    apply run_bind_Ok. exists e, d. split; [done|].
    apply run_bind_Ok. exists (key_name k), d. split; [by apply key_run|].
    apply run_bind_Ok. exists tt, d. split.
    + apply run_throw_if_Ok. split; [|done]. unfold same.
      rewrite !bool_decide_eq_true_2 by done. rewrite Hg, Hs, !Z.eqb_refl, String.eqb_refl. done.
    + apply run_bind_Ok. exists es, d. split; [by apply IH|done].
Qed.

Definition AckOk (d : Dir) (op : UpgradeOperation) (n : nat) : Prop :=
  d !! "ack.json" = None
  ∨ ∃ a, stored as_ack d "ack.json" a ∧ ak_job_id a = uo_job_id op
         ∧ ak_generation a = uo_generation op ∧ ak_sequence a ≤ Z.of_nat n.

(** A directory that [_entries] accepts, with its entries. *)
Record Journal (d : Dir) (op : UpgradeOperation) (es : list UpgradeJournalEntry) : Prop := {
  jn_names : receipt_names d ≡ₚ (key_name <$> seqZ 1 (Z.of_nat (length es)));
  jn_bound : (length es ≤ 4096)%nat;
  jn_chain : Chain d op 1 None es;
  jn_ack : AckOk d op (length es);
}.

Lemma sorted_names d op es :
  Journal d op es →
  merge_sort String.le (receipt_names d) = key_name <$> seqZ 1 (Z.of_nat (length es)).
Proof.
  intros HJ. apply (Sorted_unique String.le); [apply Sorted_merge_sort; apply _| |].
  - apply key_names_sorted; [lia|]. pose proof (jn_bound d op es HJ). lia.
  - rewrite merge_sort_Permutation. apply HJ.
Qed.

Lemma entries_run p d es d' :
  entries p d = (Ok es, d') ↔ d' = d ∧ Journal d (up_operation p) es.
Proof.
  unfold entries. split.
  - intros Hr. inv_run.
    repeat match goal with
    | Hx : read_entries _ _ _ _ _ = _ |- _ => apply read_entries_run in Hx as (-> & ? & ?)
    | Hx : read _ _ _ = _ |- _ => apply read_run in Hx as (_ & -> & Hx)
    end.
    bool_prop. split; [done|].
    match goal with l : list UpgradeJournalEntry |- _ => rename l into es end.
    match goal with Hm : merge_sort _ _ = _ |- _ =>
      assert (Hperm : receipt_names d ≡ₚ (key_name <$> seqZ 1 (Z.of_nat (length es))))
        by (rewrite <- Hm; by rewrite merge_sort_Permutation) end.
    split; try done.
    + apply Permutation_length in Hperm. rewrite length_fmap, length_seqZ in Hperm.
      match goal with Hb : (4096 <? _) = false |- _ => apply Z.ltb_ge in Hb end. lia.
    + match goal with o : option UpgradeReceiptAck |- _ => destruct o as [a|] end;
        [right|by left].
      exists a. bool_prop. unfold same in *. bool_prop. split_and!; try done; lia.
  - intros (-> & HJ). pose proof HJ as [Hn Hb Hc Ha].
    apply run_bind_Ok. exists d, d. split; [done|].
    apply run_bind_Ok. exists tt, d. split.
    { apply run_throw_if_Ok. split; [|done]. apply negb_false_iff, forallb_forall.
      intros n Hin%list_elem_of_In. rewrite Hn in Hin.
      apply list_elem_of_fmap in Hin as (k & -> & _). apply key_name_is_receipt. }
    apply run_bind_Ok. exists tt, d. split.
    { apply run_throw_if_Ok. split; [|done]. rewrite (Permutation_length Hn), length_fmap, length_seqZ.
      apply Z.ltb_ge. lia. }
    apply run_bind_Ok. exists es, d. split.
    { apply read_entries_run. split_and!; [done|by eapply sorted_names|done]. }
    destruct Ha as [Ha|(a & Ha & Hj & Hg & Hs)].
    + apply run_bind_Ok. exists None, d. split; [by apply read_run|done].
    + apply run_bind_Ok. exists (Some a), d. split; [by apply read_run|].
      apply run_bind_Ok. exists tt, d. split; [|done].
      apply run_throw_if_Ok. split; [|done]. unfold same. rewrite bool_decide_eq_true_2 by done.
      rewrite Hg, Z.eqb_refl. simpl. apply Z.ltb_ge. lia.
Qed.

(** ** Appending *)

Lemma stored_insert_ne {A} (as_ : Document → option A) d name f name' a :
  name ≠ name' → stored as_ d name' a → stored as_ (<[name := f]> d) name' a.
Proof. intros Hne (g & Hg & ?). exists g. by rewrite lookup_insert_ne. Qed.

Lemma chain_insert d op name f k previous es :
  (∀ j, k ≤ j < k + Z.of_nat (length es) → name ≠ key_name j) →
  Chain d op k previous es → Chain (<[name := f]> d) op k previous es.
Proof.
  revert k previous. induction es as [|e es IH]; intros k previous Hne; [done|].
  intros (Hs & Hj & Hg & Hq & Hp & Hb & Hc). simpl in Hne.
  cbn [Chain]. split_and!; try done; try lia; [apply stored_insert_ne; [apply Hne; lia|done]|].
  apply IH; [|done]. intros j Hjk. apply Hne. lia.
Qed.

Lemma chain_snoc d op k previous es e :
  Chain d op k previous es →
  stored as_entry d (key_name (k + Z.of_nat (length es))) e →
  rc_job_id (je_receipt e) = uo_job_id op → rc_generation (je_receipt e) = uo_generation op →
  rc_sequence (je_receipt e) = k + Z.of_nat (length es) →
  je_previous_sha256 e = match last es with Some x => Some (sha256_entry x) | None => previous end →
  1 ≤ k + Z.of_nat (length es) ≤ 2 ^ 63 - 1 →
  Chain d op k previous (es ++ [e]).
Proof.
  revert k previous. induction es as [|e0 es IH]; intros k previous Hc Hst Hj Hg Hs Hp Hb; simpl in *.
  - rewrite Z.add_0_r in *. done.
  - destruct Hc as (? & ? & ? & ? & ? & ? & Hc). split_and!; try done; try lia.
    replace (k + Z.of_nat (S (length es))) with (k + 1 + Z.of_nat (length es)) in * by lia.
    apply IH; try done. rewrite Hp. destruct es as [|x es]; [done|].
    change (last (e0 :: x :: es)) with (last (x :: es)).
    destruct (last (x :: es)) eqn:El; [done|]. by apply last_None in El.
Qed.

Lemma receipt_names_insert d name f :
  d !! name = None → name ∉ reserved_names →
  receipt_names (<[name := f]> d) ≡ₚ name :: receipt_names d.
Proof.
  intros Hd Hn. unfold receipt_names. rewrite map_to_list_insert by done. simpl.
  by rewrite filter_cons_True.
Qed.

(** The next name is free: the directory holds the names up to the last one. *)
Lemma next_name_free d op es :
  Journal d op es → d !! key_name (Z.of_nat (length es) + 1) = None.
Proof.
  intros HJ. destruct (d !! key_name _) as [f|] eqn:Ef; [|done]. exfalso.
  assert (Hin : key_name (Z.of_nat (length es) + 1) ∈ receipt_names d).
  { unfold receipt_names. apply list_elem_of_filter. split; [apply key_name_not_reserved|].
    apply list_elem_of_fmap. exists (key_name (Z.of_nat (length es) + 1), f). split; [done|].
    by apply elem_of_map_to_list. }
  rewrite (jn_names _ _ _ HJ) in Hin. apply list_elem_of_fmap in Hin as (k & Hk & Hin).
  apply elem_of_seqZ in Hin. pose proof (jn_bound _ _ _ HJ).
  apply key_name_inj in Hk; unfold in_bounds; lia.
Qed.

(** The directory after an append. *)
Definition extended (d : Dir) (es : list UpgradeJournalEntry) (e : UpgradeJournalEntry) (size : Z)
    : Dir :=
  <[key_name (Z.of_nat (length es) + 1) := mkFile true size (Some (EntryDoc e))]> d.

Lemma names_extended d op es e size :
  Journal d op es →
  receipt_names (extended d es e size)
  ≡ₚ (key_name <$> seqZ 1 (Z.of_nat (length es) + 1)).
Proof.
  intros HJ. unfold extended.
  rewrite receipt_names_insert by (by eapply next_name_free || apply key_name_not_reserved).
  rewrite (jn_names _ _ _ HJ).
  replace (Z.of_nat (length es) + 1) with (Z.of_nat (S (length es))) by lia.
  rewrite seqZ_S, fmap_app. simpl.
  replace (Z.of_nat (S (length es))) with (1 + Z.of_nat (length es)) by lia.
  by rewrite Permutation_cons_append.
Qed.

Lemma journal_extended d op es e size :
  Journal d op es → (length es < 4096)%nat → size ≤ MAX_DOCUMENT_BYTES →
  rc_job_id (je_receipt e) = uo_job_id op → rc_generation (je_receipt e) = uo_generation op →
  rc_sequence (je_receipt e) = Z.of_nat (length es) + 1 →
  je_previous_sha256 e = sha256_entry <$> last es →
  Journal (extended d es e size) op (es ++ [e]).
Proof.
  intros HJ Hlt Hsz Hj Hg Hs Hp. split.
  - rewrite length_app, Nat2Z.inj_add. by apply (names_extended d op).
  - rewrite length_app. simpl. lia.
  - apply chain_snoc; rewrite ?(Z.add_comm 1); try done; try lia.
    + apply chain_insert; [|apply HJ]. intros j Hjb E. apply key_name_inj in E; unfold in_bounds; lia.
    + eexists. unfold extended. rewrite lookup_insert_eq. split_and!; try done.
  - destruct (jn_ack _ _ _ HJ) as [Ha|(a & Ha & ? & ? & ?)].
    + left. unfold extended. rewrite lookup_insert_ne; [done|]. unfold key_name. done.
    + right. exists a. split_and!; try done.
      * apply stored_insert_ne; [by unfold key_name|done].
      * rewrite length_app. lia.
Qed.

(** *** The append call *)

Definition next_entry (es : list UpgradeJournalEntry) (r : UpgradeReceipt) (resource : option string)
    : UpgradeJournalEntry := mkEntry r (sha256_entry <$> last es) resource.

(** A receipt this journal's owner may append next, and a disk that takes it. *)
Record Appendable (env : Env) (p : UpgradeExecutionPlan) (es : list UpgradeJournalEntry)
    (r : UpgradeReceipt) (resource : option string) : Prop := {
  ap_lock : env_lock env = LockHeld;
  ap_write : env_write env = WriteOk;
  ap_size : env_size env (EntryDoc (next_entry es r resource)) ≤ MAX_DOCUMENT_BYTES;
  ap_valid : UpgradeReceipt_valid r = true;
  ap_job : rc_job_id r = uo_job_id (up_operation p);
  ap_gen : rc_generation r = uo_generation (up_operation p);
  ap_seq : rc_sequence r = Z.of_nat (length es) + 1;
}.

Lemma append_new env p es r resource d :
  Journal d (up_operation p) es → Appendable env p es r resource →
  append env p r resource d
  = (Ok true, extended d es (next_entry es r resource)
                (env_size env (EntryDoc (next_entry es r resource)))).
Proof.
  intros HJ [Hl Hw Hsz Hv Hj Hg Hs]. unfold append, ownership. rewrite Hv, Hl. simpl negb.
  unfold same. rewrite bool_decide_eq_true_2 by done. rewrite Hg, Z.eqb_refl.
  apply run_bind_Ok. exists tt, d. split; [done|].
  apply run_bind_Ok. exists tt, d. split; [done|].
  apply run_bind_Ok. exists es, d. split; [by apply entries_run|].
  rewrite Hs, (proj2 (Z.leb_gt _ _)), Z.eqb_refl by lia.
  apply run_bind_Ok. exists tt, d. split; [done|].
  assert (Hb : 1 ≤ Z.of_nat (length es) + 1 ≤ 2 ^ 63 - 1)
    by (pose proof (jn_bound _ _ _ HJ); lia).
  apply run_bind_Ok. exists (key_name (Z.of_nat (length es) + 1)), d. split; [by apply key_run|].
  eapply run_bind_Ok. exists tt. eexists. split; [|done].
  unfold write, check_key. rewrite key_name_valid. fold (next_entry es r resource).
  apply run_bind_Ok. exists tt, d. split; [done|].
  apply run_bind_Ok. exists tt, d. split.
  { apply run_throw_if_Ok. split; [|done]. apply Z.ltb_ge. done. }
  apply run_bind_Ok. exists d, d. split; [done|].
  apply run_bind_Ok. exists tt, d. split.
  { apply run_throw_if_Ok. split; [|done]. by rewrite (next_name_free d (up_operation p) es HJ). }
  by rewrite Hw.
Qed.

Lemma append_replay env p es r resource e d :
  Journal d (up_operation p) es → env_lock env = LockHeld → UpgradeReceipt_valid r = true →
  es !! Z.to_nat (rc_sequence r - 1) = Some e → je_receipt e = r → je_resource_identity e = resource →
  rc_job_id r = uo_job_id (up_operation p) → rc_generation r = uo_generation (up_operation p) →
  append env p r resource d = (Ok false, d).
Proof.
  intros HJ Hl Hv He Hr Hres Hj Hg. unfold append, ownership. rewrite Hv, Hl. simpl negb.
  unfold same. rewrite bool_decide_eq_true_2 by done. rewrite Hg, Z.eqb_refl.
  apply run_bind_Ok. exists tt, d. split; [done|].
  apply run_bind_Ok. exists tt, d. split; [done|].
  apply run_bind_Ok. exists es, d. split; [by apply entries_run|].
  unfold UpgradeReceipt_valid in Hv. bool_prop. apply lookup_lt_Some in He as Hlt.
  rewrite (proj2 (Z.leb_le _ _)) by lia.
  apply run_bind_Ok. exists e, d. split; [by rewrite He|].
  apply run_bind_Ok. exists tt, d. split; [|done].
  apply run_throw_if_Ok. split; [|done].
  by rewrite Hr, String.eqb_refl, bool_decide_eq_true_2.
Qed.

(** C20. Appending is durable and idempotent: on any directory that the journal accepts with
    fewer than 4096 entries, when the lock is free and the write succeeds, appending a valid
    receipt of the plan's job and generation with the next sequence number, whose entry is
    within the size of a document, succeeds; reading then yields the old entries followed by
    the new one, linked to its predecessor; it is the latest; and appending it again changes
    nothing. *)
Theorem append_read_back env p es r resource d :
  entries p d = (Ok es, d) → (length es < 4096)%nat → Appendable env p es r resource →
  ∃ d', append env p r resource d = (Ok true, d')
    ∧ entries p d' = (Ok (es ++ [next_entry es r resource]), d')
    ∧ latest env p d' = (Ok (Some r), d')
    ∧ append env p r resource d' = (Ok false, d').
Proof.
  intros [_ HJ]%entries_run Hlt Hap. eexists. split; [by apply append_new|].
  pose proof Hap as [Hl Hw Hsz Hv Hj Hg Hs].
  assert (HJ' : Journal (extended d es (next_entry es r resource)
                  (env_size env (EntryDoc (next_entry es r resource))))
                  (up_operation p) (es ++ [next_entry es r resource]))
    by (by apply journal_extended).
  split_and!.
  - by apply entries_run.
  - unfold latest, ownership. rewrite Hl. apply run_bind_Ok. eexists _, _.
    split; [by apply entries_run|]. by rewrite last_snoc.
  - apply (append_replay env p (es ++ [next_entry es r resource]) r resource
             (next_entry es r resource)); try done.
    replace (Z.to_nat (rc_sequence r - 1)) with (length es) by lia.
    by rewrite lookup_app_r, Nat.sub_diag.
Qed.

(** The links of a chain are determined by its last digest. *)
Lemma chain_previous d op k previous es :
  Chain d op k previous es →
  ∀ i e, es !! i = Some e →
    je_previous_sha256 e = match i with O => previous | S j => sha256_entry <$> es !! j end.
Proof.
  revert k previous. induction es as [|e0 es IH]; intros k previous Hc i e He; [done|].
  destruct Hc as (_ & _ & _ & _ & Hp & _ & Hc). destruct i as [|i]; simpl in *; [by simplify_eq|].
  rewrite (IH _ _ Hc i e He). by destruct i.
Qed.

Lemma linked_equal p d1 d2 es1 es2 e1 e2 :
  (∀ a b, a ∈ es1 → b ∈ es2 → sha256_entry a = sha256_entry b → a = b) →
  entries p d1 = (Ok es1, d1) → entries p d2 = (Ok es2, d2) →
  last es1 = Some e1 → last es2 = Some e2 → sha256_entry e1 = sha256_entry e2 → es1 = es2.
Proof.
  intros Hinj [_ J1]%entries_run [_ J2]%entries_run L1 L2 Hsha.
  pose proof (jn_chain _ _ _ J1) as C1. pose proof (jn_chain _ _ _ J2) as C2.
  pose proof (chain_previous _ _ _ _ _ C1) as P1. pose proof (chain_previous _ _ _ _ _ C2) as P2.
  clear C1 C2 J1 J2. revert es2 e1 e2 L1 L2 Hsha P1 P2 Hinj.
  induction es1 as [|x es1 IH] using rev_ind; intros es2 e1 e2 L1 L2 Hsha P1 P2 Hinj; [done|].
  rewrite last_snoc in L1. injection L1 as ->.
  destruct es2 as [|y es2 _] using rev_ind; [done|]. rewrite last_snoc in L2. injection L2 as ->.
  apply Hinj in Hsha as ->; [|set_solver..].
  f_equal.
  assert (Q1 := P1 (length es1) e2). assert (Q2 := P2 (length es2) e2).
  rewrite lookup_app_r, Nat.sub_diag in Q1 by done. specialize (Q1 eq_refl).
  rewrite lookup_app_r, Nat.sub_diag in Q2 by done. specialize (Q2 eq_refl).
  assert (R1 : ∀ i e, es1 !! i = Some e → je_previous_sha256 e
            = match i with O => None | S j => sha256_entry <$> es1 !! j end).
  { intros i e Hi. rewrite (P1 i e) by (by apply lookup_app_l_Some). destruct i as [|j]; [done|].
    rewrite lookup_app_l; [done|]. apply lookup_lt_Some in Hi. lia. }
  assert (R2 : ∀ i e, es2 !! i = Some e → je_previous_sha256 e
            = match i with O => None | S j => sha256_entry <$> es2 !! j end).
  { intros i e Hi. rewrite (P2 i e) by (by apply lookup_app_l_Some). destruct i as [|j]; [done|].
    rewrite lookup_app_l; [done|]. apply lookup_lt_Some in Hi. lia. }
  destruct es1 as [|a l1 _] using rev_ind; destruct es2 as [|b l2 _] using rev_ind; [done|..].
  - rewrite Q1, length_app in Q2. simpl in Q2. rewrite Nat.add_1_r, <- app_assoc in Q2.
    by rewrite lookup_app_r, Nat.sub_diag in Q2 by done.
  - rewrite Q2, length_app in Q1. simpl in Q1. rewrite Nat.add_1_r, <- app_assoc in Q1.
    by rewrite lookup_app_r, Nat.sub_diag in Q1 by done.
  - rewrite Q1, !length_app in Q2. simpl in Q2. rewrite !Nat.add_1_r, <- !app_assoc in Q2.
    cbn [app] in Q2.
    rewrite (list_lookup_middle l1), (list_lookup_middle l2) in Q2 by done. injection Q2 as Q2.
    eapply IH; [apply last_snoc|apply last_snoc|done|done|done|]. intros; apply Hinj; set_solver.
Qed.

(** C25. The journal is tamper-evident: if two accepted directories end in entries with the
    same digest, they hold the same entries, every one of them and in the same order, or two
    different entries of theirs collide under the digest. *)
Theorem journal_tamper_evident p d1 d2 es1 es2 e1 e2 :
  entries p d1 = (Ok es1, d1) → entries p d2 = (Ok es2, d2) →
  last es1 = Some e1 → last es2 = Some e2 → sha256_entry e1 = sha256_entry e2 →
  es1 = es2 ∨ ∃ a b, a ∈ es1 ∧ b ∈ es2 ∧ a ≠ b ∧ sha256_entry a = sha256_entry b.
Proof.
  intros H1 H2 L1 L2 Hsha.
  destruct (decide (Exists (λ a, Exists (λ b, a ≠ b ∧ sha256_entry a = sha256_entry b) es2) es1)) as [Hc|Hc].
  - right. apply Exists_exists in Hc as (a & Ha & Hc). apply Exists_exists in Hc as (b & Hb & Hne & E). by exists a, b.
  - left. eapply linked_equal; [|exact H1|exact H2|exact L1|exact L2|exact Hsha].
    intros a b Ha Hb E. destruct (decide (a = b)) as [|Hne]; [done|]. destruct Hc.
    apply Exists_exists. exists a. split; [done|]. apply Exists_exists. eauto.
Qed.

(** C26. The receipt bound is checked one append too late: with 4096 entries
    the next append still succeeds, and from then on every read of the journal
    raises. *)
Theorem append_past_bound env p es r resource d :
  entries p d = (Ok es, d) → length es = 4096%nat → Appendable env p es r resource →
  ∃ d', append env p r resource d = (Ok true, d')
    ∧ entries p d' = (Err (JUnavailable "bound"), d').
Proof.
  intros [_ HJ]%entries_run Hlen Hap. eexists. split; [by apply append_new|].
  set (d' := extended _ _ _ _).
  assert (Hp : receipt_names d' ≡ₚ (key_name <$> seqZ 1 (Z.of_nat (length es) + 1)))
    by (by apply (names_extended d (up_operation p))).
  unfold entries. cbv [mbind M_bind get throw_if throw].
  replace (forallb is_receipt_name (receipt_names d')) with true.
  - simpl negb. cbv iota. rewrite (Permutation_length Hp), length_fmap, length_seqZ, Hlen.
    reflexivity.
  - symmetry. apply forallb_forall. intros n Hin%list_elem_of_In. rewrite Hp in Hin.
    apply list_elem_of_fmap in Hin as (k & -> & _). apply key_name_is_receipt.
Qed.

(** ** Acknowledgment *)

Lemma receipt_names_reserved d name f :
  name ∈ reserved_names → receipt_names (<[name := f]> d) ≡ₚ receipt_names d.
Proof.
  intros Hn. unfold receipt_names.
  assert (Hd : ∀ g, (map_to_list (<[name := g]> d)).*1 ≡ₚ name :: (map_to_list (delete name d)).*1).
  { intros g. rewrite <- insert_delete_eq, map_to_list_insert by apply lookup_delete_eq. done. }
  rewrite (Hd f), filter_cons_False by auto.
  destruct (d !! name) as [g|] eqn:E.
  - rewrite <- (insert_id d name g E) at 2. rewrite (Hd g), filter_cons_False by auto. done.
  - by rewrite delete_id.
Qed.

Lemma journal_acknowledged d op es a size :
  Journal d op es → size ≤ MAX_DOCUMENT_BYTES → ak_job_id a = uo_job_id op →
  ak_generation a = uo_generation op → ak_sequence a ≤ Z.of_nat (length es) →
  Journal (<["ack.json" := mkFile true size (Some (AckDoc a))]> d) op es.
Proof.
  intros HJ Hsz Hj Hg Hs. split.
  - rewrite receipt_names_reserved by (unfold reserved_names; set_solver). apply HJ.
  - apply HJ.
  - apply chain_insert; [|apply HJ]. intros j _. by unfold key_name.
  - right. exists a. split_and!; try done. eexists. rewrite lookup_insert_eq. split_and!; done.
Qed.

Lemma write_replace_run env name doc d d' :
  write env name doc true d = (Ok tt, d') →
  env_size env doc ≤ MAX_DOCUMENT_BYTES ∧ d' = <[name := mkFile true (env_size env doc) (Some doc)]> d.
Proof.
  unfold write, check_key. intros Hr. inv_run.
  destruct (env_write env); inv_run. split; [lia|done].
Qed.

(** Acknowledgments only advance, and never past what is retained: a
    successful acknowledgment is at least the previous one and at most the
    number of receipts, is what is read afterwards, and removes no receipt. *)
Theorem acknowledge_monotone env p a d es n d' :
  env_lock env = LockHeld →
  entries p d = (Ok es, d) → acknowledged_sequence env p d = (Ok n, d) →
  0 ≤ ak_sequence a → acknowledge env p a d = (Ok tt, d') →
  n ≤ ak_sequence a ≤ Z.of_nat (length es)
  ∧ entries p d' = (Ok es, d') ∧ acknowledged_sequence env p d' = (Ok (ak_sequence a), d').
Proof.
  intros Hl Hes Hn Hpos Ha. unfold acknowledged_sequence, acknowledge, ownership in *. rewrite Hl in *.
  pose proof Hes as [_ HJ]%entries_run.
  apply run_bind_Ok in Hn as (es' & d0 & Hes' & Hn). rewrite Hes in Hes'. injection Hes' as <- <-.
  apply run_bind_Ok in Hn as (prev & d0 & Hprev & Hn). apply run_ret_Ok in Hn as [-> Hd]. subst d0.
  apply run_bind_Ok in Ha as (u & d0 & Hown & Ha). apply run_throw_if_Ok in Hown as [Hown ->].
  apply run_bind_Ok in Ha as (es' & d0 & Hes' & Ha). rewrite Hes in Hes'. injection Hes' as <- <-.
  apply run_bind_Ok in Ha as (prev' & d0 & Hprev' & Ha). rewrite Hprev in Hprev'. injection Hprev' as <- <-.
  apply run_bind_Ok in Ha as (u' & d0 & Hck & Ha). apply run_throw_if_Ok in Hck as [Hck ->].
  apply write_replace_run in Ha as [Hsz ->]. bool_prop. unfold same in *. bool_prop.
  assert (HJ' := journal_acknowledged d (up_operation p) es a (env_size env (AckDoc a)) HJ Hsz
                   ltac:(done) ltac:(lia) ltac:(lia)).
  split; [destruct prev as [b|]; lia|]. split; [by apply entries_run|].
  assert (Hread : read as_ack "ack.json" (<["ack.json" := mkFile true (env_size env (AckDoc a))
                    (Some (AckDoc a))]> d) = (Ok (Some a), <["ack.json" := mkFile true
                    (env_size env (AckDoc a)) (Some (AckDoc a))]> d)).
  { apply read_run. split_and!; [done|done|]. eexists. by rewrite lookup_insert_eq. }
  apply run_bind_Ok. eexists es, _. split; [by apply entries_run|].
  apply run_bind_Ok. eexists (Some a), _. split; [exact Hread|done].
Qed.
End journal.
