(* ===== verification/ReceiptJournalScenario.v ===== *)
(** * A receipt journal at work *)
From Stdlib Require Import Ascii String.
From stdpp Require Import pretty sorting list_numbers.
From S2P Require Import Prelude Effects UpgradeModels UpgradeProgress UpgradeFacts UpgradeScenario ReceiptJournal ReceiptJournalFacts.
Open Scope Z_scope.

#[global] Instance demo_digest : EntryDigest := λ e,
  pretty (rc_sequence (je_receipt e)) +:+ default "" (je_previous_sha256 e).

Definition good_env : Env := mkEnv LockHeld WriteOk (λ _, 100).

Lemma demo_journal_empty : Journal ∅ (up_operation demo_plan) [].
Proof. split; [done|simpl; lia|done|by left]. Qed.

Lemma demo_appendable es :
  (length es ≤ 4096)%nat →
  Appendable good_env demo_plan es (receipt (Z.of_nat (length es) + 1) PREFLIGHT Complete None "") None.
Proof.
  intros Hl. split; try done. unfold UpgradeReceipt_valid. simpl.
  rewrite (proj2 (Z.leb_le 1 _)) by lia. by rewrite (proj2 (Z.leb_le _ (2 ^ 63 - 1))) by lia.
Qed.

(** Appending from the empty directory reaches every length up to the bound. *)
Lemma demo_journal_of_length n :
  (n ≤ 4096)%nat → ∃ d es, Journal d (up_operation demo_plan) es ∧ length es = n.
Proof.
  induction n as [|n IH]; intros Hn; [exists ∅, []; split; [apply demo_journal_empty|done]|].
  destruct IH as (d & es & HJ & Hl); [lia|].
  pose proof (demo_appendable es ltac:(lia)) as [? ? Hsz ? ? ? ?].
  eexists (extended d es (next_entry es (receipt (Z.of_nat (length es) + 1) PREFLIGHT Complete None "") None) 100),
    (es ++ [_]).
  split; [apply journal_extended; try done; lia|]. rewrite length_app. simpl. lia.
Qed.

Definition first_receipt : UpgradeReceipt := receipt 1 PREFLIGHT Complete None "".
Definition first_dir : Dir := (append good_env demo_plan first_receipt None ∅).2.
Definition first_entries : list UpgradeJournalEntry := [mkEntry first_receipt None None].

Lemma append_read_back_witness :
  ∃ d', append good_env demo_plan (receipt 2 STAGED Complete None "") None first_dir = (Ok true, d')
    ∧ entries demo_plan d'
      = (Ok [mkEntry first_receipt None None;
             mkEntry (receipt 2 STAGED Complete None "") (Some "1") None], d').
Proof.
  destruct (append_read_back good_env demo_plan first_entries (receipt 2 STAGED Complete None "") None first_dir)
    as (d' & Ha & He & _).
  - vm_compute. reflexivity.
  - simpl. lia.
  - split; vm_compute; done.
  - exists d'. split; [exact Ha|exact He].
Defined.

(** Two journals of two entries that differ in the first: the digest of the demonstration
    covers the sequence and the link only, so that the last entries agree. *)
Definition chain_of (r1 r2 : UpgradeReceipt) : Dir :=
  (append good_env demo_plan r2 None (append good_env demo_plan r1 None ∅).2).2.
Definition second_receipt : UpgradeReceipt := receipt 2 STAGED Complete None "".
Definition forged_receipt : UpgradeReceipt := receipt 1 STAGED Complete None "".
Definition genuine : list UpgradeJournalEntry :=
  [mkEntry first_receipt None None; mkEntry second_receipt (Some "1") None].
Definition forged : list UpgradeJournalEntry :=
  [mkEntry forged_receipt None None; mkEntry second_receipt (Some "1") None].

Lemma journal_tamper_evident_witness :
  genuine ≠ forged
  ∧ (genuine = forged ∨ ∃ a b, a ∈ genuine ∧ b ∈ forged ∧ a ≠ b ∧ sha256_entry a = sha256_entry b).
Proof.
  split; [discriminate|].
  apply (journal_tamper_evident demo_plan (chain_of first_receipt second_receipt)
           (chain_of forged_receipt second_receipt) genuine forged
           (mkEntry second_receipt (Some "1") None) (mkEntry second_receipt (Some "1") None)).
  - vm_compute. reflexivity.
  - vm_compute. reflexivity.
  - reflexivity.
  - reflexivity.
  - reflexivity.
Defined.

Lemma append_past_bound_witness :
  ∃ d r d', append good_env demo_plan r None d = (Ok true, d')
    ∧ entries demo_plan d' = (Err (JUnavailable "bound"), d').
Proof.
  destruct (demo_journal_of_length 4096) as (d & es & HJ & Hl); [lia|].
  exists d, (receipt (Z.of_nat (length es) + 1) PREFLIGHT Complete None "").
  apply (append_past_bound good_env demo_plan es _ None d).
  - apply entries_run. split; [reflexivity|exact HJ].
  - exact Hl.
  - apply demo_appendable. lia.
Defined.

Lemma acknowledge_monotone_witness :
  0 ≤ 1 ≤ 1
  ∧ acknowledged_sequence good_env demo_plan (acknowledge good_env demo_plan (mkAck "job" 1 1) first_dir).2
    = (Ok 1, (acknowledge good_env demo_plan (mkAck "job" 1 1) first_dir).2).
Proof.
  destruct (acknowledge_monotone good_env demo_plan (mkAck "job" 1 1) first_dir first_entries 0
              (acknowledge good_env demo_plan (mkAck "job" 1 1) first_dir).2) as (Hb & _ & Hr).
  - reflexivity.
  - vm_compute. reflexivity.
  - vm_compute. reflexivity.
  - simpl. lia.
  - vm_compute. reflexivity.
  - split; [exact Hb|exact Hr].
Defined.
