(* ===== verification/Maintenance.v ===== *)
(** * The node's maintenance fence

    [NodeMaintenance] of coire_node/maintenance.py: the persisted maintenance
    epoch of a Studio, the admission permits that respect it, and the strict
    inventory that a drain waits for.  The state is the document in
    maintenance.json, the permits in use and the registered collectors; each
    call runs under the node's lock and is one step.  What the collectors
    return, whether a Core smoke is authorised and how the write of the document
    ends are arguments. *)
From stdpp Require Import sorting.
From S2P Require Import Prelude Effects UpgradeModels ReceiptJournal.
Open Scope Z_scope.

(** ** Data *)

(** maintenance.json: absent, unreadable, or a maintenance epoch *)
Inductive FenceDoc := NoFence | BadFence | Fence (m : UpgradeMaintenance).

Record NodeMaintenance := mkNodeMaintenance {
  nm_doc : FenceDoc;
  nm_admitting : Z;
  nm_owners : list string;
  nm_async_owners : list string;
}.

Definition set_doc v (s : NodeMaintenance) :=
  mkNodeMaintenance v (nm_admitting s) (nm_owners s) (nm_async_owners s).
Definition set_admitting v (s : NodeMaintenance) :=
  mkNodeMaintenance (nm_doc s) v (nm_owners s) (nm_async_owners s).
Definition set_collectors v (s : NodeMaintenance) :=
  mkNodeMaintenance (nm_doc s) (nm_admitting s) v (nm_async_owners s).
Definition set_async_collectors v (s : NodeMaintenance) :=
  mkNodeMaintenance (nm_doc s) (nm_admitting s) (nm_owners s) v.

Inductive CommandAction := Apply | Reconcile | Release.
#[global] Instance CommandAction_eq : EqDecision CommandAction.
Proof. solve_decision. Defined.

Record NodeMaintenanceCommand := mkCommand {
  mc_maintenance : UpgradeMaintenance;
  mc_action : CommandAction;
  mc_terminal_verified : bool;
  mc_source_unchanged : bool;
  mc_source_runtime_sha256 : option string;
}.

(** [NodeMaintenanceCommand.release_proof] *)
Definition release_proof (c : NodeMaintenanceCommand) : bool :=
  negb (same (mc_action c) Release && negb (mc_terminal_verified c))
  && negb (mc_source_unchanged c
           && (negb (same (mc_action c) Release) || negb (mc_terminal_verified c)
               || absent (mc_source_runtime_sha256 c)))
  && negb (negb (mc_source_unchanged c) && present (mc_source_runtime_sha256 c)).

Record NodeMaintenanceAck := mkNodeAck {
  na_job_id : string;
  na_generation : Z;
  na_node : string;
  na_applied_at : Z;
  na_released : bool;
}.

Inductive EntryState := EActive | ECleaning | EStanding | EUnknown.
#[global] Instance EntryState_eq : EqDecision EntryState.
Proof. solve_decision. Defined.

Record UpgradeInventoryEntry := mkInventoryEntry {
  ie_owner : string;
  ie_kind : string;
  ie_work_id : string;
  ie_state : EntryState;
}.

Inductive OwnerStatus := OComplete | OBlocked | OUnknown.
#[global] Instance OwnerStatus_eq : EqDecision OwnerStatus.
Proof. solve_decision. Defined.

Record UpgradeOwnerInventory := mkOwnerInventory {
  oi_owner : string;
  oi_status : OwnerStatus;
  oi_entries : list UpgradeInventoryEntry;
  oi_reason : option string;
}.

Record NodeUpgradeInventory := mkNodeInventory {
  nv_job_id : string;
  nv_generation : Z;
  nv_node : string;
  nv_runtime_sha256 : string;
  nv_observed_at : Z;
  nv_owners : list UpgradeOwnerInventory;
}.

(** [NODE_UPGRADE_OWNERS], in [sorted] order *)
Definition REQUIRED_OWNERS : list string :=
  ["acquisition"; "analysis"; "artifacts"; "engines"; "failover"; "images"; "measurements";
   "probes"; "requests"; "reservations"; "runs"; "shards"; "training"; "training-lifecycle"].

Definition same_owners (inv : NodeUpgradeInventory) (required : list string) : bool :=
  bool_decide (list_to_set (oi_owner <$> nv_owners inv) = (list_to_set required : gset string))
  && (length (nv_owners inv) =? length required)%nat.

(** [NodeUpgradeInventory.idle] and [reconciled] *)
Definition idle (inv : NodeUpgradeInventory) (required : list string) : bool :=
  same_owners inv required
  && forallb (λ o, same (oi_status o) OComplete
                   && forallb (λ e, same (ie_state e) EStanding) (oi_entries o)) (nv_owners inv).
Definition reconciled (inv : NodeUpgradeInventory) (required : list string) : bool :=
  same_owners inv required
  && forallb (λ o, same (oi_status o) OComplete
                   && forallb (λ e, negb (same (ie_state e) EUnknown)) (oi_entries o))
             (nv_owners inv).

Inductive MaintenanceError := MConflict (why : string) | MUnavailable (why : string) | MValue.

Section fence.
Context (node : string).
Abbreviation Call := (M NodeMaintenance MaintenanceError).

(** ** The fence *)

Definition current : Call (option UpgradeMaintenance) :=
  s ← get;
  match nm_doc s with
  | NoFence => mret None
  | BadFence => throw (MUnavailable "corrupt")
  | Fence m => mret (Some m)
  end.

Definition blocked : Call bool :=
  c ← current;
  mret (match c with Some m => negb (same (mt_state m) Released) | None => false end).

Definition draining : MaintenanceError := MUnavailable "draining for an upgrade".

(** [check]; [smoke] is [authorize_current_smoke]. *)
Definition check (smoke : bool) : Call unit :=
  if smoke then mret tt else b ← blocked; throw_if b draining.

(** [admission]: entering and leaving the context. *)
Definition admission_enter : Call unit :=
  b ← blocked; throw_if b draining;; modify (λ s, set_admitting (nm_admitting s + 1) s).
Definition admission_exit : Call unit := modify (λ s, set_admitting (nm_admitting s - 1) s).

(** [transfer_continuation]: the permit of a pre-issued transfer grant. *)
Definition transfer_enter (authorized : bool) : Call unit :=
  throw_if (negb authorized) (MConflict "transfer");;
  modify (λ s, set_admitting (nm_admitting s + 1) s).

(** ** [apply] *)

Definition recovery_ok (c : NodeMaintenanceCommand) (pre : UpgradeMaintenance)
    (previous : option UpgradeMaintenance) (admitting : Z) : bool :=
  let requested := mc_maintenance c in
  same (mc_action c) Apply && negb (same (mt_state pre) Released)
  && negb (same (mt_state requested) Released) && same (mt_targets requested) [node]
  && is_in node (mt_targets pre) && (mt_generation pre <? mt_generation requested)
  && (same previous (Some pre) || same previous (Some requested)) && (admitting =? 0).

(** The guards against the epoch that is in place. *)
Definition check_epoch (c : NodeMaintenanceCommand) (recovering : bool)
    (previous : UpgradeMaintenance) : Call unit :=
  let requested := mc_maintenance c in
  let same_generation := mt_generation requested =? mt_generation previous in
  throw_if (same_generation
            && (negb (same (mt_targets requested) (mt_targets previous))
                || negb (mt_drain_deadline_at requested =? mt_drain_deadline_at previous)
                || negb (same (mt_initiator_user_id requested) (mt_initiator_user_id previous))))
           (MConflict "epoch authority");;
  throw_if (mt_generation requested <? mt_generation previous) (MConflict "stale");;
  throw_if (same_generation && negb (same (mt_job_id requested) (mt_job_id previous)))
           (MConflict "another operation");;
  throw_if (negb (same (mt_state previous) Released)
            && negb (same (mt_job_id requested) (mt_job_id previous)) && negb recovering)
           (MConflict "previous retains ownership");;
  throw_if (same (mt_state previous) Released && same_generation
            && negb (same (mc_action c) Release)) (MConflict "released cannot be replayed").

Definition with_state (m : UpgradeMaintenance) (st : MaintenanceState) (now : Z) : UpgradeMaintenance :=
  mkMaintenance (mt_job_id m) (mt_generation m) (mt_targets m) st now (mt_drain_deadline_at m)
                (mt_initiator_user_id m) (mt_acknowledged_generations m).

Definition persist (w : WriteOutcome) (m : UpgradeMaintenance) : Call unit :=
  match w with
  | WriteOk => modify (set_doc (Fence m))
  | WriteFails placed =>
      (if placed then modify (set_doc (Fence m)) else mret tt);; throw (MUnavailable "persist")
  end.

Definition ack (m : UpgradeMaintenance) (now : Z) : NodeMaintenanceAck :=
  mkNodeAck (mt_job_id m) (mt_generation m) node now (same (mt_state m) Released).

Definition apply_command (w : WriteOutcome) (locked : LockOutcome) (now : Z)
    (c : NodeMaintenanceCommand) (allow_existing_work : bool)
    (recovery_preimage : option UpgradeMaintenance) : Call NodeMaintenanceAck :=
  throw_if (allow_existing_work
            && negb (same (mc_action c) Release && mc_source_unchanged c && mc_terminal_verified c
                     && present (mc_source_runtime_sha256 c))) (MConflict "existing work");;
  let requested := mc_maintenance c in
  throw_if (negb (is_in node (mt_targets requested)) && negb (is_in "cluster" (mt_targets requested)))
           (MConflict "target");;
  match locked with
  | LockBusy => throw (MConflict "another owner")
  | LockUnsafe => throw (MUnavailable "lock")
  | LockHeld =>
      previous ← current;
      s ← get;
      throw_if (match recovery_preimage with
                | Some pre => negb (recovery_ok c pre previous (nm_admitting s))
                | None => false
                end) (MConflict "recovery preimage");;
      match previous with
      | Some p => check_epoch c (present recovery_preimage) p
      | None => mret tt
      end;;
      if same (mc_action c) Release then
        match previous with
        | None => throw (MConflict "no matching owner")
        | Some p =>
            throw_if (negb (same (mt_job_id p) (mt_job_id requested)
                            && (mt_generation p =? mt_generation requested)))
                     (MConflict "no matching owner");;
            if same (mt_state p) Released then mret (ack p now)
            else
              throw_if (negb (nm_admitting s =? 0) && negb allow_existing_work)
                       (MConflict "admitted requests");;
              let value := with_state requested Released now in
              persist w value;; mret (ack value now)
        end
      else
        throw_if (same (mt_state requested) Released) (MConflict "only reconciliation releases");;
        persist w requested;; mret (ack requested now)
  end.

(** ** Collectors and inventory *)

Definition may_register (owner : string) (s : NodeMaintenance) : bool :=
  is_in owner REQUIRED_OWNERS && negb (String.eqb owner "requests")
  && negb (is_in owner (nm_owners s)) && negb (is_in owner (nm_async_owners s)).

Definition register (owner : string) : Call unit :=
  s ← get;
  throw_if (negb (may_register owner s)) MValue;;
  modify (λ s, set_collectors (nm_owners s ++ [owner]) s).

Definition register_async (owner : string) : Call unit :=
  s ← get;
  throw_if (negb (may_register owner s)) MValue;;
  modify (λ s, set_async_collectors (nm_async_owners s ++ [owner]) s).

(** The fence of [job_id] and [generation] is in place. *)
Definition owns (job_id : string) (generation : Z) (c : option UpgradeMaintenance) : bool :=
  match c with
  | Some m => same (mt_job_id m) job_id && (mt_generation m =? generation)
              && negb (same (mt_state m) Released)
  | None => false
  end.

Definition unknown_owner (owner reason : string) : UpgradeOwnerInventory :=
  mkOwnerInventory owner OUnknown [] (Some reason).

Definition requests_inventory (admitting : Z) : UpgradeOwnerInventory :=
  mkOwnerInventory "requests" OComplete
    (if admitting =? 0 then []
     else [mkInventoryEntry "requests" "admission" "inflight-requests" EActive]) None.

(** One synchronous collector; [collect owner = None] is one that raised. *)
Definition collect_owner (collect : string → option UpgradeOwnerInventory) (s : NodeMaintenance)
    (owner : string) : UpgradeOwnerInventory :=
  if is_in owner (nm_async_owners s) then unknown_owner owner "async_inventory_required"
  else if negb (is_in owner (nm_owners s)) then unknown_owner owner "owner_inventory_unavailable"
  else match collect owner with
       | Some r => if String.eqb (oi_owner r) owner then r
                   else unknown_owner owner "owner_inventory_unavailable"
       | None => unknown_owner owner "owner_inventory_unavailable"
       end.

(** [inventory]; [after] is the fence document once the collectors have run,
    since other calls may run meanwhile. *)
Definition inventory (collect : string → option UpgradeOwnerInventory) (after : FenceDoc) (now : Z)
    (job_id : string) (generation : Z) (runtime : string) : Call NodeUpgradeInventory :=
  c ← current;
  throw_if (negb (owns job_id generation c)) (MConflict "current owner");;
  s ← get;
  let owners := requests_inventory (nm_admitting s)
                :: (collect_owner collect s <$> filter (λ o, o ≠ "requests") REQUIRED_OWNERS) in
  match after with
  | BadFence => throw (MUnavailable "corrupt")
  | NoFence => throw (MConflict "authority changed")
  | Fence m => throw_if (negb (owns job_id generation (Some m))) (MConflict "authority changed")
  end;;
  mret (mkNodeInventory job_id generation node runtime now owners).

(** [inventory_async]: the asynchronous owners' answers replace the placeholders. *)
Definition inventory_async (collect collect_async : string → option UpgradeOwnerInventory)
    (after last_ : FenceDoc) (now : Z) (job_id : string) (generation : Z) (runtime : string)
    : Call NodeUpgradeInventory :=
  snapshot ← inventory collect after now job_id generation runtime;
  s ← get;
  let resolve o :=
    if is_in (oi_owner o) (nm_async_owners s) then
      match collect_async (oi_owner o) with
      | Some r => if String.eqb (oi_owner r) (oi_owner o) then r
                  else unknown_owner (oi_owner o) "owner_inventory_unavailable"
      | None => unknown_owner (oi_owner o) "owner_inventory_unavailable"
      end
    else o in
  match last_ with
  | BadFence => throw (MUnavailable "corrupt")
  | NoFence => throw (MConflict "authority changed")
  | Fence m => throw_if (negb (owns job_id generation (Some m))) (MConflict "authority changed")
  end;;
  mret (mkNodeInventory job_id generation node runtime now
          (merge_sort (λ a b, String.le (oi_owner a) (oi_owner b)) (resolve <$> nv_owners snapshot))).

(** Whether [drain_idle_engines] may unload residents: every owner but the
    engines (and, with an image supervisor, the images) is idle. *)
Definition drainable (images : bool) (owners : list UpgradeOwnerInventory) : bool :=
  forallb (λ o,
    same (oi_status o) OComplete
    && (is_in (oi_owner o) (if images then ["engines"; "images"] else ["engines"])
        || forallb (λ e, same (ie_state e) EStanding) (oi_entries o))
    && (negb (String.eqb (oi_owner o) "images" && images)
        || forallb (λ e, is_in (ie_kind e) ["image-worker"; "native-process"]) (oi_entries o)))
  owners.
End fence.
