(* ===== verification/MaintenanceFacts.v ===== *)
(** * The fence holds until it is released

    Epochs only advance, a released epoch never comes back, an idle inventory
    means what it says, and a drained node stays drained. *)
From stdpp Require Import sorting.
From S2P Require Import Prelude Effects UpgradeModels ReceiptJournal Maintenance.
Open Scope Z_scope.

Section facts.
Context (node : string).

Lemma current_run s r s' :
  current s = (r, s') →
  s' = s ∧ match nm_doc s with
           | NoFence => r = Ok None
           | BadFence => r = Err (MUnavailable "corrupt")
           | Fence m => r = Ok (Some m)
           end.
Proof.
  unfold current. cbv [mbind M_bind get mret M_ret throw].
  destruct (nm_doc s); intros; simplify_eq; done.
Qed.

Lemma persist_run w m s r s' :
  persist w m s = (r, s') →
  (s' = s ∨ s' = set_doc (Fence m) s) ∧ (is_ok r = true → s' = set_doc (Fence m) s).
Proof.
  unfold persist. destruct w as [|[]]; cbv [mbind M_bind modify mret M_ret throw];
    intros; simplify_eq; split; auto; done.
Qed.

Lemma persist_then_run {A} w m (a : A) s (r : result MaintenanceError A) s' :
  (persist w m;; mret a) s = (r, s') → s' = s ∨ s' = set_doc (Fence m) s.
Proof.
  intros Hr. apply run_bind_cases in Hr as [(? & Hm & _)|([] & s1 & Hm & Hr)].
  - by apply persist_run in Hm as [? _].
  - apply persist_run in Hm as [Hs _]. injection Hr as _ <-. done.
Qed.

(** What [check_epoch] lets through. *)
Definition succeeds (recovering : bool) (p m : UpgradeMaintenance) (releasing : bool) : Prop :=
  mt_generation p ≤ mt_generation m
  ∧ (mt_generation m = mt_generation p →
       mt_job_id m = mt_job_id p ∧ mt_targets m = mt_targets p
       ∧ mt_drain_deadline_at m = mt_drain_deadline_at p
       ∧ (mt_state p = Released → releasing = true))
  ∧ (mt_state p ≠ Released → mt_job_id m = mt_job_id p ∨ recovering = true).

Lemma check_epoch_run c recovering p s r s' :
  check_epoch c recovering p s = (r, s') →
  s' = s ∧ (is_ok r = true →
            succeeds recovering p (mc_maintenance c) (same (mc_action c) Release)).
Proof.
  unfold check_epoch. intros Hr. walk Hr; try (split; [done|by intros]).
  destruct (throw_if _ _ _) as [[]] eqn:E in Hr;
    [apply run_throw_if_Ok in E as [Ec ->]|apply run_throw_if_Err in E as (Ec & -> & ->)];
    injection Hr as <- <-; (split; [done|]); [intros _|done].
  unfold succeeds. split_and!.
  - lia.
  - intros Eg. rewrite (proj2 (Z.eqb_eq _ _) Eg) in *. simpl in *. guards. split_and!; try done.
    intros Hs%same_true. rewrite Hs in Ec. simpl in Ec. guards.
    by apply same_true.
  - intros Hs%same_false. rewrite Hs in *. simpl in *. destruct recovering; [by right|left].
    match goal with Hx : _ && negb false = false |- _ => rewrite andb_true_r in Hx end. by guards.
Qed.

(** ** [apply] *)

(** What one command can do to the document. *)
Lemma apply_run w locked now c allow pre s r s' :
  apply_command node w locked now c allow pre s = (r, s') →
  s' = s
  ∨ ∃ m, s' = set_doc (Fence m) s ∧ nm_doc s ≠ BadFence
      ∧ (∀ p, nm_doc s = Fence p → succeeds (present pre) p m (same (mc_action c) Release))
      ∧ mt_job_id m = mt_job_id (mc_maintenance c)
      ∧ mt_generation m = mt_generation (mc_maintenance c)
      ∧ (mt_state m = Released ↔ mc_action c = Release)
      ∧ (mc_action c = Release →
           (∃ p, nm_doc s = Fence p ∧ mt_state p ≠ Released ∧ mt_job_id p = mt_job_id m
                 ∧ mt_generation p = mt_generation m)
           ∧ (nm_admitting s = 0 ∨ allow = true))
      ∧ (allow = true → mc_source_unchanged c = true).
Proof.
  unfold apply_command. intros Hr.
  apply run_bind_cases in Hr as [(? & Hm & ->)|([] & s1 & Hm & Hr)];
    [apply run_throw_if_Err in Hm as (_ & _ & ->); by left|apply run_throw_if_Ok in Hm as [Hal ->]].
  assert (Hunch : allow = true → mc_source_unchanged c = true).
  { intros ->. simpl in Hal. by guards. }
  apply run_bind_cases in Hr as [(? & Hm & ->)|([] & s1 & Hm & Hr)];
    [apply run_throw_if_Err in Hm as (_ & _ & ->); by left|apply run_throw_if_Ok in Hm as [_ ->]].
  destruct locked; [|left; by injection Hr..].
  apply run_bind_cases in Hr as [(? & Hm & ->)|(previous & s1 & Hm & Hr)];
    apply current_run in Hm as [-> Hd]; [by left|].
  apply run_bind_cases in Hr as [(? & Hm & ->)|(s0 & s1 & Hm & Hr)]; [done|injection Hm as <- <-].
  apply run_bind_cases in Hr as [(? & Hm & ->)|([] & s1 & Hm & Hr)];
    [apply run_throw_if_Err in Hm as (_ & _ & ->); by left|apply run_throw_if_Ok in Hm as [_ ->]].
  assert (Hprev : nm_doc s ≠ BadFence ∧ ∀ p, nm_doc s = Fence p ↔ previous = Some p).
  { destruct (nm_doc s); simplify_eq; split; try done; naive_solver. }
  destruct Hprev as [Hnb Hprev].
  apply run_bind_cases in Hr as [(? & Hm & ->)|([] & s1 & Hm & Hr)].
  { left. destruct previous as [p|]; [|done]. by apply check_epoch_run in Hm as [-> _]. }
  assert (s1 = s ∧ ∀ p, nm_doc s = Fence p →
            succeeds (present pre) p (mc_maintenance c) (same (mc_action c) Release)) as [-> Hep].
  { destruct previous as [p|].
    - apply check_epoch_run in Hm as [-> Hsu]. split; [done|].
      intros p' [= <-]%Hprev. by apply Hsu.
    - injection Hm as <-. split; [done|]. intros p' Hp'%Hprev. done. }
  clear Hm. destruct (same (mc_action c) Release) eqn:Ea.
  - apply same_true in Ea. destruct previous as [p|]; [|left; by injection Hr].
    assert (Hp : nm_doc s = Fence p) by (by apply Hprev).
    apply run_bind_cases in Hr as [(? & Hm & ->)|([] & s1 & Hm & Hr)];
      [apply run_throw_if_Err in Hm as (_ & _ & ->); by left|apply run_throw_if_Ok in Hm as [? ->]].
    guards. case_match eqn:Es; [left; by injection Hr|]. guards.
    apply run_bind_cases in Hr as [(? & Hm & ->)|([] & s1 & Hm & Hr)];
      [apply run_throw_if_Err in Hm as (_ & _ & ->); by left|apply run_throw_if_Ok in Hm as [Hadm ->]].
    apply persist_then_run in Hr as [->| ->]; [by left|right].
    eexists. split; [done|]. split_and!; try done.
    intros _. split; [by exists p|].
    destruct allow; [by right|left]. rewrite andb_true_r in Hadm. by guards.
  - apply same_false in Ea.
    apply run_bind_cases in Hr as [(? & Hm & ->)|([] & s1 & Hm & Hr)];
      [apply run_throw_if_Err in Hm as (_ & _ & ->); by left|apply run_throw_if_Ok in Hm as [? ->]].
    guards. apply persist_then_run in Hr as [->| ->]; [by left|right].
    exists (mc_maintenance c). split_and!; try done.
Qed.

(** ** Steps of a node *)

(** Everything that runs under the node's lock; the label tells whether the step
    takes the permit of a transfer granted before the fence. *)
Inductive fence_step : bool → NodeMaintenance → NodeMaintenance → Prop :=
| step_admit s s' : admission_enter s = (Ok tt, s') → fence_step false s s'
| step_leave s s' : 0 < nm_admitting s → admission_exit s = (Ok tt, s') → fence_step false s s'
| step_apply w locked now c allow pre r s s' :
    release_proof c = true → apply_command node w locked now c allow pre s = (r, s') →
    fence_step false s s'
| step_transfer s s' : transfer_enter true s = (Ok tt, s') → fence_step true s s'
| step_register o r s s' : register o s = (r, s') → fence_step false s s'
| step_register_async o r s s' : register_async o s = (r, s') → fence_step false s s'.

Definition node_step (s s' : NodeMaintenance) : Prop := ∃ b, fence_step b s s'.

Definition epoch (s : NodeMaintenance) (m : UpgradeMaintenance) : Prop := nm_doc s = Fence m.

Lemma blocked_run s b s' :
  blocked s = (Ok b, s') →
  s' = s ∧ (b = false → ∀ m, epoch s m → mt_state m = Released).
Proof.
  unfold blocked. intros Hr. apply run_bind_Ok in Hr as (c & s1 & Hc & Hr).
  apply current_run in Hc as [-> Hd]. injection Hr as <- <-. split; [done|].
  unfold epoch. intros Hb m Hm. rewrite Hm in Hd. injection Hd as ->. simpl in Hb. guards. done.
Qed.

Lemma register_doc o s r s' :
  register o s = (r, s') → nm_doc s' = nm_doc s ∧ nm_admitting s' = nm_admitting s.
Proof.
  unfold register. intros Hr. walk Hr; [done|]. injection Hr as _ <-. done.
Qed.
Lemma register_async_doc o s r s' :
  register_async o s = (r, s') → nm_doc s' = nm_doc s ∧ nm_admitting s' = nm_admitting s.
Proof.
  unfold register_async. intros Hr. walk Hr; [done|]. injection Hr as _ <-. done.
Qed.

(** How one step changes the epoch. *)
Lemma step_epoch b s s' p :
  fence_step b s s' → epoch s p →
  ∃ m, epoch s' m ∧ (m = p ∨ ∃ recovering releasing, succeeds recovering p m releasing
    ∧ (mt_state m = Released → releasing = true)
    ∧ (releasing = true → mt_state m = Released ∧ mt_state p ≠ Released)).
Proof.
  intros Hst Hp. destruct Hst as [s s' Hr|s s' _ Hr|w locked now c allow pre r s s' _ Hr|s s' Hr|o r s s' Hr|o r s s' Hr].
  - unfold admission_enter in Hr. inv_run. apply blocked_run in H as [-> _]. exists p. auto.
  - injection Hr as <-. exists p. auto.
  - apply apply_run in Hr as [->|(m & -> & _ & Hsu & Hj & Hg & Hrel & Hprev & _)]; [exists p; auto|].
    exists m. split; [done|]. right. eexists _, _. split; [by apply Hsu|]. split.
    + intros ->%Hrel. done.
    + intros Ha. apply (proj1 (same_true _ _)) in Ha. split; [by apply Hrel|]. destruct (Hprev Ha) as ((q & Hq & Hqs & _) & _).
      unfold epoch in Hp. congruence.
  - injection Hr as <-. exists p. auto.
  - apply register_doc in Hr as [Hd _]. exists p. unfold epoch in *. rewrite Hd. auto.
  - apply register_async_doc in Hr as [Hd _]. exists p. unfold epoch in *. rewrite Hd. auto.
Qed.

(** Epochs only advance: along any sequence of admissions and commands, of
    any owners, successful or failed at any write, the generation never
    decreases; within one generation the owner, its targets and its drain
    deadline never change; and once a generation is released it is never active
    again. *)
Theorem epochs_advance s s' p :
  rtc node_step s s' → epoch s p →
  ∃ m, epoch s' m ∧ mt_generation p ≤ mt_generation m
    ∧ (mt_generation m = mt_generation p →
         mt_job_id m = mt_job_id p ∧ mt_targets m = mt_targets p
         ∧ mt_drain_deadline_at m = mt_drain_deadline_at p
         ∧ (mt_state p = Released → mt_state m = Released)).
Proof.
  intros Hs. revert p. induction Hs as [s|s s1 s' [b Hst] Hs IH]; intros p Hp.
  - exists p. split; [done|]. split; [lia|done].
  - destruct (step_epoch b s s1 p Hst Hp) as (q & Hq & Hpq). destruct (IH q Hq) as (m & Hm & Hle & Heq).
    exists m. split; [done|]. destruct Hpq as [->|(rc & rl & (Hg & Hsame & _) & Hr1 & Hr2)]; [done|].
    split; [lia|]. intros Hgm. assert (Hgq : mt_generation q = mt_generation p) by lia.
    destruct (Hsame Hgq) as (Hj & Ht & Hd & Hpr). destruct (Heq ltac:(lia)) as (Hj' & Ht' & Hd' & Hqr).
    split_and!; try congruence. intros Hp0. by destruct (Hr2 (Hpr Hp0)).
Qed.

(** C21. Only a verified, drained release opens the fence: when a step turns an
    active epoch into a released one, it was a release command for that very
    operation and generation that carried terminal verification, and either no
    request held a permit or the command closed an unchanged source. *)
Theorem release_requires_drain w locked now c allow pre r s s' p m :
  release_proof c = true → apply_command node w locked now c allow pre s = (r, s') →
  epoch s p → mt_state p ≠ Released → epoch s' m → mt_state m = Released →
  mc_action c = Release ∧ mc_terminal_verified c = true
  ∧ mt_job_id m = mt_job_id p ∧ mt_generation m = mt_generation p
  ∧ (nm_admitting s = 0 ∨ (allow = true ∧ mc_source_unchanged c = true)).
Proof.
  intros Hpr Hr Hp Hps Hm Hms. unfold epoch in *.
  apply apply_run in Hr as [->|(m' & -> & _ & _ & _ & _ & Hrel & Hprev & Hun)]; [congruence|].
  simpl in Hm. injection Hm as ->. assert (Ha : mc_action c = Release) by (by apply Hrel).
  destruct (Hprev Ha) as ((q & Hq & _ & Hj & Hg) & Hadm). assert (q = p) as -> by congruence.
  split_and!; try done.
  - unfold release_proof in Hpr. rewrite Ha, same_refl in Hpr. guards. simpl in *. guards. by guards.
  - destruct Hadm as [?| ->]; auto.
Qed.

(** ** The drain *)

(** A run in which the fence survives: no step is a successful release, and [k]
    of the steps continue a transfer that was granted before the fence. *)
Inductive fenced_run : Z → NodeMaintenance → NodeMaintenance → Prop :=
| fenced_done s : fenced_run 0 s s
| fenced_next b k s s1 s' :
    fence_step b s s1 → (∀ m, epoch s1 m → mt_state m ≠ Released) →
    fenced_run k s1 s' → fenced_run (if b then k + 1 else k) s s'.

Definition Fenced (s : NodeMaintenance) : Prop := ∃ m, epoch s m ∧ mt_state m ≠ Released.

(** Under the fence only a continued transfer takes a permit. *)
Lemma fenced_permits b s s' :
  Fenced s → fence_step b s s' → nm_admitting s' ≤ nm_admitting s + (if b then 1 else 0).
Proof.
  intros (p & Hp & Hps) Hst.
  destruct Hst as [s s' Hr|s s' Hpos Hr|w locked now c allow pre r s s' _ Hr|s s' Hr|o r s s' Hr|o r s s' Hr].
  - unfold admission_enter in Hr. inv_run. apply blocked_run in H as [-> Hb].
    destruct Hps. by apply Hb.
  - injection Hr as <-. simpl. lia.
  - apply apply_run in Hr as [->|(m' & -> & _)]; simpl; lia.
  - injection Hr as <-. simpl. lia.
  - apply register_doc in Hr as [_ ->]. lia.
  - apply register_async_doc in Hr as [_ ->]. lia.
Qed.

Lemma fenced_run_permits k s s' :
  fenced_run k s s' → Fenced s → 0 ≤ k ∧ nm_admitting s' ≤ nm_admitting s + k ∧ Fenced s'.
Proof.
  induction 1 as [s|b k s s1 s' Hst Hns Hrun IH]; intros HF; [split_and!; [lia..|done]|].
  assert (Fenced s1) as HF1.
  { destruct HF as (p & Hp & _). destruct (step_epoch b s s1 p Hst Hp) as (m & Hm & _).
    exists m. split; [done|by apply Hns]. }
  destruct (IH HF1) as (Hk & Hle & HF'). assert (Hp := fenced_permits b s s1 HF Hst).
  split_and!; [destruct b; lia..|done].
Qed.

Lemma collect_owner_name collect s o : oi_owner (collect_owner collect s o) = o.
Proof.
  unfold collect_owner. repeat case_match; try done. by apply String.eqb_eq.
Qed.

Lemma inventory_ok_run collect after now job gen rt s inv s' :
  inventory node collect after now job gen rt s = (Ok inv, s') →
  s' = s ∧ (∃ m, epoch s m ∧ mt_job_id m = job ∧ mt_generation m = gen ∧ mt_state m ≠ Released)
  ∧ nv_owners inv = requests_inventory (nm_admitting s)
      :: (collect_owner collect s <$> filter (λ o, o ≠ "requests") REQUIRED_OWNERS).
Proof.
  unfold inventory. intros Hr.
  apply run_bind_Ok in Hr as (c & s1 & Hc & Hr). apply current_run in Hc as [-> Hd].
  apply run_bind_Ok in Hr as ([] & s1 & Ho & Hr). apply run_throw_if_Ok in Ho as [Ho ->].
  apply run_bind_Ok in Hr as (s0 & s1 & Hg & Hr). injection Hg as <- <-.
  apply run_bind_Ok in Hr as (u & s1 & Ha & Hr).
  assert (s1 = s) as -> by (destruct after; inv_run; done).
  apply run_ret_Ok in Hr as [-> ->]. split; [done|]. split; [|done].
  destruct c as [m|]; [|done]. unfold owns in Ho. guards. exists m. split_and!; try done.
  unfold epoch. by destruct (nm_doc s); simplify_eq.
Qed.

(** A required owner reported by a registered collector as having only standing work. *)
Definition reported_idle (collect : string → option UpgradeOwnerInventory) (s : NodeMaintenance)
    (o : string) : Prop :=
  o ∈ nm_owners s ∧ (o ∉ nm_async_owners s)
  ∧ ∃ r, collect o = Some r ∧ oi_owner r = o ∧ oi_status r = OComplete
         ∧ ∀ e, e ∈ oi_entries r → ie_state e = EStanding.

Lemma collect_owner_idle collect s o :
  oi_status (collect_owner collect s o) = OComplete →
  forallb (λ e, same (ie_state e) EStanding) (oi_entries (collect_owner collect s o)) = true →
  reported_idle collect s o.
Proof.
  unfold collect_owner. intros Hst Hall.
  destruct (is_in o (nm_async_owners s)) eqn:E1; [done|].
  destruct (is_in o (nm_owners s)) eqn:E2; simpl in *; [|done].
  destruct (collect o) as [r|] eqn:E3; [|done].
  destruct (String.eqb (oi_owner r) o) eqn:E4; [|done].
  split; [by apply is_in_true|]. split; [intros Hin; apply is_in_true in Hin; congruence|].
  exists r. apply String.eqb_eq in E4. split_and!; try done.
  intros e He. rewrite forallb_forall in Hall.
  apply list_elem_of_In in He. apply Hall in He. by guards.
Qed.

(** An idle inventory is a drain: if the strict inventory of the current
    owner reports idle, no request holds a permit, every other required owner has
    a registered collector that answered with only standing work, and from then
    on, until the fence is released, the permits in use are at most the transfers
    that were continued under a grant issued before the fence: no new request is
    admitted, whatever else the node is asked. *)
Theorem idle_inventory_drains collect after now job gen rt s inv s' k s'' :
  inventory node collect after now job gen rt s = (Ok inv, s') →
  idle inv REQUIRED_OWNERS = true → fenced_run k s' s'' →
  nm_admitting s = 0 ∧ nm_admitting s'' ≤ k
  ∧ (∀ o, o ∈ REQUIRED_OWNERS → o ≠ "requests" → reported_idle collect s o).
Proof.
  intros Hr Hidle Hs. apply inventory_ok_run in Hr as (-> & (m & Hm & _ & _ & Hms) & Hown).
  unfold idle in Hidle. guards. rewrite Hown in *.
  match goal with Hf : forallb _ (_ :: _) = true |- _ => cbn [forallb] in Hf end. guards.
  assert (Hz : nm_admitting s = 0).
  { unfold requests_inventory in *. destruct (nm_admitting s =? 0) eqn:Ez; [by apply Z.eqb_eq|].
    simpl in *. done. }
  split; [done|]. split.
  - apply fenced_run_permits in Hs as (_ & Hle & _); [lia|]. by exists m.
  - intros o Ho Hne.
    match goal with Hf : forallb _ (collect_owner _ _ <$> _) = true |- _ =>
      rewrite forallb_forall in Hf;
      assert (Hi := Hf (collect_owner collect s o)); cbv beta in Hi end.
    rewrite andb_true_iff in Hi. destruct Hi as [Hi1 Hi2].
    + apply list_elem_of_In, list_elem_of_fmap. exists o. split; [done|].
      by apply list_elem_of_filter.
    + apply collect_owner_idle; [by apply same_true|done].
Qed.
End facts.

(** ** One maintenance of a Studio *)

Definition studio : string := "coire-edge-a".
Definition studio_epoch (st : MaintenanceState) : UpgradeMaintenance :=
  mkMaintenance "job" 1 [studio] st 0 1000 None ∅.
Definition studio_collectors : list string := filter (λ o, o ≠ "requests") REQUIRED_OWNERS.
Definition quiet (o : string) : option UpgradeOwnerInventory :=
  Some (mkOwnerInventory o OComplete [mkInventoryEntry o "hold" "w" EStanding] None).
Definition fence_command : NodeMaintenanceCommand := mkCommand (studio_epoch Active) Apply false false None.
Definition release_command : NodeMaintenanceCommand := mkCommand (studio_epoch Active) Release true false None.

Definition open_node : NodeMaintenance := mkNodeMaintenance NoFence 0 studio_collectors [].
Definition fenced_node : NodeMaintenance :=
  (apply_command studio WriteOk LockHeld 5 fence_command false None open_node).2.
(** a transfer granted before the fence goes on under it *)
Definition transferring_node : NodeMaintenance := (transfer_enter true fenced_node).2.
Definition released_node : NodeMaintenance :=
  (apply_command studio WriteOk LockHeld 9 release_command false None fenced_node).2.

Lemma epochs_advance_witness :
  ∃ m, epoch released_node m ∧ mt_generation (studio_epoch Active) ≤ mt_generation m
    ∧ (mt_generation m = mt_generation (studio_epoch Active) →
         mt_job_id m = mt_job_id (studio_epoch Active) ∧ mt_targets m = mt_targets (studio_epoch Active)
         ∧ mt_drain_deadline_at m = mt_drain_deadline_at (studio_epoch Active)
         ∧ (mt_state (studio_epoch Active) = Released → mt_state m = Released)).
Proof.
  apply (epochs_advance studio fenced_node released_node (studio_epoch Active)).
  - apply rtc_once. exists false. eapply (step_apply studio WriteOk LockHeld 9 release_command false None);
      [reflexivity|]. vm_compute. reflexivity.
  - reflexivity.
Defined.

Lemma release_requires_drain_witness :
  mc_action release_command = Release ∧ mc_terminal_verified release_command = true
  ∧ mt_job_id (with_state (studio_epoch Active) Released 9) = mt_job_id (studio_epoch Active)
  ∧ mt_generation (with_state (studio_epoch Active) Released 9) = mt_generation (studio_epoch Active)
  ∧ (nm_admitting fenced_node = 0 ∨ (false = true ∧ mc_source_unchanged release_command = true)).
Proof.
  apply (release_requires_drain studio WriteOk LockHeld 9 release_command false None
           (Ok (mkNodeAck "job" 1 studio 9 true)) fenced_node released_node (studio_epoch Active)).
  - reflexivity.
  - vm_compute. reflexivity.
  - reflexivity.
  - discriminate.
  - reflexivity.
  - reflexivity.
Defined.

Lemma idle_inventory_drains_witness :
  nm_admitting fenced_node = 0 ∧ nm_admitting transferring_node ≤ 1
  ∧ (∀ o, o ∈ REQUIRED_OWNERS → o ≠ "requests" → reported_idle quiet fenced_node o).
Proof.
  apply (idle_inventory_drains studio quiet (Fence (studio_epoch Active)) 7 "job" 1 "rt" fenced_node
           (mkNodeInventory "job" 1 studio "rt" 7
              (requests_inventory 0 :: (collect_owner quiet fenced_node <$> studio_collectors)))
           fenced_node 1 transferring_node).
  - vm_compute. reflexivity.
  - vm_compute. reflexivity.
  - apply (fenced_next studio true 0 fenced_node transferring_node transferring_node).
    + apply step_transfer. reflexivity.
    + intros m [= <-]. discriminate.
    + apply fenced_done.
Defined.
