(* ===== verification/TrainingJournal.v ===== *)
(** * The node's training journal

    [TrainingJournal] of coire_node/training/journal.py: one SQLite database with
    the attempts, the accepted commands and the worker's events of a Studio.  A
    table is the list of its rows (the commands, which are only read by key, a
    map); every public call is one transaction, rolled back when it raises.  Times
    are microseconds.  The canonical JSON digests and the event encoding are the
    interface [TrainingCodec]. *)
From S2P Require Import Prelude Effects.
Open Scope Z_scope.

(** ** Commands *)

Record TrainingCommand := mkTrainingCommand {
  tc_command_id : string;
  tc_job_id : string;
  tc_attempt_id : string;
  tc_fence : Z;
  tc_request_sha256 : string;
  tc_node : string;
  tc_rank : Z;
  tc_world_size : Z;
  tc_lease_expires_at : Z;
}.
#[global] Instance TrainingCommand_eq : EqDecision TrainingCommand.
Proof. solve_decision. Defined.

(** [TrainingCommand.valid_rank] and the field bounds *)
Definition valid_rank (c : TrainingCommand) : bool :=
  (1 <=? tc_fence c) && (0 <=? tc_rank c) && (tc_rank c <=? 1) && is_in (tc_world_size c) [1; 2]
  && (tc_rank c <? tc_world_size c)
  && negb ((tc_world_size c =? 2)
           && negb (String.eqb (tc_node c)
                      (if tc_rank c =? 0 then "coire-edge-a" else "coire-edge-b"))).

Record TrainingResourceEnvelope := mkEnvelope {
  te_weight_bytes : Z;
  te_adapter_bytes : Z;
  te_optimizer_bytes : Z;
  te_activation_bytes : Z;
  te_buffer_bytes : Z;
  te_safety_bytes : Z;
  te_checkpoint_bytes : Z;
}.
#[global] Instance TrainingResourceEnvelope_eq : EqDecision TrainingResourceEnvelope.
Proof. solve_decision. Defined.

(** [TrainingResourceEnvelope.memory_bytes] *)
Definition envelope_memory (e : TrainingResourceEnvelope) : Z :=
  te_weight_bytes e + te_adapter_bytes e + te_optimizer_bytes e + te_activation_bytes e
  + te_buffer_bytes e + te_safety_bytes e.

(** The frozen specification of a run: of its document only what the node reads. *)
Record ResolvedTrainingSpec := mkResolved {
  rs_schema_version : Z;
  rs_objective : string;
  rs_envelope : TrainingResourceEnvelope;
  rs_keep_last_checkpoints : Z;
  rs_runtime_sha256 : string;
  rs_data_parallel : bool;
}.
#[global] Instance ResolvedTrainingSpec_eq : EqDecision ResolvedTrainingSpec.
Proof. solve_decision. Defined.
(** [isinstance(resolved, ResolvedTrainingSpecV3)] *)
Definition is_v3 (r : ResolvedTrainingSpec) : bool := rs_schema_version r =? 3.

Record TrainingPrepareRequest := mkPrepare {
  tp_command : TrainingCommand;
  tp_resolved : ResolvedTrainingSpec;
  tp_reservation_id : string;
  tp_disk_reservation_id : string;
  tp_resume_manifest_sha256 : option string;
  tp_resume_checkpoint_id : option string;
  (** the runtime of the collective binding *)
  tp_collective : option string;
}.
#[global] Instance TrainingPrepareRequest_eq : EqDecision TrainingPrepareRequest.
Proof. solve_decision. Defined.

(** [TrainingPrepareRequest.compatible_resume] *)
Definition compatible_resume (p : TrainingPrepareRequest) : bool :=
  Bool.eqb (present (tp_resume_checkpoint_id p)) (present (tp_resume_manifest_sha256 p))
  && (tc_world_size (tp_command p) =? if rs_data_parallel (tp_resolved p) then 2 else 1)
  && match tp_collective p with
     | Some runtime => (tc_world_size (tp_command p) =? 2)
                       && String.eqb runtime (rs_runtime_sha256 (tp_resolved p))
     | None => true
     end.
Definition prepare_valid (p : TrainingPrepareRequest) : bool :=
  valid_rank (tp_command p) && compatible_resume p.

(** The commands the supervisor puts through the journal. *)
Inductive Command :=
| Prepare (p : TrainingPrepareRequest)
| Start (c : TrainingCommand) (prepared_command_id spawn_nonce : string)
| Renew (c : TrainingCommand)
| Pause (c : TrainingCommand) (reason : string)
| Stop (c : TrainingCommand) (reason : string)
| AcknowledgeCheckpoint (c : TrainingCommand) (schema_version update : Z)
    (checkpoint_id manifest_sha256 : string).

#[global] Instance Command_eq : EqDecision Command.
Proof. solve_decision. Defined.

Definition base (c : Command) : TrainingCommand :=
  match c with
  | Prepare p => tp_command p
  | Start c _ _ | Renew c | Pause c _ | Stop c _ | AcknowledgeCheckpoint c _ _ _ _ => c
  end.
Definition command_valid (c : Command) : bool :=
  match c with Prepare p => prepare_valid p | c => valid_rank (base c) end.

(** ** Worker events *)

Record ArtifactScope := mkScope {
  as_artifact_id : string;
  as_job_id : option string;
  as_attempt_id : option string;
  as_fence : option Z;
  as_update : option Z;
}.

Inductive ControlKind := PauseRequested | Failure | WorkerStopped.
#[global] Instance ControlKind_eq : EqDecision ControlKind.
Proof. solve_decision. Defined.

Inductive NodeTrainingPayload :=
| Progress (job_id attempt_id : string) (update : Z)
| PreferenceProgress (job_id attempt_id : string) (update fence : Z) (objective : string)
| CheckpointStaged (manifest : ArtifactScope)
| CheckpointRankStaged (component : ArtifactScope) (rank world_size : Z)
    (runtime_sha256 resolved_spec_sha256 : string)
| Control (kind : ControlKind) (reason : string).

Record NodeTrainingEvent := mkEvent {
  ne_sequence : Z;
  ne_job_id : string;
  ne_attempt_id : string;
  ne_fence : Z;
  ne_update : Z;
  ne_recorded_at : Z;
  ne_payload : NodeTrainingPayload;
}.
Definition event_valid (e : NodeTrainingEvent) : bool :=
  (1 <=? ne_sequence e) && (1 <=? ne_fence e) && (0 <=? ne_update e) && (ne_update e <=? 100_000).

(** ** The database *)

Inductive Liveness := LPrepared | LUnknown | LRunning | LStopping | LStopped.
#[global] Instance Liveness_eq : EqDecision Liveness.
Proof. solve_decision. Defined.

(** [record["cleanup"]]: the digest of the request, and whether its receipt is written *)
Record Cleanup := mkCleanup { cl_digest : string; cl_receipt : bool }.

(** [attempts.body] *)
Record TrainingAttempt := mkAttempt {
  ta_attempt_id : string;
  ta_prepare : TrainingPrepareRequest;
  ta_memory_bytes : Z;
  ta_disk_bytes : Z;
  ta_input_bytes : Z;
  ta_input_holds : gmap string Z;
  ta_released : bool;
  ta_liveness : Liveness;
  ta_spawn_nonce : option string;
  ta_pid : option Z;
  ta_process_create_time : option Z;
  ta_lease_expires_at : Z;
  ta_pause_deadline : option Z;
  ta_reason : option string;
  ta_update : Z;
  ta_latest_staged_artifact_id : option string;
  ta_latest_checkpoint_id : option string;
  ta_latest_manifest_sha256 : option string;
  ta_cleanup : option Cleanup;
}.

Definition set_released v (a : TrainingAttempt) : TrainingAttempt :=
  mkAttempt (ta_attempt_id a) (ta_prepare a) (ta_memory_bytes a) (ta_disk_bytes a)
    (ta_input_bytes a) (ta_input_holds a) v (ta_liveness a) (ta_spawn_nonce a) (ta_pid a)
    (ta_process_create_time a) (ta_lease_expires_at a) (ta_pause_deadline a) (ta_reason a)
    (ta_update a) (ta_latest_staged_artifact_id a) (ta_latest_checkpoint_id a)
    (ta_latest_manifest_sha256 a) (ta_cleanup a).
Definition set_liveness v (a : TrainingAttempt) : TrainingAttempt :=
  mkAttempt (ta_attempt_id a) (ta_prepare a) (ta_memory_bytes a) (ta_disk_bytes a)
    (ta_input_bytes a) (ta_input_holds a) (ta_released a) v (ta_spawn_nonce a) (ta_pid a)
    (ta_process_create_time a) (ta_lease_expires_at a) (ta_pause_deadline a) (ta_reason a)
    (ta_update a) (ta_latest_staged_artifact_id a) (ta_latest_checkpoint_id a)
    (ta_latest_manifest_sha256 a) (ta_cleanup a).
Definition set_reason v (a : TrainingAttempt) : TrainingAttempt :=
  mkAttempt (ta_attempt_id a) (ta_prepare a) (ta_memory_bytes a) (ta_disk_bytes a)
    (ta_input_bytes a) (ta_input_holds a) (ta_released a) (ta_liveness a) (ta_spawn_nonce a)
    (ta_pid a) (ta_process_create_time a) (ta_lease_expires_at a) (ta_pause_deadline a) v
    (ta_update a) (ta_latest_staged_artifact_id a) (ta_latest_checkpoint_id a)
    (ta_latest_manifest_sha256 a) (ta_cleanup a).
Definition set_lease v (a : TrainingAttempt) : TrainingAttempt :=
  mkAttempt (ta_attempt_id a) (ta_prepare a) (ta_memory_bytes a) (ta_disk_bytes a)
    (ta_input_bytes a) (ta_input_holds a) (ta_released a) (ta_liveness a) (ta_spawn_nonce a)
    (ta_pid a) (ta_process_create_time a) v (ta_pause_deadline a) (ta_reason a) (ta_update a)
    (ta_latest_staged_artifact_id a) (ta_latest_checkpoint_id a) (ta_latest_manifest_sha256 a)
    (ta_cleanup a).
Definition set_pause_deadline v (a : TrainingAttempt) : TrainingAttempt :=
  mkAttempt (ta_attempt_id a) (ta_prepare a) (ta_memory_bytes a) (ta_disk_bytes a)
    (ta_input_bytes a) (ta_input_holds a) (ta_released a) (ta_liveness a) (ta_spawn_nonce a)
    (ta_pid a) (ta_process_create_time a) (ta_lease_expires_at a) v (ta_reason a) (ta_update a)
    (ta_latest_staged_artifact_id a) (ta_latest_checkpoint_id a) (ta_latest_manifest_sha256 a)
    (ta_cleanup a).
Definition set_update v (a : TrainingAttempt) : TrainingAttempt :=
  mkAttempt (ta_attempt_id a) (ta_prepare a) (ta_memory_bytes a) (ta_disk_bytes a)
    (ta_input_bytes a) (ta_input_holds a) (ta_released a) (ta_liveness a) (ta_spawn_nonce a)
    (ta_pid a) (ta_process_create_time a) (ta_lease_expires_at a) (ta_pause_deadline a)
    (ta_reason a) v (ta_latest_staged_artifact_id a) (ta_latest_checkpoint_id a)
    (ta_latest_manifest_sha256 a) (ta_cleanup a).
Definition set_staged v (a : TrainingAttempt) : TrainingAttempt :=
  mkAttempt (ta_attempt_id a) (ta_prepare a) (ta_memory_bytes a) (ta_disk_bytes a)
    (ta_input_bytes a) (ta_input_holds a) (ta_released a) (ta_liveness a) (ta_spawn_nonce a)
    (ta_pid a) (ta_process_create_time a) (ta_lease_expires_at a) (ta_pause_deadline a)
    (ta_reason a) (ta_update a) v (ta_latest_checkpoint_id a) (ta_latest_manifest_sha256 a)
    (ta_cleanup a).
Definition set_spawn_nonce v (a : TrainingAttempt) : TrainingAttempt :=
  mkAttempt (ta_attempt_id a) (ta_prepare a) (ta_memory_bytes a) (ta_disk_bytes a)
    (ta_input_bytes a) (ta_input_holds a) (ta_released a) (ta_liveness a) v (ta_pid a)
    (ta_process_create_time a) (ta_lease_expires_at a) (ta_pause_deadline a) (ta_reason a)
    (ta_update a) (ta_latest_staged_artifact_id a) (ta_latest_checkpoint_id a)
    (ta_latest_manifest_sha256 a) (ta_cleanup a).
Definition set_process v_liveness v_pid v_process_create_time (a : TrainingAttempt) : TrainingAttempt :=
  mkAttempt (ta_attempt_id a) (ta_prepare a) (ta_memory_bytes a) (ta_disk_bytes a)
    (ta_input_bytes a) (ta_input_holds a) (ta_released a) v_liveness (ta_spawn_nonce a) v_pid
    v_process_create_time (ta_lease_expires_at a) (ta_pause_deadline a) (ta_reason a) (ta_update
    a) (ta_latest_staged_artifact_id a) (ta_latest_checkpoint_id a) (ta_latest_manifest_sha256
    a) (ta_cleanup a).
Definition set_input_hold v_disk_bytes v_input_bytes v_input_holds (a : TrainingAttempt) : TrainingAttempt :=
  mkAttempt (ta_attempt_id a) (ta_prepare a) (ta_memory_bytes a) v_disk_bytes v_input_bytes
    v_input_holds (ta_released a) (ta_liveness a) (ta_spawn_nonce a) (ta_pid a)
    (ta_process_create_time a) (ta_lease_expires_at a) (ta_pause_deadline a) (ta_reason a)
    (ta_update a) (ta_latest_staged_artifact_id a) (ta_latest_checkpoint_id a)
    (ta_latest_manifest_sha256 a) (ta_cleanup a).
Definition set_checkpoint v_latest_manifest_sha256 v_latest_checkpoint_id (a : TrainingAttempt) : TrainingAttempt :=
  mkAttempt (ta_attempt_id a) (ta_prepare a) (ta_memory_bytes a) (ta_disk_bytes a)
    (ta_input_bytes a) (ta_input_holds a) (ta_released a) (ta_liveness a) (ta_spawn_nonce a)
    (ta_pid a) (ta_process_create_time a) (ta_lease_expires_at a) (ta_pause_deadline a)
    (ta_reason a) (ta_update a) (ta_latest_staged_artifact_id a) v_latest_checkpoint_id
    v_latest_manifest_sha256 (ta_cleanup a).
Definition set_cleanup v (a : TrainingAttempt) : TrainingAttempt :=
  mkAttempt (ta_attempt_id a) (ta_prepare a) (ta_memory_bytes a) (ta_disk_bytes a)
    (ta_input_bytes a) (ta_input_holds a) (ta_released a) (ta_liveness a) (ta_spawn_nonce a)
    (ta_pid a) (ta_process_create_time a) (ta_lease_expires_at a) (ta_pause_deadline a)
    (ta_reason a) (ta_update a) (ta_latest_staged_artifact_id a) (ta_latest_checkpoint_id a)
    (ta_latest_manifest_sha256 a) v.

Record AttemptRow := mkAttemptRow {
  ar_id : string;
  ar_job : string;
  ar_fence : Z;
  ar_body : TrainingAttempt;
}.
Record CommandRow := mkCommandRow { cr_digest : string; cr_receipt : option string }.
Record EventRow := mkEventRow { er_attempt : string; er_sequence : Z; er_body : string }.

Record Database := mkDatabase {
  db_attempts : list AttemptRow;
  db_commands : gmap string CommandRow;
  db_events : list EventRow;
}.
Definition set_attempts v (d : Database) := mkDatabase v (db_commands d) (db_events d).
Definition set_commands v (d : Database) := mkDatabase (db_attempts d) v (db_events d).
Definition set_events v (d : Database) := mkDatabase (db_attempts d) (db_commands d) v.

(** The schema of a new file. *)
Definition empty_database : Database := mkDatabase [] ∅ [].

(** [TrainingConflict], [TrainingValidationError] and pydantic's error, SQLite's
    IntegrityError, and what else a call can raise. *)
Inductive TrainingError :=
| TConflict (why : string) | TInvalid (why : string) | TIntegrity | TFailed (why : string).

(** Canonical JSON and its SHA-256, and the event encoding. *)
Class TrainingCodec := {
  command_digest : Command → string;
  resolved_sha256 : ResolvedTrainingSpec → string;
  encode_event : NodeTrainingEvent → string;
  decode_event : string → option NodeTrainingEvent;
}.

(** [len(text.encode())] and SQLite's [LENGTH(text)], which counts characters:
    the bytes of the UTF-8 text that do not continue a character. *)
Definition byte_length (s : string) : Z := Z.of_nat (String.length s).
Fixpoint char_length (s : string) : Z :=
  match s with
  | EmptyString => 0
  | String c s' =>
      (if Z.land (Z.of_N (Ascii.N_of_ascii c)) 192 =? 128 then 0 else 1) + char_length s'
  end.

(** ** The operations *)

Section journal.
Context `{TrainingCodec} (node : string).
Abbreviation Call := (M Database TrainingError).

Definition records (d : Database) : list TrainingAttempt := ar_body <$> db_attempts d.
Definition active_records (d : Database) : list TrainingAttempt :=
  filter (λ a, ta_released a ≠ true) (records d).

Definition find_row (attempt_id : string) (d : Database) : option AttemptRow :=
  List.find (λ r, String.eqb (ar_id r) attempt_id) (db_attempts d).

Definition get_attempt (attempt_id : string) : Call TrainingAttempt :=
  d ← get;
  match find_row attempt_id d with
  | Some r => mret (ar_body r)
  | None => throw (TConflict "not prepared")
  end.

(** [UPDATE attempts SET body=? WHERE id=?] *)
Definition save_row (v : TrainingAttempt) (r : AttemptRow) : AttemptRow :=
  if String.eqb (ar_id r) (ta_attempt_id v) then mkAttemptRow (ar_id r) (ar_job r) (ar_fence r) v
  else r.
Definition save (v : TrainingAttempt) : Call unit :=
  modify (λ d, set_attempts (save_row v <$> db_attempts d) d).

(** [SELECT MAX(fence) FROM attempts WHERE job=?] *)
Definition latest_fence (job : string) (d : Database) : option Z :=
  foldr (λ r m, if String.eqb (ar_job r) job
                then Some (match m with Some x => Z.max (ar_fence r) x | None => ar_fence r end)
                else m) None (db_attempts d).

Definition accept (now : Z) (c : Command) (require_lease : bool) : Call (option string) :=
  let b := base c in
  throw_if (negb (command_valid c)) (TInvalid "model");;
  throw_if (negb (String.eqb (tc_node b) node)) (TConflict "another Studio");;
  d ← get;
  throw_if (match latest_fence (tc_job_id b) d with
            | Some latest => tc_fence b <? latest
            | None => false
            end) (TConflict "fenced");;
  let left_ := tc_lease_expires_at b - now in
  throw_if (require_lease && negb ((0 <? left_) && (left_ <=? 30_000_000))) (TConflict "lease");;
  match db_commands d !! tc_command_id b with
  | Some row =>
      throw_if (negb (String.eqb (cr_digest row) (command_digest c))) (TConflict "changed");;
      mret (Some (default "" (cr_receipt row)))
  | None =>
      modify (λ d, set_commands (<[tc_command_id b := mkCommandRow (command_digest c) None]>
                                   (db_commands d)) d);;
      mret None
  end.

(** [UPDATE commands SET receipt=? WHERE id=?] *)
Definition receipt (c : Command) (encoded : string) : Call unit :=
  modify (λ d, set_commands (alter (λ row, mkCommandRow (cr_digest row) (Some encoded))
                                   (tc_command_id (base c)) (db_commands d)) d).

Definition held_memory (d : Database) : Z :=
  sum_Z (ta_memory_bytes <$> filter (λ a, ta_released a = false) (records d)).
Definition held_disk (d : Database) : Z := sum_Z (ta_disk_bytes <$> records d).
Definition held_bytes (d : Database) : Z * Z := (held_memory d, held_disk d).

Definition MAX_INPUT_BYTES : Z := 640 * 1024 ^ 2.

Definition hold_input_bytes (attempt_id : string) (size disk_available : Z)
    (source_id : option string) : Call unit :=
  throw_if (negb ((0 <? size) && (size <=? MAX_INPUT_BYTES))) (TInvalid "input bytes");;
  transaction (
    v ← get_attempt attempt_id;
    throw_if (ta_released v || present (ta_spawn_nonce v) || negb (same (ta_liveness v) LPrepared))
             (TConflict "inputs cannot change");;
    let prior := match source_id with
                 | Some source => default 0 (ta_input_holds v !! source)
                 | None => ta_input_bytes v
                 end in
    throw_if (negb (prior =? 0) && (prior <? size)) (TConflict "hold is immutable");;
    if prior =? 0 then
      d ← get;
      throw_if (disk_available <? (held_bytes d).2 + size) (TInvalid "aggregate");;
      save (match source_id with
            | Some source => set_input_hold (ta_disk_bytes v + size) (ta_input_bytes v)
                               (<[source := size]> (ta_input_holds v)) v
            | None => set_input_hold (ta_disk_bytes v + size) size (ta_input_holds v) v
            end)
    else mret tt).

(** [TrainingPrepareRequest.model_validate(value["prepare"])] *)
Definition prepared_of (v : TrainingAttempt) : Call TrainingPrepareRequest :=
  throw_if (negb (prepare_valid (ta_prepare v))) (TInvalid "model");; mret (ta_prepare v).

(** ** Events *)

Definition MAX_EVENT_BYTES : Z := 64 * 1024 ^ 2.
Definition MAX_SPOOL_BYTES : Z := 512 * 1024 ^ 2.
Definition MAX_EVENTS : Z := 300_005.

Definition events_of (attempt_id : string) (d : Database) : list EventRow :=
  filter (λ r, er_attempt r = attempt_id) (db_events d).
(** [COALESCE(MAX(sequence), 0)] *)
Definition last_sequence (rows : list EventRow) : Z := foldr Z.max 0 (er_sequence <$> rows).

(** The worker may write: its attempt is spawned, unreleased, of the current fence,
    and its lease runs. *)
Definition has_authority (now : Z) (e : NodeTrainingEvent) (p : TrainingPrepareRequest)
    (v : TrainingAttempt) (d : Database) : bool :=
  String.eqb (ne_job_id e) (tc_job_id (tp_command p))
  && (ne_fence e =? tc_fence (tp_command p))
  && same (latest_fence (ne_job_id e) d) (Some (ne_fence e))
  && negb (ta_released v) && present (ta_spawn_nonce v)
  && negb (is_in (ta_liveness v) [LPrepared; LStopped]) && (now <? ta_lease_expires_at v).

(** The payload is about the event's own attempt. *)
Definition check_payload (e : NodeTrainingEvent) (p : TrainingPrepareRequest) : Call unit :=
  let scope_agrees m :=
    same (as_job_id m) (Some (ne_job_id e)) && same (as_attempt_id m) (Some (ne_attempt_id e))
    && same (as_fence m) (Some (ne_fence e)) && same (as_update m) (Some (ne_update e)) in
  let metric_agrees job attempt update :=
    String.eqb job (ne_job_id e) && String.eqb attempt (ne_attempt_id e)
    && (update =? ne_update e) in
  match ne_payload e with
  | Progress job attempt update =>
      throw_if (negb (metric_agrees job attempt update)) (TConflict "metric");;
      throw_if (is_v3 (tp_resolved p)) (TConflict "pair-counted metrics")
  | PreferenceProgress job attempt update fence objective =>
      throw_if (negb (metric_agrees job attempt update)) (TConflict "metric");;
      throw_if (negb (is_v3 (tp_resolved p)) || negb (fence =? ne_fence e)
                || negb (String.eqb objective (rs_objective (tp_resolved p))))
               (TConflict "preference metric")
  | CheckpointStaged m => throw_if (negb (scope_agrees m)) (TConflict "checkpoint")
  | CheckpointRankStaged m rank world runtime resolved =>
      throw_if (negb (scope_agrees m && (rank =? tc_rank (tp_command p))
                      && (world =? tc_world_size (tp_command p))
                      && String.eqb runtime (rs_runtime_sha256 (tp_resolved p))
                      && String.eqb resolved (resolved_sha256 (tp_resolved p))))
               (TConflict "rank component")
  | Control _ _ => mret tt
  end.

(** What an event changes in its attempt's record. *)
Definition note_event (e : NodeTrainingEvent) (v : TrainingAttempt) : TrainingAttempt :=
  let v := set_update (ne_update e) v in
  match ne_payload e with
  | CheckpointStaged m | CheckpointRankStaged m _ _ _ _ => set_staged (Some (as_artifact_id m)) v
  | Control Failure reason => set_reason (Some reason) v
  | _ => v
  end.

Definition append_event (now : Z) (e : NodeTrainingEvent) : Call unit :=
  throw_if (negb (event_valid e)) (TInvalid "model");;
  let encoded := encode_event e in
  throw_if (MAX_EVENT_BYTES <? byte_length encoded) (TInvalid "event bytes");;
  transaction (
    v ← get_attempt (ne_attempt_id e);
    p ← prepared_of v;
    d ← get;
    throw_if (negb (has_authority now e p v d)) (TConflict "no fenced authority");;
    check_payload e p;;
    let rows := events_of (ne_attempt_id e) d in
    match List.find (λ r, er_sequence r =? ne_sequence e) rows with
    | Some prior =>
        throw_if (negb (String.eqb (er_body prior) encoded)) (TConflict "sequence is immutable")
    | None =>
        throw_if (ne_update e <? ta_update v) (TConflict "rewind");;
        throw_if (negb (ne_sequence e =? last_sequence rows + 1)) (TConflict "contiguous");;
        throw_if ((MAX_EVENTS <=? Z.of_nat (length rows))
                  || (MAX_SPOOL_BYTES <? sum_Z (char_length ∘ er_body <$> rows)
                                          + byte_length encoded)) (TInvalid "spool is full");;
        modify (λ d, set_events (db_events d
                                  ++ [mkEventRow (ne_attempt_id e) (ne_sequence e) encoded]) d);;
        save (note_event e v)
    end).

Record NodeTrainingEventPage := mkPage {
  pg_items : list NodeTrainingEvent;
  pg_next_sequence : Z;
}.

(** Decode the rows of a page; an undecodable row raises. *)
Fixpoint decode_rows (rows : list EventRow) : Call (list NodeTrainingEvent) :=
  match rows with
  | [] => mret []
  | r :: rows =>
      e ← some_or (TInvalid "event") (decode_event (er_body r));
      es ← decode_rows rows;
      mret (e :: es)
  end.

Definition events (attempt_id : string) (after : Z) : Call NodeTrainingEventPage :=
  throw_if (after <? 0) (TInvalid "cursor");;
  get_attempt attempt_id;;
  d ← get;
  items ← decode_rows (take 100 (sorted_on er_sequence
                         (filter (λ r, after < er_sequence r) (events_of attempt_id d))));
  mret (mkPage items (match last items with Some e => ne_sequence e | None => after end)).

Definition next_sequence (attempt_id : string) : Call Z :=
  get_attempt attempt_id;;
  d ← get;
  mret (last_sequence (events_of attempt_id d) + 1).

(** ** Preparation and release *)

(** The scope fields [scoped] compares. *)
Definition same_scope (c p : TrainingCommand) : bool :=
  String.eqb (tc_job_id c) (tc_job_id p) && String.eqb (tc_attempt_id c) (tc_attempt_id p)
  && (tc_fence c =? tc_fence p) && String.eqb (tc_node c) (tc_node p)
  && (tc_rank c =? tc_rank p) && (tc_world_size c =? tc_world_size p)
  && String.eqb (tc_request_sha256 c) (tc_request_sha256 p).

Definition scoped (c : Command) : Call TrainingAttempt :=
  v ← get_attempt (tc_attempt_id (base c));
  p ← prepared_of v;
  throw_if (match c with
            | Prepare q => negb (String.eqb (command_digest (Prepare q)) (command_digest (Prepare p)))
            | _ => false
            end) (TConflict "preparation changed");;
  throw_if (negb (same_scope (base c) (tp_command p))) (TConflict "scope");;
  mret v.

Definition MAX_ENVELOPE_DISK : Z := 20 * 1024 ^ 3.

(** Whether a version 3 preparation repeats one whose lease was renewed since. *)
Definition lease_renewed (now : Z) (q : TrainingPrepareRequest) : Call bool :=
  d ← get;
  if is_v3 (tp_resolved q) && present (find_row (tc_attempt_id (tp_command q)) d) then
    v ← scoped (Prepare q);
    mret (negb (ta_released v) && same (ta_liveness v) LPrepared
          && (tc_lease_expires_at (tp_command q) <? ta_lease_expires_at v)
          && (now <? ta_lease_expires_at v))
  else mret false.

(** Full states kept, plus staging and mirror headroom. *)
Definition envelope_disk (r : ResolvedTrainingSpec) : Z :=
  te_checkpoint_bytes (rs_envelope r) * (rs_keep_last_checkpoints r + 2).

Definition new_attempt (q : TrainingPrepareRequest) : TrainingAttempt :=
  mkAttempt (tc_attempt_id (tp_command q)) q (envelope_memory (rs_envelope (tp_resolved q)))
    (envelope_disk (tp_resolved q)) 0 ∅ false LPrepared None None None
    (tc_lease_expires_at (tp_command q)) None None 0 None None None None.

(** [INSERT INTO attempts] *)
Definition insert_attempt (q : TrainingPrepareRequest) : Call unit :=
  let c := tp_command q in
  d ← get;
  throw_if (present (find_row (tc_attempt_id c) d)) TIntegrity;;
  modify (λ d, set_attempts (db_attempts d
    ++ [mkAttemptRow (tc_attempt_id c) (tc_job_id c) (tc_fence c) (new_attempt q)]) d).

Definition prepare (now : Z) (q : TrainingPrepareRequest)
    (memory_available disk_available disk_floor : Z) : Call TrainingAttempt :=
  transaction (
    renewed ← lease_renewed now q;
    replay ← accept now (Prepare q) (negb renewed);
    match replay with
    | Some _ => get_attempt (tc_attempt_id (tp_command q))
    | None =>
        d ← get;
        throw_if (existsb (λ a, negb (ta_released a)) (records d)) (TConflict "slot is held");;
        throw_if (existsb (λ a, String.eqb (ta_attempt_id a) (tc_attempt_id (tp_command q)))
                    (records d)) (TConflict "preparation is immutable");;
        let memory := envelope_memory (rs_envelope (tp_resolved q)) in
        let disk := envelope_disk (tp_resolved q) in
        throw_if ((MAX_ENVELOPE_DISK <? disk) || (memory_available <? memory)
                  || (disk_available <? disk + (held_bytes d).2 + disk_floor))
                 (TInvalid "headroom");;
        insert_attempt q;;
        receipt (Prepare q) "prepared";;
        mret (new_attempt q)
    end).

Definition release_after_death (attempt_id : string) : Call bool :=
  transaction (
    v ← get_attempt attempt_id;
    throw_if (negb (same (ta_liveness v) LStopped)) (TConflict "live process");;
    save (set_released true v);;
    mret (negb (ta_released v))).
End journal.
