(* ===== verification/TrainingSupervisor.v ===== *)
(** * The node's training supervisor

    The commands of [TrainingSupervisor] (coire_node/training/supervisor.py), the
    durable rejections of [PrepareRejections] (rejections.py) and the erasure of
    retired attempts (retention.py), over the journal.  A command that awaits in
    the middle is split where other calls can run: [start] into the intent it
    commits and the process it spawns, [stop] into its intent, its observation and
    its result.  What the operating system answers (process table, birth file,
    left-over paths) and whether a file could be written are arguments. *)
From S2P Require Import Prelude Effects TrainingJournal.
Open Scope Z_scope.

Record Node := mkNode {
  tn_db : Database;
  (** rejected-attempt-*.json: the refused preparation or the stop of one never prepared *)
  tn_rejected : gmap string Command;
}.
Definition set_db v (s : Node) := mkNode v (tn_rejected s).
Definition set_rejected v (s : Node) := mkNode (tn_db s) v.

Record TrainingStartReceipt := mkStartReceipt {
  sr_attempt_id : string;
  sr_fence : Z;
  sr_pid : Z;
  sr_process_create_time : Z;
  sr_reservation_id : string;
}.
Record TrainingStopReceipt := mkStopReceipt {
  sp_attempt_id : string;
  sp_fence : Z;
  sp_node : string;
  sp_pid : option Z;
  sp_process_create_time : option Z;
  sp_stopped : bool;
  sp_observed_at : Z;
}.
Record NodeTrainingStatus := mkStatus {
  ns_attempt_id : string;
  ns_job_id : string;
  ns_fence : Z;
  ns_node : string;
  ns_liveness : Liveness;
  ns_pid : option Z;
  ns_process_create_time : option Z;
  ns_update : Z;
  ns_lease_expires_at : Z;
  ns_reason : option string;
}.

Class ReceiptCodec := {
  encode_start : TrainingStartReceipt → string;
  decode_start : string → option TrainingStartReceipt;
  encode_stop : TrainingStopReceipt → string;
  decode_stop : string → option TrainingStopReceipt;
}.

(** [Processes] for one attempt's command line: what observing, finding and
    stopping its process group reports. *)
Record Processes := mkProcesses {
  pr_observe : Z → option Z → Liveness;
  pr_discover : Liveness * option Z * option Z;
  pr_stop : Z → option Z → Liveness;
}.

(** birth.json, written by the worker itself *)
Inductive Birth := NoBirth | BadBirth | BirthOf (b : TrainingStartReceipt).

Section supervisor.
Context `{TrainingCodec, ReceiptCodec} (node : string).
Abbreviation Call := (M Node TrainingError).

(** A journal call made by the supervisor. *)
Definition on_db {A} (m : M Database TrainingError A) : Call A := λ s,
  let '(r, d) := m (tn_db s) in (r, set_db d s).

(** ** Rejections *)

(** [residue] tells whether a path or a process of the attempt exists. *)
Definition pristine (residue : string → bool) (attempt : string) (s : Node) : bool :=
  negb (existsb (λ a, String.eqb (ta_attempt_id a) attempt) (records (tn_db s)))
  && negb (residue attempt).

Definition read_rejection (residue : string → bool) (attempt : string) : Call (option Command) :=
  s ← get;
  match tn_rejected s !! attempt with
  | None => mret None
  | Some c =>
      throw_if (negb (String.eqb (tc_attempt_id (base c)) attempt)
                || negb (String.eqb (tc_node (base c)) node)
                || negb (pristine residue attempt s)) (TConflict "unresolved");;
      mret (Some c)
  end.

Definition write_rejection (c : Command) : Call unit :=
  modify (λ s, set_rejected (<[tc_attempt_id (base c) := c]> (tn_rejected s)) s).

Definition record_rejection (residue : string → bool) (q : TrainingPrepareRequest) : Call unit :=
  s ← get;
  if negb (String.eqb (tc_node (tp_command q)) node)
     || negb (pristine residue (tc_attempt_id (tp_command q)) s)
  then mret tt
  else
    prior ← read_rejection residue (tc_attempt_id (tp_command q));
    match prior with
    | Some c => throw_if (negb (same c (Prepare q))) (TConflict "intent changed")
    | None => write_rejection (Prepare q)
    end.

Definition record_stop (residue : string → bool) (c : TrainingCommand) (reason : string)
    : Call unit :=
  s ← get;
  throw_if (negb (String.eqb (tc_node c) node) || negb (pristine residue (tc_attempt_id c) s))
           (TConflict "unresolved");;
  write_rejection (Stop c reason).

(** ** Preparation *)

(** The admission of [prepare]: [memory] and [disk] are what the node's accounting
    reports, [launchable] whether the collective of a two-rank run can be launched. *)
Definition prepare_attempt (residue : string → bool) (now : Z) (admitted launchable : bool)
    (memory disk : option Z) (disk_floor : Z) (q : TrainingPrepareRequest) : Call unit :=
  throw_if (negb (prepare_valid q)) (TInvalid "model");;
  throw_if (negb admitted) (TFailed "maintenance");;
  rejected ← read_rejection residue (tc_attempt_id (tp_command q));
  match rejected with
  | Some _ => throw (TConflict "durably rejected")
  | None =>
      on_error (
        throw_if ((tc_world_size (tp_command q) =? 2) && negb launchable) (TInvalid "collective");;
        m ← some_or (TInvalid "sources unavailable") memory;
        k ← some_or (TInvalid "sources unavailable") disk;
        on_db (prepare node now q m k disk_floor);;
        mret tt)
        (λ e, match e with
              | TConflict _ | TInvalid _ => record_rejection residue q
              | _ => mret tt
              end)
  end.

(** ** Observation and release *)

Definition status_of (v : TrainingAttempt) : NodeTrainingStatus :=
  let c := tp_command (ta_prepare v) in
  mkStatus (ta_attempt_id v) (tc_job_id c) (tc_fence c) (tc_node c) (ta_liveness v) (ta_pid v)
    (ta_process_create_time v) (ta_update v) (ta_lease_expires_at v) (ta_reason v).

(** The process of a spawned attempt as the operating system shows it. *)
Definition look (ps : Processes) (birth : Birth) (v : TrainingAttempt)
    : M Database TrainingError TrainingAttempt :=
  match ta_pid v with
  | Some pid => mret (set_liveness (pr_observe ps pid (ta_process_create_time v)) v)
  | None =>
      match birth with
      | BadBirth => throw (TFailed "birth")
      | NoBirth =>
          let '(state, pid, created) := pr_discover ps in
          mret (set_process state pid created v)
      | BirthOf b =>
          p ← prepared_of v;
          throw_if (negb (String.eqb (sr_attempt_id b) (tc_attempt_id (tp_command p)))
                    || negb (sr_fence b =? tc_fence (tp_command p))
                    || negb (String.eqb (sr_reservation_id b) (tp_reservation_id p)))
                   (TConflict "birth");;
          mret (set_process (pr_observe ps (sr_pid b) (Some (sr_process_create_time b)))
                  (Some (sr_pid b)) (Some (sr_process_create_time b)) v)
      end
  end.

Definition observe_record (ps : Processes) (birth : Birth) (attempt : string)
    : M Database TrainingError NodeTrainingStatus :=
  transaction (
    v ← get_attempt attempt;
    v' ← (if present (ta_spawn_nonce v)
             && negb (match ta_cleanup v with Some c => cl_receipt c | None => false end)
          then v' ← look ps birth v; save v';; mret v'
          else mret v);
    p ← prepared_of v';
    mret (status_of v')).

Definition observe (residue : string → bool) (ps : Processes) (birth : Birth) (attempt : string)
    : Call NodeTrainingStatus :=
  rejected ← read_rejection residue attempt;
  match rejected with
  | Some c => mret (mkStatus attempt (tc_job_id (base c)) (tc_fence (base c)) (tc_node (base c))
                      LStopped None None 0 (tc_lease_expires_at (base c)) None)
  | None => on_db (observe_record ps birth attempt)
  end.

Definition release_stopped_attempt (residue : string → bool) (attempt : string) : Call unit :=
  rejected ← read_rejection residue attempt;
  match rejected with
  | Some _ => mret tt
  | None => on_db (release_after_death attempt);; mret tt
  end.

(** ** Start *)

Inductive StartIntent :=
| Replayed (r : TrainingStartReceipt)
| Adopted (r : TrainingStartReceipt)
(** the intent is committed; its process is spawned next *)
| Spawning (v : TrainingAttempt).

(** The transaction of [start]; [launchable], [admitted] and [published] are its
    collective launch, the maintenance check and the mailbox writes. *)
Definition start_intent (now : Z) (ps : Processes) (launchable admitted published : bool)
    (c : TrainingCommand) (prepared_command_id spawn_nonce : string)
    : M Database TrainingError StartIntent :=
  let command := Start c prepared_command_id spawn_nonce in
  transaction (
    replay ← accept node now command true;
    v ← scoped command;
    p ← prepared_of v;
    throw_if (negb (String.eqb prepared_command_id (tc_command_id (tp_command p))))
             (TConflict "another preparation");;
    match replay with
    | Some (String _ _ as encoded) =>
        r ← some_or (TInvalid "receipt") (decode_start encoded); mret (Replayed r)
    | _ =>
        throw_if (ta_released v) (TConflict "released");;
        match ta_spawn_nonce v with
        | Some nonce =>
            throw_if (negb (String.eqb nonce spawn_nonce)) (TConflict "nonce is immutable");;
            match ta_pid v, ta_process_create_time v with
            | Some pid, Some created =>
                throw_if (negb (same (pr_observe ps pid (Some created)) LRunning))
                         (TConflict "reconciliation");;
                let r := mkStartReceipt (tc_attempt_id c) (tc_fence c) pid created
                           (tp_reservation_id p) in
                receipt command (encode_start r);; mret (Adopted r)
            | _, _ => throw (TConflict "reconciliation")
            end
        | None =>
            throw_if (negb (same (ta_liveness v) LPrepared) || present (ta_reason v))
                     (TConflict "stopped preparation");;
            throw_if ((tc_world_size c =? 2) && negb launchable) (TInvalid "collective");;
            throw_if (negb admitted) (TFailed "maintenance");;
            let v := set_lease (tc_lease_expires_at c)
                       (set_liveness LUnknown (set_spawn_nonce (Some spawn_nonce) v)) in
            save v;;
            throw_if (negb published) (TFailed "publish");;
            mret (Spawning v)
        end
    end).

Definition start (residue : string → bool) (now : Z) (ps : Processes)
    (preparing assets launchable admitted published : bool)
    (c : TrainingCommand) (prepared_command_id spawn_nonce : string) : Call StartIntent :=
  rejected ← read_rejection residue (tc_attempt_id c);
  throw_if (present rejected) (TConflict "rejected");;
  throw_if preparing (TConflict "inputs");;
  v ← on_db (get_attempt (tc_attempt_id c));
  on_db (prepared_of v);;
  throw_if (negb assets) (TInvalid "assets");;
  on_db (start_intent now ps launchable admitted published c prepared_command_id spawn_nonce).

(** Once [processes.spawn] has returned: the record read by the intent is written
    with the process. *)
Definition start_commit (c : TrainingCommand) (prepared_command_id spawn_nonce : string)
    (v : TrainingAttempt) (pid created : Z) : M Database TrainingError TrainingStartReceipt :=
  let r := mkStartReceipt (tc_attempt_id c) (tc_fence c) pid created
             (tp_reservation_id (ta_prepare v)) in
  transaction (
    save (set_process LRunning (Some pid) (Some created) v);;
    receipt (Start c prepared_command_id spawn_nonce) (encode_start r);;
    mret r).

(** ** Lease, pause and checkpoints *)

Definition renew (now : Z) (published : bool) (c : TrainingCommand)
    : M Database TrainingError unit :=
  transaction (
    replay ← accept node now (Renew c) true;
    v ← scoped (Renew c);
    match replay with
    | Some _ => mret tt
    | None =>
        throw_if ((ta_lease_expires_at v <=? now)
                  || (tc_lease_expires_at c <=? ta_lease_expires_at v)
                  || negb (is_in (ta_liveness v) [LPrepared; LRunning]) || ta_released v)
                 (TConflict "lease");;
        throw_if (same (ta_liveness v) LRunning && negb published) (TFailed "publish");;
        save (set_lease (tc_lease_expires_at c) v);;
        receipt (Renew c) "renewed"
    end).

Definition pause (now : Z) (published : bool) (c : TrainingCommand) (reason : string)
    : M Database TrainingError unit :=
  transaction (
    replay ← accept node now (Pause c reason) true;
    v ← scoped (Pause c reason);
    match replay with
    | Some _ => mret tt
    | None =>
        throw_if (negb (same (ta_liveness v) LRunning)) (TConflict "running");;
        throw_if (negb published) (TFailed "publish");;
        save (match ta_pause_deadline v with
              | None => set_reason (Some reason) (set_pause_deadline (Some (now + 60_000_000)) v)
              | Some _ => v
              end);;
        receipt (Pause c reason) "pause_requested"
    end).

(** A staged checkpoint's manifest, with its digest. *)
Record StagedManifest := mkStaged { sm_scope : ArtifactScope; sm_sha256 : string }.

Definition acknowledge_checkpoint (now : Z) (published : bool) (staged : option StagedManifest)
    (c : TrainingCommand) (version update : Z) (checkpoint_id manifest_sha256 : string)
    : M Database TrainingError unit :=
  let command := AcknowledgeCheckpoint c version update checkpoint_id manifest_sha256 in
  transaction (
    replay ← accept node now command true;
    v ← scoped command;
    p ← prepared_of v;
    throw_if (negb (version =? rs_schema_version (tp_resolved p))) (TConflict "version");;
    match replay with
    | Some _ => mret tt
    | None =>
        m ← some_or (TFailed "manifest") staged;
        throw_if (negb (String.eqb (sm_sha256 m) manifest_sha256
                        && same (as_attempt_id (sm_scope m)) (Some (tc_attempt_id c))
                        && same (as_job_id (sm_scope m)) (Some (tc_job_id c))
                        && same (as_fence (sm_scope m)) (Some (tc_fence c))
                        && same (as_update (sm_scope m)) (Some update))) (TConflict "staged");;
        throw_if (negb (same (ta_liveness v) LRunning) || (ta_lease_expires_at v <=? now))
                 (TConflict "stopped or expired");;
        throw_if (negb published) (TFailed "publish");;
        save (set_checkpoint (Some manifest_sha256) (Some checkpoint_id) v);;
        receipt command "committed"
    end).

(** ** Stop *)

(** A stop of an attempt that was never prepared here. *)
Definition stop_rejected (now : Z) (rejected : Command) (c : TrainingCommand) (reason : string)
    : M Database TrainingError TrainingStopReceipt :=
  throw_if (negb (same_scope c (base rejected))) (TConflict "scope");;
  transaction (
    prior ← accept node now (Stop c reason) false;
    match prior with
    | Some (String _ _ as encoded) => some_or (TInvalid "receipt") (decode_stop encoded)
    | _ =>
        let r := mkStopReceipt (tc_attempt_id c) (tc_fence c) (tc_node c) None None true now in
        receipt (Stop c reason) (encode_stop r);; mret r
    end).

(** The intent of a stop: [Some] receipt when it was already answered. *)
Definition stop_intent (now : Z) (c : TrainingCommand) (reason : string)
    : M Database TrainingError (option TrainingStopReceipt) :=
  transaction (
    replay ← accept node now (Stop c reason) false;
    v ← scoped (Stop c reason);
    match replay with
    | Some (String _ _ as encoded) =>
        r ← some_or (TInvalid "receipt") (decode_stop encoded); mret (Some r)
    | _ =>
        let v := set_reason (Some reason) v in
        save (if absent (ta_spawn_nonce v) then set_liveness LStopping v else v);;
        mret None
    end).

Inductive StopIntent := StopAnswered (r : TrainingStopReceipt) | Stopping.

Definition stop (residue : string → bool) (now : Z) (c : TrainingCommand) (reason : string)
    : Call StopIntent :=
  throw_if (negb (valid_rank c)) (TInvalid "model");;
  rejected ← read_rejection residue (tc_attempt_id c);
  s ← get;
  rejected ← (if absent rejected && pristine residue (tc_attempt_id c) s
              then record_stop residue c reason;; read_rejection residue (tc_attempt_id c)
              else mret rejected);
  match rejected with
  | Some q => r ← on_db (stop_rejected now q c reason); mret (StopAnswered r)
  | None =>
      answered ← on_db (stop_intent now c reason);
      mret (match answered with Some r => StopAnswered r | None => Stopping end)
  end.

(** After the preparations were awaited: observe, then read the record. *)
Definition stop_observe (residue : string → bool) (ps : Processes) (birth : Birth)
    (c : TrainingCommand) : Call TrainingAttempt :=
  observe residue ps birth (tc_attempt_id c);; on_db (get_attempt (tc_attempt_id c)).

(** What the process group did within the five seconds of the stop. *)
Definition stop_state (ps : Processes) (preparation_complete : bool) (v : TrainingAttempt)
    : Liveness :=
  match ta_pid v with
  | Some pid => pr_stop ps pid (ta_process_create_time v)
  | None => if absent (ta_spawn_nonce v)
            then if preparation_complete then LStopped else LUnknown
            else ta_liveness v
  end.

(** The record read by [stop_observe] is written with the outcome. *)
Definition stop_commit (now : Z) (c : TrainingCommand) (reason : string) (v : TrainingAttempt)
    (state : Liveness) : M Database TrainingError TrainingStopReceipt :=
  let r := mkStopReceipt (tc_attempt_id c) (tc_fence c) (tc_node c) (ta_pid v)
             (ta_process_create_time v) (same state LStopped) now in
  transaction (
    save (set_liveness state v);;
    receipt (Stop c reason) (encode_stop r);;
    mret r).

(** ** Erasure of a retired attempt *)

Record TrainingAttemptCleanupRequest := mkCleanupRequest {
  cu_command_id : string;
  cu_job_id : string;
  cu_attempt_id : string;
  cu_fence : Z;
  cu_node : string;
  cu_prepared_command_id : string;
}.

(** The intent of an erasure, recorded once the attempt is proved dead, released
    and unused; [owned] tells that inputs, checkpoints or staging of it remain. *)
Definition record_cleanup (digest attempt : string) : M Database TrainingError unit :=
  transaction (
    v ← get_attempt attempt;
    save (set_cleanup (Some (mkCleanup digest false)) v)).
Definition cleanup_intent (residue : string → bool) (ps : Processes) (birth : Birth)
    (digest : string) (owned : bool) (attempt : string) (v : TrainingAttempt) : Call unit :=
  match ta_cleanup v with
  | Some previous => throw_if (negb (String.eqb (cl_digest previous) digest)) (TConflict "changed")
  | None =>
      observed ← observe residue ps birth attempt;
      v ← on_db (get_attempt attempt);
      throw_if (negb (same (ns_liveness observed) LStopped) || negb (ta_released v))
               (TConflict "death and release");;
      throw_if owned (TConflict "still owned");;
      on_db (record_cleanup digest attempt)
  end.

(** Once the directory is gone: the events, the disk and the input holds go too. *)
Definition purge_attempt (digest attempt : string) : M Database TrainingError unit :=
  transaction (
    v ← get_attempt attempt;
    modify (λ d, set_events (filter (λ e, er_attempt e ≠ attempt) (db_events d)) d);;
    save (set_cleanup (Some (mkCleanup digest true)) (set_input_hold 0 0 ∅ v))).

(** [cleanup_attempt]: [digest] is the request's, [erased] tells that the
    attempt's directory was removed. *)
Definition cleanup_attempt (residue : string → bool) (ps : Processes) (birth : Birth)
    (digest : string) (owned erased : bool) (r : TrainingAttemptCleanupRequest) : Call unit :=
  v ← on_db (get_attempt (cu_attempt_id r));
  p ← on_db (prepared_of v);
  throw_if (negb (String.eqb (cu_job_id r) (tc_job_id (tp_command p))
                  && String.eqb (cu_node r) (tc_node (tp_command p))
                  && (cu_fence r =? tc_fence (tp_command p))
                  && String.eqb (cu_prepared_command_id r) (tc_command_id (tp_command p))))
           (TConflict "scope");;
  cleanup_intent residue ps birth digest owned (cu_attempt_id r) v;;
  if match ta_cleanup v with Some previous => cl_receipt previous | None => false end
  then mret tt
  else
    throw_if (negb erased) (TConflict "competing staging");;
    on_db (purge_attempt digest (cu_attempt_id r)).
End supervisor.
