(* ===== verification/NativeProcesses.v ===== *)
(** * Proving a process group dead

    [NativeProcesses] of coire_node/training/supervisor.py: what the supervisor
    concludes from the operating system's process table.  Each read of the table is
    an argument, since processes come and go between two reads. *)
From S2P Require Import Prelude TrainingJournal TrainingSupervisor.
Open Scope Z_scope.

(** [psutil.Process(pid)] *)
Record ProcessInfo := mkInfo {
  pi_created : option Z;
  pi_group : Z;
  pi_zombie : bool;
  pi_argv : list string;
  (** the status read again after an argument list that differs *)
  pi_zombie_later : bool;
}.
Inductive Lookup := NoSuchProcess | AccessDenied | Found (p : ProcessInfo).

(** [os.getpgid(pid)] of one process of [psutil.process_iter()] *)
Inductive Group := GroupGone | GroupDenied | InGroup (g : Z).

(** The scan for members that outlived their leader. *)
Fixpoint scan (pid : Z) (groups : list Group) : Liveness :=
  match groups with
  | [] => LStopped
  | GroupGone :: rest => scan pid rest
  | GroupDenied :: _ => LUnknown
  | InGroup g :: rest => if g =? pid then LUnknown else scan pid rest
  end.

(** [observe]; [child] is the owned [Popen], if any, and whether it has exited. *)
Definition observe_native (child : option bool) (found : Lookup) (groups : list Group)
    (argv : list string) (pid : Z) (created : option Z) : Liveness :=
  let exited := match child with Some b => b | None => false end in
  match found with
  | AccessDenied => LUnknown
  | NoSuchProcess => scan pid groups
  | Found p =>
      if negb (same (pi_created p) created) || negb (pi_group p =? pid) then LUnknown
      else if pi_zombie p then if negb exited then LUnknown else scan pid groups
      else if negb (same (pi_argv p) argv) then
        if negb (pi_zombie_later p) || negb exited then LUnknown else scan pid groups
      else LRunning
  end.

(** One process of [discover]'s walk: gone, unreadable, or with its argument list,
    whether it leads its group, and its birth. *)
Inductive Candidate :=
| CandidateGone | CandidateDenied | Candidate_ (pid : Z) (argv : list string) (leads : bool) (created : Z).

Definition matches (argv : list string) (l : list Candidate) : list (Z * Z) :=
  omap (λ c, match c with
             | Candidate_ pid a leads created =>
                 if same a argv && leads then Some (pid, created) else None
             | _ => None
             end) l.
Definition uncertain (l : list Candidate) : bool :=
  existsb (λ c, match c with CandidateDenied => true | _ => false end) l.

Definition discover_native (argv : list string) (l : list Candidate) : Liveness * option Z * option Z :=
  match matches argv l with
  | [(pid, created)] => if uncertain l then (LUnknown, None, None) else (LRunning, Some pid, Some created)
  | _ => (LUnknown, None, None)
  end.

(** [stop]: the first observation, the members found ([None]: one could not be
    read), the observations until the deadline, whether signalling found the group
    gone or not permitted, and the last observation. *)
Fixpoint await (states : list Liveness) : bool :=
  match states with
  | [] => false
  | s :: rest => same s LStopped || await rest
  end.
Definition stop_native (first : Liveness) (members : option (list Z)) (states : list Liveness)
    (final : Liveness) : Liveness :=
  if negb (same first LRunning) then first
  else match members with
       | None => LUnknown
       | Some _ => if await states then LStopped else final
       end.

(** The process layer a supervisor sees at one moment. *)
Record World := mkWorld {
  w_child : Z → option bool;
  w_lookup : Z → Lookup;
  w_groups : list Group;
  w_candidates : list Candidate;
  w_members : option (list Z);
  w_states : list (Lookup * list Group);
  w_final : Lookup * list Group;
}.
Definition processes_of (argv : list string) (w : World) : Processes :=
  let at_ '(found, groups) pid created := observe_native (w_child w pid) found groups argv pid created in
  mkProcesses
    (λ pid created, at_ (w_lookup w pid, w_groups w) pid created)
    (discover_native argv (w_candidates w))
    (λ pid created, stop_native (at_ (w_lookup w pid, w_groups w) pid created) (w_members w)
                      ((λ s, at_ s pid created) <$> w_states w) (at_ (w_final w) pid created)).

(** ** What a stopped report means *)

(** No process in the scan is, or could be, a member of the group. *)
Definition group_absent (pid : Z) (groups : list Group) : Prop :=
  ∀ g, g ∈ groups → g = GroupGone ∨ ∃ x, g = InGroup x ∧ x ≠ pid.

Lemma scan_stopped pid groups : scan pid groups = LStopped ↔ group_absent pid groups.
Proof.
  unfold group_absent. induction groups as [|g groups IH]; simpl.
  - split; [|done]. intros _ g Hg. by apply elem_of_nil in Hg.
  - destruct g as [| |x].
    + rewrite IH. setoid_rewrite elem_of_cons. naive_solver.
    + split; [done|]. intros Hg. destruct (Hg GroupDenied) as [?|(? & ? & _)]; [by left|done..].
    + destruct (Z.eqb_spec x pid) as [->|Hne].
      * split; [done|]. intros Hg. destruct (Hg (InGroup pid)) as [?|(? & [= <-] & ?)]; [by left|done..].
      * rewrite IH. setoid_rewrite elem_of_cons. naive_solver.
Qed.

(** The leader is not a live process any more: gone, or a zombie whose exit the
    supervisor has collected itself, or another reading of one. *)
Definition leader_gone (child : option bool) (found : Lookup) (created : option Z) (pid : Z) : Prop :=
  found = NoSuchProcess
  ∨ ∃ p, found = Found p ∧ pi_created p = created ∧ pi_group p = pid
         ∧ (pi_zombie p = true ∨ pi_zombie_later p = true) ∧ child = Some true.

Lemma observe_native_stopped child found groups argv pid created :
  observe_native child found groups argv pid created = LStopped →
  leader_gone child found created pid ∧ group_absent pid groups.
Proof.
  unfold observe_native. rewrite <- scan_stopped. unfold leader_gone.
  destruct found as [| |p]; [by auto|done|].
  destruct (negb (same (pi_created p) created) || negb (pi_group p =? pid)) eqn:E1; [done|]. guards.
  destruct child as [[]|]; simpl; [|by destruct (pi_zombie p), (same (pi_argv p) argv), (pi_zombie_later p)..].
  destruct (pi_zombie p) eqn:E2; [by eauto 10|]. destruct (same (pi_argv p) argv); [done|]. simpl.
  destruct (pi_zombie_later p) eqn:E3; [|done]. by eauto 10.
Qed.

Lemma await_true states : await states = true ↔ LStopped ∈ states.
Proof.
  induction states as [|s states IH]; simpl; [split; [done|by intros ?%elem_of_nil]|].
  rewrite orb_true_iff, IH, same_true, elem_of_cons. naive_solver.
Qed.

(** C27. A stopped report is a proof of death: when observing or stopping a process
    reports it stopped, one reading of the process table had its leader gone (absent,
    or an owned child whose exit was collected) and no process that is or might be in
    its group; and finding a worker by its command line alone never reports it
    stopped. *)
Theorem stopped_report_proves_death argv w pid created :
  (pr_observe (processes_of argv w) pid created = LStopped
   ∨ pr_stop (processes_of argv w) pid created = LStopped →
     ∃ found groups, (found, groups) ∈ (w_lookup w pid, w_groups w) :: w_final w :: w_states w
       ∧ leader_gone (w_child w pid) found created pid ∧ group_absent pid groups)
  ∧ (pr_discover (processes_of argv w)).1.1 ≠ LStopped.
Proof.
  split.
  - set (at_ := λ s : Lookup * list Group, observe_native (w_child w pid) s.1 s.2 argv pid created).
    assert (Hat : ∀ s, s ∈ (w_lookup w pid, w_groups w) :: w_final w :: w_states w → at_ s = LStopped →
      ∃ found groups, (found, groups) ∈ (w_lookup w pid, w_groups w) :: w_final w :: w_states w
        ∧ leader_gone (w_child w pid) found created pid ∧ group_absent pid groups).
    { intros [found groups] Hin Hs%observe_native_stopped. exists found, groups. by destruct Hs. }
    intros [Ho|Hst]; [by apply (Hat (w_lookup w pid, w_groups w)); [left|]|].
    simpl in Hst. unfold stop_native in Hst.
    destruct (same _ LRunning) eqn:Er; simpl in Hst;
      [|by apply (Hat (w_lookup w pid, w_groups w)); [left|]].
    destruct (w_members w); [|done]. destruct (await _) eqn:Ea.
    + apply await_true, list_elem_of_fmap in Ea as (s & Hs & Hin).
      apply (Hat s); [by do 2 right|]. destruct s. by symmetry.
    + apply (Hat (w_final w)); [by right; left|]. by destruct (w_final w).
  - simpl. unfold discover_native. by repeat case_match.
Qed.

(** A worker that exits during the wait: its leader is collected as a zombie, and an
    unrelated process is all that is left. *)
Definition exited_world : World :=
  let alive := Found (mkInfo (Some 5) 77 false ["worker"] false) in
  let zombie := Found (mkInfo (Some 5) 77 true [] true) in
  mkWorld (λ _, Some true) (λ _, alive) [InGroup 77; InGroup 1] [] (Some [77])
          [(alive, [InGroup 77]); (zombie, [GroupGone; InGroup 1])] (alive, [InGroup 77]).

Lemma stopped_report_proves_death_witness :
  (∃ found groups, (found, groups) ∈ (w_lookup exited_world 77, w_groups exited_world)
                                     :: w_final exited_world :: w_states exited_world
     ∧ leader_gone (w_child exited_world 77) found (Some 5) 77 ∧ group_absent 77 groups)
  ∧ (pr_discover (processes_of ["worker"] exited_world)).1.1 ≠ LStopped.
Proof.
  destruct (stopped_report_proves_death ["worker"] exited_world 77 (Some 5)) as [Hstop Hdisc].
  split; [apply Hstop; right; vm_compute; reflexivity|exact Hdisc].
Defined.
