(* ===== verification/TrainingFacts.v ===== *)
(** * What the training journal and its supervisor guarantee

    The supervisor of one Studio as a transition system: commands that hold its
    lock, observations, releases, worker events and erasures that do not, and
    crashes, in any order.  A command that awaits keeps the record it read in
    [Flight] and writes it back later, whatever happened to the row meanwhile. *)
From S2P Require Import Prelude Effects TrainingJournal TrainingSupervisor.
Open Scope Z_scope.

(** ** Rows *)

Lemma find_row_Some a d r : find_row a d = Some r → r ∈ db_attempts d ∧ ar_id r = a.
Proof. unfold find_row. intros [? Hr]%find_Some_elem. split; [done|]. by apply String.eqb_eq. Qed.

Lemma find_row_None a d r : find_row a d = None → r ∈ db_attempts d → ar_id r ≠ a.
Proof.
  unfold find_row. intros Hn Hr <-.
  destruct (find_is_Some (λ x, String.eqb (ar_id x) (ar_id r)) _ r Hr) as [y Hy];
    [apply String.eqb_refl|congruence].
Qed.

Lemma get_attempt_run a d r d' :
  get_attempt a d = (r, d') →
  d' = d ∧ match find_row a d with
           | Some row => r = Ok (ar_body row)
           | None => ∃ e, r = Err e
           end.
Proof.
  unfold get_attempt. cbv [mbind M_bind get mret M_ret throw].
  destruct (find_row a d); intros; simplify_eq; eauto.
Qed.

Lemma get_attempt_Ok a d v d' :
  get_attempt a d = (Ok v, d') →
  d' = d ∧ ∃ row, row ∈ db_attempts d ∧ ar_id row = a ∧ v = ar_body row.
Proof.
  intros [-> Hr]%get_attempt_run. split; [done|].
  destruct (find_row a d) as [row|] eqn:E; [|by destruct Hr].
  apply find_row_Some in E as [? ?]. exists row. by simplify_eq.
Qed.

Lemma prepared_of_Ok v d p d' : prepared_of v d = (Ok p, d') → d' = d ∧ p = ta_prepare v.
Proof. unfold prepared_of. intros Hr. by inv_run. Qed.

Lemma prepared_of_run v d r d' : prepared_of v d = (r, d') → d' = d.
Proof. unfold prepared_of, throw_if. case_match; by intros [= _ <-]. Qed.

Lemma elem_save_row v (rows : list AttemptRow) r :
  r ∈ save_row v <$> rows ↔ ∃ r0, r0 ∈ rows ∧ r = save_row v r0.
Proof. rewrite list_elem_of_fmap. naive_solver. Qed.

Lemma save_row_id v r : ar_id (save_row v r) = ar_id r.
Proof. unfold save_row. by case_match. Qed.
Lemma save_row_job v r : ar_job (save_row v r) = ar_job r.
Proof. unfold save_row. by case_match. Qed.
Lemma save_row_fence v r : ar_fence (save_row v r) = ar_fence r.
Proof. unfold save_row. by case_match. Qed.
Lemma save_row_hit v r : ar_id r = ta_attempt_id v → ar_body (save_row v r) = v.
Proof. unfold save_row. intros ->. by rewrite String.eqb_refl. Qed.
Lemma save_row_miss v r : ar_id r ≠ ta_attempt_id v → save_row v r = r.
Proof. unfold save_row. intros Hne. case_match eqn:E; [|done]. by apply String.eqb_eq in E. Qed.

(** ** What one call does to the attempts *)

(** Some row is rewritten with a record [R]-related to the one it holds. *)
Definition touched (R : TrainingAttempt → TrainingAttempt → Prop) (d d' : Database) : Prop :=
  db_attempts d' = db_attempts d
  ∨ ∃ r v, r ∈ db_attempts d ∧ R (ar_body r) v ∧ db_attempts d' = save_row v <$> db_attempts d.

(** Identity, preparation, release and spawn nonce stay, and the process is not
    newly called stopped. *)
Definition benign (v v' : TrainingAttempt) : Prop :=
  ta_attempt_id v' = ta_attempt_id v ∧ ta_prepare v' = ta_prepare v
  ∧ ta_released v' = ta_released v ∧ ta_spawn_nonce v' = ta_spawn_nonce v
  ∧ (ta_liveness v' = LStopped → ta_liveness v = LStopped).

Section effects.
Context `{TrainingCodec, ReceiptCodec} (node : string).

Lemma accept_Ok now c lease d x d' :
  accept node now c lease d = (Ok x, d') →
  db_attempts d' = db_attempts d ∧ db_events d' = db_events d
  ∧ command_valid c = true ∧ tc_node (base c) = node
  ∧ (∀ f, latest_fence (tc_job_id (base c)) d = Some f → f ≤ tc_fence (base c)).
Proof.
  unfold accept. intros Hr. inv_run.
  assert (db_attempts d' = db_attempts d ∧ db_events d' = db_events d) as [? ?].
  { destruct (db_commands d !! _); inv_run; done. }
  guards. split_and!; try done.
  intros f Hf. rewrite Hf in *. match goal with Hb : (_ <? _) = false |- _ => apply Z.ltb_ge in Hb end. lia.
Qed.

Lemma accept_Err now c lease d r d' :
  accept node now c lease d = (r, d') → is_ok r = false → d' = d.
Proof.
  unfold accept. cbv zeta. intros Hr Hok. walk Hr; try done.
  destruct (db_commands d !! tc_command_id (base c)); walk Hr; try done.
  - by injection Hr as _ <-.
  - injection Hr as <- _. done.
Qed.

Lemma receipt_Ok c e d x d' :
  receipt c e d = (Ok x, d') → db_attempts d' = db_attempts d ∧ db_events d' = db_events d.
Proof. unfold receipt. intros Hr. by inv_run. Qed.

Lemma save_Ok v d x d' :
  save v d = (Ok x, d') → db_attempts d' = save_row v <$> db_attempts d ∧ db_events d' = db_events d.
Proof. unfold save. intros Hr. by inv_run. Qed.

Lemma scoped_Ok c d v d' :
  scoped c d = (Ok v, d') →
  d' = d ∧ ∃ row, row ∈ db_attempts d ∧ ar_id row = tc_attempt_id (base c) ∧ v = ar_body row
      ∧ same_scope (base c) (tp_command (ta_prepare v)) = true.
Proof.
  unfold scoped. intros Hr. inv_run.
  match goal with Hg : get_attempt _ _ = _ |- _ => apply get_attempt_Ok in Hg as (-> & row & ? & ? & ->) end.
  match goal with Hg : prepared_of _ _ = _ |- _ => apply prepared_of_Ok in Hg as (-> & ->) end.
  guards. split; [done|]. by exists row.
Qed.
End effects.

(** Read a successful journal call backwards to the rows it read and wrote. *)
Ltac inv_journal :=
  repeat first [progress inv_run | match goal with
  | H : get_attempt _ _ = (Ok _, _) |- _ => apply get_attempt_Ok in H as (-> & ? & ? & ? & ->)
  | H : prepared_of _ _ = (Ok _, _) |- _ => apply prepared_of_Ok in H as (-> & ->)
  | H : accept _ _ _ _ _ = (Ok _, _) |- _ => apply accept_Ok in H as (? & ? & ? & ? & ?)
  | H : receipt _ _ _ = (Ok _, _) |- _ => apply receipt_Ok in H as [? ?]
  | H : save _ _ = (Ok _, _) |- _ => apply save_Ok in H as [? ?]
  | H : scoped _ _ = (Ok _, _) |- _ => apply scoped_Ok in H as (-> & ? & ? & ? & -> & ?)
  end].

(** The rows of the states in between. *)
Ltac same_rows :=
  repeat match goal with
  | H : db_attempts ?d = _, H' : context [db_attempts ?d] |- _ => rewrite H in H'
  | H : db_attempts ?d = _ |- context [db_attempts ?d] => rewrite H
  end; try done.

(** Split a call on the value its next step depends on. *)
Ltac split_run :=
  match goal with
  | H : (if ?b then _ else _) _ = (Ok _, _) |- _ => destruct b eqn:?
  | H : (match ?o with _ => _ end) _ = (Ok _, _) |- _ => destruct o eqn:?
  end.

Section touched.
Context `{TrainingCodec, ReceiptCodec} (node : string).
Implicit Types (d : Database) (R : TrainingAttempt → TrainingAttempt → Prop).

Lemma touched_none R d d' : db_attempts d' = db_attempts d → touched R d d'.
Proof. by left. Qed.

Lemma touched_save R d d' r v :
  r ∈ db_attempts d → db_attempts d' = save_row v <$> db_attempts d → R (ar_body r) v →
  touched R d d'.
Proof. right. eauto. Qed.

Lemma touched_weaken R R' d d' : (∀ v v', R v v' → R' v v') → touched R d d' → touched R' d d'.
Proof. intros HR [?|(r & v & ? & ? & ?)]; [by left|right; eauto 10]. Qed.

(** A call that is one transaction: what it does when it returns is all it does. *)
Lemma touched_transaction {A} R (m : M Database TrainingError A) :
  (∀ d x d', m d = (Ok x, d') → touched R d d') →
  ∀ d r d', transaction m d = (r, d') → touched R d d'.
Proof.
  intros Hm d [x|e] d' Hr.
  - apply (proj1 (run_transaction_Ok _ _ _ _)) in Hr. eauto.
  - apply run_transaction_Err in Hr as ->. by left.
Qed.

Lemma touched_guarded {A} R b e (m : M Database TrainingError A) :
  (∀ d r d', m d = (r, d') → touched R d d') →
  ∀ d r d', (throw_if b e;; m) d = (r, d') → touched R d d'.
Proof.
  intros Hm d r d' Hr. walk Hr; [by left|eauto].
Qed.

Lemma note_event_benign e v : benign v (note_event e v).
Proof. unfold note_event. by destruct (ne_payload e) as [| | | |[] ?]. Qed.

Lemma check_payload_Ok e p d x d' : check_payload e p d = (Ok x, d') → d' = d.
Proof. unfold check_payload. destruct (ne_payload e); intros Hr; by inv_run. Qed.

Lemma append_event_touched now e d r d' : append_event now e d = (r, d') → touched benign d d'.
Proof.
  revert d r d'. unfold append_event. repeat apply touched_guarded. apply touched_transaction.
  intros d x d' Hr. inv_journal.
  match goal with Hc : check_payload _ _ _ = _ |- _ => apply check_payload_Ok in Hc as -> end.
  destruct (List.find _ _); inv_journal; [by apply touched_none|].
  eapply touched_save; [done|done|apply note_event_benign].
Qed.

Lemma hold_input_bytes_touched a size disk source d r d' :
  hold_input_bytes a size disk source d = (r, d') → touched benign d d'.
Proof.
  revert d r d'. unfold hold_input_bytes. apply touched_guarded, touched_transaction.
  intros d x d' Hr. inv_journal. split_run; inv_journal; [|by apply touched_none].
  eapply touched_save; [done|done|by destruct source].
Qed.

Lemma renew_touched now published c d r d' :
  renew node now published c d = (r, d') → touched benign d d'.
Proof.
  revert d r d'. apply touched_transaction. intros d x d' Hr. inv_journal.
  split_run; inv_journal; [by apply touched_none|].
  eapply touched_save; [by same_rows|by same_rows|done].
Qed.

Lemma pause_touched now published c why d r d' :
  pause node now published c why d = (r, d') → touched benign d d'.
Proof.
  revert d r d'. apply touched_transaction. intros d x d' Hr. inv_journal.
  split_run; inv_journal; [by apply touched_none|].
  eapply touched_save; [by same_rows|by same_rows|by destruct (ta_pause_deadline _)].
Qed.

Lemma acknowledge_touched now published staged c ver upd ck sha d r d' :
  acknowledge_checkpoint node now published staged c ver upd ck sha d = (r, d') →
  touched benign d d'.
Proof.
  revert d r d'. apply touched_transaction. intros d x d' Hr. inv_journal.
  split_run; inv_journal; [by apply touched_none|].
  eapply touched_save; [by same_rows|by same_rows|done].
Qed.

Lemma stop_intent_touched now c why d r d' :
  stop_intent node now c why d = (r, d') → touched benign d d'.
Proof.
  revert d r d'. apply touched_transaction. intros d x d' Hr. inv_journal.
  repeat split_run; cbv zeta in *; inv_journal; try (by apply touched_none).
  all: eapply touched_save; [by same_rows|by same_rows|by case_match].
Qed.
End touched.

(** ** The transition system *)

(** What a command that released the event loop still has to write. *)
Inductive Flight :=
| Idle
(** the spawn intent is committed *)
| Starting (c : TrainingCommand) (prepared nonce : string) (v : TrainingAttempt)
(** the process exists, its identity is not yet recorded *)
| Started (c : TrainingCommand) (prepared nonce : string) (v : TrainingAttempt) (pid created : Z)
| StopIntended (c : TrainingCommand) (reason : string)
| StopRead (c : TrainingCommand) (reason : string) (v : TrainingAttempt).

Record System := mkSystem {
  sy_node : Node;
  sy_flight : Flight;
  (** every attempt for which a process was spawned, in order *)
  sy_spawned : list string;
  (** every attempt whose process group was reported stopped *)
  sy_dead : list string;
}.

(** The report [look] acts on is that the group is gone. *)
Definition death_report (ps : Processes) (birth : Birth) (v : TrainingAttempt) : bool :=
  same LStopped
    match ta_pid v, birth with
    | Some pid, _ => pr_observe ps pid (ta_process_create_time v)
    | None, BirthOf b => pr_observe ps (sr_pid b) (Some (sr_process_create_time b))
    | None, _ => (pr_discover ps).1.1
    end.

(** Observing [attempt] asks for its process, and the answer is that it is gone. *)
Definition reported (ps : Processes) (birth : Birth) (attempt : string) (n : Node) : list string :=
  match tn_rejected n !! attempt, find_row attempt (tn_db n) with
  | None, Some r =>
      if present (ta_spawn_nonce (ar_body r))
         && negb (match ta_cleanup (ar_body r) with Some c => cl_receipt c | None => false end)
         && death_report ps birth (ar_body r)
      then [attempt] else []
  | _, _ => []
  end.

(** A cleanup observes only when it has not been recorded before. *)
Definition cleanup_reported (ps : Processes) (birth : Birth) (attempt : string) (n : Node)
    : list string :=
  match find_row attempt (tn_db n) with
  | Some r => if absent (ta_cleanup (ar_body r)) then reported ps birth attempt n else []
  | None => []
  end.

Section system.
Context `{TrainingCodec, ReceiptCodec} (node : string).

Definition after_start (c : TrainingCommand) (prepared nonce : string)
    (r : result TrainingError StartIntent) : Flight :=
  match r with Ok (Spawning v) => Starting c prepared nonce v | _ => Idle end.
Definition after_stop (c : TrainingCommand) (reason : string)
    (r : result TrainingError StopIntent) : Flight :=
  match r with Ok Stopping => StopIntended c reason | _ => Idle end.
Definition after_observe (c : TrainingCommand) (reason : string)
    (r : result TrainingError TrainingAttempt) : Flight :=
  match r with Ok v => StopRead c reason v | _ => Idle end.

Inductive system_step : System → System → Prop :=
(** commands, under the supervisor's lock *)
| step_prepare residue now admitted launchable m k floor q r n n' sp dead :
    prepare_attempt node residue now admitted launchable m k floor q n = (r, n') →
    system_step (mkSystem n Idle sp dead) (mkSystem n' Idle sp dead)
| step_start residue now ps preparing assets launchable admitted published c p nonce r n n' sp dead :
    start node residue now ps preparing assets launchable admitted published c p nonce n = (r, n') →
    system_step (mkSystem n Idle sp dead) (mkSystem n' (after_start c p nonce r) sp dead)
| step_spawn c p nonce v pid created n sp dead :
    system_step (mkSystem n (Starting c p nonce v) sp dead)
                (mkSystem n (Started c p nonce v pid created) (ta_attempt_id v :: sp) dead)
| step_start_commit c p nonce v pid created r n n' sp dead :
    on_db (start_commit c p nonce v pid created) n = (r, n') →
    system_step (mkSystem n (Started c p nonce v pid created) sp dead) (mkSystem n' Idle sp dead)
| step_renew now published c r n n' sp dead :
    on_db (renew node now published c) n = (r, n') →
    system_step (mkSystem n Idle sp dead) (mkSystem n' Idle sp dead)
| step_pause now published c reason r n n' sp dead :
    on_db (pause node now published c reason) n = (r, n') →
    system_step (mkSystem n Idle sp dead) (mkSystem n' Idle sp dead)
| step_acknowledge now published staged c ver upd ck sha r n n' sp dead :
    on_db (acknowledge_checkpoint node now published staged c ver upd ck sha) n = (r, n') →
    system_step (mkSystem n Idle sp dead) (mkSystem n' Idle sp dead)
| step_stop residue now c reason r n n' sp dead :
    stop node residue now c reason n = (r, n') →
    system_step (mkSystem n Idle sp dead) (mkSystem n' (after_stop c reason r) sp dead)
(** a stop that is answered at once, as that of an attempt never prepared here *)
| step_stop_answered residue now c reason r n n' fl sp dead :
    stop node residue now c reason n = (r, n') → r ≠ Ok Stopping →
    system_step (mkSystem n fl sp dead) (mkSystem n' fl sp dead)
| step_stop_observe residue ps birth c reason r n n' sp dead :
    stop_observe node residue ps birth c n = (r, n') →
    system_step (mkSystem n (StopIntended c reason) sp dead)
                (mkSystem n' (after_observe c reason r) sp
                          (reported ps birth (tc_attempt_id c) n ++ dead))
| step_stop_commit now ps complete c reason v r n n' sp dead :
    on_db (stop_commit now c reason v (stop_state ps complete v)) n = (r, n') →
    system_step (mkSystem n (StopRead c reason v) sp dead)
                (mkSystem n' Idle sp
                          (match ta_pid v with
                           | Some pid => if same LStopped (pr_stop ps pid (ta_process_create_time v))
                                         then [ta_attempt_id v] else []
                           | None => []
                           end ++ dead))
(** calls without the lock *)
| step_observe residue ps birth a r n n' fl sp dead :
    observe node residue ps birth a n = (r, n') →
    system_step (mkSystem n fl sp dead)
                (mkSystem n' fl sp (reported ps birth a n ++ dead))
| step_release residue a r n n' fl sp dead :
    release_stopped_attempt node residue a n = (r, n') →
    system_step (mkSystem n fl sp dead) (mkSystem n' fl sp dead)
| step_watchdog_release a r n n' fl sp dead :
    on_db (release_after_death a) n = (r, n') →
    system_step (mkSystem n fl sp dead) (mkSystem n' fl sp dead)
| step_event now e r n n' fl sp dead :
    on_db (append_event now e) n = (r, n') →
    system_step (mkSystem n fl sp dead) (mkSystem n' fl sp dead)
| step_hold a size disk source r n n' fl sp dead :
    on_db (hold_input_bytes a size disk source) n = (r, n') →
    system_step (mkSystem n fl sp dead) (mkSystem n' fl sp dead)
| step_cleanup residue ps birth digest owned erased q r n n' fl sp dead :
    cleanup_attempt node residue ps birth digest owned erased q n = (r, n') →
    system_step (mkSystem n fl sp dead)
                (mkSystem n' fl sp (cleanup_reported ps birth (cu_attempt_id q) n ++ dead))
(** the node service dies; committed transactions stay *)
| step_crash n fl sp dead : system_step (mkSystem n fl sp dead) (mkSystem n Idle sp dead).

Definition initial (s : System) : Prop := s = mkSystem (mkNode empty_database ∅) Idle [] [].
Definition reachable (s : System) : Prop := ∃ s0, initial s0 ∧ rtc system_step s0 s.
End system.

(** ** The invariant *)

(** A record keeps its spawn nonce once a process was spawned for it, and is
    stopped or released only if none was or its group was reported gone. *)
Definition body_ok (sp dead : list string) (v : TrainingAttempt) : Prop :=
  (ta_attempt_id v ∈ sp → present (ta_spawn_nonce v) = true)
  ∧ (ta_liveness v = LStopped ∨ ta_released v = true →
       ta_spawn_nonce v = None ∨ ta_attempt_id v ∈ dead).

Definition rows_ok (sp dead : list string) (rows : list AttemptRow) : Prop :=
  NoDup (ar_id <$> rows)
  ∧ (∀ r, r ∈ rows → ta_attempt_id (ar_body r) = ar_id r ∧ body_ok sp dead (ar_body r))
  ∧ (∀ r1 r2, r1 ∈ rows → r2 ∈ rows → ta_released (ar_body r1) = false →
       ta_released (ar_body r2) = false → ar_id r1 = ar_id r2).

(** A record that may be written back: no other attempt holds the slot it holds. *)
Definition vouched (sp dead : list string) (rows : list AttemptRow) (v : TrainingAttempt) : Prop :=
  body_ok sp dead v ∧ (∃ r, r ∈ rows ∧ ar_id r = ta_attempt_id v)
  ∧ (ta_released v = false →
       ∀ r, r ∈ rows → ar_id r ≠ ta_attempt_id v → ta_released (ar_body r) = true).

Definition flight_ok (sp dead : list string) (rows : list AttemptRow) (fl : Flight) : Prop :=
  match fl with
  | Idle | StopIntended _ _ => True
  | Starting _ _ _ v =>
      vouched sp dead rows v ∧ (ta_attempt_id v ∉ sp) ∧ present (ta_spawn_nonce v) = true
      ∧ ∀ r, r ∈ rows → ar_id r = ta_attempt_id v → present (ta_spawn_nonce (ar_body r)) = true
  | Started _ _ _ v _ _ | StopRead _ _ v => vouched sp dead rows v
  end.

Definition Inv (s : System) : Prop :=
  let rows := db_attempts (tn_db (sy_node s)) in
  rows_ok (sy_spawned s) (sy_dead s) rows ∧ NoDup (sy_spawned s)
  ∧ (∀ a, a ∈ sy_spawned s → ∃ r, r ∈ rows ∧ ar_id r = a)
  ∧ flight_ok (sy_spawned s) (sy_dead s) rows (sy_flight s).

Lemma body_ok_dead sp dead dead' v : dead ⊆ dead' → body_ok sp dead v → body_ok sp dead' v.
Proof. intros Hd [H1 H2]. split; [done|]. intros [?|?]%H2; auto. Qed.

Lemma current_vouched sp dead rows r :
  rows_ok sp dead rows → r ∈ rows → vouched sp dead rows (ar_body r).
Proof.
  intros (_ & Hb & Hslot) Hr. destruct (Hb r Hr) as [Hid Hok]. split; [done|].
  rewrite Hid. split; [eauto|]. intros Hrel r' Hr' Hne.
  destruct (ta_released (ar_body r')) eqn:E; [done|]. destruct Hne. by apply Hslot.
Qed.

(** Writing back a record that may be written keeps the table in order. *)
Lemma save_rows_ok sp dead rows v :
  rows_ok sp dead rows → vouched sp dead rows v → rows_ok sp dead (save_row v <$> rows).
Proof.
  intros (Hnd & Hb & Hslot) (Hok & _ & Hfree). split; [|split].
  - rewrite <- list_fmap_compose. erewrite list_fmap_ext; [exact Hnd|].
    intros ? r _. apply save_row_id.
  - intros r (r0 & Hr0 & ->)%elem_save_row. rewrite save_row_id.
    destruct (decide (ar_id r0 = ta_attempt_id v)) as [E|E];
      [rewrite save_row_hit by done; by split|rewrite save_row_miss by done; by apply Hb].
  - intros r1 r2 (r & Hr & ->)%elem_save_row (r' & Hr' & ->)%elem_save_row. rewrite !save_row_id.
    destruct (decide (ar_id r = ta_attempt_id v)) as [E|E],
             (decide (ar_id r' = ta_attempt_id v)) as [E'|E'];
      rewrite ?(save_row_hit v r E), ?(save_row_hit v r' E'),
              ?(save_row_miss v r E), ?(save_row_miss v r' E'); intros Ha Hc.
    + congruence.
    + by rewrite (Hfree Ha r' Hr' E') in Hc.
    + by rewrite (Hfree Hc r Hr E) in Ha.
    + by apply Hslot.
Qed.

(** An update of the record a row holds. *)
Definition good (sp dead : list string) (v v' : TrainingAttempt) : Prop :=
  ta_attempt_id v' = ta_attempt_id v ∧ ta_spawn_nonce v' = ta_spawn_nonce v
  ∧ (ta_released v = true → ta_released v' = true)
  ∧ (body_ok sp dead v → body_ok sp dead v').

Lemma good_vouched sp dead rows v v' :
  good sp dead v v' → vouched sp dead rows v → vouched sp dead rows v'.
Proof.
  intros (Hid & _ & Hrel & Hok) (Hb & Hex & Hfree). split; [auto|]. rewrite Hid. split; [done|].
  intros Hr. apply Hfree. destruct (ta_released v); [|done]. by rewrite Hrel in Hr.
Qed.

Lemma benign_good sp dead v v' : benign v v' → good sp dead v v'.
Proof.
  intros (Hid & _ & Hrel & Hn & Hl). repeat split; try congruence.
  - rewrite Hid, Hn. by intros ?%H.
  - rewrite Hid, Hn, Hrel. intros [?|?]; apply H; auto.
Qed.

Lemma process_good sp dead v l p t :
  (l = LStopped → ta_attempt_id v ∈ dead) → good sp dead v (set_process l p t v).
Proof.
  intros Hl. do 3 (split; [done|]). intros [Hn Hd]. split; [done|]. simpl.
  intros [E|E]; [right; by apply Hl|apply Hd; by right].
Qed.

Lemma release_good sp dead v : ta_liveness v = LStopped → good sp dead v (set_released true v).
Proof.
  intros Hl. do 3 (split; [done|]). intros [Hn Hd]. split; [done|]. simpl.
  intros _. apply Hd. by left.
Qed.

(** A record in flight stays writable while rows are updated around it. *)
Lemma flight_touched sp dead rows r v fl :
  rows_ok sp dead rows → r ∈ rows → good sp dead (ar_body r) v →
  flight_ok sp dead rows fl → flight_ok sp dead (save_row v <$> rows) fl.
Proof.
  intros Hrows Hr Hg Hfl. destruct Hg as (Hid & Hn & Hrel & _).
  assert (Hrid : ta_attempt_id (ar_body r) = ar_id r) by (by apply Hrows).
  assert (Huniq : ∀ r0, r0 ∈ rows → ar_id r0 = ta_attempt_id v → r0 = r).
  { intros r0 Hr0 E. eapply (NoDup_fmap_inj ar_id rows); [apply Hrows|done..|congruence]. }
  assert (Hv : ∀ w, vouched sp dead rows w → vouched sp dead (save_row v <$> rows) w).
  { intros w (Hb & (r1 & Hr1 & Hi1) & Hfree). split; [done|]. split.
    - exists (save_row v r1). split; [by apply list_elem_of_fmap_2|by rewrite save_row_id].
    - intros Hw r' (r0 & Hr0 & ->)%elem_save_row. rewrite save_row_id. intros Hne.
      destruct (decide (ar_id r0 = ta_attempt_id v)) as [E|E];
        [rewrite save_row_hit by done|rewrite save_row_miss by done; auto].
      apply Hrel. rewrite <- (Huniq r0 Hr0 E). auto. }
  destruct fl; simpl in *; auto. destruct Hfl as (Hvo & Hns & Hpr & Hall). split_and!; auto.
  intros r' (r0 & Hr0 & ->)%elem_save_row. rewrite save_row_id. intros E0.
  destruct (decide (ar_id r0 = ta_attempt_id v)) as [E|E];
    [rewrite save_row_hit by done|rewrite save_row_miss by done; auto].
  rewrite Hn, <- (Huniq r0 Hr0 E). auto.
Qed.

Lemma Inv_touched n n' fl sp dead :
  Inv (mkSystem n fl sp dead) → touched (good sp dead) (tn_db n) (tn_db n') →
  Inv (mkSystem n' fl sp dead).
Proof.
  unfold Inv. simpl. intros (Hrows & Hnd & Hsp & Hfl) [Heq|(r & v & Hr & Hg & Heq)];
    rewrite Heq; [done|]. split_and!; [| done| |].
  - apply save_rows_ok; [done|]. eapply good_vouched; [done|]. by apply current_vouched.
  - intros a (r0 & Hr0 & <-)%Hsp. exists (save_row v r0).
    split; [by apply list_elem_of_fmap_2|by rewrite save_row_id].
  - by eapply flight_touched.
Qed.

Lemma Inv_dead n fl sp dead dead' :
  dead ⊆ dead' → Inv (mkSystem n fl sp dead) → Inv (mkSystem n fl sp dead').
Proof.
  unfold Inv. simpl. intros Hd ((Hids & Hb & Hslot) & Hnd & Hsp & Hfl).
  assert (Hv : ∀ v, vouched sp dead (db_attempts (tn_db n)) v →
                    vouched sp dead' (db_attempts (tn_db n)) v).
  { intros v (? & ? & ?). split; [by eapply body_ok_dead|done]. }
  split_and!; auto.
  - split_and!; auto. intros r Hr. destruct (Hb r Hr). split; [done|]. by eapply body_ok_dead.
  - destruct fl; simpl in *; auto. destruct Hfl as (? & ? & ? & ?). by split_and!; auto.
Qed.

Lemma Inv_crash n fl sp dead : Inv (mkSystem n fl sp dead) → Inv (mkSystem n Idle sp dead).
Proof. unfold Inv. simpl. tauto. Qed.

Lemma Inv_touches n n' fl sp dead :
  rtc (touched (good sp dead)) (tn_db n) (tn_db n') →
  Inv (mkSystem n fl sp dead) → Inv (mkSystem n' fl sp dead).
Proof.
  remember (tn_db n) as d eqn:Ed. remember (tn_db n') as d' eqn:Ed'. intros Hr. revert n Ed.
  induction Hr as [d|d d1 d' Hd Hr IH]; intros n Ed HI.
  - eapply Inv_touched; [done|]. left. by rewrite <- Ed, <- Ed'.
  - apply (IH Ed' (set_db d1 n)); [done|]. eapply Inv_touched; [done|]. by rewrite <- Ed.
Qed.

(** ** Every step keeps it *)

Section steps.
Context `{TrainingCodec, ReceiptCodec} (node : string).
Implicit Types (n : Node).

Lemma on_db_run {A} (m : M Database TrainingError A) n r n' :
  on_db m n = (r, n') → m (tn_db n) = (r, tn_db n') ∧ tn_rejected n' = tn_rejected n.
Proof. unfold on_db. destruct (m (tn_db n)) as [r1 d1]. intros [= <- <-]. done. Qed.

Lemma read_rejection_run residue a n r n' :
  read_rejection node residue a n = (r, n') →
  n' = n ∧ (r = Ok None → tn_rejected n !! a = None)
  ∧ (∀ c, r = Ok (Some c) → ∀ x, x ∈ records (tn_db n) → ta_attempt_id x ≠ a).
Proof.
  unfold read_rejection. intros Hr. walk Hr. simpl in Hr.
  destruct (tn_rejected n !! a) as [c|]; [|injection Hr as <- <-; naive_solver].
  walk Hr; [done|]. injection Hr as <- <-. split; [done|]. split; [done|].
  intros _ _ y Hy E.
  match goal with Hb : _ || _ = false |- _ => apply orb_false_iff in Hb as [_ Hb] end. guards.
  unfold pristine in *. guards.
  match goal with He : existsb _ _ = false |- _ => apply not_true_iff_false in He; apply He end.
  apply existsb_exists. exists y. split; [by apply list_elem_of_In|by apply String.eqb_eq].
Qed.

Lemma write_rejection_run c n r n' : write_rejection c n = (r, n') → tn_db n' = tn_db n.
Proof. by intros [= _ <-]. Qed.

Lemma record_rejection_run residue q n r n' :
  record_rejection node residue q n = (r, n') → tn_db n' = tn_db n.
Proof.
  unfold record_rejection. intros Hr. walk Hr. case_match; [by injection Hr as _ <-|].
  apply run_bind_cases in Hr as [(? & Hm & _)|(x & n1 & Hm & Hr)];
    apply read_rejection_run in Hm as [-> _]; [done|].
  destruct x as [c|]; [|by eapply write_rejection_run].
  unfold throw_if in Hr. case_match; by injection Hr as _ <-.
Qed.

(** What [observe] writes: the liveness the process layer reported. *)
Lemma look_run ps birth v d v' d' sp dead :
  look ps birth v d = (Ok v', d') →
  (death_report ps birth v = true → ta_attempt_id v ∈ dead) → d' = d ∧ good sp dead v v'.
Proof.
  unfold look, death_report. intros Hr Hrep.
  assert (Hcase : d' = d ∧ ∃ l p t, v' = set_process l p t v ∧ (l = LStopped → ta_attempt_id v ∈ dead)).
  { destruct (ta_pid v) as [pid|] eqn:Ep.
    - inv_run. split; [done|]. eexists _, _, (ta_process_create_time v). split.
      + unfold set_process, set_liveness. by rewrite Ep.
      + intros E. apply Hrep. by rewrite E.
    - destruct birth as [| |b]; [|by inv_run|].
      + destruct (pr_discover ps) as [[l p] t]. inv_run. split; [done|]. eexists _, _, _.
        split; [done|]. intros ->. by apply Hrep.
      + inv_journal. split; [done|]. eexists _, _, _. split; [done|].
        intros E. apply Hrep. by rewrite E. }
  destruct Hcase as (-> & l & p & t & -> & Hl). split; [done|].
  by apply process_good.
Qed.

Lemma observe_record_touched ps birth a n r d' sp dead :
  tn_rejected n !! a = None →
  observe_record ps birth a (tn_db n) = (r, d') → rows_ok sp dead (db_attempts (tn_db n)) →
  touched (good sp (reported ps birth a n ++ dead)) (tn_db n) d'.
Proof.
  intros Hrej Hr Hrows. destruct r as [st|e]; [|apply run_transaction_Err in Hr as ->; by left].
  apply (proj1 (run_transaction_Ok _ _ _ _)) in Hr.
  apply run_bind_Ok in Hr as (v & d1 & Hg & Hr). apply get_attempt_run in Hg as [-> Hf].
  destruct (find_row a (tn_db n)) as [row|] eqn:Ef; [|by destruct Hf]. injection Hf as ->.
  pose proof (find_row_Some _ _ _ Ef) as [Hin Hid].
  apply run_bind_Ok in Hr as (v' & d1 & Hl & Hr).
  apply run_bind_Ok in Hr as (? & d2 & Hp & Hr). apply prepared_of_Ok in Hp as [-> _].
  apply run_ret_Ok in Hr as [_ ->].
  destruct (present _ && _) eqn:Eb; [|apply run_ret_Ok in Hl as [_ ->]; by left].
  apply run_bind_Ok in Hl as (v1 & d2 & Hlook & Hl).
  eapply (look_run _ _ _ _ _ _ sp (reported ps birth a n ++ dead)) in Hlook as [-> Hg].
  - inv_journal. by eapply touched_save.
  - intros Hd. unfold reported. rewrite Hrej, Ef, Eb, Hd. simpl.
    destruct Hrows as (_ & Hb & _). rewrite (proj1 (Hb row Hin)), Hid. by left.
Qed.

Lemma observe_touched residue ps birth a n r n' sp dead :
  observe node residue ps birth a n = (r, n') → rows_ok sp dead (db_attempts (tn_db n)) →
  touched (good sp (reported ps birth a n ++ dead)) (tn_db n) (tn_db n').
Proof.
  unfold observe. intros Hr Hrows.
  apply run_bind_cases in Hr as [(? & Hm & _)|(x & n1 & Hm & Hr)];
    apply read_rejection_run in Hm as (-> & Hrej & _); [by left|].
  destruct x as [c|]; [injection Hr as _ <-; by left|].
  apply on_db_run in Hr as [Hr _]. by eapply observe_record_touched; [apply Hrej| |].
Qed.

Lemma release_touched a d r d' sp dead :
  release_after_death a d = (r, d') → rows_ok sp dead (db_attempts d) →
  touched (good sp dead) d d'.
Proof.
  intros Hr Hrows. destruct r as [b|e]; [|apply run_transaction_Err in Hr as ->; by left].
  unfold release_after_death in Hr. inv_journal. guards.
  eapply touched_save; [done..|]. by apply release_good.
Qed.

Lemma release_stopped_touched residue a n r n' sp dead :
  release_stopped_attempt node residue a n = (r, n') → rows_ok sp dead (db_attempts (tn_db n)) →
  touched (good sp dead) (tn_db n) (tn_db n').
Proof.
  unfold release_stopped_attempt. intros Hr Hrows.
  apply run_bind_cases in Hr as [(? & Hm & _)|(x & n1 & Hm & Hr)];
    apply read_rejection_run in Hm as (-> & _ & _); [by left|].
  destruct x as [c|]; [injection Hr as _ <-; by left|].
  apply run_bind_cases in Hr as [(? & Hm & _)|(x & n1 & Hm & Hr)];
    apply on_db_run in Hm as [Hm _]; [by eapply release_touched|].
  injection Hr as _ <-. by eapply release_touched.
Qed.

(** *** Preparation *)

Lemma lease_renewed_Ok now q d b d' : lease_renewed now q d = (Ok b, d') → d' = d.
Proof. unfold lease_renewed. intros Hr. inv_run. split_run; inv_journal; done. Qed.

(** A preparation that is not a repetition takes the slot when it is free. *)
Lemma prepare_run now q m k floor d r d' :
  prepare node now q m k floor d = (r, d') →
  db_attempts d' = db_attempts d
  ∨ (r = Ok (new_attempt q)
     ∧ (∀ x, x ∈ db_attempts d → ta_released (ar_body x) = true)
     ∧ (∀ x, x ∈ db_attempts d → ar_id x ≠ tc_attempt_id (tp_command q))
     ∧ envelope_memory (rs_envelope (tp_resolved q)) ≤ m
     ∧ envelope_disk (tp_resolved q) ≤ MAX_ENVELOPE_DISK
     ∧ envelope_disk (tp_resolved q) + held_disk d + floor ≤ k
     ∧ db_attempts d' = db_attempts d
         ++ [mkAttemptRow (tc_attempt_id (tp_command q)) (tc_job_id (tp_command q))
               (tc_fence (tp_command q)) (new_attempt q)]).
Proof.
  intros Hr. destruct r as [v|e]; [|apply run_transaction_Err in Hr as ->; by left].
  unfold prepare in Hr. inv_journal.
  match goal with Hl : lease_renewed _ _ _ = _ |- _ => apply lease_renewed_Ok in Hl as -> end.
  split_run; inv_journal; [by left|]. right.
  match goal with Hi : insert_attempt _ _ = _ |- _ => unfold insert_attempt in Hi end. inv_journal.
  guards. unfold records, held_bytes, held_disk, find_row in *. simpl in *.
  match goal with Ha : db_attempts ?x = db_attempts d |- _ =>
    unfold records in *; rewrite Ha in * end.
  split_and!; try lia; try congruence.
  - intros row Hrow. destruct (ta_released (ar_body row)) eqn:E; [done|].
    match goal with He : existsb (λ a, negb _) _ = false |- _ =>
      apply not_true_iff_false in He; destruct He end.
    apply existsb_exists. exists (ar_body row). rewrite E.
    split; [apply list_elem_of_In; by apply list_elem_of_fmap_2|done].
  - intros row Hrow. eapply find_row_None; [|exact Hrow].
    match goal with Hp : present _ = false |- _ => revert Hp end. unfold find_row.
    by destruct (List.find _ _).
Qed.

Lemma prepare_attempt_run residue now admitted launchable m k floor q n r n' :
  prepare_attempt node residue now admitted launchable m k floor q n = (r, n') →
  tn_db n' = tn_db n ∨ ∃ m' k' x, prepare node now q m' k' floor (tn_db n) = (x, tn_db n').
Proof.
  unfold prepare_attempt. intros Hr.
  apply run_bind_cases in Hr as [(? & Hm & _)|([] & n1 & Hm & Hr)];
    [apply run_throw_if_Err in Hm as (_ & _ & ->); by left|apply run_throw_if_Ok in Hm as [_ ->]].
  apply run_bind_cases in Hr as [(? & Hm & _)|([] & n1 & Hm & Hr)];
    [apply run_throw_if_Err in Hm as (_ & _ & ->); by left|apply run_throw_if_Ok in Hm as [_ ->]].
  apply run_bind_cases in Hr as [(? & Hm & _)|(c & n1 & Hm & Hr)];
    apply read_rejection_run in Hm as [-> _]; [by left|].
  destruct c as [c|]; [injection Hr as _ <-; by left|].
  assert (Hbody : ∀ x n1,
    (throw_if ((tc_world_size (tp_command q) =? 2) && negb launchable) (TInvalid "collective");;
     m' ← some_or (TInvalid "sources unavailable") m;
     k' ← some_or (TInvalid "sources unavailable") k;
     on_db (prepare node now q m' k' floor);; mret tt) n = (x, n1) →
    tn_db n1 = tn_db n ∨ ∃ m' k' x, prepare node now q m' k' floor (tn_db n) = (x, tn_db n1)).
  { clear. intros x n1 Hr. walk Hr; try by left.
    - apply on_db_run in Hm as [Hm _]. right. eauto.
    - apply on_db_run in Hm as [Hm _]. injection Hr as _ <-. right. eauto. }
  apply run_on_error in Hr as [[Hr _]|(e & n1 & Hm & Hr)]; [by eapply Hbody|].
  apply Hbody in Hm.
  assert (tn_db n' = tn_db n1) as ->; [|done].
  apply run_bind_cases in Hr as [(? & Hx & _)|(u & n2 & Hx & Hr)]; [|injection Hr as _ <-];
    destruct e; try (by injection Hx as _ <-); by eapply record_rejection_run.
Qed.

Lemma Inv_prepare residue now admitted launchable m k floor q n r n' sp dead :
  prepare_attempt node residue now admitted launchable m k floor q n = (r, n') →
  Inv (mkSystem n Idle sp dead) → Inv (mkSystem n' Idle sp dead).
Proof.
  intros Hr HI. apply prepare_attempt_run in Hr as [Heq|(m' & k' & x & Hr)].
  { eapply Inv_touched; [done|]. left. by rewrite Heq. }
  apply prepare_run in Hr as [Heq|(_ & Hfree & Hnew & _ & _ & _ & Heq)].
  { eapply Inv_touched; [done|]. by left. }
  unfold Inv in *. simpl in *. rewrite Heq. destruct HI as ((Hids & Hb & Hslot) & Hnd & Hsp & _).
  assert (Hnsp : tc_attempt_id (tp_command q) ∉ sp).
  { intros (row & Hrow & Hid)%Hsp. by eapply Hnew. }
  split_and!; [split_and!|done| |done].
  - rewrite fmap_app. apply NoDup_app. split_and!; [done| |apply NoDup_singleton].
    intros a (row & -> & Hrow)%list_elem_of_fmap [E|E]%elem_of_cons; [|by apply elem_of_nil in E].
    by eapply Hnew.
  - intros row [Hrow| ->%list_elem_of_singleton]%elem_of_app; [by apply Hb|].
    split; [done|]. split; [done|]. by intros [?|?].
  - intros r1 r2 [H1| ->%list_elem_of_singleton]%elem_of_app
      [H2| ->%list_elem_of_singleton]%elem_of_app Hr1 Hr2; try done.
    + by rewrite (Hfree r1 H1) in Hr1.
    + by rewrite (Hfree r1 H1) in Hr1.
    + by rewrite (Hfree r2 H2) in Hr2.
  - intros a (row & Hrow & Hid)%Hsp. exists row. split; [|done]. apply elem_of_app. by left.
Qed.

(** *** Start *)

Lemma start_intent_run now ps launchable admitted published c p nonce d r d' :
  start_intent node now ps launchable admitted published c p nonce d = (r, d') →
  (db_attempts d' = db_attempts d ∧ ∀ v, r ≠ Ok (Spawning v))
  ∨ ∃ row v, row ∈ db_attempts d ∧ r = Ok (Spawning v)
      ∧ ta_released (ar_body row) = false ∧ ta_spawn_nonce (ar_body row) = None
      ∧ ta_attempt_id v = ta_attempt_id (ar_body row) ∧ ta_released v = false
      ∧ ta_spawn_nonce v = Some nonce ∧ ta_liveness v = LUnknown
      ∧ db_attempts d' = save_row v <$> db_attempts d.
Proof.
  intros Hr. destruct r as [i|e]; [|apply run_transaction_Err in Hr as ->; by left].
  unfold start_intent in Hr. inv_journal.
  repeat (split_run; cbv zeta in *; inv_journal).
  all: first [left; split; [by same_rows|done] | right].
  all: eexists _, _; split_and!; [by same_rows|done|done|done|done|done|done|done|by same_rows].
Qed.

Lemma start_run residue now ps preparing assets launchable admitted published c p nonce n r n' :
  start node residue now ps preparing assets launchable admitted published c p nonce n = (r, n') →
  (tn_db n' = tn_db n ∧ ∀ v, r ≠ Ok (Spawning v))
  ∨ start_intent node now ps launchable admitted published c p nonce (tn_db n) = (r, tn_db n').
Proof.
  unfold start. intros Hr.
  apply run_bind_cases in Hr as [(? & Hm & ->)|(x & n1 & Hm & Hr)];
    apply read_rejection_run in Hm as [-> _]; [by left|].
  apply run_bind_cases in Hr as [(? & Hm & ->)|([] & n1 & Hm & Hr)];
    [apply run_throw_if_Err in Hm as (_ & _ & ->); by left|apply run_throw_if_Ok in Hm as [_ ->]].
  apply run_bind_cases in Hr as [(? & Hm & ->)|([] & n1 & Hm & Hr)];
    [apply run_throw_if_Err in Hm as (_ & _ & ->); by left|apply run_throw_if_Ok in Hm as [_ ->]].
  apply run_bind_cases in Hr as [(? & Hm & ->)|(v & n1 & Hm & Hr)];
    apply on_db_run in Hm as [Hm _]; apply get_attempt_run in Hm as [Hm _].
  { left. by rewrite Hm. }
  apply run_bind_cases in Hr as [(? & Hx & ->)|(v' & n2 & Hx & Hr)];
    apply on_db_run in Hx as [Hx _].
  { apply prepared_of_run in Hx. left. split; [congruence|done]. }
  apply prepared_of_run in Hx.
  apply run_bind_cases in Hr as [(? & Hy & ->)|([] & n3 & Hy & Hr)];
    [apply run_throw_if_Err in Hy as (_ & _ & ->); left; split; [congruence|done]|
     apply run_throw_if_Ok in Hy as [_ ->]].
  right. apply on_db_run in Hr as [Hr _]. by rewrite Hx, Hm in Hr.
Qed.

Lemma Inv_start residue now ps preparing assets launchable admitted published c p nonce r n n' sp dead :
  start node residue now ps preparing assets launchable admitted published c p nonce n = (r, n') →
  Inv (mkSystem n Idle sp dead) → Inv (mkSystem n' (after_start c p nonce r) sp dead).
Proof.
  intros Hr HI.
  assert (Hidle : ∀ rr, (∀ v, rr ≠ Ok (Spawning v)) → after_start c p nonce rr = Idle).
  { intros [[| |v]|e] Hv; try done. by destruct (Hv v). }
  apply start_run in Hr as [[Heq Hv]|Hr].
  { rewrite Hidle by done. eapply Inv_touched; [done|]. left. by rewrite Heq. }
  apply start_intent_run in Hr as
    [[Heq Hv]|(row & v & Hrow & -> & Hrel & Hnn & Hid & Hvr & Hvn & Hvl & Heq)].
  { rewrite Hidle by done. eapply Inv_touched; [done|]. by left. }
  unfold Inv in *. simpl in *. rewrite Heq. destruct HI as (Hrows & Hnd & Hsp & _).
  destruct (current_vouched sp dead _ _ Hrows Hrow) as ([Hcn _] & Hex & Hfree).
  assert (Hnsp : ta_attempt_id v ∉ sp).
  { rewrite Hid. intros Hin%Hcn. by rewrite Hnn in Hin. }
  assert (Hvo : vouched sp dead (db_attempts (tn_db n)) v).
  { split_and!.
    - split; [by intros ?|]. rewrite Hvl, Hvr. by intros [?|?].
    - by rewrite Hid.
    - intros _. rewrite Hid. auto. }
  split_and!; [by apply save_rows_ok|done| | |done|by rewrite Hvn|].
  - intros a (r0 & Hr0 & <-)%Hsp. exists (save_row v r0).
    split; [by apply list_elem_of_fmap_2|by rewrite save_row_id].
  - destruct Hvo as (? & (r0 & Hr0 & Hi0) & Hf). split_and!; [done| |].
    + exists (save_row v r0). split; [by apply list_elem_of_fmap_2|by rewrite save_row_id].
    + intros _ r' (r1 & Hr1 & ->)%elem_save_row. rewrite save_row_id. intros Hne.
      rewrite save_row_miss by done. auto.
  - intros r' (r1 & Hr1 & ->)%elem_save_row. rewrite save_row_id. intros E.
    rewrite save_row_hit by done. by rewrite Hvn.
Qed.

(** *** Writing back a record in flight *)

Lemma Inv_write_back v n n' fl sp dead :
  Inv (mkSystem n fl sp dead) → vouched sp dead (db_attempts (tn_db n)) v →
  db_attempts (tn_db n') = save_row v <$> db_attempts (tn_db n) →
  Inv (mkSystem n' Idle sp dead).
Proof.
  unfold Inv. simpl. intros (Hrows & Hnd & Hsp & _) Hv ->. split_and!; [by apply save_rows_ok|done| |done].
  intros a (r0 & Hr0 & <-)%Hsp. exists (save_row v r0).
  split; [by apply list_elem_of_fmap_2|by rewrite save_row_id].
Qed.

Lemma start_commit_run c p nonce v pid created d r d' :
  start_commit c p nonce v pid created d = (r, d') →
  db_attempts d' = save_row (set_process LRunning (Some pid) (Some created) v) <$> db_attempts d.
Proof. cbv [start_commit transaction mbind M_bind save modify receipt mret M_ret]. by intros [= _ <-]. Qed.

Lemma stop_commit_run now c why v l d r d' :
  stop_commit now c why v l d = (r, d') →
  db_attempts d' = save_row (set_liveness l v) <$> db_attempts d.
Proof. cbv [stop_commit transaction mbind M_bind save modify receipt mret M_ret]. by intros [= _ <-]. Qed.

Lemma stop_commit_good ps complete v sp dead :
  body_ok sp dead v →
  good sp (match ta_pid v with
           | Some pid => if same LStopped (pr_stop ps pid (ta_process_create_time v))
                         then [ta_attempt_id v] else []
           | None => []
           end ++ dead) v (set_liveness (stop_state ps complete v) v).
Proof.
  intros Hb. do 3 (split; [done|]). intros _. split; [apply Hb|]. simpl. unfold stop_state.
  destruct Hb as [_ Hb]. intros [E|E]; [|destruct (Hb (or_intror E)); [by left|right; set_solver]].
  destruct (ta_pid v) as [pid|]; [rewrite E; right; simpl; set_solver|].
  destruct (ta_spawn_nonce v) eqn:En; [|by left]. simpl in E.
  destruct (Hb (or_introl E)); [done|right; set_solver].
Qed.

(** *** Stop *)

Lemma stop_rejected_run now q c why d r d' :
  stop_rejected node now q c why d = (r, d') → touched benign d d'.
Proof.
  revert d r d'. unfold stop_rejected. apply touched_guarded, touched_transaction.
  intros d x d' Hr. inv_journal. repeat split_run; cbv zeta in *; inv_journal;
    apply touched_none; by same_rows.
Qed.

Lemma record_stop_run residue c why n r n' :
  record_stop node residue c why n = (r, n') → tn_db n' = tn_db n.
Proof.
  unfold record_stop. intros Hr. walk Hr; [done|]. by eapply write_rejection_run.
Qed.

Lemma stop_run residue now c why n r n' :
  stop node residue now c why n = (r, n') → touched benign (tn_db n) (tn_db n').
Proof.
  unfold stop. intros Hr.
  apply run_bind_cases in Hr as [(? & Hm & _)|([] & n1 & Hm & Hr)];
    [apply run_throw_if_Err in Hm as (_ & _ & ->); by left|apply run_throw_if_Ok in Hm as [_ ->]].
  apply run_bind_cases in Hr as [(? & Hm & _)|(x & n1 & Hm & Hr)];
    apply read_rejection_run in Hm as [-> _]; [by left|].
  apply run_bind_cases in Hr as [(? & Hm & _)|(n0 & n1 & Hm & Hr)]; [done|injection Hm as <- <-].
  apply run_bind_cases in Hr as [(? & Hm & _)|(y & n1 & Hm & Hr)].
  - assert (tn_db n' = tn_db n) as ->; [|by left]. destruct (absent x && _); [|by injection Hm as _ <-].
    apply run_bind_cases in Hm as [(? & Hm & _)|(u & n1 & Hm & Hx)];
      [by apply record_stop_run in Hm|apply read_rejection_run in Hx as [-> _]; by apply record_stop_run in Hm].
  - assert (tn_db n1 = tn_db n) as Heq.
    { destruct (absent x && _); [|by injection Hm as _ <-].
      apply run_bind_Ok in Hm as (u & n2 & Hm & Hx). apply read_rejection_run in Hx as [-> _].
      by apply record_stop_run in Hm. }
    rewrite <- Heq. destruct y as [q|].
    + apply run_bind_cases in Hr as [(? & Hx & _)|(z & n2 & Hx & Hr)];
        apply on_db_run in Hx as [Hx _]; apply stop_rejected_run in Hx; [done|by injection Hr as _ <-].
    + apply run_bind_cases in Hr as [(? & Hx & _)|(z & n2 & Hx & Hr)];
        apply on_db_run in Hx as [Hx _]; apply stop_intent_touched in Hx; [done|by injection Hr as _ <-].
Qed.

(** The record a stop reads after observing is one it may write back. *)
Lemma stop_observe_run residue ps birth c n r n' sp dead :
  stop_observe node residue ps birth c n = (r, n') → rows_ok sp dead (db_attempts (tn_db n)) →
  touched (good sp (reported ps birth (tc_attempt_id c) n ++ dead)) (tn_db n) (tn_db n')
  ∧ ∀ v, r = Ok v → ∃ row, row ∈ db_attempts (tn_db n') ∧ v = ar_body row.
Proof.
  unfold stop_observe. intros Hr Hrows.
  apply run_bind_cases in Hr as [(? & Hm & ->)|(x & n1 & Hm & Hr)];
    pose proof (observe_touched _ _ _ _ _ _ _ _ _ Hm Hrows) as Ht; [by split|].
  apply on_db_run in Hr as [Hr _]. pose proof (get_attempt_run _ _ _ _ Hr) as [Hd _].
  rewrite Hd. split; [done|]. intros v ->. rewrite Hd in Hr.
  apply get_attempt_Ok in Hr as (_ & row & ? & _ & ->). eauto.
Qed.

(** *** Cleanup *)

Lemma record_cleanup_touched a digest d r d' :
  record_cleanup digest a d = (r, d') → touched benign d d'.
Proof.
  revert d r d'. apply touched_transaction. intros d x d' Hr. inv_journal.
  by eapply touched_save.
Qed.

Lemma purge_attempt_touched a digest d r d' :
  purge_attempt digest a d = (r, d') → touched benign d d'.
Proof.
  revert d r d'. apply touched_transaction. intros d x d' Hr. inv_journal.
  by eapply touched_save.
Qed.

Lemma touched_good sp dead d d' : touched benign d d' → touched (good sp dead) d d'.
Proof. apply touched_weaken, benign_good. Qed.

Lemma cleanup_intent_touches residue ps birth digest owned a row n r n' sp dead :
  cleanup_intent node residue ps birth digest owned a (ar_body row) n = (r, n') →
  find_row a (tn_db n) = Some row → rows_ok sp dead (db_attempts (tn_db n)) →
  rtc (touched (good sp (cleanup_reported ps birth a n ++ dead))) (tn_db n) (tn_db n').
Proof.
  unfold cleanup_intent, cleanup_reported. intros Hr -> Hrows.
  destruct (ta_cleanup (ar_body row)) as [cl|]; simpl.
  { unfold throw_if in Hr. case_match; injection Hr as _ <-; apply rtc_refl. }
  apply run_bind_cases in Hr as [(? & Hm & _)|(x & n1 & Hm & Hr)];
    pose proof (observe_touched _ _ _ _ _ _ _ _ _ Hm Hrows) as Ht; (eapply rtc_l; [exact Ht|]);
    [apply rtc_refl|].
  apply run_bind_cases in Hr as [(? & Hx & _)|(v & n2 & Hx & Hr)];
    apply on_db_run in Hx as [Hx _]; apply get_attempt_run in Hx as [Hx _];
    [by rewrite Hx|rewrite <- Hx].
  walk Hr; try apply rtc_refl.
  apply on_db_run in Hr as [Hr _]. apply record_cleanup_touched in Hr.
  apply rtc_once. by apply touched_good.
Qed.

Lemma cleanup_touches residue ps birth digest owned erased q n r n' sp dead :
  cleanup_attempt node residue ps birth digest owned erased q n = (r, n') →
  rows_ok sp dead (db_attempts (tn_db n)) →
  rtc (touched (good sp (cleanup_reported ps birth (cu_attempt_id q) n ++ dead)))
      (tn_db n) (tn_db n').
Proof.
  unfold cleanup_attempt. intros Hr Hrows.
  apply run_bind_cases in Hr as [(? & Hm & _)|(v & n1 & Hm & Hr)];
    apply on_db_run in Hm as [Hm Hrj]; apply get_attempt_run in Hm as [Hd Hf];
    [by rewrite Hd|].
  assert (n1 = n) as -> by (destruct n, n1; simpl in *; by subst).
  destruct (find_row _ (tn_db n)) as [row|] eqn:Ef; [injection Hf as ->|by destruct Hf].
  apply run_bind_cases in Hr as [(? & Hm & _)|(p & n1 & Hm & Hr)];
    apply on_db_run in Hm as [Hm Hrj']; apply prepared_of_run in Hm; [by rewrite Hm|].
  assert (n1 = n) as -> by (destruct n, n1; simpl in *; by subst).
  apply run_bind_cases in Hr as [(? & Hx & _)|([] & n1 & Hx & Hr)];
    [apply run_throw_if_Err in Hx as (_ & _ & ->); apply rtc_refl
    |apply run_throw_if_Ok in Hx as [_ ->]].
  apply run_bind_cases in Hr as [(? & Hx & _)|(u & n1 & Hx & Hr)];
    pose proof (cleanup_intent_touches _ _ _ _ _ _ _ _ _ _ _ _ Hx Ef Hrows) as Hts; [done|].
  etrans; [exact Hts|]. clear Hx Hts Hm.
  case_match; [injection Hr as _ <-; apply rtc_refl|].
  walk Hr; try apply rtc_refl.
  apply on_db_run in Hr as [Hr _]. apply purge_attempt_touched in Hr.
  apply rtc_once. by apply touched_good.
Qed.

(** ** The invariant holds *)

Lemma Inv_rows n fl sp dead :
  Inv (mkSystem n fl sp dead) → rows_ok sp dead (db_attempts (tn_db n)).
Proof. by intros [? _]. Qed.

Lemma Inv_db {A} (m : M Database TrainingError A) n r n' fl sp dead :
  (∀ d r d', m d = (r, d') → touched benign d d') →
  on_db m n = (r, n') → Inv (mkSystem n fl sp dead) → Inv (mkSystem n' fl sp dead).
Proof.
  intros Hm [Hr _]%on_db_run HI. eapply Inv_touched; [done|]. eapply touched_good, Hm, Hr.
Qed.

Lemma body_ok_spawn sp dead v a :
  body_ok sp dead v → (ta_attempt_id v = a → present (ta_spawn_nonce v) = true) →
  body_ok (a :: sp) dead v.
Proof. intros [Hn Hd] Ha. split; [|done]. intros [E|E]%elem_of_cons; auto. Qed.

Lemma Inv_spawn c p nonce v pid created n sp dead :
  Inv (mkSystem n (Starting c p nonce v) sp dead) →
  Inv (mkSystem n (Started c p nonce v pid created) (ta_attempt_id v :: sp) dead).
Proof.
  unfold Inv. simpl.
  intros ((Hids & Hb & Hslot) & Hnd & Hsp & ((Hok & Hex & Hfree) & Hns & Hpr & Hall)).
  split_and!.
  - split_and!; [done| |done]. intros r Hr. destruct (Hb r Hr) as [Hid Hbr]. split; [done|].
    apply body_ok_spawn; [done|]. rewrite Hid. by apply Hall.
  - by apply NoDup_cons.
  - intros a [->|Ha]%elem_of_cons; auto.
  - split_and!; [|done..]. by apply body_ok_spawn.
Qed.

Lemma Inv_step s s' : system_step node s s' → Inv s → Inv s'.
Proof.
  intros Hs HI. destruct Hs as [
    residue now admitted launchable m k floor q r n n' sp dead Hr
    | residue now ps preparing assets launchable admitted published c p nonce r n n' sp dead Hr
    | c p nonce v pid created n sp dead
    | c p nonce v pid created r n n' sp dead Hr
    | now published c r n n' sp dead Hr
    | now published c reason r n n' sp dead Hr
    | now published staged c ver upd ck sha r n n' sp dead Hr
    | residue now c reason r n n' sp dead Hr
    | residue now c reason r n n' fl sp dead Hr _
    | residue ps birth c reason r n n' sp dead Hr
    | now ps complete c reason v r n n' sp dead Hr
    | residue ps birth a r n n' fl sp dead Hr
    | residue a r n n' fl sp dead Hr
    | a r n n' fl sp dead Hr
    | now e r n n' fl sp dead Hr
    | a size disk source r n n' fl sp dead Hr
    | residue ps birth digest owned erased q r n n' fl sp dead Hr
    | n fl sp dead ].
  - by eapply Inv_prepare.
  - by eapply Inv_start.
  - by apply Inv_spawn.
  - apply on_db_run in Hr as [Hr _]. apply start_commit_run in Hr.
    eapply Inv_write_back; [done| |done]. eapply good_vouched; [by apply process_good|].
    by destruct HI as (_ & _ & _ & ?).
  - eapply (Inv_db (renew node now published c)); [apply renew_touched|done..].
  - eapply (Inv_db (pause node now published c reason)); [apply pause_touched|done..].
  - eapply Inv_db; [|done..]. apply acknowledge_touched.
  - apply stop_run in Hr. apply (touched_good sp dead) in Hr.
    destruct r as [[x|]|e]; simpl; [by eapply Inv_touched| |by eapply Inv_touched].
    by apply (Inv_touched n n' Idle) in HI.
  - apply stop_run in Hr. eapply Inv_touched; [done|]. by apply touched_good.
  - pose proof (Inv_rows _ _ _ _ HI) as Hrows.
    destruct (stop_observe_run _ _ _ _ _ _ _ _ _ Hr Hrows) as [Ht Hv].
    apply (Inv_dead _ _ _ _ (reported ps birth (tc_attempt_id c) n ++ dead)) in HI; [|set_solver].
    eapply Inv_touched in HI; [|exact Ht].
    destruct r as [v|e]; simpl; [|by eapply Inv_crash].
    destruct (Hv v eq_refl) as (row & Hrow & ->).
    destruct HI as (Hr' & Hnd & Hsp & _). split_and!; try done. simpl. by apply current_vouched.
  - apply on_db_run in Hr as [Hr _]. apply stop_commit_run in Hr.
    pose proof HI as (_ & _ & _ & (Hb & _)). simpl in Hb.
    match goal with |- Inv (mkSystem _ _ _ ?dead') =>
      assert (HI' : Inv (mkSystem n (StopRead c reason v) sp dead'))
        by (eapply Inv_dead; [|exact HI]; set_solver) end.
    eapply Inv_write_back; [exact HI'| |done].
    eapply good_vouched; [by apply stop_commit_good|]. by destruct HI' as (_ & _ & _ & ?).
  - pose proof (observe_touched _ _ _ _ _ _ _ _ _ Hr (Inv_rows _ _ _ _ HI)) as Ht.
    eapply Inv_touched; [|exact Ht]. eapply Inv_dead; [|exact HI]. set_solver.
  - eapply Inv_touched; [done|]. eapply release_stopped_touched; [done|by eapply Inv_rows].
  - apply on_db_run in Hr as [Hr _]. eapply Inv_touched; [done|].
    eapply release_touched; [done|by eapply Inv_rows].
  - eapply Inv_db; [|done..]. apply append_event_touched.
  - eapply Inv_db; [|done..]. apply hold_input_bytes_touched.
  - pose proof (cleanup_touches _ _ _ _ _ _ _ _ _ _ _ _ Hr (Inv_rows _ _ _ _ HI)) as Ht.
    eapply Inv_touches; [exact Ht|]. eapply Inv_dead; [|exact HI]. set_solver.
  - by eapply Inv_crash.
Qed.

Lemma training_reachable_Inv s : reachable node s → Inv s.
Proof.
  intros (s0 & -> & Hs). remember (mkSystem _ _ _ _) as s0 eqn:E0.
  assert (Inv s0) as HI.
  { rewrite E0. split_and!; simpl; try done; [|by apply NoDup_nil|by intros ? ?%elem_of_nil].
    split_and!; [by apply NoDup_nil|by intros ? ?%elem_of_nil|by intros ? ? ?%elem_of_nil]. }
  clear E0. induction Hs; eauto using Inv_step.
Qed.

(** ** Fences *)

(** Rows stay, with their job and fence. *)
Definition rows_kept (d d' : Database) : Prop :=
  ∀ r, r ∈ db_attempts d →
    ∃ r', r' ∈ db_attempts d' ∧ ar_id r' = ar_id r ∧ ar_job r' = ar_job r ∧ ar_fence r' = ar_fence r.

Lemma rows_kept_eq d d' : db_attempts d' = db_attempts d → rows_kept d d'.
Proof. intros E r Hr. exists r. by rewrite E. Qed.
Lemma rows_kept_save v d d' : db_attempts d' = save_row v <$> db_attempts d → rows_kept d d'.
Proof.
  intros E r Hr. exists (save_row v r). rewrite E, save_row_id, save_row_job, save_row_fence.
  split; [by apply list_elem_of_fmap_2|done].
Qed.
Lemma rows_kept_touched R d d' : touched R d d' → rows_kept d d'.
Proof. intros [?|(r & v & _ & _ & ?)]; [by apply rows_kept_eq|by eapply rows_kept_save]. Qed.
#[global] Instance rows_kept_preorder : PreOrder rows_kept.
Proof.
  split; [by intros d r Hr; eauto|]. intros d1 d2 d3 H1 H2 r Hr.
  destruct (H1 r Hr) as (r2 & Hr2 & ? & ? & ?). destruct (H2 r2 Hr2) as (r3 & Hr3 & ? & ? & ?).
  exists r3. split_and!; congruence.
Qed.
Lemma rows_kept_touches R d d' : rtc (touched R) d d' → rows_kept d d'.
Proof. induction 1 as [|???? _ IH]; [done|]. etrans; [by eapply rows_kept_touched|done]. Qed.

Lemma latest_fence_ge job d r :
  r ∈ db_attempts d → ar_job r = job → ∃ f, latest_fence job d = Some f ∧ ar_fence r ≤ f.
Proof.
  unfold latest_fence. induction (db_attempts d) as [|x rows IH]; intros Hr <-;
    [by apply elem_of_nil in Hr|]. simpl.
  apply elem_of_cons in Hr as [->|Hr].
  - rewrite String.eqb_refl. eexists. split; [done|]. case_match; lia.
  - destruct (IH Hr eq_refl) as (f & -> & Hf). case_match; eexists; (split; [done|]); lia.
Qed.

(** A command behind the latest fence of its job is refused and changes nothing. *)
Lemma accept_fenced now c lease d r :
  r ∈ db_attempts d → ar_job r = tc_job_id (base c) → tc_fence (base c) < ar_fence r →
  ∃ e, accept node now c lease d = (Err e, d).
Proof.
  intros Hr Hj Hf. destruct (latest_fence_ge _ d r Hr Hj) as (f & Hl & Hle).
  destruct (accept node now c lease d) as [[x|e] d'] eqn:E.
  - apply accept_Ok in E as (_ & _ & _ & _ & Hacc). specialize (Hacc f Hl). lia.
  - apply accept_Err in E as ->; [|done]. by exists e.
Qed.

Lemma system_step_rows s s' :
  system_step node s s' → Inv s → rows_kept (tn_db (sy_node s)) (tn_db (sy_node s')).
Proof.
  destruct s as [n0 fl0 sp0 dead0]. intros Hs HI. apply Inv_rows in HI. simpl.
  inversion Hs as [
    residue now admitted launchable m k floor q r n n' sp dead Hr E1 E2
    | residue now ps preparing assets launchable admitted published c p nonce r n n' sp dead Hr E1 E2
    | c p nonce v pid created n sp dead E1 E2
    | c p nonce v pid created r n n' sp dead Hr E1 E2
    | now published c r n n' sp dead Hr E1 E2
    | now published c reason r n n' sp dead Hr E1 E2
    | now published staged c ver upd ck sha r n n' sp dead Hr E1 E2
    | residue now c reason r n n' sp dead Hr E1 E2
    | residue now c reason r n n' fl sp dead Hr _ E1 E2
    | residue ps birth c reason r n n' sp dead Hr E1 E2
    | now ps complete c reason v r n n' sp dead Hr E1 E2
    | residue ps birth a r n n' fl sp dead Hr E1 E2
    | residue a r n n' fl sp dead Hr E1 E2
    | a r n n' fl sp dead Hr E1 E2
    | now e r n n' fl sp dead Hr E1 E2
    | a size disk source r n n' fl sp dead Hr E1 E2
    | residue ps birth digest owned erased q r n n' fl sp dead Hr E1 E2
    | n fl sp dead E1 E2 ]; subst; simpl; try done.
  - apply prepare_attempt_run in Hr as [->|(m' & k' & x & Hr)]; [done|].
    apply prepare_run in Hr as [Heq|(_ & _ & _ & _ & _ & _ & Heq)]; [by apply rows_kept_eq|].
    intros row Hrow. exists row. rewrite Heq. split; [|done]. apply elem_of_app. by left.
  - apply start_run in Hr as [[-> _]|Hr]; [done|].
    apply start_intent_run in Hr as [[Heq _]|(row & v & _ & _ & _ & _ & _ & _ & _ & _ & Heq)];
      [by apply rows_kept_eq|by eapply rows_kept_save].
  - apply on_db_run in Hr as [Hr _]. apply start_commit_run in Hr. by eapply rows_kept_save.
  - apply on_db_run in Hr as [Hr _]. eapply rows_kept_touched, renew_touched, Hr.
  - apply on_db_run in Hr as [Hr _]. eapply rows_kept_touched, pause_touched, Hr.
  - apply on_db_run in Hr as [Hr _]. eapply rows_kept_touched, acknowledge_touched, Hr.
  - eapply rows_kept_touched, stop_run, Hr.
  - eapply rows_kept_touched, stop_run, Hr.
  - by eapply rows_kept_touched, stop_observe_run.
  - apply on_db_run in Hr as [Hr _]. apply stop_commit_run in Hr. by eapply rows_kept_save.
  - by eapply rows_kept_touched, observe_touched.
  - by eapply rows_kept_touched, release_stopped_touched.
  - apply on_db_run in Hr as [Hr _]. by eapply rows_kept_touched, release_touched.
  - apply on_db_run in Hr as [Hr _]. eapply rows_kept_touched, append_event_touched, Hr.
  - apply on_db_run in Hr as [Hr _]. eapply rows_kept_touched, hold_input_bytes_touched, Hr.
  - by eapply rows_kept_touches, cleanup_touches.
Qed.
End steps.
