(* ===== verification/TrainingSafety.v ===== *)
(** * One slot, one process, no release before death

    The guarantees of a Studio's training journal, for every interleaving of
    commands, watchdog observations, worker events, erasures and crashes. *)
From S2P Require Import Prelude Effects TrainingJournal TrainingSupervisor TrainingFacts.
Open Scope Z_scope.

Section safety.
Context `{TrainingCodec, ReceiptCodec} (node : string).

Lemma reachable_step_Inv s s' : Inv s → rtc (system_step node) s s' →
  Inv s' ∧ rows_kept (tn_db (sy_node s)) (tn_db (sy_node s')).
Proof.
  intros HI Hs. induction Hs as [s|s s1 s' Hst Hs IH]; [done|].
  destruct (IH (Inv_step node _ _ Hst HI)) as [? ?]. split; [done|].
  etrans; [by eapply system_step_rows|done].
Qed.

(** C4. One slot: in every reachable state at most one attempt is unreleased, even
    though a stop or start writes back a record it read before awaiting. *)
Theorem one_training_slot s r1 r2 :
  reachable node s → r1 ∈ db_attempts (tn_db (sy_node s)) → r2 ∈ db_attempts (tn_db (sy_node s)) →
  ta_released (ar_body r1) = false → ta_released (ar_body r2) = false → r1 = r2.
Proof.
  intros Hs H1 H2 Hr1 Hr2. apply training_reachable_Inv in Hs as ((Hids & _ & Hslot) & _).
  eapply (NoDup_fmap_inj ar_id); [exact Hids|done..|]. by apply Hslot.
Qed.

(** C17. One process: no attempt is ever spawned twice, whatever is retried, replayed
    or interrupted by a crash, and every spawned attempt keeps its spawn nonce. *)
Theorem spawned_at_most_once s :
  reachable node s →
  NoDup (sy_spawned s)
  ∧ ∀ a, a ∈ sy_spawned s →
      ∃ r, r ∈ db_attempts (tn_db (sy_node s)) ∧ ar_id r = a
           ∧ is_Some (ta_spawn_nonce (ar_body r)).
Proof.
  intros Hs. apply training_reachable_Inv in Hs as ((_ & Hb & _) & Hnd & Hsp & _). split; [done|].
  intros a Ha. destruct (Hsp a Ha) as (r & Hr & Hid). exists r. split_and!; [done..|].
  destruct (Hb r Hr) as [Hi [Hn _]]. rewrite Hi, Hid in Hn. specialize (Hn Ha).
  by destruct (ta_spawn_nonce (ar_body r)).
Qed.

(** C18. No release before death: an attempt for which a process was spawned is
    released, and so gives its memory back, only after its process group was
    reported stopped. *)
Theorem released_after_death s r :
  reachable node s → r ∈ db_attempts (tn_db (sy_node s)) →
  ta_released (ar_body r) = true → ar_id r ∈ sy_spawned s → ar_id r ∈ sy_dead s.
Proof.
  intros Hs Hr Hrel Hsp. apply training_reachable_Inv in Hs as ((_ & Hb & _) & _).
  destruct (Hb r Hr) as [Hi [Hn Hd]]. rewrite Hi in *.
  destruct (Hd (or_intror Hrel)) as [E|E]; [|done]. by rewrite E in Hn; specialize (Hn Hsp).
Qed.

(** ** Fences *)

Lemma refused {A} (m : M Database TrainingError A) d r d' :
  (∀ x d', m d ≠ (Ok x, d')) → transaction m d = (r, d') → is_ok r = false ∧ d' = d.
Proof.
  intros Hm Hr. destruct r as [x|e]; [|by apply run_transaction_Err in Hr as ->].
  apply (proj1 (run_transaction_Ok _ _ _ _)) in Hr. by destruct (Hm x d').
Qed.

Lemma refused_accept {A} now c lease (f : option string → M Database TrainingError A) d row x d' :
  row ∈ db_attempts d → ar_job row = tc_job_id (base c) → tc_fence (base c) < ar_fence row →
  (accept node now c lease ≫= f) d ≠ (Ok x, d').
Proof.
  intros Hrow Hj Hf Hr. apply run_bind_Ok in Hr as (y & d1 & Ha & _).
  by destruct (accept_fenced node now c lease d row Hrow Hj Hf) as [e He]; rewrite He in Ha.
Qed.

(** A newer fence ends the old one: once an attempt of a job is prepared under a
    fence, every later command of that job with a lower fence, and every event of a
    worker with a lower fence, raises and leaves the journal as it is. *)
Theorem superseded_fence_refused s s' row c now :
  reachable node s → rtc (system_step node) s s' → row ∈ db_attempts (tn_db (sy_node s)) →
  tc_job_id (base c) = ar_job row → tc_fence (base c) < ar_fence row →
  let d := tn_db (sy_node s') in
  match c with
  | Prepare q => ∀ m k floor r d', prepare node now q m k floor d = (r, d') → is_ok r = false ∧ d' = d
  | Start b p nonce => ∀ ps l a w r d',
      start_intent node now ps l a w b p nonce d = (r, d') → is_ok r = false ∧ d' = d
  | Renew b => ∀ w r d', renew node now w b d = (r, d') → is_ok r = false ∧ d' = d
  | Pause b why => ∀ w r d', pause node now w b why d = (r, d') → is_ok r = false ∧ d' = d
  | Stop b why => ∀ r d', stop_intent node now b why d = (r, d') → is_ok r = false ∧ d' = d
  | AcknowledgeCheckpoint b ver upd ck sha => ∀ w staged r d',
      acknowledge_checkpoint node now w staged b ver upd ck sha d = (r, d') →
      is_ok r = false ∧ d' = d
  end
  ∧ ∀ e r d', ne_job_id e = ar_job row → ne_fence e < ar_fence row →
      append_event now e d = (r, d') → is_ok r = false ∧ d' = d.
Proof.
  intros HI%training_reachable_Inv Hs Hrow Hj Hf d. destruct (reachable_step_Inv _ _ HI Hs) as [_ Hkept].
  destruct (Hkept row Hrow) as (row' & Hrow' & _ & Hj' & Hf'). fold d in Hrow'.
  rewrite <- Hj' in Hj. rewrite <- Hf' in Hf. symmetry in Hj. split.
  - destruct c; intros; (eapply refused; [|eassumption]); intros x dx Hx;
      try (by eapply refused_accept in Hx).
    apply run_bind_Ok in Hx as (b & d1 & Hl & Hx). apply lease_renewed_Ok in Hl as ->.
    by eapply refused_accept in Hx.
  - intros e r d' Hej Hef Hr. unfold append_event in Hr. walk Hr; try done.
    eapply refused; [|exact Hr]. intros y dy Hy. inv_journal. unfold has_authority in *. guards.
    destruct (latest_fence_ge (ne_job_id e) d row' Hrow' ltac:(congruence)) as (f & Hl & Hle).
    assert (f = ne_fence e) by congruence. lia.
Qed.

(** ** Capacity *)

Lemma held_disk_app d rows row :
  db_attempts d = rows ++ [row] → held_disk d = sum_Z (ta_disk_bytes ∘ ar_body <$> rows) + ta_disk_bytes (ar_body row).
Proof.
  intros E. unfold held_disk, records. rewrite E, !fmap_app, sum_Z_app, <- list_fmap_compose.
  simpl. lia.
Qed.

(** A preparation that takes the slot fits: after it the memory of all unreleased
    attempts is the new attempt's and within what was available, and the disk of all
    attempts, released ones included, plus the floor is within the disk available. *)
Theorem prepare_within_capacity now q m k floor d v d' :
  prepare node now q m k floor d = (Ok v, d') → db_attempts d' ≠ db_attempts d →
  v = new_attempt q ∧ held_memory d' = ta_memory_bytes v ∧ held_memory d' ≤ m
  ∧ ta_disk_bytes v ≤ MAX_ENVELOPE_DISK ∧ held_disk d' + floor ≤ k.
Proof.
  intros Hr Hne. apply prepare_run in Hr as [?|(Hv & Hfree & _ & Hm & Hmax & Hk & Heq)]; [done|].
  injection Hv as ->. rewrite (held_disk_app _ _ _ Heq).
  assert (held_memory d' = envelope_memory (rs_envelope (tp_resolved q))) as Hmem.
  { unfold held_memory, records. rewrite Heq, fmap_app, filter_app, fmap_app, sum_Z_app.
    change (ar_body <$> [_]) with [new_attempt q]. rewrite filter_cons_True by done. simpl.
    replace (filter _ (ar_body <$> db_attempts d)) with (@nil TrainingAttempt); [simpl; lia|].
    symmetry. apply filter_none. intros x (r & -> & Hr)%list_elem_of_fmap. by rewrite (Hfree r Hr). }
  unfold held_disk, records in Hk. rewrite <- list_fmap_compose in Hk. simpl.
  split_and!; try done; lia.
Qed.

(** ** The event log *)

Definition event_row (e : NodeTrainingEvent) : EventRow :=
  mkEventRow (ne_attempt_id e) (ne_sequence e) (encode_event e).

(** The events of [a] in the table are those of [es], numbered from 1. *)
Definition log_of (a : string) (es : list NodeTrainingEvent) (d : Database) : Prop :=
  events_of a d = event_row <$> es ∧ ne_sequence <$> es = seqZ 1 (Z.of_nat (length es)).
Definition log_ok (d : Database) : Prop := ∀ a, ∃ es, log_of a es d.

Lemma log_ok_events d d' : db_events d' = db_events d → log_ok d → log_ok d'.
Proof. unfold log_ok, log_of, events_of. by intros ->. Qed.

Lemma foldr_max_base l z : 0 ≤ z → foldr Z.max z l = Z.max z (foldr Z.max 0 l).
Proof. intros Hz. induction l; simpl; lia. Qed.

Lemma foldr_max_seqZ n : foldr Z.max 0 (seqZ 1 (Z.of_nat n)) = Z.of_nat n.
Proof.
  induction n as [|n IH]; [done|].
  rewrite Nat2Z.inj_succ, <- Z.add_1_r, seqZ_app by lia. rewrite foldr_app.
  rewrite (foldr_max_base (seqZ 1 (Z.of_nat n))) by (simpl; lia). rewrite IH. simpl. lia.
Qed.

Lemma last_sequence_log a es d : log_of a es d → last_sequence (events_of a d) = Z.of_nat (length es).
Proof.
  intros [-> Hs]. unfold last_sequence. rewrite <- list_fmap_compose.
  change (er_sequence ∘ event_row) with ne_sequence. by rewrite Hs, foldr_max_seqZ.
Qed.

(** Appending the next event extends the log of its attempt and no other. *)
Lemma append_event_log now e d r d' :
  append_event now e d = (r, d') → log_ok d → log_ok d'.
Proof.
  intros Hr Hlog. unfold append_event in Hr. walk Hr; try done.
  destruct r as [[]|err]; [|by apply run_transaction_Err in Hr as ->].
  inv_journal.
  match goal with Hc : check_payload _ _ _ = _ |- _ => apply check_payload_Ok in Hc as -> end.
  split_run; inv_journal; [done|]. guards.
  intros a. destruct (Hlog a) as [es Hes].
  pose proof (last_sequence_log _ _ _ Hes) as Hlast. unfold log_of, events_of in *.
  match goal with Hd : db_events d' = _ |- _ => rewrite Hd end.
  cbn [db_events set_events]. rewrite filter_app. destruct (decide (ne_attempt_id e = a)) as [<-|Hne].
  - exists (es ++ [e]). rewrite filter_cons_True by done. destruct Hes as [Hrows Hseq].
    change (filter _ []) with (@nil EventRow).
    rewrite Hrows, !fmap_app. split; [done|]. rewrite Hseq, length_app, Nat2Z.inj_add.
    rewrite seqZ_app by lia. f_equal. change (Z.of_nat (length [e])) with 1.
    rewrite seqZ_cons by lia. change (ne_sequence <$> [e]) with [ne_sequence e]. f_equal. lia.
  - exists es. rewrite filter_cons_False by done. change (filter _ []) with (@nil EventRow).
    by rewrite app_nil_r.
Qed.

Lemma purge_log digest a : preserved log_ok (purge_attempt digest a).
Proof.
  intros d Hlog. destruct (purge_attempt digest a d) as [[u|e] d'] eqn:Hr;
    [|apply run_transaction_Err in Hr as ->; done]. simpl.
  unfold purge_attempt in Hr. inv_journal. intros b.
  destruct (Hlog b) as [es Hes]. unfold log_of, events_of in *.
  match goal with Hd : db_events d' = _ |- _ => rewrite Hd end. cbn [db_events set_events].
  destruct (decide (b = a)) as [->|Hne].
  - exists []. split; [|done]. simpl. rewrite list_filter_filter. apply filter_none.
    intros x _ [? ?]. congruence.
  - exists es. rewrite list_filter_filter.
    erewrite filter_ext_in; [exact Hes|]. intros x _. naive_solver.
Qed.

(** The other calls do not touch the table of events. *)
Lemma modify_log f : (∀ d, db_events (f d) = db_events d) → preserved log_ok (@modify Database TrainingError f).
Proof. intros Hf. apply preserved_modify. intros d. apply log_ok_events, Hf. Qed.
Lemma save_log v : preserved log_ok (save v).
Proof. by apply modify_log. Qed.
Lemma receipt_log c e : preserved log_ok (receipt c e).
Proof. by apply modify_log. Qed.
Lemma append_log now e : preserved log_ok (append_event now e).
Proof. intros d Hd. destruct (append_event now e d) eqn:E. by eapply append_event_log. Qed.
Lemma on_db_log {A} (m : M Database TrainingError A) :
  preserved log_ok m → preserved (log_ok ∘ tn_db) (on_db m).
Proof. intros Hm n Hn. specialize (Hm _ Hn). unfold on_db. by destruct (m (tn_db n)). Qed.
Lemma write_rejection_log c : preserved (log_ok ∘ tn_db) (write_rejection c).
Proof. by apply preserved_modify. Qed.
End safety.

#[export] Hint Resolve modify_log save_log receipt_log append_log purge_log on_db_log
  write_rejection_log : effects.

(** A call whose parts all keep the log keeps it. *)
Ltac keeps_log :=
  repeat (cbv beta zeta; first
    [ solve [eauto with effects]
    | by apply modify_log
    | apply preserved_transaction
    | apply on_db_log
    | apply preserved_on_error; [|intros]
    | apply preserved_bind; [|intros]
    | case_match ]).

Section log.
Context `{TrainingCodec, ReceiptCodec} (node : string).

Lemma get_attempt_log a : preserved log_ok (get_attempt a).
Proof. unfold get_attempt. keeps_log. Qed.
Lemma prepared_of_log v : preserved log_ok (prepared_of v).
Proof. unfold prepared_of. keeps_log. Qed.
#[local] Hint Resolve get_attempt_log prepared_of_log : effects.
Lemma accept_log now c lease : preserved log_ok (accept node now c lease).
Proof. unfold accept. keeps_log. Qed.
Lemma scoped_log c : preserved log_ok (scoped c).
Proof. unfold scoped. keeps_log. Qed.
#[local] Hint Resolve accept_log scoped_log : effects.
Lemma prepare_log now q m k floor : preserved log_ok (prepare node now q m k floor).
Proof. unfold prepare, lease_renewed, insert_attempt. keeps_log. Qed.
Lemma look_log ps birth v : preserved log_ok (look ps birth v).
Proof. unfold look. keeps_log. Qed.
#[local] Hint Resolve prepare_log look_log : effects.
Lemma read_rejection_log residue a : preserved (log_ok ∘ tn_db) (read_rejection node residue a).
Proof. unfold read_rejection. keeps_log. Qed.
#[local] Hint Resolve read_rejection_log : effects.
Lemma observe_log residue ps birth a : preserved (log_ok ∘ tn_db) (observe node residue ps birth a).
Proof. unfold observe, observe_record. keeps_log. Qed.
#[local] Hint Resolve observe_log : effects.

Lemma step_log {S E A} (I : S → Prop) (m : M S E A) s r s' :
  preserved I m → m s = (r, s') → I s → I s'.
Proof. intros Hm Hr Hs. specialize (Hm s Hs). by rewrite Hr in Hm. Qed.

Lemma system_step_log s s' :
  system_step node s s' → log_ok (tn_db (sy_node s)) → log_ok (tn_db (sy_node s')).
Proof.
  destruct 1; simpl; try done;
    (match goal with Hr : ?m ?n = (_, ?n') |- log_ok (tn_db ?n) → log_ok (tn_db ?n') =>
       intros Hl; refine (step_log (log_ok ∘ tn_db) m n _ n' _ Hr Hl); clear Hr Hl end).
  all: unfold prepare_attempt, record_rejection, start, start_intent, start_commit, renew, pause,
         acknowledge_checkpoint, stop, stop_intent, stop_rejected, record_stop, stop_observe,
         stop_commit, release_stopped_attempt, release_after_death, hold_input_bytes,
         cleanup_attempt, cleanup_intent, record_cleanup; keeps_log.
Qed.

Context (decode_encode : ∀ e, decode_event (encode_event e) = Some e).

Lemma reachable_log s : reachable node s → log_ok (tn_db (sy_node s)).
Proof.
  intros (s0 & -> & Hs). remember (mkSystem _ _ _ _) as s0 eqn:E0.
  assert (log_ok (tn_db (sy_node s0))) as HI by (rewrite E0; intros a; by exists []).
  clear E0. induction Hs; eauto using system_step_log.
Qed.

Lemma decode_rows_events es d : decode_rows (event_row <$> es) d = (Ok es, d).
Proof.
  induction es as [|e es IH]; [done|]. cbn [fmap list_fmap decode_rows event_row er_body].
  rewrite decode_encode. unfold mbind, M_bind in *. cbn [some_or mret M_ret].
  unfold mret, M_ret. change (list_fmap NodeTrainingEvent EventRow event_row es) with (event_row <$> es).
  by rewrite IH.
Qed.

(** Consecutively numbered events. *)
Definition numbered (k : Z) (es : list NodeTrainingEvent) : Prop :=
  ∀ i e, es !! i = Some e → ne_sequence e = k + Z.of_nat i.

Lemma numbered_seqZ k es : ne_sequence <$> es = seqZ k (Z.of_nat (length es)) → numbered k es.
Proof.
  intros Hs i e He. assert (Hf : (ne_sequence <$> es) !! i = Some (ne_sequence e))
    by (by rewrite list_lookup_fmap, He).
  rewrite Hs in Hf. apply lookup_seqZ in Hf. lia.
Qed.
Lemma numbered_cons k e es : numbered k (e :: es) → ne_sequence e = k ∧ numbered (k + 1) es.
Proof.
  intros Hn. split; [rewrite (Hn 0%nat e) by done; lia|].
  intros i x Hx. rewrite (Hn (S i) x) by done. lia.
Qed.
Lemma numbered_drop k j es : numbered k es → numbered (k + Z.of_nat j) (drop j es).
Proof. intros Hn i e. rewrite lookup_drop. intros ->%Hn. lia. Qed.
Lemma numbered_take k j es : numbered k es → numbered k (take j es).
Proof. intros Hn i e [? _]%lookup_take_Some. auto. Qed.

Lemma numbered_sorted k es :
  numbered k es → Sorted (λ a b, er_sequence a ≤ er_sequence b) (event_row <$> es).
Proof.
  revert k. induction es as [|e es IH]; intros k Hn; [constructor|].
  apply numbered_cons in Hn as [He Hn]. constructor; [by eapply IH|].
  destruct es as [|e' es]; constructor. apply numbered_cons in Hn as [He' _]. simpl. lia.
Qed.

Lemma numbered_after k after es :
  numbered k es → k - 1 ≤ after →
  filter (λ r, after < er_sequence r) (event_row <$> es)
  = event_row <$> drop (Z.to_nat (after - (k - 1))) es.
Proof.
  revert k. induction es as [|e es IH]; intros k Hn Hk; [by rewrite drop_nil|].
  apply numbered_cons in Hn as [He Hn]. rewrite fmap_cons.
  destruct (decide (after < k)) as [Hlt|Hge].
  - replace (Z.to_nat (after - (k - 1))) with 0%nat by lia. simpl.
    rewrite filter_cons_True by (simpl; lia). f_equal. apply filter_all.
    apply Forall_forall. intros r (x & -> & Hx)%list_elem_of_fmap.
    apply list_elem_of_lookup_1 in Hx as [i Hx]. simpl. rewrite (Hn i x Hx). lia.
  - rewrite filter_cons_False by (simpl; lia). rewrite (IH (k + 1)) by (done || lia).
    replace (Z.to_nat (after - (k - 1))) with (S (Z.to_nat (after - (k + 1 - 1)))) by lia. done.
Qed.

Lemma numbered_last k es :
  numbered k es →
  match last es with Some e => ne_sequence e | None => k - 1 end = k - 1 + Z.of_nat (length es).
Proof.
  intros Hn. destruct (last es) as [e|] eqn:E.
  - rewrite last_lookup in E. rewrite (Hn _ _ E). apply lookup_lt_Some in E. lia.
  - apply last_None in E as ->. simpl. lia.
Qed.

(** The event log is complete and in order: the events of an attempt are numbered
    1 to n without gaps, and reading from any cursor returns exactly the next hundred
    of them with the cursor of the last one, so paging from 0 returns every event
    once. *)
Theorem event_log_pages s row :
  reachable node s → row ∈ db_attempts (tn_db (sy_node s)) →
  ∃ es, ne_sequence <$> es = seqZ 1 (Z.of_nat (length es))
    ∧ next_sequence (ar_id row) (tn_db (sy_node s)) = (Ok (Z.of_nat (length es) + 1), tn_db (sy_node s))
    ∧ ∀ after, 0 ≤ after →
        let page := take 100 (drop (Z.to_nat after) es) in
        events (ar_id row) after (tn_db (sy_node s))
        = (Ok (mkPage page (after + Z.of_nat (length page))), tn_db (sy_node s)).
Proof.
  intros Hs Hrow. pose proof (reachable_log s Hs (ar_id row)) as [es [Hrows Hseq]].
  set (d := tn_db (sy_node s)) in *. exists es. split; [done|].
  assert (∃ v, get_attempt (ar_id row) d = (Ok v, d)) as [v Hget].
  { destruct (get_attempt (ar_id row) d) as [r d'] eqn:E. apply get_attempt_run in E as [-> Hf].
    destruct (find_row (ar_id row) d) as [x|] eqn:Ef; [exists (ar_body x); by subst|].
    by destruct (find_row_None _ _ _ Ef Hrow). }
  split.
  - unfold next_sequence, mbind, M_bind. rewrite Hget. cbv [get mret M_ret].
    rewrite (last_sequence_log _ es); [done|by split].
  - intros after Hafter page. pose proof (numbered_seqZ _ _ Hseq) as Hn.
    unfold events, mbind, M_bind.
    assert ((after <? 0) = false) as -> by (apply Z.ltb_ge; lia).
    cbv [throw_if mret M_ret]. rewrite Hget. cbv [get].
    rewrite Hrows, (numbered_after 1) by (done || lia).
    replace (after - (1 - 1)) with after by lia.
    pose proof (numbered_drop _ (Z.to_nat after) _ Hn) as Hd.
    rewrite sorted_on_id by (by eapply numbered_sorted).
    rewrite <- fmap_take. fold page. rewrite decode_rows_events. do 2 f_equal.
    pose proof (numbered_last _ _ (numbered_take _ 100 _ Hd)) as Hl. fold page in Hl.
    f_equal. revert Hl. destruct (last page); intros Hl; lia.
Qed.
End log.
