(* ===== verification/TrainingScenario.v ===== *)
(** * One training run of a Studio

    A preparation, its start, one worker event, the observed death of the process
    and the release of the slot, with a concrete encoding of the documents. *)
From Stdlib Require Import Ascii.
From S2P Require Import Prelude Effects TrainingJournal TrainingSupervisor TrainingFacts TrainingSafety.
Open Scope Z_scope.

(** ** An encoding of events as strings *)

Definition scope_tuple (m : ArtifactScope) :=
  (as_artifact_id m, as_job_id m, as_attempt_id m, as_fence m, as_update m).
#[global] Instance ArtifactScope_eq : EqDecision ArtifactScope.
Proof. solve_decision. Defined.
#[global] Instance ArtifactScope_countable : Countable ArtifactScope.
Proof.
  refine (inj_countable' scope_tuple (λ '(a, b, c, d, e), mkScope a b c d e) _). by intros [].
Defined.
#[global] Instance ControlKind_countable : Countable ControlKind.
Proof.
  refine (inj_countable' (λ k, match k with PauseRequested => 0 | Failure => 1 | WorkerStopped => 2 end)
            (λ n : Z, if n =? 0 then PauseRequested else if n =? 1 then Failure else WorkerStopped) _).
  by intros [].
Defined.
#[global] Instance NodeTrainingPayload_eq : EqDecision NodeTrainingPayload.
Proof. solve_decision. Defined.
#[global] Instance NodeTrainingPayload_countable : Countable NodeTrainingPayload.
Proof.
  refine (inj_countable'
    (λ p, match p with
          | Progress j a u => inl (j, a, u)
          | PreferenceProgress j a u f o => inr (inl (j, a, u, f, o))
          | CheckpointStaged m => inr (inr (inl m))
          | CheckpointRankStaged m r w rt rs => inr (inr (inr (inl (m, r, w, rt, rs))))
          | Control k r => inr (inr (inr (inr (k, r))))
          end)
    (λ x, match x with
          | inl (j, a, u) => Progress j a u
          | inr (inl (j, a, u, f, o)) => PreferenceProgress j a u f o
          | inr (inr (inl m)) => CheckpointStaged m
          | inr (inr (inr (inl (m, r, w, rt, rs)))) => CheckpointRankStaged m r w rt rs
          | inr (inr (inr (inr (k, r)))) => Control k r
          end) _). by intros [].
Defined.
#[global] Instance NodeTrainingEvent_eq : EqDecision NodeTrainingEvent.
Proof. solve_decision. Defined.
#[global] Instance NodeTrainingEvent_countable : Countable NodeTrainingEvent.
Proof.
  refine (inj_countable'
    (λ e, (ne_sequence e, ne_job_id e, ne_attempt_id e, ne_fence e, ne_update e, ne_recorded_at e,
           ne_payload e)) (λ '(a, b, c, d, e, f, g), mkEvent a b c d e f g) _). by intros [].
Defined.

(** Binary text. *)
Fixpoint bits (p : positive) : string :=
  match p with
  | xH => ""
  | xO p => String "0"%char (bits p)
  | xI p => String "1"%char (bits p)
  end.
Fixpoint unbits (s : string) : positive :=
  match s with
  | EmptyString => xH
  | String c s => if Ascii.eqb c "0"%char then xO (unbits s) else xI (unbits s)
  end.
Lemma unbits_bits p : unbits (bits p) = p.
Proof. by induction p as [p IH|p IH|]; simpl; rewrite ?IH. Qed.

#[global] Instance demo_codec : TrainingCodec := {
  command_digest c := tc_command_id (base c);
  resolved_sha256 _ := "resolved";
  encode_event e := bits (encode e);
  decode_event s := decode (unbits s);
}.
Lemma demo_decode e : decode_event (encode_event e) = Some e.
Proof. simpl. rewrite unbits_bits. apply decode_encode. Qed.
#[global] Instance demo_receipts : ReceiptCodec := {
  encode_start _ := "started";
  decode_start _ := None;
  encode_stop _ := "stopped";
  decode_stop _ := None;
}.

(** ** The run *)

Definition edge : string := "coire-edge-a".
Definition sec : Z := 1_000_000.
Definition demo_command (id : string) (fence : Z) : TrainingCommand :=
  mkTrainingCommand id "job" ("attempt-" +:+ id) fence "sha" edge 0 1 (20 * sec).
Definition attempt_command (id : string) (fence : Z) : TrainingCommand :=
  mkTrainingCommand id "job" "attempt-p2" fence "sha" edge 0 1 (20 * sec).
Definition demo_resolved : ResolvedTrainingSpec :=
  mkResolved 1 "sft" (mkEnvelope 10 1 1 1 0 1 100) 1 "runtime" false.
Definition demo_prepare (id : string) (fence : Z) : TrainingPrepareRequest :=
  mkPrepare (demo_command id fence) demo_resolved "r" "rd" None None None.
Definition clean (_ : string) : bool := false.
Definition alive : Processes := mkProcesses (λ _ _, LRunning) (LUnknown, None, None) (λ _ _, LStopped).
Definition gone : Processes := mkProcesses (λ _ _, LStopped) (LUnknown, None, None) (λ _ _, LStopped).

Definition fresh_node : Node := mkNode empty_database ∅.
Definition prepared_node : Node :=
  (prepare_attempt edge clean 0 true true (Some 100) (Some 1000) 500 (demo_prepare "p2" 2) fresh_node).2.
Definition start_result :=
  start edge clean sec alive false true true true true (attempt_command "s" 2) "p2" "nonce" prepared_node.
Definition intended_node : Node := start_result.2.
Definition intended : TrainingAttempt :=
  match start_result.1 with Ok (Spawning v) => v | _ => new_attempt (demo_prepare "p2" 2) end.
Definition running_node : Node :=
  (on_db (start_commit (attempt_command "s" 2) "p2" "nonce" intended 77 5) intended_node).2.
Definition first_event : NodeTrainingEvent :=
  mkEvent 1 "job" "attempt-p2" 2 1 (2 * sec) (Progress "job" "attempt-p2" 1).
Definition logged_node : Node := (on_db (append_event (3 * sec) first_event) running_node).2.
Definition dead_node : Node := (observe edge clean gone NoBirth "attempt-p2" logged_node).2.
Definition released_training_node : Node := (on_db (release_after_death "attempt-p2") dead_node).2.

Definition logged_system : System := mkSystem logged_node Idle ["attempt-p2"] [].
Definition released_system : System :=
  mkSystem released_training_node Idle ["attempt-p2"] ["attempt-p2"].

Ltac run_step := vm_compute; reflexivity.

Lemma logged_reachable : reachable edge logged_system.
Proof.
  exists (mkSystem fresh_node Idle [] []). split; [done|].
  eapply rtc_l; [eapply (step_prepare edge clean 0 true true (Some 100) (Some 1000) 500
                           (demo_prepare "p2" 2) _ _ prepared_node); run_step|].
  eapply rtc_l; [eapply (step_start edge clean sec alive false true true true true
                           (attempt_command "s" 2) "p2" "nonce" (Ok (Spawning intended)) _ intended_node); run_step|].
  eapply rtc_l; [apply (step_spawn edge (attempt_command "s" 2) "p2" "nonce" intended 77 5)|].
  eapply rtc_l; [eapply (step_start_commit edge _ _ _ _ _ _ _ _ running_node); run_step|].
  eapply rtc_l; [eapply (step_event edge (3 * sec) first_event _ _ logged_node); run_step|].
  apply rtc_refl.
Qed.

Lemma released_reachable : reachable edge released_system.
Proof.
  destruct logged_reachable as (s0 & H0 & Hs). exists s0. split; [done|].
  etrans; [exact Hs|].
  eapply rtc_l; [eapply (step_observe edge clean gone NoBirth "attempt-p2" _ _ dead_node); run_step|].
  eapply rtc_l; [eapply (step_watchdog_release edge "attempt-p2" _ _ released_training_node); run_step|].
  apply rtc_refl.
Qed.

(** ** A stop that races with the watchdog *)

Definition stopping_node : Node :=
  (stop edge clean (4 * sec) (attempt_command "x" 2) "cancelled" logged_node).2.
Definition read_result := stop_observe edge clean alive NoBirth (attempt_command "x" 2) stopping_node.
Definition read_node : Node := read_result.2.
Definition read_record : TrainingAttempt :=
  match read_result.1 with Ok v => v | _ => new_attempt (demo_prepare "p2" 2) end.
Definition raced_node : Node := (observe edge clean gone NoBirth "attempt-p2" read_node).2.
Definition raced_released : Node := (on_db (release_after_death "attempt-p2") raced_node).2.
Definition raced_system : System :=
  mkSystem raced_released (StopRead (attempt_command "x" 2) "cancelled" read_record)
           ["attempt-p2"] ["attempt-p2"].
Definition written_back : Node :=
  (on_db (stop_commit (5 * sec) (attempt_command "x" 2) "cancelled" read_record
            (stop_state alive true read_record)) raced_released).2.
Definition written_back_system : System :=
  mkSystem written_back Idle ["attempt-p2"] ["attempt-p2"; "attempt-p2"].

Lemma raced_reachable : reachable edge raced_system.
Proof.
  destruct logged_reachable as (s0 & H0 & Hs). exists s0. split; [done|]. etrans; [exact Hs|].
  eapply rtc_l; [eapply (step_stop edge clean (4 * sec) (attempt_command "x" 2) "cancelled"
                           (Ok Stopping) _ stopping_node); run_step|].
  eapply rtc_l; [eapply (step_stop_observe edge clean alive NoBirth _ _ (Ok read_record) _ read_node);
                 run_step|].
  eapply rtc_l; [eapply (step_observe edge clean gone NoBirth "attempt-p2" _ _ raced_node); run_step|].
  eapply rtc_l; [eapply (step_watchdog_release edge "attempt-p2" _ _ raced_released); run_step|].
  apply rtc_refl.
Qed.

(** C28. A release is not final: [stop] writes back the record it read before it
    waited for the process, so when the watchdog observes the death and releases the
    slot meanwhile, the stop's result makes the attempt unreleased again. *)
Theorem stop_undoes_release :
  ∃ s s' a, reachable edge s ∧ system_step edge s s'
    ∧ (∃ r, find_row a (tn_db (sy_node s)) = Some r ∧ ta_released (ar_body r) = true)
    ∧ (∃ r, find_row a (tn_db (sy_node s')) = Some r ∧ ta_released (ar_body r) = false).
Proof.
  exists raced_system, written_back_system, "attempt-p2". split; [apply raced_reachable|]. split.
  - eapply (step_stop_commit edge (5 * sec) alive true _ _ read_record _ _ written_back); run_step.
  - split; eexists; (split; [vm_compute; reflexivity|reflexivity]).
Qed.

(** ** Instances *)

Definition row_of (n : Node) : AttemptRow :=
  default (mkAttemptRow "" "" 0 (new_attempt (demo_prepare "p2" 2))) (head (db_attempts (tn_db n))).

Lemma logged_row : row_of logged_node ∈ db_attempts (tn_db (sy_node logged_system)).
Proof. apply list_elem_of_In. vm_compute. by left. Qed.
Lemma released_row : row_of released_training_node ∈ db_attempts (tn_db (sy_node released_system)).
Proof. apply list_elem_of_In. vm_compute. by left. Qed.

Lemma one_training_slot_witness :
  ta_released (ar_body (row_of logged_node)) = false ∧ row_of logged_node = row_of logged_node.
Proof.
  split; [vm_compute; reflexivity|].
  apply (one_training_slot edge logged_system); [apply logged_reachable|apply logged_row..| |];
    vm_compute; reflexivity.
Defined.

Lemma spawned_at_most_once_witness :
  NoDup (sy_spawned released_system)
  ∧ ∀ a, a ∈ sy_spawned released_system →
      ∃ r, r ∈ db_attempts (tn_db (sy_node released_system)) ∧ ar_id r = a
           ∧ is_Some (ta_spawn_nonce (ar_body r)).
Proof. apply (spawned_at_most_once edge released_system), released_reachable. Defined.

Lemma released_after_death_witness :
  ta_released (ar_body (row_of released_training_node)) = true
  ∧ ar_id (row_of released_training_node) ∈ sy_dead released_system.
Proof.
  split; [vm_compute; reflexivity|].
  apply (released_after_death edge released_system);
    [apply released_reachable|apply released_row|vm_compute; reflexivity|].
  vm_compute. left.
Defined.

Lemma superseded_fence_refused_witness :
  let d := tn_db (sy_node released_system) in
  (∀ m k floor r d', prepare edge (4 * sec) (demo_prepare "p1" 1) m k floor d = (r, d') →
                     is_ok r = false ∧ d' = d)
  ∧ ∀ e r d', ne_job_id e = ar_job (row_of released_training_node) →
      ne_fence e < ar_fence (row_of released_training_node) →
      append_event (4 * sec) e d = (r, d') → is_ok r = false ∧ d' = d.
Proof.
  apply (superseded_fence_refused edge released_system released_system
           (row_of released_training_node) (Prepare (demo_prepare "p1" 1)) (4 * sec)).
  - apply released_reachable.
  - apply rtc_refl.
  - apply released_row.
  - vm_compute. reflexivity.
  - vm_compute. reflexivity.
Defined.

Lemma prepare_within_capacity_witness :
  new_attempt (demo_prepare "p2" 2) = new_attempt (demo_prepare "p2" 2)
  ∧ held_memory (tn_db prepared_node) = 14 ∧ held_memory (tn_db prepared_node) ≤ 100
  ∧ ta_disk_bytes (new_attempt (demo_prepare "p2" 2)) ≤ MAX_ENVELOPE_DISK
  ∧ held_disk (tn_db prepared_node) + 500 ≤ 1000.
Proof.
  apply (prepare_within_capacity edge 0 (demo_prepare "p2" 2) 100 1000 500 empty_database
           (new_attempt (demo_prepare "p2" 2)) (tn_db prepared_node)).
  - vm_compute. reflexivity.
  - discriminate.
Defined.

Lemma event_log_pages_witness :
  ∃ es, ne_sequence <$> es = seqZ 1 (Z.of_nat (length es))
    ∧ next_sequence (ar_id (row_of logged_node)) (tn_db logged_node)
      = (Ok (Z.of_nat (length es) + 1), tn_db logged_node)
    ∧ ∀ after, 0 ≤ after →
        let page := take 100 (drop (Z.to_nat after) es) in
        events (ar_id (row_of logged_node)) after (tn_db logged_node)
        = (Ok (mkPage page (after + Z.of_nat (length page))), tn_db logged_node).
Proof.
  apply (event_log_pages edge demo_decode logged_system (row_of logged_node)).
  - apply logged_reachable.
  - apply logged_row.
Defined.
