(* ===== verification/Sampling.v ===== *)
(** * Mixture sampling

    coire_core/training_sampling.py: the order in which the rows of several sources
    are drawn in each epoch, from a counter-mode SHA-256 generator, and the replay
    that recomputes which rows a run has consumed.  The hash is the parameter
    [sha256], from a key and a counter to a 256-bit integer; the rejection loop of
    [below] has fuel, and returns [None] when it runs out. *)
From stdpp Require Import pretty.
From S2P Require Import Prelude.
Open Scope Z_scope.

(** ** [_CounterRandom] *)

Section random.
(** [int.from_bytes(sha256(key + counter).digest())] *)
Context (sha256 : string → Z → Z).

Definition limit (bound : Z) : Z := 2 ^ 256 - 2 ^ 256 mod bound.

(** [below]: the draw and the counter after it. *)
Fixpoint below (fuel : nat) (key : string) (bound counter : Z) : option (Z * Z) :=
  match fuel with
  | O => None
  | S fuel =>
      let value := sha256 key counter in
      if value <? limit bound then Some (value mod bound, counter + 1)
      else below fuel key bound (counter + 1)
  end.

Definition swap {A} (i j : nat) (l : list A) : list A :=
  match l !! i, l !! j with
  | Some x, Some y => <[i := y]> (<[j := x]> l)
  | _, _ => l
  end.

(** [shuffle]: the indices from the last down to 1; [n] is how many are left. *)
Fixpoint shuffle_from (fuel : nat) (key : string) (n : nat) (counter : Z) (values : list Z)
    : option (list Z * Z) :=
  match n with
  | O => Some (values, counter)
  | S n' =>
      '(other, counter) ← below fuel key (Z.of_nat n + 1) counter;
      shuffle_from fuel key n' counter (swap n (Z.to_nat other) values)
  end.
Definition shuffle (fuel : nat) (key : string) (values : list Z) : option (list Z * Z) :=
  shuffle_from fuel key (pred (length values)) 0 values.

(** [[rng.below(size) for _ in range(quota)]] *)
Fixpoint draw_many (fuel : nat) (key : string) (size : Z) (quota : nat) (counter : Z)
    : option (list Z * Z) :=
  match quota with
  | O => Some ([], counter)
  | S quota =>
      '(row, counter) ← below fuel key size counter;
      '(rows, counter) ← draw_many fuel key size quota counter;
      Some (row :: rows, counter)
  end.

(** ** [mixture_epoch_order] *)

(** The keys of the generators. *)
Definition source_key (identity : string) (epoch : Z) (index : nat) : string :=
  identity +:+ ":" +:+ pretty epoch +:+ ":source:" +:+ pretty index.
Definition interleave_key (identity : string) (epoch : Z) : string :=
  identity +:+ ":" +:+ pretty epoch +:+ ":interleave".

Definition valid_configuration (epoch : Z) (pools : list (Z * Z)) (replacement : bool) : bool :=
  (1 <=? Z.of_nat (length pools)) && (Z.of_nat (length pools) <=? 16)
  && (0 <=? epoch) && (epoch <? 2 ^ 64)
  && (sum_Z (pools.*2) <=? 16_000_000)
  && forallb (λ '(size, quota),
       (1 <=? size) && (size <=? 1_000_000) && (0 <=? quota) && (quota <=? 16_000_000)
       && negb (negb replacement && (size <? quota))) pools.

(** What one source contributes. *)
Definition source_draws (fuel : nat) (identity : string) (epoch : Z) (replacement : bool)
    (index : nat) (size quota : Z) : option (list (nat * Z)) :=
  let key := source_key identity epoch index in
  let draws :=
    if replacement then fst <$> draw_many fuel key size (Z.to_nat quota) 0
    else (λ pool, take (Z.to_nat quota) pool.1) <$> shuffle fuel key (seqZ 0 size) in
  (λ rows, pair index <$> rows) <$> draws.

Fixpoint sequential_order (fuel : nat) (identity : string) (epoch : Z) (replacement : bool)
    (index : nat) (pools : list (Z * Z)) : option (list (nat * Z)) :=
  match pools with
  | [] => Some []
  | (size, quota) :: pools =>
      draws ← source_draws fuel identity epoch replacement index size quota;
      rest ← sequential_order fuel identity epoch replacement (S index) pools;
      Some (draws ++ rest)
  end.

(** [[order[position] for position in positions]] *)
Definition at_positions {A} (order : list A) (positions : list Z) : list A :=
  omap (λ position, order !! Z.to_nat position) positions.

Definition interleave {A} (fuel : nat) (identity : string) (epoch : Z) (order : list A)
    : option (list A) :=
  (λ r : list Z * Z, at_positions order r.1)
    <$> shuffle fuel (interleave_key identity epoch) (seqZ 0 (Z.of_nat (length order))).

Inductive SamplingError := ValueError | OutOfFuel.

Definition mixture_epoch_order (fuel : nat) (identity : string) (epoch : Z) (pools : list (Z * Z))
    (weighted replacement : bool) : result SamplingError (list (nat * Z)) :=
  raise_if (negb (valid_configuration epoch pools replacement)) ValueError;;
  match (order ← sequential_order fuel identity epoch replacement 0 pools;
         if weighted then interleave fuel identity epoch order else Some order) with
  | Some order => Ok order
  | None => Err OutOfFuel
  end.

(** ** [consumed_mixture_rows] *)

Record Source := mkSource { so_id : string; so_rows : list Z; so_quota : Z }.
Definition pools_of (sources : list Source) : list (Z * Z) :=
  (λ s, (Z.of_nat (length (so_rows s)), so_quota s)) <$> sources.
Definition epoch_samples (sources : list Source) : Z := sum_Z (so_quota <$> sources).

(** The rows an order names; the positions come from the pools, so both lookups
    succeed. *)
Definition rows_named (sources : list Source) (order : list (nat * Z)) : gset (string * Z) :=
  list_to_set (omap (λ '(i, p), s ← sources !! i; r ← so_rows s !! Z.to_nat p; Some (so_id s, r)) order).

Definition maximum_rows (sources : list Source) : Z :=
  sum_Z ((λ s, if so_quota s =? 0 then 0 else Z.of_nat (length (so_rows s))) <$> sources).

(** The loop over the completed epochs, with its early exit. *)
Fixpoint consume (fuel : nat) (identity : string) (epoch cursor : Z) (sources : list Source)
    (weighted replacement : bool) (completed : list Z) (consumed : gset (string * Z))
    : result SamplingError (gset (string * Z)) :=
  match completed with
  | [] => Ok consumed
  | e :: completed =>
      if Z.of_nat (size consumed) =? maximum_rows sources then Ok consumed
      else
        order ← mixture_epoch_order fuel identity e (pools_of sources) weighted replacement;
        let count := if e =? epoch then cursor else epoch_samples sources in
        consume fuel identity epoch cursor sources weighted replacement completed
          (consumed ∪ rows_named sources (take (Z.to_nat count) order))
  end.

Definition valid_boundary (epoch cursor : Z) (sources : list Source) : bool :=
  let n := epoch_samples sources in
  (1 <=? n) && (n <=? 16_000_000) && (0 <=? cursor) && (cursor <=? n)
  && (0 <=? epoch) && (epoch <=? 6_400_000) && (epoch * n + cursor <=? 409_600_000).

Definition consumed_mixture_rows (fuel : nat) (identity : string) (epoch cursor : Z)
    (sources : list Source) (weighted replacement : bool)
    : result SamplingError (gset (string * Z)) :=
  raise_if (negb (valid_boundary epoch cursor sources)) ValueError;;
  consume fuel identity epoch cursor sources weighted replacement (seqZ 0 (epoch + 1)) ∅.
End random.
