(* ===== verification/SamplingFacts.v ===== *)
(** * The sampler draws what it promises

    Unbiased draws, quotas met exactly and without repetition, and the replay's
    early exit that changes nothing. *)
From stdpp Require Import pretty.
From S2P Require Import Prelude Sampling.
Open Scope Z_scope.

(** ** Draws *)

Lemma limit_bounds bound : 0 < bound ≤ 2 ^ 256 → 2 ^ 256 ≤ 2 * limit bound ∧ limit bound ≤ 2 ^ 256.
Proof.
  intros Hb. unfold limit. pose proof (Z.mod_pos_bound (2 ^ 256) bound ltac:(lia)).
  pose proof (Z.div_mod (2 ^ 256) bound ltac:(lia)) as Hd.
  assert (1 ≤ 2 ^ 256 / bound) by (apply Z.div_le_lower_bound; lia). split; [nia|lia].
Qed.

Lemma limit_multiple bound : 0 < bound → limit bound = bound * (2 ^ 256 / bound).
Proof. intros Hb. unfold limit. pose proof (Z.div_mod (2 ^ 256) bound ltac:(lia)). lia. Qed.

(** The values that are accepted with one outcome. *)
Lemma accepted_values bound outcome x :
  0 < bound → 0 ≤ outcome < bound →
  0 ≤ x < limit bound ∧ x mod bound = outcome
    ↔ ∃ k, 0 ≤ k < 2 ^ 256 / bound ∧ x = outcome + k * bound.
Proof.
  intros Hb Ho. rewrite limit_multiple by lia. generalize (2 ^ 256 / bound). intros q. split.
  - intros [Hx <-]. exists (x / bound). pose proof (Z.div_mod x bound ltac:(lia)).
    split; [|lia]. split; [apply Z.div_pos; lia|]. apply Z.div_lt_upper_bound; lia.
  - intros (k & Hk & ->). split; [nia|]. rewrite Z.mod_add by lia. apply Z.mod_small. lia.
Qed.

Section draws.
Context (sha256 : string → Z → Z).

Lemma below_range fuel key bound counter v c :
  0 < bound → below sha256 fuel key bound counter = Some (v, c) → 0 ≤ v < bound ∧ counter < c.
Proof.
  intros Hb. revert counter. induction fuel as [|fuel IH]; intros counter; simpl; [done|].
  case_match; [intros [= <- <-]; split; [by apply Z.mod_pos_bound|lia]|].
  intros [? ?]%IH. split; [done|lia].
Qed.

(** The loop passes the hashes from the limit on and stops at the first one below it. *)
Lemma below_first fuel key bound counter i :
  (i < fuel)%nat → sha256 key (counter + Z.of_nat i) < limit bound →
  (∀ j, (j < i)%nat → limit bound ≤ sha256 key (counter + Z.of_nat j)) →
  below sha256 fuel key bound counter
  = Some (sha256 key (counter + Z.of_nat i) mod bound, counter + Z.of_nat i + 1).
Proof.
  revert counter i. induction fuel as [|fuel IH]; intros counter i Hi Hacc Hrej; [lia|]. simpl.
  destruct i as [|i].
  - rewrite Z.add_0_r in *. by rewrite (proj2 (Z.ltb_lt _ _) Hacc).
  - pose proof (Hrej 0%nat ltac:(lia)) as H0. rewrite Z.add_0_r in H0.
    rewrite (proj2 (Z.ltb_ge _ _) H0).
    replace (counter + Z.of_nat (S i)) with (counter + 1 + Z.of_nat i) in * by lia.
    apply IH; [lia|done|]. intros j Hj.
    replace (counter + 1 + Z.of_nat j) with (counter + Z.of_nat (S j)) by lia. apply Hrej. lia.
Qed.

(** C30. The rejection loop ends and is unbiased.  Let the hashes of the counters before
    [counter + i] be at least the largest multiple of the bound up to 2^256 and that of
    [counter + i] below it, with [i] within the fuel: the loop then rejects the former and
    returns the residue of the latter with the next counter.  Every outcome below the bound
    is drawn for exactly 2^256 / bound hash values, those that are congruent to it and below
    that multiple, and at least half of all hash values are accepted. *)
Theorem below_terminates fuel key bound counter i :
  0 < bound ≤ 2 ^ 256 → (i < fuel)%nat →
  sha256 key (counter + Z.of_nat i) < bound * (2 ^ 256 / bound) →
  (∀ j, (j < i)%nat → bound * (2 ^ 256 / bound) ≤ sha256 key (counter + Z.of_nat j)) →
  below sha256 fuel key bound counter
    = Some (sha256 key (counter + Z.of_nat i) mod bound, counter + Z.of_nat i + 1)
  ∧ (∀ value outcome, 0 ≤ outcome < bound →
      0 ≤ value ∧ below (λ _ _, value) 1 key bound counter = Some (outcome, counter + 1)
        ↔ ∃ k, 0 ≤ k < 2 ^ 256 / bound ∧ value = outcome + k * bound)
  ∧ 2 ^ 256 ≤ 2 * (bound * (2 ^ 256 / bound)).
Proof.
  intros Hb Hi Hacc Hrej. rewrite <- limit_multiple in * by lia. split_and!.
  - by apply below_first.
  - intros value outcome Ho. rewrite <- accepted_values by lia. cbn [below].
    destruct (Z.ltb_spec value (limit bound)); split; [|naive_solver lia|naive_solver lia|naive_solver lia].
    intros [? [= <-]]. split; [lia|done].
  - by apply limit_bounds.
Qed.

(** What the loop relies on: among any [fuel] consecutive counters one hash is
    accepted, for every bound the sampler uses. *)
Definition accepting (fuel : nat) : Prop :=
  ∀ key bound counter, 0 < bound ≤ 16_000_000 →
    ∃ i, (i < fuel)%nat ∧ sha256 key (counter + Z.of_nat i) < limit bound.

Lemma below_total fuel key bound counter :
  accepting fuel → 0 < bound ≤ 16_000_000 → ∃ r, below sha256 fuel key bound counter = Some r.
Proof.
  intros Hacc Hb. destruct (Hacc key bound counter Hb) as (i & Hi & Hlt). clear Hacc.
  revert counter i Hi Hlt. induction fuel as [|fuel IH]; intros counter i Hi Hlt; [lia|]. simpl.
  destruct (Z.ltb_spec (sha256 key counter) (limit bound)); [by eexists|].
  destruct i as [|i]; [rewrite Z.add_0_r in Hlt; lia|]. apply (IH (counter + 1) i); [lia|].
  by replace (counter + 1 + Z.of_nat i) with (counter + Z.of_nat (S i)) by lia.
Qed.

Lemma shuffle_from_total fuel key n counter l :
  accepting fuel → Z.of_nat n < 16_000_000 → ∃ r, shuffle_from sha256 fuel key n counter l = Some r.
Proof.
  intros Hacc. revert counter l. induction n as [|n IH]; intros counter l Hn; [by eexists|].
  simpl. destruct (below_total fuel key (Z.of_nat (S n) + 1) counter Hacc ltac:(lia)) as [[v c] Eb].
  simpl in Eb. rewrite Eb. simpl. apply IH. lia.
Qed.

Lemma shuffle_total fuel key l :
  accepting fuel → Z.of_nat (length l) ≤ 16_000_000 → ∃ r, shuffle sha256 fuel key l = Some r.
Proof. intros Hacc Hl. apply shuffle_from_total; [done|lia]. Qed.

Lemma draw_many_total fuel key size quota counter :
  accepting fuel → 0 < size ≤ 16_000_000 →
  ∃ r, draw_many sha256 fuel key size quota counter = Some r.
Proof.
  intros Hacc Hs. revert counter. induction quota as [|quota IH]; intros counter; simpl; [by eexists|].
  destruct (below_total fuel key size counter Hacc Hs) as [[v c] ->]. simpl.
  destruct (IH c) as [[l c'] ->]. by eexists.
Qed.

Lemma swap_perm {A} i j (l : list A) : swap i j l ≡ₚ l.
Proof.
  unfold swap. destruct (l !! i) eqn:Ei, (l !! j) eqn:Ej; try done.
  by apply Permutation_insert_swap.
Qed.

Lemma shuffle_from_perm fuel key n counter l l' c :
  shuffle_from sha256 fuel key n counter l = Some (l', c) → l' ≡ₚ l.
Proof.
  revert counter l. induction n as [|n IH]; intros counter l; simpl; [by intros [= -> _]|].
  destruct (below _ _ _ _ _) as [[v c1]|]; simpl; [|done]. intros ->%IH. apply swap_perm.
Qed.

(** A shuffle reorders its list. *)
Lemma shuffle_perm fuel key l l' c : shuffle sha256 fuel key l = Some (l', c) → l' ≡ₚ l.
Proof. apply shuffle_from_perm. Qed.

Lemma draw_many_run fuel key size quota counter l c :
  0 < size → draw_many sha256 fuel key size quota counter = Some (l, c) →
  length l = quota ∧ ∀ p, p ∈ l → 0 ≤ p < size.
Proof.
  intros Hs. revert counter l c. induction quota as [|quota IH]; intros counter l c; simpl.
  - intros [= <- _]. split; [done|]. by intros p ?%elem_of_nil.
  - destruct (below _ _ _ _ _) as [[v c1]|] eqn:Eb; simpl; [|done].
    destruct (draw_many _ _ _ _ _ _) as [[rest c2]|] eqn:Ed; simpl; [|done]. intros [= <- _].
    destruct (IH _ _ _ Ed) as [<- Hin]. split; [done|].
    intros p [->|?]%elem_of_cons; [by eapply below_range|auto].
Qed.

(** ** One epoch *)

(** What source [i] contributes: its quota of rows in range, all different when
    drawn without replacement. *)
Definition draws_ok (replacement : bool) (i : nat) (size quota : Z) (l : list (nat * Z)) : Prop :=
  Z.of_nat (length l) = quota
  ∧ (∀ x, x ∈ l → x.1 = i ∧ 0 ≤ x.2 < size) ∧ (replacement = false → NoDup l).

Lemma seqZ_range m n p : p ∈ seqZ m n ↔ m ≤ p < m + n.
Proof. apply elem_of_seqZ. Qed.

Lemma source_draws_run fuel identity epoch replacement i size quota l :
  0 < size → 0 ≤ quota → (replacement = false → quota ≤ size) →
  source_draws sha256 fuel identity epoch replacement i size quota = Some l →
  draws_ok replacement i size quota l.
Proof.
  intros Hs Hq Hrep. unfold source_draws. destruct replacement.
  - destruct (draw_many _ _ _ _ _ _) as [[rows c]|] eqn:Ed; [|done]. intros [= <-].
    apply draw_many_run in Ed as [Hl Hin]; [|done]. split_and!; [rewrite length_fmap; lia| |done].
    intros x (p & -> & Hp)%list_elem_of_fmap. split; [done|]. by apply Hin.
  - destruct (shuffle _ _ _ _) as [[pool c]|] eqn:Ed; [|done]. intros [= <-].
    apply shuffle_perm in Ed. simpl.
    assert (Hlen : Z.of_nat (length pool) = size).
    { rewrite Ed, length_seqZ. lia. }
    split_and!.
    + rewrite length_fmap, length_take. specialize (Hrep eq_refl). lia.
    + intros x (p & -> & Hp)%list_elem_of_fmap. split; [done|]. simpl.
      apply elem_of_take in Hp as (j & Hj & _). apply list_elem_of_lookup_2 in Hj.
      rewrite Ed in Hj. apply seqZ_range in Hj. lia.
    + intros _. apply NoDup_fmap_2; [by intros ?? [= ->]|].
      eapply sublist_NoDup; [|apply sublist_take]. rewrite Ed. apply NoDup_seqZ.
Qed.

(** An epoch's order: every source its quota, every row in its source's range,
    nothing else, and no repetition without replacement. *)
Definition order_ok (replacement : bool) (index : nat) (pools : list (Z * Z))
    (order : list (nat * Z)) : Prop :=
  (∀ x, x ∈ order → ∃ i size quota, pools !! i = Some (size, quota) ∧ x.1 = (index + i)%nat
                                      ∧ 0 ≤ x.2 < size ∧ 0 < quota)
  ∧ (∀ i size quota, pools !! i = Some (size, quota) →
       Z.of_nat (length (filter (λ x, x.1 = (index + i)%nat) order)) = quota)
  ∧ (replacement = false → NoDup order)
  ∧ Z.of_nat (length order) = sum_Z (pools.*2).

#[global] Instance order_ok_proper replacement index pools :
  Proper ((≡ₚ) ==> iff) (order_ok replacement index pools).
Proof.
  intros o1 o2 Hp. unfold order_ok. setoid_rewrite Hp. done.
Qed.

Definition pool_ok (replacement : bool) (pool : Z * Z) : Prop :=
  0 < pool.1 ∧ 0 ≤ pool.2 ∧ (replacement = false → pool.2 ≤ pool.1).

Lemma sequential_order_run fuel identity epoch replacement index pools order :
  Forall (pool_ok replacement) pools →
  sequential_order sha256 fuel identity epoch replacement index pools = Some order →
  order_ok replacement index pools order.
Proof.
  intros Hpools. revert index order. induction Hpools as [|[size quota] pools Hp Hpools IH];
    intros index order; simpl.
  { intros [= <-]. split_and!; [by intros x ?%elem_of_nil|done|constructor|done]. }
  destruct (source_draws _ _ _ _ _ _ _ _) as [draws|] eqn:Ed; simpl; [|done].
  destruct (sequential_order _ _ _ _ _ _ _) as [rest|] eqn:Er; simpl; [|done]. intros [= <-].
  destruct Hp as (Hs & Hq & Hr). apply source_draws_run in Ed as (Hl & Hin & Hnd); [|done..].
  destruct (IH _ _ Er) as (Hrin & Hrq & Hrnd & Hrl). split_and!.
  - intros x [Hx|Hx]%elem_of_app.
    + destruct (Hin x Hx) as [Hi Hrange]. exists 0%nat, size, quota.
      assert (0 < quota) by (destruct draws; [by apply elem_of_nil in Hx|simpl in Hl; lia]).
      split_and!; [done|lia..].
    + destruct (Hrin x Hx) as (i & sz & q & Hi & Hx1 & ?). exists (S i), sz, q.
      split; [done|]. split; [lia|done].
  - intros [|i] sz q Hi; simpl in Hi; rewrite filter_app, length_app, Nat2Z.inj_add.
    + injection Hi as -> ->. rewrite (filter_all _ draws), (filter_none _ rest); [simpl; lia| |].
      * intros x Hx. destruct (Hrin x Hx) as (i & ? & ? & _ & Hx1 & _). lia.
      * apply Forall_forall. intros x Hx. destruct (Hin x Hx) as [Hi _]. lia.
    + rewrite (filter_none _ draws).
      * rewrite (filter_ext_in (λ x, x.1 = (index + S i)%nat) (λ x, x.1 = (S index + i)%nat) rest)
          by (intros; lia).
        rewrite (Hrq i sz q Hi). simpl. lia.
      * intros x Hx. destruct (Hin x Hx) as [Hi' _]. lia.
  - intros Hrep. apply NoDup_app. split_and!; auto. intros x Hx Hx'.
    destruct (Hin x Hx) as [Hi _]. destruct (Hrin x Hx') as (i & ? & ? & _ & Hx1 & _). lia.
  - rewrite length_app, Nat2Z.inj_add, Hl, Hrl. done.
Qed.

Lemma source_draws_total fuel identity epoch replacement i size quota :
  accepting fuel → 0 < size ≤ 1_000_000 →
  ∃ l, source_draws sha256 fuel identity epoch replacement i size quota = Some l.
Proof.
  intros Hacc Hs. unfold source_draws. destruct replacement.
  - destruct (draw_many_total fuel (source_key identity epoch i) size (Z.to_nat quota) 0 Hacc ltac:(lia))
      as [r ->]. by eexists.
  - destruct (shuffle_total fuel (source_key identity epoch i) (seqZ 0 size) Hacc) as [r ->];
      [rewrite length_seqZ; lia|]. by eexists.
Qed.

Lemma sequential_order_total fuel identity epoch replacement index pools :
  accepting fuel → Forall (λ pool, 0 < pool.1 ≤ 1_000_000) pools →
  ∃ order, sequential_order sha256 fuel identity epoch replacement index pools = Some order.
Proof.
  intros Hacc Hpools. revert index. induction Hpools as [|[size quota] pools Hp Hpools IH];
    intros index; simpl; [by eexists|].
  destruct (source_draws_total fuel identity epoch replacement index size quota Hacc Hp) as [l ->].
  simpl. destruct (IH (S index)) as [rest ->]. by eexists.
Qed.

(** ** Interleaving *)

Lemma at_positions_all {A} (order : list A) :
  at_positions order (seqZ 0 (Z.of_nat (length order))) = order.
Proof.
  unfold at_positions. induction order as [|x order IH] using rev_ind; [done|].
  rewrite length_app, Nat2Z.inj_add, seqZ_app, omap_app by lia.
  change (Z.of_nat (length [x])) with 1.
  rewrite (seqZ_cons (0 + Z.of_nat (length order)) 1), (seqZ_nil _ (Z.pred 1)) by lia. simpl.
  rewrite lookup_app_r by lia.
  replace (Z.to_nat (0 + Z.of_nat (length order)) - length order)%nat with 0%nat by lia.
  simpl. f_equal.
  etrans; [|exact IH]. apply list_omap_ext. apply Forall2_same_length_lookup_2; [done|].
  intros i p q Hp Hq. simplify_eq. apply lookup_seqZ in Hp as [-> Hp].
  rewrite lookup_app_l by lia. done.
Qed.

Lemma interleave_perm {A} fuel identity epoch (order order' : list A) :
  interleave sha256 fuel identity epoch order = Some order' → order' ≡ₚ order.
Proof.
  unfold interleave. destruct (shuffle _ _ _ _) as [[positions c]|] eqn:Es; [|done].
  intros [= <-]. apply shuffle_perm in Es. simpl. unfold at_positions. rewrite Es.
  change (at_positions order (seqZ 0 (Z.of_nat (length order))) ≡ₚ order).
  by rewrite at_positions_all.
Qed.

Lemma valid_configuration_pools epoch pools replacement :
  valid_configuration epoch pools replacement = true →
  Forall (pool_ok replacement) pools ∧ Forall (λ pool, 0 < pool.1 ≤ 1_000_000) pools
  ∧ sum_Z (pools.*2) ≤ 16_000_000.
Proof.
  unfold valid_configuration. intros Hv. guards.
  match goal with Hf : forallb _ pools = true |- _ => rewrite forallb_forall in Hf; rename Hf into Hall end.
  split_and!; [..|lia]; apply Forall_forall; intros [size quota] Hin%list_elem_of_In;
    specialize (Hall _ Hin); simpl in Hall; guards; [|simpl; lia].
  unfold pool_ok. simpl. split_and!; [lia..|]. intros ->. simpl in *. lia.
Qed.

(** The order of a valid configuration exists, and interleaving only reorders it. *)
Lemma epoch_order_run fuel identity epoch pools weighted replacement :
  accepting fuel → valid_configuration epoch pools replacement = true →
  ∃ order sequential,
    mixture_epoch_order sha256 fuel identity epoch pools weighted replacement = Ok order
    ∧ mixture_epoch_order sha256 fuel identity epoch pools false replacement = Ok sequential
    ∧ order ≡ₚ sequential ∧ order_ok replacement 0 pools order.
Proof.
  intros Hacc Hv. destruct (valid_configuration_pools _ _ _ Hv) as (Hpools & Hsizes & Hsum).
  unfold mixture_epoch_order. rewrite Hv. simpl.
  destruct (sequential_order_total fuel identity epoch replacement 0 pools Hacc Hsizes) as [seqo Es].
  rewrite Es. simpl. apply sequential_order_run in Es as Hok; [|done].
  destruct weighted; [|by exists seqo, seqo].
  destruct (shuffle_total fuel (interleave_key identity epoch) (seqZ 0 (Z.of_nat (length seqo))) Hacc)
    as [r Er]; [rewrite length_seqZ; destruct Hok as (_ & _ & _ & ->); lia|].
  assert (Ei : interleave sha256 fuel identity epoch seqo = Some (at_positions seqo r.1))
    by (unfold interleave; by rewrite Er).
  rewrite Ei. exists (at_positions seqo r.1), seqo. apply interleave_perm in Ei.
  split_and!; [done..|]. by rewrite Ei.
Qed.

(** Every epoch of a valid configuration has an order that meets its quotas: it
    contains exactly the quota of each source, only rows of its sources' ranges, and no
    row twice when drawing without replacement; interleaving only reorders it. *)
Theorem epoch_order_quotas fuel identity epoch pools weighted replacement :
  accepting fuel → valid_configuration epoch pools replacement = true →
  ∃ order sequential,
    mixture_epoch_order sha256 fuel identity epoch pools weighted replacement = Ok order
    ∧ mixture_epoch_order sha256 fuel identity epoch pools false replacement = Ok sequential
    ∧ order ≡ₚ sequential
    ∧ (∀ i size quota, pools !! i = Some (size, quota) →
         Z.of_nat (length (filter (λ x, x.1 = i) order)) = quota
         ∧ ∀ x, x ∈ order → x.1 = i → 0 ≤ x.2 < size)
    ∧ Z.of_nat (length order) = sum_Z (pools.*2)
    ∧ (replacement = false → NoDup order).
Proof.
  intros Hacc Hv. destruct (epoch_order_run fuel identity epoch pools weighted replacement Hacc Hv)
    as (order & sequential & Ho & Hs & Hperm & Hin & Hq & Hnd & Hlen).
  exists order, sequential. split_and!; [done..| |done|done].
  intros i size quota Hi. split; [by eapply Hq|]. intros x Hx Hx1.
  destruct (Hin x Hx) as (j & sz & q & Hj & Hxj & Hrange & _). simpl in Hxj. congruence.
Qed.

(** ** Replay *)

(** The loop without its early exit. *)
Fixpoint consume_all (fuel : nat) (identity : string) (epoch cursor : Z) (sources : list Source)
    (weighted replacement : bool) (completed : list Z) (consumed : gset (string * Z))
    : result SamplingError (gset (string * Z)) :=
  match completed with
  | [] => Ok consumed
  | e :: completed =>
      order ← mixture_epoch_order sha256 fuel identity e (pools_of sources) weighted replacement;
      let count := if e =? epoch then cursor else epoch_samples sources in
      consume_all fuel identity epoch cursor sources weighted replacement completed
        (consumed ∪ rows_named sources (take (Z.to_nat count) order))
  end.

(** Every row of a source that contributes. *)
Definition available_rows (sources : list Source) : list (string * Z) :=
  s ← sources; if so_quota s =? 0 then [] else pair (so_id s) <$> so_rows s.

Lemma available_rows_length sources :
  Z.of_nat (length (available_rows sources)) = maximum_rows sources.
Proof.
  unfold available_rows, maximum_rows in *. induction sources as [|s sources IH]; [done|].
  rewrite bind_cons, length_app, Nat2Z.inj_add, IH. cbn [fmap list_fmap sum_Z]. f_equal.
  case_match; [done|]. by rewrite length_fmap.
Qed.

Lemma rows_named_available replacement sources order n :
  order_ok replacement 0 (pools_of sources) order →
  rows_named sources (take n order) ⊆ (list_to_set (available_rows sources) : gset (string * Z)).
Proof.
  intros (Hrows & _) x. unfold rows_named.
  rewrite !elem_of_list_to_set, list_elem_of_omap. intros ([i p] & Hin & Hx).
  apply elem_of_take in Hin as (j & Hj & _). apply list_elem_of_lookup_2 in Hj.
  destruct (sources !! i) as [s|] eqn:Es; [|done]. simpl in Hx.
  destruct (so_rows s !! Z.to_nat p) as [row|] eqn:Er; [|done]. injection Hx as <-.
  unfold available_rows. apply list_elem_of_bind. exists s.
  split; [|by apply list_elem_of_lookup_2 in Es].
  destruct (Hrows _ Hj) as (i' & size & quota & Hi & Hix & _ & Hquota). simpl in Hix. subst i'.
  unfold pools_of in Hi. rewrite list_lookup_fmap, Es in Hi. injection Hi as <- <-.
  rewrite (proj2 (Z.eqb_neq _ _)) by lia.
  apply list_elem_of_fmap. exists row. split; [done|]. by apply list_elem_of_lookup_2 in Er.
Qed.

(** An epoch whose order exists and satisfies [order_ok]. *)
Definition epoch_runs (fuel : nat) (identity : string) (sources : list Source)
    (weighted replacement : bool) (e : Z) : Prop :=
  ∃ order, mixture_epoch_order sha256 fuel identity e (pools_of sources) weighted replacement = Ok order
    ∧ order_ok replacement 0 (pools_of sources) order.

(** Once every available row is consumed, the remaining epochs add nothing. *)
Lemma consume_all_full fuel identity epoch cursor sources weighted replacement completed consumed :
  Forall (epoch_runs fuel identity sources weighted replacement) completed →
  (list_to_set (available_rows sources) : gset (string * Z)) ⊆ consumed →
  consume_all fuel identity epoch cursor sources weighted replacement completed consumed = Ok consumed.
Proof.
  intros Hruns Hall. induction Hruns as [|e completed (order & Ho & Hok) _ IH]; simpl; [done|].
  rewrite Ho. simpl.
  pose proof (rows_named_available _ _ _
    (Z.to_nat (if e =? epoch then cursor else epoch_samples sources)) Hok) as Hsub.
  by replace (consumed ∪ _) with consumed by set_solver.
Qed.

Lemma consume_equiv fuel identity epoch cursor sources weighted replacement completed consumed :
  Forall (epoch_runs fuel identity sources weighted replacement) completed →
  consumed ⊆ list_to_set (available_rows sources) →
  ∃ u, consume_all fuel identity epoch cursor sources weighted replacement completed consumed = Ok u
    ∧ consume sha256 fuel identity epoch cursor sources weighted replacement completed consumed = Ok u.
Proof.
  intros Hruns. revert consumed.
  induction Hruns as [|e completed Hrun Hruns IH]; intros consumed Hsub; [by exists consumed|].
  cbn [consume]. destruct (Z.eqb_spec (Z.of_nat (size consumed)) (maximum_rows sources)) as [Hfull|_].
  - exists consumed. split; [|done]. apply consume_all_full; [by constructor|].
    assert (consumed = list_to_set (available_rows sources)) as ->; [|done].
    apply set_subseteq_size_eq; [done|]. rewrite <- available_rows_length in Hfull.
    pose proof (size_list_to_set_le (available_rows sources)). lia.
  - destruct Hrun as (order & Ho & Hok). simpl. rewrite Ho. simpl. apply IH.
    pose proof (rows_named_available _ _ _
      (Z.to_nat (if e =? epoch then cursor else epoch_samples sources)) Hok). set_solver.
Qed.

Lemma valid_configuration_epoch e e' pools replacement :
  0 ≤ e' < 2 ^ 64 → valid_configuration e pools replacement = true →
  valid_configuration e' pools replacement = true.
Proof.
  unfold valid_configuration. intros [? ?] Hv. guards.
  rewrite !andb_true_iff. split_and!; try done; [by apply Z.leb_le|by apply Z.ltb_lt].
Qed.

(** The replay's early exit is only an optimisation: for a valid boundary of a valid
    configuration, [consumed_mixture_rows], which stops as soon as all rows are consumed,
    returns the set that replaying every epoch up to the cursor gives. *)
Theorem replay_early_exit fuel identity epoch cursor sources weighted replacement :
  accepting fuel → valid_configuration 0 (pools_of sources) replacement = true →
  valid_boundary epoch cursor sources = true →
  ∃ u,
    consume_all fuel identity epoch cursor sources weighted replacement (seqZ 0 (epoch + 1)) ∅ = Ok u
    ∧ consumed_mixture_rows sha256 fuel identity epoch cursor sources weighted replacement = Ok u.
Proof.
  unfold consumed_mixture_rows. intros Hacc Hv Hb. rewrite Hb. simpl. unfold valid_boundary in Hb. guards.
  apply consume_equiv; [|set_solver]. apply Forall_forall. intros e He%elem_of_seqZ.
  destruct (epoch_order_run fuel identity e (pools_of sources) weighted replacement Hacc) as
    (order & ? & Ho & _ & _ & Hok); [|by exists order].
  eapply valid_configuration_epoch; [|exact Hv]. lia.
Qed.
End draws.

(** ** A small mixture *)

Fixpoint key_sum (key : string) : Z :=
  match key with EmptyString => 7 | String c key => Z.of_N (Ascii.N_of_ascii c) + 31 * key_sum key end.
Definition demo_hash (key : string) (counter : Z) : Z :=
  (counter * 7919 + key_sum key) mod 2 ^ 255.
Definition demo_sources : list Source := [mkSource "a" [10; 20; 30] 2; mkSource "b" [5; 6] 2].

(** A generator whose first hash has to be rejected for the bound 3: the largest multiple of
    3 up to 2^256 is 2^256 - 1. *)
Definition retry_hash (_ : string) (counter : Z) : Z := if counter =? 7 then 2 ^ 256 - 1 else 5.

Lemma below_terminates_witness :
  retry_hash "k" 7 = 3 * (2 ^ 256 / 3)
  ∧ below retry_hash 2 "k" 3 7 = Some (2, 9)
  ∧ (∀ value outcome, 0 ≤ outcome < 3 →
      0 ≤ value ∧ below (λ _ _, value) 1 "k" 3 7 = Some (outcome, 7 + 1)
        ↔ ∃ k, 0 ≤ k < 2 ^ 256 / 3 ∧ value = outcome + k * 3)
  ∧ 2 ^ 256 ≤ 2 * (3 * (2 ^ 256 / 3)).
Proof.
  split; [vm_compute; reflexivity|].
  apply (below_terminates retry_hash 2 "k" 3 7 1); [lia|lia|vm_compute; reflexivity|].
  intros j Hj. replace j with 0%nat by lia. vm_compute. discriminate.
Defined.

Lemma demo_accepting : accepting demo_hash 1.
Proof.
  intros key bound counter Hb. exists 0%nat. split; [lia|]. unfold demo_hash.
  pose proof (Z.mod_pos_bound ((counter + Z.of_nat 0) * 7919 + key_sum key) (2 ^ 255) ltac:(lia)).
  pose proof (limit_bounds bound ltac:(lia)). lia.
Qed.

Lemma epoch_order_quotas_witness :
  ∃ order sequential,
    mixture_epoch_order demo_hash 1 "id" 0 (pools_of demo_sources) true false = Ok order
    ∧ mixture_epoch_order demo_hash 1 "id" 0 (pools_of demo_sources) false false = Ok sequential
    ∧ order ≡ₚ sequential
    ∧ (∀ i size quota, pools_of demo_sources !! i = Some (size, quota) →
         Z.of_nat (length (filter (λ x, x.1 = i) order)) = quota
         ∧ ∀ x, x ∈ order → x.1 = i → 0 ≤ x.2 < size)
    ∧ Z.of_nat (length order) = sum_Z ((pools_of demo_sources).*2)
    ∧ (false = false → NoDup order).
Proof.
  apply (epoch_order_quotas demo_hash 1 "id" 0 (pools_of demo_sources) true false);
    [exact demo_accepting|vm_compute; reflexivity].
Defined.

Lemma replay_early_exit_witness :
  ∃ u,
    consume_all demo_hash 1 "id" 3 1 demo_sources true false (seqZ 0 (3 + 1)) ∅ = Ok u
    ∧ consumed_mixture_rows demo_hash 1 "id" 3 1 demo_sources true false = Ok u.
Proof.
  apply (replay_early_exit demo_hash 1 "id" 3 1 demo_sources true false);
    [exact demo_accepting|vm_compute; reflexivity..].
Defined.
