(* ===== verification/Mixture.v ===== *)
(** * Splits and mixtures of datasets

    coire_core/training_data.py: the content-grouped train/validation split of one
    dataset, the largest-remainder quotas of a mixture and its compilation into the
    pools that [Sampling] draws from.  The SHA-256 that orders the groups, the
    rounded validation target and the digest of a manifest are arguments; a
    proportion is the exact fraction of its decimal text, a pair of numerator and
    positive denominator. *)
From Stdlib Require Import Ascii String.
From stdpp Require Import pretty.
From S2P Require Import Prelude.
Open Scope Z_scope.

Inductive MixtureError := TrainingValidationError (why : string) | InvalidManifest.

(** ** Split manifests *)

Record SplitManifest := mkManifest {
  sm_dataset_id : string;
  sm_source_sha256 : string;
  sm_seed : Z;
  sm_train_rows : list Z;
  sm_validation_rows : list Z;
  sm_row_content_sha256 : list string;
}.

(** [row_content_sha256[row - 1]] *)
Definition content (hashes : list string) (row : Z) : option string := hashes !! Z.to_nat (row - 1).
Definition contents (hashes : list string) (rows : list Z) : list string := omap (content hashes) rows.

(** [not (a & b)] of two sets *)
Definition apart {A} `{EqDecision A} (xs ys : list A) : bool := forallb (λ x, negb (is_in x ys)) xs.

Definition bounded_rows (rows : list Z) : bool :=
  (1 <=? Z.of_nat (length rows)) && (Z.of_nat (length rows) <=? 1_000_000)
  && forallb (λ r, 1 <=? r) rows.

(** [^[0-9a-f]{64}$] *)
Definition is_sha256 (text : string) : bool :=
  (String.length text =? 64)%nat
  && forallb (λ c, let n := Z.of_N (Ascii.N_of_ascii c) in
       ((48 <=? n) && (n <=? 57)) || ((97 <=? n) && (n <=? 102))) (list_ascii_of_string text).

(** The field bounds and [disjoint_complete_groups]; [len(set(xs)) == len(xs)] is
    that [xs] has no duplicates. *)
Definition SplitManifest_valid (m : SplitManifest) : bool :=
  let hashes := sm_row_content_sha256 m in
  let n := Z.of_nat (length hashes) in
  is_sha256 (sm_source_sha256 m) && (0 <=? sm_seed m) && (sm_seed m <? 2 ^ 32)
  && forallb is_sha256 hashes
  && bounded_rows (sm_train_rows m) && bounded_rows (sm_validation_rows m)
  && (2 <=? n) && (n <=? 1_000_000)
  && bool_decide (NoDup (sm_train_rows m)) && bool_decide (NoDup (sm_validation_rows m))
  && apart (sm_train_rows m) (sm_validation_rows m)
  && bool_decide ((list_to_set (sm_train_rows m ++ sm_validation_rows m) : gset Z)
                  = list_to_set (seqZ 1 n))
  && apart (contents hashes (sm_train_rows m)) (contents hashes (sm_validation_rows m)).

(** ** [split_rows] *)

(** The keys of a dict filled in order: first occurrences. *)
Definition dict_keys (l : list string) : list string := reverse (remove_dups (reverse l)).
(** [groups[digest]] *)
Definition group (hashes : list string) (digest : string) : list Z :=
  filter (λ row, content hashes row = Some digest) (seqZ 1 (Z.of_nat (length hashes))).

(** The loop over [ordered[:-1]]. *)
Fixpoint select (hashes : list string) (target count : Z) (ordered : list string) : list string :=
  match ordered with
  | [] => []
  | d :: ordered =>
      let count := count + Z.of_nat (length (group hashes d)) in
      d :: (if target <=? count then [] else select hashes target count ordered)
  end.

Section split.
(** [int.from_bytes(sha256(text).digest())]: the byte order of the digests *)
Context (sha256 : string → Z).

Definition split_key (seed : Z) (digest : string) : Z :=
  sha256 ("coire-split-v1:" +:+ pretty seed +:+ ":" +:+ digest).

(** [rounded] is [round(len(content_hashes) * validation_fraction)]. *)
Definition split_rows (dataset_id source_sha256 : string) (hashes : list string) (seed : Z)
    (fraction_ok : bool) (rounded : Z) : result MixtureError SplitManifest :=
  raise_if (negb fraction_ok) (TrainingValidationError "fraction");;
  let groups := dict_keys hashes in
  raise_if (Z.of_nat (length groups) <? 2) (TrainingValidationError "two groups");;
  let ordered := sorted_on (split_key seed) groups in
  let target := Z.max 1 rounded in
  let selected := select hashes target 0 (take (length ordered - 1) ordered) in
  let validation := sorted_on (λ r, r) (selected ≫= group hashes) in
  let train := sorted_on (λ r, r) (filter (λ d, d ∉ selected) groups ≫= group hashes) in
  let m := mkManifest dataset_id source_sha256 seed train validation hashes in
  raise_if (negb (SplitManifest_valid m)) InvalidManifest;;
  Ok m.
End split.

(** [detect_split_leakage] *)
Definition detect_split_leakage (ms : list SplitManifest) : result MixtureError unit :=
  let train := ms ≫= λ m, contents (sm_row_content_sha256 m) (sm_train_rows m) in
  let validation := ms ≫= λ m, contents (sm_row_content_sha256 m) (sm_validation_rows m) in
  raise_if (negb (apart train validation)) (TrainingValidationError "leakage").

(** ** [largest_remainder_quotas] *)

(** A fraction [n / d]; with [D] the product of all denominators it is
    [scaled / D], and [total * weight / sum(weights)] is
    [total * scaled / sum(scaled)]. *)
Definition denominator_product (weights : list (Z * Z)) : Z := foldr Z.mul 1 (weights.*2).
Definition scaled (weights : list (Z * Z)) : list Z :=
  (λ '(n, d), n * (denominator_product weights / d)) <$> weights.

(** The floor of the exact share of [a], and what it leaves out of [sum]. *)
Definition floor_share (total sum a : Z) : Z := total * a / sum.
Definition remainder (total sum a : Z) : Z := (total * a) mod sum.

(** [for index in order[:k]: quotas[index] += 1] *)
Definition bump (chosen : list nat) (quotas : list Z) : list Z :=
  imap (λ i q, if is_in i chosen then q + 1 else q) quotas.

Definition largest_remainder_quotas (weights : list (Z * Z)) (total : Z) : result MixtureError (list Z) :=
  let n := Z.of_nat (length weights) in
  raise_if (negb ((1 <=? total) && (total <=? 16_000_000) && (1 <=? n) && (n <=? 16)))
           (TrainingValidationError "bounds");;
  raise_if (existsb (λ '(n, d), (n <=? 0) || (d <? n)) weights) (TrainingValidationError "finite");;
  let shares := scaled weights in
  let sum := sum_Z shares in
  let D := denominator_product weights in
  raise_if (D <? 1_000_000 * Z.abs (sum - D)) (TrainingValidationError "sum to one");;
  let quotas := floor_share total sum <$> shares in
  let order := sorted_on (λ i, - remainder total sum (default 0 (shares !! i))) (seq 0 (length weights)) in
  Ok (bump (take (Z.to_nat (total - sum_Z quotas)) order) quotas).

(** ** [compile_mixture] *)

Record DatasetSource := mkDatasetSource {
  ds_dataset_id : string;
  ds_sample_count : Z;
  ds_mixture_proportion : Z * Z;
}.
Record DatasetMixture := mkMixture {
  dm_datasets : list DatasetSource;
  dm_epoch_samples : Z;
  dm_weighted : bool;
  dm_replacement : bool;
  dm_seed : Z;
}.
(** [proportions_and_sources] and the field bounds; [close] is [math.isclose] of the
    floating-point sum and one. *)
Definition DatasetMixture_valid (close : bool) (m : DatasetMixture) : bool :=
  (1 <=? Z.of_nat (length (dm_datasets m))) && (Z.of_nat (length (dm_datasets m)) <=? 16)
  && (1 <=? dm_epoch_samples m) && (dm_epoch_samples m <=? 16_000_000)
  && forallb (λ s, (1 <=? ds_sample_count s) && (ds_sample_count s <=? 1_000_000)) (dm_datasets m)
  && bool_decide (NoDup (ds_dataset_id <$> dm_datasets m)) && close
  && negb (negb (dm_replacement m) && (sum_Z (ds_sample_count <$> dm_datasets m) <? dm_epoch_samples m)).

Record CompiledMixtureSource := mkCompiledSource {
  cs_dataset_id : string;
  cs_source_sha256 : string;
  cs_split_sha256 : string;
  cs_rows : list Z;
  cs_quota : Z;
}.

Record CompiledMixture := mkCompiled {
  cm_sources : list CompiledMixtureSource;
  cm_identity_sha256 : string;
  cm_seed : Z;
  cm_weighted : bool;
  cm_replacement : bool;
  cm_epoch_samples : Z;
}.

Section compile.
(** The digest of a manifest, and the SHA-256 of the payload's JSON: the intent, the
    digests of the splits, those of the validation splits (which it sorts) and the
    quotas. *)
Context (split_digest : SplitManifest → string)
        (identity : DatasetMixture → list string → list string → list Z → string).

(** The manifests of the sources, in order. *)
Fixpoint selected_manifests (manifests : gmap string SplitManifest) (sources : list DatasetSource)
    : result MixtureError (list SplitManifest) :=
  match sources with
  | [] => Ok []
  | s :: sources =>
      match manifests !! ds_dataset_id s with
      | Some m =>
          raise_if (negb (String.eqb (sm_dataset_id m) (ds_dataset_id s)))
                   (TrainingValidationError "unavailable");;
          raise_if (negb (SplitManifest_valid m)) InvalidManifest;;
          rest ← selected_manifests manifests sources;
          Ok (m :: rest)
      | None => Err (TrainingValidationError "unavailable")
      end
  end.

Definition compile_source (replacement : bool) (s : DatasetSource) (m : SplitManifest) (quota : Z)
    : result MixtureError CompiledMixtureSource :=
  raise_if (Z.of_nat (length (sm_train_rows m)) <? ds_sample_count s) (TrainingValidationError "sample_count");;
  raise_if (negb replacement && (ds_sample_count s <? quota)) (TrainingValidationError "quota");;
  Ok (mkCompiledSource (ds_dataset_id s) (sm_source_sha256 m) (split_digest m)
        (take (Z.to_nat (ds_sample_count s)) (sorted_on (λ r, r) (sm_train_rows m))) quota).

Fixpoint compile_sources (replacement : bool) (sources : list DatasetSource)
    (ms : list SplitManifest) (quotas : list Z) : result MixtureError (list CompiledMixtureSource) :=
  match sources, ms, quotas with
  | s :: sources, m :: ms, q :: quotas =>
      c ← compile_source replacement s m q;
      rest ← compile_sources replacement sources ms quotas;
      Ok (c :: rest)
  | [], [], [] => Ok []
  | _, _, _ => Err (TrainingValidationError "zip")
  end.

Definition compile_mixture (close : bool) (mixture : DatasetMixture)
    (manifests : gmap string SplitManifest) (validation_manifests : list SplitManifest)
    : result MixtureError CompiledMixture :=
  raise_if (negb (DatasetMixture_valid close mixture)) InvalidManifest;;
  selected ← selected_manifests manifests (dm_datasets mixture);
  raise_if (negb (forallb SplitManifest_valid validation_manifests)) InvalidManifest;;
  detect_split_leakage (selected ++ validation_manifests);;
  quotas ← largest_remainder_quotas (ds_mixture_proportion <$> dm_datasets mixture)
             (dm_epoch_samples mixture);
  compiled ← compile_sources (dm_replacement mixture) (dm_datasets mixture) selected quotas;
  Ok (mkCompiled compiled
        (identity mixture (cs_split_sha256 <$> compiled) (split_digest <$> validation_manifests) quotas)
        (dm_seed mixture) (dm_weighted mixture) (dm_replacement mixture) (dm_epoch_samples mixture)).
End compile.
