(* ===== verification/MixtureFacts.v ===== *)
(** * Splits partition, quotas add up, compiled mixtures can be sampled *)
From Stdlib Require Import Ascii String.
From stdpp Require Import pretty.
From S2P Require Import Prelude Sampling SamplingFacts Mixture.
Open Scope Z_scope.

(** ** Groups of rows with the same content *)

Lemma apart_true {A} `{EqDecision A} (xs ys : list A) : apart xs ys = true ↔ ∀ x, x ∈ xs → x ∉ ys.
Proof.
  unfold apart. rewrite forallb_forall. setoid_rewrite list_elem_of_In. split; intros Ha x Hx.
  - specialize (Ha x Hx). guards. intros Hy. apply list_elem_of_In, is_in_true in Hy. congruence.
  - apply negb_true_iff, not_true_iff_false. rewrite is_in_true, list_elem_of_In. auto.
Qed.

Lemma elem_of_dict_keys l d : d ∈ dict_keys l ↔ d ∈ l.
Proof. unfold dict_keys. by rewrite elem_of_reverse, elem_of_remove_dups, elem_of_reverse. Qed.
Lemma NoDup_dict_keys l : NoDup (dict_keys l).
Proof. unfold dict_keys. rewrite reverse_Permutation. apply NoDup_remove_dups. Qed.

Lemma elem_of_group hashes d row :
  row ∈ group hashes d ↔ content hashes row = Some d ∧ 1 ≤ row ≤ Z.of_nat (length hashes).
Proof. unfold group. rewrite list_elem_of_filter, elem_of_seqZ. intuition lia. Qed.

Lemma group_nonempty hashes d : d ∈ hashes → ∃ row, row ∈ group hashes d.
Proof.
  intros [i Hi]%list_elem_of_lookup_1. exists (Z.of_nat i + 1). apply elem_of_group.
  unfold content. replace (Z.to_nat (Z.of_nat i + 1 - 1)) with i by lia. split; [done|].
  apply lookup_lt_Some in Hi. lia.
Qed.

Lemma content_Some hashes row :
  1 ≤ row ≤ Z.of_nat (length hashes) → ∃ d, content hashes row = Some d ∧ d ∈ hashes.
Proof.
  intros Hr. destruct (lookup_lt_is_Some_2 hashes (Z.to_nat (row - 1))) as [d Hd]; [lia|].
  exists d. split; [done|]. by apply list_elem_of_lookup_2 in Hd.
Qed.

(** The rows of some groups: a union without overlap. *)
Lemma elem_of_groups hashes ds row :
  row ∈ ds ≫= group hashes
  ↔ (∃ d, d ∈ ds ∧ content hashes row = Some d) ∧ 1 ≤ row ≤ Z.of_nat (length hashes).
Proof. rewrite list_elem_of_bind. setoid_rewrite elem_of_group. naive_solver. Qed.

Lemma NoDup_groups hashes ds : NoDup ds → NoDup (ds ≫= group hashes).
Proof.
  induction 1 as [|d ds Hd Hnd IH]; [constructor|]. rewrite bind_cons. apply NoDup_app.
  split_and!; [apply NoDup_filter, NoDup_seqZ| |done].
  intros row [Hc _]%elem_of_group ((d' & Hd' & Hc') & _)%elem_of_groups. congruence.
Qed.

Lemma groups_length hashes ds :
  NoDup ds → Z.of_nat (length (ds ≫= group hashes)) ≤ Z.of_nat (length hashes).
Proof.
  intros Hnd. pose proof (NoDup_submseteq (ds ≫= group hashes) (seqZ 1 (Z.of_nat (length hashes)))
    (NoDup_groups _ _ Hnd)) as Hs.
  assert (ds ≫= group hashes ⊆+ seqZ 1 (Z.of_nat (length hashes))) as Hsub.
  { apply Hs. intros row [_ Hr]%elem_of_groups. apply elem_of_seqZ. lia. }
  apply submseteq_length in Hsub. rewrite length_seqZ in Hsub. lia.
Qed.

(** ** Selection *)

Lemma select_spec hashes target count ordered :
  ∃ k, select hashes target count ordered = take k ordered ∧ (ordered ≠ [] → (1 ≤ k)%nat)
    ∧ (target ≤ count + Z.of_nat (length (select hashes target count ordered ≫= group hashes))
       ∨ select hashes target count ordered = ordered).
Proof.
  revert count. induction ordered as [|d ordered IH]; intros count; [exists 0%nat; split_and!; [done..|by right]|].
  simpl select. set (count' := count + Z.of_nat (length (group hashes d))).
  destruct (IH count') as (k & Hk & _ & Hor).
  destruct (Z.leb_spec target count') as [Hle|Hgt].
  - exists 1%nat. split; [done|]. split; [auto|]. left.
    rewrite bind_cons, length_app, Nat2Z.inj_add. subst count'. lia.
  - exists (S k). split; [by rewrite Hk|]. split; [lia|].
    destruct Hor as [Hor|Hor]; [left|right; by rewrite Hor].
    rewrite bind_cons, length_app, Nat2Z.inj_add. subst count'. lia.
Qed.

Lemma length_sorted_on {A} (key : A → Z) l : length (sorted_on key l) = length l.
Proof. by rewrite sorted_on_perm. Qed.

Lemma sorted_bounded (rows : list Z) :
  (∀ r, r ∈ rows → 1 ≤ r) → rows ≠ [] → Z.of_nat (length rows) ≤ 1_000_000 →
  bounded_rows (sorted_on (λ r, r) rows) = true.
Proof.
  intros Hr Hne Hl. unfold bounded_rows. rewrite length_sorted_on.
  rewrite !andb_true_iff, !Z.leb_le, forallb_forall. split_and!; [|lia|].
  - destruct rows; [done|simpl; lia].
  - intros r Hin%list_elem_of_In. apply elem_of_sorted_on in Hin. apply Z.leb_le. auto.
Qed.

Lemma elem_of_contents hashes rows d :
  d ∈ contents hashes rows ↔ ∃ row, row ∈ rows ∧ content hashes row = Some d.
Proof. apply list_elem_of_omap. Qed.

(** Two disjoint sets of groups that together are all groups: a valid manifest. *)
Lemma partition_valid dataset source seed hashes selected rest :
  is_sha256 source = true → 0 ≤ seed < 2 ^ 32 → forallb is_sha256 hashes = true →
  Z.of_nat (length hashes) ≤ 1_000_000 → NoDup selected → NoDup rest →
  (∀ d, d ∈ hashes ↔ d ∈ selected ∨ d ∈ rest) → (∀ d, d ∈ selected → d ∉ rest) →
  selected ≠ [] → rest ≠ [] →
  SplitManifest_valid (mkManifest dataset source seed
    (sorted_on (λ r, r) (rest ≫= group hashes)) (sorted_on (λ r, r) (selected ≫= group hashes)) hashes)
  = true.
Proof.
  intros Hsource Hseed Hdigests Hmax Hns Hnr Hall Hdisj Hs Hr.
  assert (Hbound : ∀ ds, NoDup ds → ds ≠ [] → (∀ d, d ∈ ds → d ∈ hashes) →
    bounded_rows (sorted_on (λ r, r) (ds ≫= group hashes)) = true).
  { intros ds Hnd Hne Hin. pose proof (groups_length hashes ds Hnd).
    apply sorted_bounded; [intros r [_ ?]%elem_of_groups; lia| |lia].
    destruct ds as [|d ds]; [done|]. destruct (group_nonempty hashes d) as [row Hrow]; [apply Hin; set_solver|].
    intros He. apply (not_elem_of_nil row). rewrite <- He, bind_cons. set_solver. }
  assert (Htwo : (2 ≤ length hashes)%nat).
  { destruct selected as [|d ?], rest as [|d' ?]; [done..|].
    assert (Hsub : [d; d'] ⊆+ hashes).
    { apply NoDup_submseteq.
      - repeat constructor; set_solver.
      - intros x Hx. apply Hall. set_solver. }
    apply submseteq_length in Hsub. simpl in Hsub. lia. }
  unfold SplitManifest_valid. cbn [sm_source_sha256 sm_seed sm_train_rows sm_validation_rows sm_row_content_sha256]. cbv zeta. rewrite !Hbound by set_solver. rewrite Hsource, Hdigests.
  rewrite !andb_true_iff, !bool_decide_eq_true, !Z.leb_le, !Z.ltb_lt, !apart_true.
  split_and!; [done|lia|lia|done|done|done|lia|lia|rewrite sorted_on_perm; by apply NoDup_groups..| | |].
  - intros r. rewrite !elem_of_sorted_on, !elem_of_groups. intros ((d & Hd & Hc) & _) ((d' & Hd' & Hc') & _).
    assert (d = d') as -> by congruence. by apply (Hdisj d').
  - apply set_eq. intros r. rewrite !elem_of_list_to_set, elem_of_app, !elem_of_sorted_on, !elem_of_groups,
      elem_of_seqZ. split; [intros [[_ ?]|[_ ?]]; lia|]. intros Hrange.
    destruct (content_Some hashes r ltac:(lia)) as (d & Hc & Hd%Hall).
    destruct Hd; [right|left]; (split; [by exists d|lia]).
  - intros d. rewrite !elem_of_contents. setoid_rewrite elem_of_sorted_on. setoid_rewrite elem_of_groups.
    intros (r & ((d1 & Hd1 & Hc1) & _) & Hc) (r' & ((d2 & Hd2 & Hc2) & _) & Hc').
    assert (d1 = d2) as -> by congruence. by apply (Hdisj d2).
Qed.

(** The selection over all groups but the last: some are taken, some are left, and
    when the target is not met only the last is left. *)
Lemma select_front hashes target groups ordered :
  NoDup groups → (2 ≤ length groups)%nat → ordered ≡ₚ groups →
  let selected := select hashes target 0 (take (length ordered - 1) ordered) in
  NoDup selected ∧ selected ≠ [] ∧ (∀ d, d ∈ selected → d ∈ groups)
  ∧ filter (λ d, d ∉ selected) groups ≠ []
  ∧ (target ≤ Z.of_nat (length (selected ≫= group hashes))
     ∨ ∃ last, ∀ d, d ∈ filter (λ d, d ∉ selected) groups → d = last).
Proof.
  intros Hnd Htwo Hord selected. rewrite <- Hord in Hnd.
  assert (Hlen : (2 ≤ length ordered)%nat) by (by rewrite Hord).
  destruct (exists_last (l := ordered)) as (front & last & Hlast); [by destruct ordered; [simpl in Hlen; lia|]|].
  assert (Hfront : take (length ordered - 1) ordered = front).
  { rewrite Hlast, length_app. simpl. apply take_app_length'. lia. }
  unfold selected. clear selected. rewrite Hfront. rewrite Hlast in Hnd, Hlen.
  apply NoDup_app in Hnd as (Hnf & Hfl & _).
  assert (Hgroups : ∀ d, d ∈ groups ↔ d ∈ front ∨ d = last).
  { intros d. rewrite <- Hord, Hlast, elem_of_app. set_solver. }
  destruct (select_spec hashes target 0 front) as (k & Hk & Hk1 & Hor).
  assert (Hsel : ∀ d, d ∈ select hashes target 0 front → d ∈ front) by (intros d; rewrite Hk; apply subseteq_take).
  split_and!.
  - rewrite Hk. eapply sublist_NoDup; [done|apply sublist_take].
  - rewrite Hk. destruct front as [|f front]; [simpl in Hlen; lia|].
    destruct k; [by specialize (Hk1 ltac:(done)); lia|done].
  - intros d Hd. apply Hgroups. left. auto.
  - intros He. apply (not_elem_of_nil last). rewrite <- He. apply list_elem_of_filter.
    split; [|apply Hgroups; by right]. intros Hl%Hsel. by apply (Hfl last Hl), list_elem_of_singleton.
  - destruct Hor as [Hor|Hor]; [by left|right]. exists last. rewrite Hor.
    intros d [Hn Hd%Hgroups]%list_elem_of_filter. tauto.
Qed.

Lemma select_cover hashes (selected : list string) :
  (∀ d, d ∈ selected → d ∈ dict_keys hashes) →
  ∀ d, d ∈ hashes ↔ d ∈ selected ∨ d ∈ filter (λ d, d ∉ selected) (dict_keys hashes).
Proof.
  intros Hsub d. rewrite list_elem_of_filter, <- elem_of_dict_keys.
  destruct (decide (d ∈ selected)); naive_solver.
Qed.

Section split.
Context (sha256 : string → Z).

(** C29. A split always succeeds and partitions: with two distinct contents (and
    well-formed digests and seed) the manifest passes its own validation (train and validation are non-empty, disjoint,
    together all rows, and no content is on both sides), and validation has the target
    number of rows unless all training rows have one content. *)
Theorem split_rows_partition dataset source hashes seed rounded :
  is_sha256 source = true → 0 ≤ seed < 2 ^ 32 → forallb is_sha256 hashes = true →
  (2 ≤ length (dict_keys hashes))%nat → Z.of_nat (length hashes) ≤ 1_000_000 →
  ∃ m, split_rows sha256 dataset source hashes seed true rounded = Ok m
    ∧ SplitManifest_valid m = true
    ∧ (Z.max 1 rounded ≤ Z.of_nat (length (sm_validation_rows m))
       ∨ ∃ d, ∀ r, r ∈ sm_train_rows m → content hashes r = Some d).
Proof.
  intros Hsource Hseed Hdigests Htwo Hmax. unfold split_rows. cbv zeta.
  destruct (select_front hashes (Z.max 1 rounded) (dict_keys hashes)
    (sorted_on (split_key sha256 seed) (dict_keys hashes)) (NoDup_dict_keys _) Htwo
    (sorted_on_perm _ _)) as (Hnd & Hne & Hsub & Hrest & Hor).
  revert Hnd Hne Hsub Hrest Hor. generalize (select hashes (Z.max 1 rounded) 0
    (take (length (sorted_on (split_key sha256 seed) (dict_keys hashes)) - 1)
       (sorted_on (split_key sha256 seed) (dict_keys hashes)))).
  intros selected Hnd Hne Hsub Hrest Hor.
  assert (Hv := partition_valid dataset source seed hashes selected
    (filter (λ d, d ∉ selected) (dict_keys hashes)) Hsource Hseed Hdigests Hmax Hnd (NoDup_filter _ _ (NoDup_dict_keys _))
    (select_cover _ _ Hsub) ltac:(intros d Hd; rewrite list_elem_of_filter; tauto) Hne Hrest).
  rewrite (proj2 (Z.ltb_ge _ _)) by lia. rewrite Hv. simpl. eexists. split; [done|]. split; [done|].
  simpl. rewrite length_sorted_on. destruct Hor as [Hor|[last Hor]]; [by left|right]. exists last.
  intros r. rewrite elem_of_sorted_on, elem_of_groups. intros ((d & Hd%Hor & Hc) & _). congruence.
Qed.
End split.

(** ** Quotas *)

Lemma bump_sum chosen quotas :
  sum_Z (bump chosen quotas)
  = sum_Z quotas + Z.of_nat (length (filter (λ i, i ∈ chosen) (seq 0 (length quotas)))).
Proof.
  unfold bump. induction quotas as [|q quotas IH] using rev_ind; [done|].
  rewrite imap_app, !sum_Z_app, IH, length_app, seq_app, filter_app, length_app, Nat2Z.inj_add. simpl.
  rewrite Nat.add_0_r. rewrite filter_cons. unfold is_in at 1.
  case_decide; [rewrite bool_decide_eq_true_2 by done|rewrite bool_decide_eq_false_2 by done]; simpl; lia.
Qed.

Lemma bump_sum_chosen chosen quotas :
  NoDup chosen → (∀ i, i ∈ chosen → (i < length quotas)%nat) →
  sum_Z (bump chosen quotas) = sum_Z quotas + Z.of_nat (length chosen).
Proof.
  intros Hnd Hlt. rewrite bump_sum. f_equal. f_equal. apply Permutation_length, NoDup_Permutation; [|done|].
  - apply NoDup_filter, NoDup_seq.
  - intros i. rewrite list_elem_of_filter, elem_of_seq. split; [tauto|].
    intros Hi. split; [done|]. specialize (Hlt i Hi). lia.
Qed.

(** The floors lose the sum of the remainders, less than one per source. *)
Lemma floors_short total sum shares :
  0 < sum →
  sum * sum_Z (floor_share total sum <$> shares) + sum_Z (remainder total sum <$> shares)
  = total * sum_Z shares.
Proof.
  intros Hs. induction shares as [|a shares IH]; [simpl; lia|].
  rewrite !fmap_cons. cbn [sum_Z]. rewrite !Z.mul_add_distr_l, <- IH.
  unfold floor_share at 1, remainder at 1. pose proof (Z.div_mod (total * a) sum ltac:(lia)) as Hd.
  rewrite Hd at 3. ring.
Qed.

Lemma remainders_bound total sum shares :
  0 < sum → shares ≠ [] →
  0 ≤ sum_Z (remainder total sum <$> shares) < sum * Z.of_nat (length shares).
Proof.
  intros Hs Hne. destruct shares as [|a shares]; [done|]. clear Hne. revert a. unfold remainder.
  induction shares as [|b shares IH]; intros a.
  - simpl. pose proof (Z.mod_pos_bound (total * a) sum Hs). lia.
  - specialize (IH b). pose proof (Z.mod_pos_bound (total * a) sum Hs).
    rewrite fmap_cons. cbn [sum_Z]. rewrite (length_cons a), Nat2Z.inj_succ. lia.
Qed.

(** How many quotas are bumped. *)
Lemma leftover_bound total shares :
  0 < sum_Z shares → shares ≠ [] →
  0 ≤ total - sum_Z (floor_share total (sum_Z shares) <$> shares) < Z.of_nat (length shares).
Proof.
  intros Hs Hne. pose proof (floors_short total _ shares Hs).
  pose proof (remainders_bound total _ shares Hs Hne). nia.
Qed.

Lemma bump_lookup chosen quotas i :
  bump chosen quotas !! i = (λ q, if is_in i chosen then q + 1 else q) <$> quotas !! i.
Proof. unfold bump. by rewrite list_lookup_imap. Qed.

Definition valid_weight (w : Z * Z) : Prop := 0 < w.1 ≤ w.2.

Lemma denominator_product_pos weights : Forall valid_weight weights → 0 < denominator_product weights.
Proof.
  unfold denominator_product, valid_weight. induction 1 as [|[n d] weights Hw _ IH]; simpl in *; [lia|].
  apply Z.mul_pos_pos; [lia|exact IH].
Qed.

Lemma denominator_divides weights n d : (n, d) ∈ weights → (d | denominator_product weights).
Proof.
  unfold denominator_product. induction weights as [|[n' d'] weights IH]; [by intros ?%elem_of_nil|].
  intros [[= <- <-]|Hin]%elem_of_cons; simpl; [apply Z.divide_factor_l|].
  by apply Z.divide_mul_r, IH.
Qed.

Lemma scaled_pos weights a : Forall valid_weight weights → a ∈ scaled weights → 0 < a.
Proof.
  intros Hw ([n d] & -> & Hin)%list_elem_of_fmap. pose proof (denominator_product_pos _ Hw) as HD.
  destruct (denominator_divides _ _ _ Hin) as [k Hk]. rewrite Forall_forall in Hw.
  specialize (Hw _ Hin). unfold valid_weight in Hw. simpl in Hw. rewrite Hk, Z.div_mul by lia. nia.
Qed.

Lemma sum_Z_pos l : l ≠ [] → (∀ x, x ∈ l → 0 < x) → 0 < sum_Z l.
Proof.
  intros Hne Hp. destruct l as [|x l]; [done|]. simpl. pose proof (Hp x ltac:(set_solver)).
  pose proof (sum_Z_nonneg l (λ y Hy, Z.lt_le_incl _ _ (Hp y (proj2 (elem_of_cons _ _ _) (or_intror Hy))))).
  lia.
Qed.

Lemma strongly_sorted_app {A} (R : A → A → Prop) (l1 l2 : list A) x y :
  StronglySorted R (l1 ++ l2) → x ∈ l1 → y ∈ l2 → R x y.
Proof.
  induction l1 as [|z l1 IH]; simpl; intros Hs Hx Hy; [by apply elem_of_nil in Hx|].
  apply StronglySorted_inv in Hs as [Hs Hz]. apply elem_of_cons in Hx as [->|Hx]; [|auto].
  rewrite Forall_forall in Hz. apply Hz. set_solver.
Qed.

(** A first part of a sorted list is not larger than the rest. *)
Lemma sorted_on_take {A} (key : A → Z) (l : list A) k x y :
  x ∈ take k (sorted_on key l) → y ∈ l → y ∉ take k (sorted_on key l) → key x ≤ key y.
Proof.
  intros Hx Hy Hny. pose proof (sorted_on_strongly_sorted key l) as Hs.
  rewrite <- (take_drop k (sorted_on key l)) in Hs.
  eapply (strongly_sorted_app (λ a b, key a ≤ key b)); [exact Hs|exact Hx|].
  rewrite <- (elem_of_sorted_on key), <- (take_drop k (sorted_on key l)), elem_of_app in Hy. tauto.
Qed.

Lemma sum_support bound (support : list nat) l :
  (∀ j r, l !! j = Some r → r ≤ if decide (j ∈ support) then bound else 0) →
  sum_Z l ≤ bound * Z.of_nat (length (filter (λ j, j ∈ support) (seq 0 (length l)))).
Proof.
  induction l as [|r l IH] using rev_ind; intros Hl; [simpl; lia|].
  rewrite sum_Z_app, length_app, seq_app, filter_app, length_app. cbn [length seq sum_Z].
  rewrite filter_cons, filter_nil.
  assert (sum_Z l ≤ bound * Z.of_nat (length (filter (λ j, j ∈ support) (seq 0 (length l))))).
  { apply IH. intros j r' Hj. apply Hl. by apply lookup_app_l_Some. }
  pose proof (Hl (length l) r ltac:(by rewrite lookup_app_r, Nat.sub_diag by lia)).
  simpl. case_decide; simpl; lia.
Qed.

(** Rounding up takes only sources with a positive remainder. *)
Lemma rounded_up_remainder bound rems chosen i :
  0 < bound → (∀ r, r ∈ rems → 0 ≤ r < bound) → NoDup chosen →
  (∀ j, j ∈ chosen → (j < length rems)%nat) →
  sum_Z rems = bound * Z.of_nat (length chosen) → i ∈ chosen →
  (∀ j r, rems !! j = Some r → j ∉ chosen → r ≤ default 0 (rems !! i)) → 0 < default 0 (rems !! i).
Proof.
  intros Hb Hr Hnd Hlt Hsum Hi Hle. apply Z.lt_nge. intros Hz.
  set (others := filter (λ j, j ≠ i) chosen).
  pose proof (sum_support bound others rems) as Hs.
  assert (Hperm : filter (λ j, j ∈ others) (seq 0 (length rems)) ≡ₚ others).
  { apply NoDup_Permutation; [apply NoDup_filter, NoDup_seq|by apply NoDup_filter|].
    intros j. rewrite list_elem_of_filter, elem_of_seq. split; [tauto|]. intros Hj.
    split; [done|]. apply list_elem_of_filter in Hj as [_ Hj%Hlt]. lia. }
  assert (Hlen : (length others < length chosen)%nat) by (by apply length_filter_lt with i; [|auto]).
  rewrite Hperm, Hsum in Hs. assert (bound * Z.of_nat (length chosen) ≤ bound * Z.of_nat (length others)); [|nia].
  apply Hs. intros j r Hj. destruct (Hr r) as [? ?]; [by eapply list_elem_of_lookup_2|].
  case_decide as Hd; [lia|]. destruct (decide (j = i)) as [->|Hji]; [by rewrite Hj in Hz|].
  specialize (Hle j r Hj). unfold others in Hd. rewrite list_elem_of_filter in Hd.
  specialize (Hle ltac:(tauto)). lia.
Qed.

(** Rounding: the quotas add up to the total, each is the floor of its exact share or
    one more, and the remainders of those rounded up are positive and the largest. *)
Definition rounded (total : Z) (shares quotas : list Z) : Prop :=
  let sum := sum_Z shares in
  length quotas = length shares ∧ sum_Z quotas = total
  ∧ (∀ i a q, shares !! i = Some a → quotas !! i = Some q →
       q = floor_share total sum a ∨ q = floor_share total sum a + 1)
  ∧ (∀ i a, shares !! i = Some a → quotas !! i = Some (floor_share total sum a + 1) →
       0 < remainder total sum a
       ∧ ∀ j b, shares !! j = Some b → quotas !! j = Some (floor_share total sum b) →
           remainder total sum b ≤ remainder total sum a).

Lemma bumped_rounded total shares :
  0 < sum_Z shares → shares ≠ [] →
  let sum := sum_Z shares in
  let quotas := floor_share total sum <$> shares in
  let order := sorted_on (λ i, - remainder total sum (default 0 (shares !! i))) (seq 0 (length shares)) in
  rounded total shares (bump (take (Z.to_nat (total - sum_Z quotas)) order) quotas).
Proof.
  intros Hsum Hne. cbv zeta. unfold rounded. set (sum := sum_Z shares) in *.
  set (order := sorted_on _ (seq 0 (length shares))).
  pose proof (leftover_bound total shares Hsum Hne) as Hk. fold sum in Hk.
  set (k := total - sum_Z (floor_share total sum <$> shares)) in *.
  assert (Hord : order ≡ₚ seq 0 (length shares)) by apply sorted_on_perm.
  assert (Hcl : length (take (Z.to_nat k) order) = Z.to_nat k).
  { rewrite length_take, Hord, length_seq. lia. }
  assert (Hcn : NoDup (take (Z.to_nat k) order))
    by (eapply sublist_NoDup; [|apply sublist_take]; rewrite Hord; apply NoDup_seq).
  assert (Hci : ∀ j, j ∈ take (Z.to_nat k) order → (j < length shares)%nat)
    by (intros j Hj%subseteq_take; rewrite Hord, elem_of_seq in Hj; lia).
  split_and!.
  - unfold bump. by rewrite length_imap, length_fmap.
  - rewrite bump_sum_chosen, Hcl; [subst k; lia|done|]. by rewrite length_fmap.
  - intros i a q Ha. rewrite bump_lookup, list_lookup_fmap, Ha. simpl. intros [= <-].
    case_match; [by right|by left].
  - intros i a Ha. rewrite bump_lookup, list_lookup_fmap, Ha. simpl.
    destruct (is_in i _) eqn:Ei; [intros _|intros [=]; lia]. apply is_in_true in Ei.
    assert (Hsmall : ∀ j b, shares !! j = Some b → j ∉ take (Z.to_nat k) order →
      remainder total sum b ≤ remainder total sum a).
    { intros j b Hb Ej.
      assert (Hj : j ∈ seq 0 (length shares)) by (apply elem_of_seq; apply lookup_lt_Some in Hb; lia).
      pose proof (sorted_on_take _ _ _ _ _ Ei Hj Ej) as Hle. simpl in Hle. rewrite Ha, Hb in Hle.
      simpl in Hle. lia. }
    split.
    + pose proof (rounded_up_remainder sum (remainder total sum <$> shares) (take (Z.to_nat k) order) i) as Hp.
      rewrite list_lookup_fmap, Ha in Hp. apply Hp; clear Hp; [done| |done| | |done|].
      * intros r (c & -> & _)%list_elem_of_fmap. by apply Z.mod_pos_bound.
      * intros j Hj. rewrite length_fmap. auto.
      * rewrite Hcl, Z2Nat.id by lia. pose proof (floors_short total sum shares Hsum). subst k. lia.
      * intros j r. rewrite list_lookup_fmap. destruct (shares !! j) as [b|] eqn:Hb; [|done].
        intros [= <-]. by apply Hsmall.
    + intros j b Hb. rewrite bump_lookup, list_lookup_fmap, Hb. simpl.
      destruct (is_in j _) eqn:Ej; [intros [=]; lia|]. intros _.
      apply not_true_iff_false in Ej. rewrite is_in_true in Ej. by apply (Hsmall j b).
Qed.

Lemma quotas_run weights total :
  1 ≤ total ≤ 16_000_000 → 1 ≤ Z.of_nat (length weights) ≤ 16 → Forall valid_weight weights →
  1_000_000 * Z.abs (sum_Z (scaled weights) - denominator_product weights) ≤ denominator_product weights →
  0 < sum_Z (scaled weights)
  ∧ ∃ quotas, largest_remainder_quotas weights total = Ok quotas ∧ rounded total (scaled weights) quotas.
Proof.
  intros Ht Hn Hw Hone. assert (Hlen : length (scaled weights) = length weights) by apply length_fmap.
  assert (Hne : scaled weights ≠ []) by (intros He; rewrite He in Hlen; simpl in Hlen; lia).
  assert (Hsum : 0 < sum_Z (scaled weights)) by (apply sum_Z_pos; [done|]; intros x; by apply scaled_pos).
  split; [done|]. unfold largest_remainder_quotas. cbv zeta. rewrite <- Hlen in Hn |- *.
  rewrite raise_if_false by (rewrite !andb_true_intro by (split_and?; lia); done).
  rewrite raise_if_false.
  2:{ apply not_true_iff_false. rewrite existsb_exists. intros ([n d] & Hin%list_elem_of_In & Hbad).
      rewrite Forall_forall in Hw. specialize (Hw _ Hin). unfold valid_weight in Hw. simpl in Hw.
      apply orb_true_iff in Hbad. lia. }
  rewrite raise_if_false by lia.
  eexists. split; [done|]. by apply bumped_rounded.
Qed.

(** C23. Largest remainders: for positive weights that sum to one (within a millionth)
    the quotas exist, add up to the total exactly, each differs from its exact share
    [total * weight / sum] by less than one sample, and a source rounded up never had a smaller remainder
    than one rounded down. *)
Theorem quotas_exact weights total :
  1 ≤ total ≤ 16_000_000 → 1 ≤ Z.of_nat (length weights) ≤ 16 → Forall valid_weight weights →
  1_000_000 * Z.abs (sum_Z (scaled weights) - denominator_product weights) ≤ denominator_product weights →
  let sum := sum_Z (scaled weights) in
  ∃ quotas, largest_remainder_quotas weights total = Ok quotas
    ∧ length quotas = length weights ∧ sum_Z quotas = total
    ∧ (∀ i a q, scaled weights !! i = Some a → quotas !! i = Some q →
         0 ≤ q ∧ total * a - sum < q * sum < total * a + sum)
    ∧ (∀ i j a b, scaled weights !! i = Some a → scaled weights !! j = Some b →
         quotas !! i = Some (floor_share total sum a + 1) → quotas !! j = Some (floor_share total sum b) →
         remainder total sum b ≤ remainder total sum a).
Proof.
  intros Ht Hn Hw Hone sum.
  destruct (quotas_run weights total Ht Hn Hw Hone) as (Hsum & quotas & Hq & Hl & Hs & Hfl & Hrem).
  fold sum in Hsum.
  exists quotas. split_and!; [done|by rewrite Hl; apply length_fmap|done| |intros i j a b Ha Hb Hi Hj; by apply (Hrem i a Ha Hi) with j].
  intros i a q Ha Hiq. specialize (Hfl i a q Ha Hiq). fold sum in Hfl.
  assert (0 < a) by (eapply scaled_pos; [exact Hw|by eapply list_elem_of_lookup_2]).
  unfold floor_share in Hfl. pose proof (Z.div_mod (total * a) sum ltac:(lia)).
  pose proof (Z.mod_pos_bound (total * a) sum ltac:(lia)).
  assert (0 ≤ total * a / sum) by (apply Z.div_pos; nia). split; [lia|].
  destruct Hfl as [->| ->]; [nia|]. destruct (Hrem i a Ha Hiq) as [Hpos _]. unfold remainder in Hpos.
  fold sum in Hpos. nia.
Qed.

Definition demo_weights : list (Z * Z) := [(1, 2); (3, 10); (1, 5)].
Lemma quotas_exact_witness :
  let sum := sum_Z (scaled demo_weights) in
  ∃ quotas, largest_remainder_quotas demo_weights 7 = Ok quotas
    ∧ length quotas = length demo_weights ∧ sum_Z quotas = 7
    ∧ (∀ i a q, scaled demo_weights !! i = Some a → quotas !! i = Some q →
         0 ≤ q ∧ 7 * a - sum < q * sum < 7 * a + sum)
    ∧ (∀ i j a b, scaled demo_weights !! i = Some a → scaled demo_weights !! j = Some b →
         quotas !! i = Some (floor_share 7 sum a + 1) → quotas !! j = Some (floor_share 7 sum b) →
         remainder 7 sum b ≤ remainder 7 sum a).
Proof.
  apply (quotas_exact demo_weights 7); [lia|simpl; lia| |vm_compute; discriminate].
  repeat constructor; simpl; lia.
Defined.

Definition demo_digest (text : string) : Z := Z.of_nat (String.length text).
Definition demo_sha (c : ascii) : string := string_of_list_ascii (replicate 64 c).
Definition demo_hashes : list string := demo_sha <$> ["a"; "b"; "a"; "c"; "b"]%char.
Lemma split_rows_partition_witness :
  ∃ m, split_rows demo_digest "d" (demo_sha "0") demo_hashes 1 true 2 = Ok m
    ∧ SplitManifest_valid m = true
    ∧ (Z.max 1 2 ≤ Z.of_nat (length (sm_validation_rows m))
       ∨ ∃ d, ∀ r, r ∈ sm_train_rows m → content demo_hashes r = Some d).
Proof.
  apply (split_rows_partition demo_digest "d" (demo_sha "0") demo_hashes 1 2);
    [vm_compute; reflexivity|lia|vm_compute; reflexivity|vm_compute; lia|simpl; lia].
Defined.

(** ** Compiled mixtures *)

Lemma quotas_inv weights total quotas :
  largest_remainder_quotas weights total = Ok quotas →
  1 ≤ total ≤ 16_000_000 ∧ 1 ≤ Z.of_nat (length weights) ≤ 16
  ∧ length quotas = length weights ∧ sum_Z quotas = total ∧ ∀ q, q ∈ quotas → 0 ≤ q ≤ total.
Proof.
  intros Hq. assert (Hc := Hq). unfold largest_remainder_quotas in Hc. cbv zeta in Hc.
  apply raise_if_bind_Ok in Hc as [Hbounds [Hbad [Hone _]%raise_if_bind_Ok]%raise_if_bind_Ok]. guards.
  assert (Hw : Forall valid_weight weights).
  { apply Forall_forall. intros [n d] Hin%list_elem_of_In. apply not_true_iff_false in Hbad.
    rewrite existsb_exists in Hbad. unfold valid_weight. simpl. destruct (Z_le_gt_dec n 0).
    - destruct Hbad. exists (n, d). split; [done|]. apply orb_true_iff. lia.
    - split; [lia|]. apply Z.le_ngt. intros Hlt. destruct Hbad. exists (n, d).
      split; [done|]. apply orb_true_iff. lia. }
  destruct (quotas_run weights total) as (Hsum & qs & Hrun & Hlen & Hs & Hfl & _); [lia|lia|done|lia|].
  rewrite Hq in Hrun. injection Hrun as <-. split_and!; [lia..|by rewrite Hlen; apply length_fmap|done|].
  assert (Hnn : ∀ q, q ∈ quotas → 0 ≤ q).
  { intros q [i Hi]%list_elem_of_lookup_1. destruct (lookup_lt_is_Some_2 (scaled weights) i) as [a Ha].
    { rewrite <- Hlen. by eapply lookup_lt_Some. }
    assert (0 < a) by (eapply scaled_pos; [exact Hw|by eapply list_elem_of_lookup_2]).
    assert (0 ≤ floor_share total (sum_Z (scaled weights)) a) by (apply Z.div_pos; nia).
    destruct (Hfl i a q Ha Hi); lia. }
  intros q Hin. split; [auto|]. rewrite <- Hs. apply elem_of_Permutation in Hin as [l Hl].
  rewrite Hl. simpl. assert (0 ≤ sum_Z l); [|lia]. apply sum_Z_nonneg. intros x Hx. apply Hnn.
  rewrite Hl. by right.
Qed.

Section compiled.
Context (split_digest : SplitManifest → string)
        (identity : DatasetMixture → list string → list string → list Z → string).

Lemma selected_manifests_inv manifests sources ms :
  selected_manifests manifests sources = Ok ms →
  Forall2 (λ s m, manifests !! ds_dataset_id s = Some m ∧ SplitManifest_valid m = true) sources ms.
Proof.
  revert ms. induction sources as [|s sources IH]; intros ms; simpl; [intros [= <-]; constructor|].
  destruct (manifests !! ds_dataset_id s) as [m|] eqn:Em; [|done]. intros Hr. inv_ok. guards.
  constructor; auto.
Qed.

Lemma compile_sources_inv replacement sources ms quotas cs :
  compile_sources split_digest replacement sources ms quotas = Ok cs →
  cs_quota <$> cs = quotas
  ∧ Forall2 (λ (sm : DatasetSource * SplitManifest) c,
       ∃ q, compile_source split_digest replacement sm.1 sm.2 q = Ok c) (zip sources ms) cs.
Proof.
  revert ms quotas cs. induction sources as [|s sources IH]; intros [|m ms] [|q quotas] cs; simpl; try done.
  { intros [= <-]. split; constructor. }
  intros Hr. inv_ok. match goal with Hc : compile_sources _ _ _ _ _ = Ok _ |- _ => apply IH in Hc as [<- Hf] end.
  split; [|constructor; [by eexists|done]]. simpl. f_equal.
  match goal with Hc : compile_source _ _ _ _ _ = Ok _ |- _ => unfold compile_source in Hc end. by inv_ok.
Qed.

(** The rows of a compiled source: training rows of its manifest, as many as sampled. *)
Lemma compile_source_inv replacement s m q c :
  1 ≤ ds_sample_count s → compile_source split_digest replacement s m q = Ok c →
  cs_dataset_id c = ds_dataset_id s ∧ Z.of_nat (length (cs_rows c)) = ds_sample_count s
  ∧ (∀ r, r ∈ cs_rows c → r ∈ sm_train_rows m) ∧ (replacement = false → cs_quota c ≤ ds_sample_count s).
Proof.
  intros Hs Hr. unfold compile_source in Hr. inv_ok. simpl. split_and!; [done| | |].
  - rewrite length_take, length_sorted_on. lia.
  - intros r Hr%subseteq_take. by apply elem_of_sorted_on in Hr.
  - intros ->. simpl in *. lia.
Qed.

(** The triples the sampler is given. *)
Definition as_source (c : CompiledMixtureSource) : Source :=
  mkSource (cs_dataset_id c) (cs_rows c) (cs_quota c).

(** What a successful compilation checked. *)
Lemma compile_mixture_inv close mixture manifests held_out cm :
  compile_mixture split_digest identity close mixture manifests held_out = Ok cm →
  ∃ selected quotas,
    DatasetMixture_valid close mixture = true
    ∧ selected_manifests manifests (dm_datasets mixture) = Ok selected
    ∧ detect_split_leakage (selected ++ held_out) = Ok tt
    ∧ largest_remainder_quotas (ds_mixture_proportion <$> dm_datasets mixture) (dm_epoch_samples mixture) = Ok quotas
    ∧ compile_sources split_digest (dm_replacement mixture) (dm_datasets mixture) selected quotas
      = Ok (cm_sources cm)
    ∧ cm_weighted cm = dm_weighted mixture ∧ cm_replacement cm = dm_replacement mixture
    ∧ cm_epoch_samples cm = dm_epoch_samples mixture.
Proof.
  unfold compile_mixture. intros Hr. inv_ok. guards.
  match goal with x : unit |- _ => destruct x end. eexists _, _. split_and!; done.
Qed.

(** No content a manifest trains on is held out by another. *)
Lemma leakage_apart ms m1 m2 r r' d :
  detect_split_leakage ms = Ok tt → m1 ∈ ms → m2 ∈ ms →
  r ∈ sm_train_rows m1 → content (sm_row_content_sha256 m1) r = Some d →
  r' ∈ sm_validation_rows m2 → content (sm_row_content_sha256 m2) r' ≠ Some d.
Proof.
  unfold detect_split_leakage, raise_if. intros Hl Hm1 Hm2 Hr Hd Hr' Hd'.
  destruct (apart _ _) eqn:Ha; [|done]. rewrite apart_true in Ha. apply (Ha d).
  - apply list_elem_of_bind. exists m1. split; [|done]. apply elem_of_contents. by exists r.
  - apply list_elem_of_bind. exists m2. split; [|done]. apply elem_of_contents. by exists r'.
Qed.

(** A compiled source against its dataset source and its manifest. *)
Lemma compiled_source replacement manifests sources selected quotas cs c :
  forallb (λ s, (1 <=? ds_sample_count s) && (ds_sample_count s <=? 1_000_000)) sources = true →
  selected_manifests manifests sources = Ok selected →
  compile_sources split_digest replacement sources selected quotas = Ok cs → c ∈ cs →
  ∃ m, m ∈ selected ∧ manifests !! cs_dataset_id c = Some m
    ∧ (∀ r, r ∈ cs_rows c → r ∈ sm_train_rows m)
    ∧ 1 ≤ Z.of_nat (length (cs_rows c)) ≤ 1_000_000
    ∧ (replacement = false → cs_quota c ≤ Z.of_nat (length (cs_rows c))).
Proof.
  intros Hcounts Hsel%selected_manifests_inv [_ Hcs]%compile_sources_inv [i Hi]%list_elem_of_lookup_1.
  destruct (Forall2_lookup_r _ _ _ _ _ Hcs Hi) as ([s m] & Hz & q & Hc). simpl in Hc.
  apply lookup_zip_with_Some in Hz as (s' & m' & [= <- <-] & Hs & Hm).
  destruct (Forall2_lookup_lr _ _ _ _ _ _ Hsel Hs Hm) as [Hman Hvalid].
  rewrite forallb_forall in Hcounts. specialize (Hcounts s). rewrite <- list_elem_of_In in Hcounts.
  specialize (Hcounts (list_elem_of_lookup_2 _ _ _ Hs)). guards.
  destruct (compile_source_inv replacement s m q c) as (Hid & Hlen & Hrows & Hq); [lia|done|].
  exists m. rewrite Hid, Hlen. split_and!; [by eapply list_elem_of_lookup_2|done..|lia|lia|done].
Qed.

(** A compiled mixture is a configuration the sampler accepts. *)
Lemma compiled_configuration close mixture manifests held_out cm :
  compile_mixture split_digest identity close mixture manifests held_out = Ok cm →
  valid_configuration 0 (pools_of (as_source <$> cm_sources cm)) (cm_replacement cm) = true
  ∧ sum_Z ((pools_of (as_source <$> cm_sources cm)).*2) = cm_epoch_samples cm.
Proof.
  intros (selected & quotas & Hv & Hsel & _ & Hq & Hcs & _ & Hrep & Hn)%compile_mixture_inv.
  destruct (quotas_inv _ _ _ Hq) as (Ht & Hw & Hl & Hsum & Hqs). rewrite length_fmap in Hw, Hl.
  destruct (compile_sources_inv _ _ _ _ _ Hcs) as [Hquotas _].
  assert (Hpools : (pools_of (as_source <$> cm_sources cm)).*2 = quotas).
  { rewrite <- Hquotas. unfold pools_of. rewrite <- !list_fmap_compose. done. }
  rewrite Hpools, Hsum. split; [|done]. unfold DatasetMixture_valid in Hv. guards.
  unfold valid_configuration. rewrite Hpools, Hsum, Hrep.
  assert (Hlen : length (pools_of (as_source <$> cm_sources cm)) = length (dm_datasets mixture)).
  { rewrite <- Hl, <- Hpools. by rewrite length_fmap. }
  rewrite Hlen. rewrite !andb_true_iff, forallb_forall. split_and!; [lia..|].
  intros [size quota] Hin%list_elem_of_In. unfold pools_of in Hin.
  apply list_elem_of_fmap in Hin as (s & [= -> ->] & (c & -> & Hc)%list_elem_of_fmap). simpl.
  edestruct compiled_source as (m & _ & _ & _ & Hbound & Hquota); [|exact Hsel|exact Hcs|exact Hc|]; [done|].
  assert (0 ≤ cs_quota c ≤ dm_epoch_samples mixture).
  { apply Hqs. rewrite <- Hquotas. by apply list_elem_of_fmap_2. }
  rewrite !andb_true_iff. split_and!; [lia..|]. apply negb_true_iff.
  destruct (dm_replacement mixture); [done|]. simpl. specialize (Hquota eq_refl). lia.
Qed.

(** The manifests a mixture names are the ones that are checked. *)
Lemma selected_complete manifests sources selected s m :
  selected_manifests manifests sources = Ok selected → s ∈ sources →
  manifests !! ds_dataset_id s = Some m → m ∈ selected.
Proof.
  revert selected. induction sources as [|s0 sources IH]; intros selected; simpl.
  { intros _ []%elem_of_nil. }
  destruct (manifests !! ds_dataset_id s0) as [m0|] eqn:E0; [|done]. intros H Hs Hm. inv_ok.
  apply elem_of_cons in Hs as [->|Hs]; [rewrite E0 in Hm; injection Hm as ->; by left|].
  right. by eapply IH.
Qed.

(** Every row of a valid manifest has a content. *)
Lemma valid_content m row :
  SplitManifest_valid m = true → row ∈ sm_train_rows m → is_Some (content (sm_row_content_sha256 m) row).
Proof.
  unfold SplitManifest_valid. intros Hv Hr. guards. bool_prop.
  match goal with E : list_to_set _ = _ |- _ => rename E into Hall end.
  assert (row ∈ seqZ 1 (Z.of_nat (length (sm_row_content_sha256 m)))) as Hin%elem_of_seqZ.
  { apply (elem_of_list_to_set (C := gset Z)). rewrite <- Hall. set_solver. }
  unfold content. apply lookup_lt_is_Some_2. lia.
Qed.

Lemma selected_valid manifests sources selected m :
  selected_manifests manifests sources = Ok selected → m ∈ selected → SplitManifest_valid m = true.
Proof.
  intros Hsel%selected_manifests_inv [i Hi]%list_elem_of_lookup_1.
  by destruct (Forall2_lookup_r _ _ _ _ _ Hsel Hi) as (s & _ & _ & Hv).
Qed.

(** C8. From compiled mixture to training order, without leakage: whenever a mixture
    compiles, and among any [fuel] consecutive hashes the generator accepts one, every epoch
    has an order; it draws exactly [epoch_samples] rows, each a training row of its source's
    manifest, and none has the content of a row that any manifest reserves for validation,
    be it the manifest of any dataset of the mixture (not only of the row's own) or a
    held-out one. *)
Theorem compiled_mixture_trains sha256 fuel close mixture manifests held_out cm epoch :
  compile_mixture split_digest identity close mixture manifests held_out = Ok cm →
  accepting sha256 fuel → 0 ≤ epoch < 2 ^ 64 →
  ∃ order,
    mixture_epoch_order sha256 fuel (cm_identity_sha256 cm) epoch (pools_of (as_source <$> cm_sources cm))
      (cm_weighted cm) (cm_replacement cm) = Ok order
    ∧ Z.of_nat (length order) = dm_epoch_samples mixture
    ∧ ∀ x, x ∈ order →
        ∃ c row m d, cm_sources cm !! x.1 = Some c ∧ cs_rows c !! Z.to_nat x.2 = Some row
          ∧ manifests !! cs_dataset_id c = Some m ∧ row ∈ sm_train_rows m
          ∧ content (sm_row_content_sha256 m) row = Some d
          ∧ ∀ m' row',
              (m' ∈ held_out ∨ ∃ s, s ∈ dm_datasets mixture ∧ manifests !! ds_dataset_id s = Some m') →
              row' ∈ sm_validation_rows m' → content (sm_row_content_sha256 m') row' ≠ Some d.
Proof.
  intros Hc Hacc Hepoch. destruct (compiled_configuration _ _ _ _ _ Hc) as [Hv Hsum].
  apply (valid_configuration_epoch 0 epoch) in Hv; [|done].
  destruct (epoch_order_run sha256 fuel (cm_identity_sha256 cm) epoch _ (cm_weighted cm) _ Hacc Hv)
    as (order & _ & Ho & _ & _ & Hrows & _ & _ & Hlen).
  destruct (compile_mixture_inv _ _ _ _ _ Hc)
    as (selected & quotas & Hdm & Hsel & Hleak & _ & Hcs & _ & _ & Hn).
  exists order. split_and!; [done|by rewrite Hlen, Hsum|]. intros x Hx.
  destruct (Hrows x Hx) as (i & size & quota & Hi & Hxi & Hrange & _). simpl in Hxi.
  unfold pools_of in Hi. rewrite !list_lookup_fmap in Hi.
  destruct (cm_sources cm !! i) as [c|] eqn:Ec; [|done]. injection Hi as <- <-.
  destruct (lookup_lt_is_Some_2 (cs_rows c) (Z.to_nat x.2)) as [row Hrow]; [lia|].
  unfold DatasetMixture_valid in Hdm. guards.
  edestruct compiled_source as (m & Hm & Hman & Htrain & Hvalid); [|exact Hsel|exact Hcs|
    by eapply list_elem_of_lookup_2|]; [done|].
  assert (Hr : row ∈ sm_train_rows m) by (by eapply Htrain, list_elem_of_lookup_2).
  destruct (valid_content m row) as [d Ed]; [by eapply selected_valid|done|].
  exists c, row, m, d. rewrite Hxi. split_and!; [done..|].
  intros m' row' Hm' Hr'. eapply leakage_apart; [exact Hleak| | |exact Hr|exact Ed|exact Hr'].
  - apply elem_of_app. by left.
  - apply elem_of_app. destruct Hm' as [?|(s & Hs & Es)]; [by right|left]. by eapply selected_complete.
Qed.
End compiled.

(** ** Two small datasets *)

Definition demo_manifest (id : string) (hashes : list string) : SplitManifest :=
  match split_rows demo_digest id (demo_sha "0") hashes 1 true 1 with
  | Ok m => m | Err _ => mkManifest "" "" 0 [] [] [] end.
Definition demo_manifests : gmap string SplitManifest :=
  {["d" := demo_manifest "d" demo_hashes; "e" := demo_manifest "e" (demo_sha <$> ["d"; "e"; "f"]%char)]}.
Definition demo_mixture : DatasetMixture :=
  mkMixture [mkDatasetSource "d" 2 (3, 5); mkDatasetSource "e" 2 (2, 5)] 4 true true 1.
Definition demo_identity (_ : DatasetMixture) (splits held_out : list string) (_ : list Z) : string :=
  String.concat ":" (splits ++ held_out).
(** The held-out dataset shares a training row with the first one. *)
Definition demo_held_out : list SplitManifest :=
  [demo_manifest "h" (demo_sha <$> ["9"; "b"; "8"]%char)].
Definition demo_compiled : CompiledMixture :=
  match compile_mixture sm_dataset_id demo_identity true demo_mixture demo_manifests demo_held_out with
  | Ok cm => cm | Err _ => mkCompiled [] "" 0 false false 0 end.

Lemma compiled_mixture_trains_witness :
  (cs_quota <$> cm_sources demo_compiled) = [2; 2]
  ∧ ∃ order,
    mixture_epoch_order demo_hash 1 (cm_identity_sha256 demo_compiled) 0
      (pools_of (as_source <$> cm_sources demo_compiled))
      (cm_weighted demo_compiled) (cm_replacement demo_compiled) = Ok order
    ∧ Z.of_nat (length order) = dm_epoch_samples demo_mixture
    ∧ ∀ x, x ∈ order →
        ∃ c row m d, cm_sources demo_compiled !! x.1 = Some c ∧ cs_rows c !! Z.to_nat x.2 = Some row
          ∧ demo_manifests !! cs_dataset_id c = Some m ∧ row ∈ sm_train_rows m
          ∧ content (sm_row_content_sha256 m) row = Some d
          ∧ ∀ m' row',
              (m' ∈ demo_held_out ∨ ∃ s, s ∈ dm_datasets demo_mixture ∧ demo_manifests !! ds_dataset_id s = Some m') →
              row' ∈ sm_validation_rows m' → content (sm_row_content_sha256 m') row' ≠ Some d.
Proof.
  split; [vm_compute; reflexivity|].
  apply (compiled_mixture_trains sm_dataset_id demo_identity demo_hash 1 true demo_mixture demo_manifests demo_held_out
    demo_compiled 0); [vm_compute; reflexivity|exact demo_accepting|lia].
Defined.
