(* ===== verification/Placement.v ===== *)
(** * Placement on one Studio

    coire_scheduler/placement.py and coire_api/placement/service.py: the memory
    reservations and request leases of one node, the eviction plan of an admission,
    the admission itself under the node's lock, the transactions that carry it out,
    the leases that requests take, the idle pass and the standing reservations.
    A table is the list of its rows; a transaction is a function on the node's
    rows.  Identifiers are strings, times and sizes integers; the lock makes each
    locked section one step.  What other services answer (the maintenance fence, the
    image mix, the engines of the node) is an argument. *)
From S2P Require Import Prelude Effects.
Open Scope Z_scope.

(** ** Rows *)

Inductive ReservationHolder := SANDBOX | MODEL | CONVERSION | TRAINING | IMAGE | RUN.
#[global] Instance ReservationHolder_eq : EqDecision ReservationHolder.
Proof. solve_decision. Defined.
Inductive MemoryReservationState := PENDING | HELD | RELEASING | RELEASED | FAILED.
#[global] Instance MemoryReservationState_eq : EqDecision MemoryReservationState.
Proof. solve_decision. Defined.
Inductive OccupantReason := PINNED | IN_USE | ELIGIBLE.
#[global] Instance OccupantReason_eq : EqDecision OccupantReason.
Proof. solve_decision. Defined.

Record MemoryReservation := mkReservation {
  mr_id : string;
  mr_holder_type : ReservationHolder;
  mr_holder_id : string;
  mr_bytes : Z;
  mr_pinned : bool;
  mr_state : MemoryReservationState;
  mr_last_used_at : Z;
  mr_released_at : option Z;
}.
Record RequestLease := mkLease {
  rl_id : string;
  rl_reservation_id : string;
  rl_request_id : string;
  rl_expires_at : Z;
  rl_released_at : option Z;
}.
#[global] Instance MemoryReservation_eq : EqDecision MemoryReservation.
Proof. solve_decision. Defined.
#[global] Instance RequestLease_eq : EqDecision RequestLease.
Proof. solve_decision. Defined.

Definition set_state (state : MemoryReservationState) (r : MemoryReservation) : MemoryReservation :=
  mkReservation (mr_id r) (mr_holder_type r) (mr_holder_id r) (mr_bytes r) (mr_pinned r) state
    (mr_last_used_at r) (mr_released_at r).
(** [state = ...; released_at = ...] *)
Definition set_closed (state : MemoryReservationState) (at_ : option Z) (r : MemoryReservation)
    : MemoryReservation :=
  mkReservation (mr_id r) (mr_holder_type r) (mr_holder_id r) (mr_bytes r) (mr_pinned r) state
    (mr_last_used_at r) at_.
(** [bytes = ...; state = ...; released_at = ...] *)
Definition set_bytes (bytes : Z) (state : MemoryReservationState) (at_ : option Z)
    (r : MemoryReservation) : MemoryReservation :=
  mkReservation (mr_id r) (mr_holder_type r) (mr_holder_id r) bytes (mr_pinned r) state
    (mr_last_used_at r) at_.
Definition set_pinned (pinned : bool) (r : MemoryReservation) : MemoryReservation :=
  mkReservation (mr_id r) (mr_holder_type r) (mr_holder_id r) (mr_bytes r) pinned (mr_state r)
    (mr_last_used_at r) (mr_released_at r).
Definition set_used (at_ : Z) (r : MemoryReservation) : MemoryReservation :=
  mkReservation (mr_id r) (mr_holder_type r) (mr_holder_id r) (mr_bytes r) (mr_pinned r) (mr_state r)
    at_ (mr_released_at r).

(** [session.get] by primary key, and the update of that row. *)
Definition row (id : string) (rows : list MemoryReservation) : option MemoryReservation :=
  List.find (λ r, String.eqb (mr_id r) id) rows.
Definition update_row (id : string) (f : MemoryReservation → MemoryReservation)
    (rows : list MemoryReservation) : list MemoryReservation :=
  (λ r, if String.eqb (mr_id r) id then f r else r) <$> rows.
(** [session.scalar] by holder. *)
Definition holder_row (holder : ReservationHolder) (holder_id : string)
    (rows : list MemoryReservation) : option MemoryReservation :=
  List.find (λ r, same (mr_holder_type r) holder && String.eqb (mr_holder_id r) holder_id) rows.

(** The states an admission counts. *)
Definition counted (r : MemoryReservation) : bool := is_in (mr_state r) [PENDING; HELD; RELEASING].
Definition counted_rows (rows : list MemoryReservation) : list MemoryReservation :=
  filter (λ r, counted r = true) rows.

(** ** What is occupied *)

Definition resident_reservation_bytes (rows : list MemoryReservation) : Z :=
  sum_Z (mr_bytes <$> filter (λ r, is_in (mr_holder_type r) [MODEL; IMAGE; TRAINING] = true) rows).

Definition effective_occupied_bytes (rows : list MemoryReservation) (measured : option Z) : option Z :=
  let occupied := sum_Z (mr_bytes <$> rows) in
  match measured with
  | None => if existsb (λ r, is_in (mr_holder_type r) [IMAGE; TRAINING]) rows then None else Some occupied
  | Some m => Some (occupied + Z.max 0 (m - resident_reservation_bytes rows))
  end.

(** The unexpired, unreleased leases of a reservation. *)
Definition active_leases (now : Z) (leases : list RequestLease) (id : string) : Z :=
  Z.of_nat (length (filter (λ l, String.eqb (rl_reservation_id l) id && absent (rl_released_at l)
                                 && (now <? rl_expires_at l) = true) leases)).

(** ** [plan_admission] *)

Record Candidate := mkCandidate {
  ca_reservation_id : string;
  ca_holder_id : string;
  ca_bytes : Z;
  ca_pinned : bool;
  ca_in_flight : Z;
  ca_last_used_at : Z;
}.
Record NodeCapacity := mkCapacity { nc_budget_bytes : Z; nc_reserved_bytes : Z }.
Record PlacementOccupant := mkOccupant {
  oc_reservation_id : string;
  oc_holder_id : string;
  oc_bytes : Z;
  oc_reason : OccupantReason;
}.
Record AdmissionPlan := mkPlan { ap_evictions : list string; ap_occupants : list PlacementOccupant }.

Inductive PlacementError :=
| ValueError
| CapacityRefused (occupants : list PlacementOccupant)
| LedgerNotFoundError
| RuntimeError (why : string).

Definition idle_eligible (last_used_at : Z) (ttl_seconds : option Z) (pinned : bool)
    (in_flight now : Z) : bool :=
  match ttl_seconds with
  | Some ttl => negb pinned && (in_flight =? 0) && (last_used_at + ttl * 1_000_000 <=? now)
  | None => false
  end.

Definition node_admissible (healthy : bool) (last_seen_at now freshness : Z) : bool :=
  healthy && (now - freshness <=? last_seen_at).

Definition _occupant (c : Candidate) : PlacementOccupant :=
  mkOccupant (ca_reservation_id c) (ca_holder_id c) (ca_bytes c)
    (if ca_pinned c then PINNED else if ca_in_flight c =? 0 then ELIGIBLE else IN_USE).

(** The loop over the candidates in order of use; an occupant has positive bytes. *)
Fixpoint choose (shortage freed : Z) (candidates : list Candidate) : option (list string) :=
  match candidates with
  | [] => None
  | c :: candidates =>
      if ca_pinned c || negb (ca_in_flight c =? 0) then choose shortage freed candidates
      else
        let freed := freed + ca_bytes c in
        if shortage <=? freed then Some [ca_reservation_id c]
        else cons (ca_reservation_id c) <$> choose shortage freed candidates
  end.

Definition plan_admission (capacity : NodeCapacity) (required_bytes : Z) (candidates : list Candidate)
    : result PlacementError AdmissionPlan :=
  raise_if (required_bytes <=? 0) ValueError;;
  let shortage := nc_reserved_bytes capacity + required_bytes - nc_budget_bytes capacity in
  raise_if (existsb (λ c, ca_bytes c <=? 0) candidates) ValueError;;
  let lru := sorted_on ca_last_used_at candidates in
  let occupants := _occupant <$> lru in
  if shortage <=? 0 then Ok (mkPlan [] occupants)
  else match choose shortage 0 lru with
       | Some evictions => Ok (mkPlan evictions occupants)
       | None => Err (CapacityRefused occupants)
       end.

(** ** One node *)

Record Node := mkNode {
  nd_reservations : list MemoryReservation;
  nd_leases : list RequestLease;
  nd_budget_bytes : Z;
  nd_sandbox_bytes : Z;
  nd_measured_resident_bytes : option Z;
}.
Definition with_rows (f : list MemoryReservation → list MemoryReservation) (n : Node) : Node :=
  mkNode (f (nd_reservations n)) (nd_leases n) (nd_budget_bytes n) (nd_sandbox_bytes n)
    (nd_measured_resident_bytes n).
Definition with_leases (f : list RequestLease → list RequestLease) (n : Node) : Node :=
  mkNode (nd_reservations n) (f (nd_leases n)) (nd_budget_bytes n) (nd_sandbox_bytes n)
    (nd_measured_resident_bytes n).

Definition candidates_of (now : Z) (leases : list RequestLease) (rows : list MemoryReservation)
    : list Candidate :=
  (λ r, mkCandidate (mr_id r) (mr_holder_id r) (mr_bytes r) (mr_pinned r)
          (active_leases now leases (mr_id r)) (mr_last_used_at r))
    <$> filter (λ r, mr_holder_type r = MODEL ∧ mr_state r = HELD) rows.

(** The counts read again after the drain. *)
Definition drained_of (now : Z) (leases : list RequestLease) (candidates : list Candidate)
    : list Candidate :=
  (λ c, mkCandidate (ca_reservation_id c) (ca_holder_id c) (ca_bytes c) (ca_pinned c)
          (active_leases now leases (ca_reservation_id c)) (ca_last_used_at c)) <$> candidates.

(** What one decision asks of a node, and what the services it consults answer. *)
Record Request := mkRequest {
  rq_target_holder_id : string;
  rq_required_bytes : Z;
  rq_pinned : bool;
  rq_new_id : string;
  rq_allows_admission : bool;
  rq_mix_allowed : bool;
  rq_smoke : bool;
  rq_validation_smoke : bool;
  rq_drain_seconds : Z;
  rq_now : Z;
  rq_now_drained : Z;
  rq_leases_drained : list RequestLease;
}.

Inductive Admission :=
| MaintenanceWait
| ProfileRefused
| NoCapacity (occupants : list PlacementOccupant)
| SmokeSkipped
| Planned (plan : AdmissionPlan).

(** Find or create the target's reservation, pending with the required bytes. *)
Definition reserve_target (q : Request) (rows : list MemoryReservation) : list MemoryReservation :=
  match holder_row MODEL (rq_target_holder_id q) rows with
  | None => rows ++ [mkReservation (rq_new_id q) MODEL (rq_target_holder_id q) (rq_required_bytes q)
                       (rq_pinned q) PENDING (rq_now q) None]
  | Some t => update_row (mr_id t) (set_bytes (rq_required_bytes q) PENDING None) rows
  end.

Definition commit_plan (q : Request) (plan : AdmissionPlan) : M Node PlacementError Admission :=
  if rq_smoke q && nonempty (ap_evictions plan) then mret SmokeSkipped
  else modify (with_rows (reserve_target q));; mret (Planned plan).

(** The second attempt, after waiting for the requests in flight. *)
Definition admit_drained (q : Request) (occupied : Z) (candidates : list Candidate) : M Node PlacementError Admission :=
  modify (with_leases (λ _, rq_leases_drained q));;
  n ← get;
  match plan_admission (mkCapacity (nd_budget_bytes n) occupied) (rq_required_bytes q)
          (drained_of (rq_now_drained q) (rq_leases_drained q) candidates) with
  | Ok plan => commit_plan q plan
  | Err (CapacityRefused occupants) => mret (NoCapacity occupants)
  | Err e => throw e
  end.

(** The section under [node_admission_lock]. *)
Definition try_admission (q : Request) : M Node PlacementError Admission :=
  n ← get;
  if negb (rq_allows_admission q) then mret MaintenanceWait
  else if negb (rq_mix_allowed q) then mret ProfileRefused
  else
    let reservations := counted_rows (nd_reservations n) in
    if rq_validation_smoke q && existsb (λ r, is_in (mr_holder_type r) [TRAINING; IMAGE]) reservations
    then mret ProfileRefused
    else match effective_occupied_bytes reservations (nd_measured_resident_bytes n) with
    | None => mret ProfileRefused
    | Some occupied =>
        let candidates := candidates_of (rq_now q) (nd_leases n) reservations in
        match plan_admission (mkCapacity (nd_budget_bytes n) occupied) (rq_required_bytes q) candidates with
        | Ok plan => commit_plan q plan
        | Err (CapacityRefused occupants) =>
            let busy := existsb (λ o, same (oc_reason o) IN_USE) occupants in
            if rq_smoke q || negb busy || (rq_drain_seconds q <=? 0) then mret (NoCapacity occupants)
            else admit_drained q occupied candidates
        | Err e => throw e
        end
    end.

(** The transaction that marks one planned eviction and queues its unload. *)
Definition begin_eviction (id : string) (engine_running : bool) : M Node PlacementError unit :=
  n ← get;
  _ ← some_or (RuntimeError "eviction target disappeared") (row id (nd_reservations n));
  throw_if (negb engine_running) (RuntimeError "held model reservation has no running engine");;
  modify (with_rows (update_row id (set_state RELEASING))).

(** The executor confirms an unload or a load. *)
Definition confirm_unload (now : Z) (id : string) : M Node PlacementError unit :=
  modify (with_rows (update_row id (set_closed RELEASED (Some now)))).
Definition confirm_load (id : string) : M Node PlacementError unit :=
  modify (with_rows (update_row id (set_state HELD))).

(** The second locked section, before the load command; [False] asks to be run again. *)
Definition reserve (q : Request) : M Node PlacementError bool :=
  if negb (rq_allows_admission q) then mret false
  else modify (with_rows (reserve_target q));; mret true.

(** What a failed decision does to its pending target. *)
Definition fail_pending (target_holder_id : string) : M Node PlacementError unit :=
  modify (with_rows (λ rows,
    (λ r, if same (mr_holder_type r) MODEL && String.eqb (mr_holder_id r) target_holder_id
             && same (mr_state r) PENDING then set_state FAILED r else r) <$> rows)).

(** [execute_idle_ttl_pass]: [ttl] gives the time to live of a known model,
    [engine] whether it has a ready engine and a variant. *)
Definition idle_pass (now : Z) (ttl : string → option (option Z)) (engine : string → bool)
    : M Node PlacementError unit :=
  n ← get;
  modify (with_rows (λ rows,
    (λ r, match ttl (mr_holder_id r) with
          | Some t =>
              if same (mr_holder_type r) MODEL && same (mr_state r) HELD && negb (mr_pinned r)
                 && idle_eligible (mr_last_used_at r) t (mr_pinned r)
                      (active_leases now (nd_leases n) (mr_id r)) now
                 && engine (mr_holder_id r)
              then set_state RELEASING r else r
          | None => r
          end) <$> rows)).

(** ** Leases and pins *)

Definition acquire_lease (now : Z) (id request_id new_id : string) (ttl : Z)
    (instance_ready training_allows : bool) : M Node PlacementError RequestLease :=
  n ← get;
  r ← some_or LedgerNotFoundError (row id (nd_reservations n));
  throw_if (negb (same (mr_state r) HELD)) LedgerNotFoundError;;
  throw_if (negb instance_ready) LedgerNotFoundError;;
  throw_if (negb training_allows) LedgerNotFoundError;;
  let lease := mkLease new_id id request_id (now + ttl) None in
  modify (with_leases (λ ls, ls ++ [lease]));;
  modify (with_rows (update_row id (set_used now)));;
  mret lease.

Definition release_lease (now : Z) (id : string) : M Node PlacementError unit :=
  modify (with_leases (λ ls,
    (λ l, if String.eqb (rl_id l) id && absent (rl_released_at l)
          then mkLease (rl_id l) (rl_reservation_id l) (rl_request_id l) (rl_expires_at l) (Some now)
          else l) <$> ls)).

Definition refresh_lease (now : Z) (id : string) (ttl : Z) : M Node PlacementError bool :=
  n ← get;
  match List.find (λ l, String.eqb (rl_id l) id) (nd_leases n) with
  | None => mret false
  | Some l =>
      if present (rl_released_at l) || (rl_expires_at l <=? now) || (ttl <=? 0) then mret false
      else
        modify (with_leases (λ ls,
          (λ l, if String.eqb (rl_id l) id
                then mkLease (rl_id l) (rl_reservation_id l) (rl_request_id l) (now + ttl) (rl_released_at l)
                else l) <$> ls));;
        mret true
  end.

(** [set_pin]; the instance of an image worker or of a model may be draining. *)
Definition set_pin (id : string) (pinned : bool) (instance_known draining : bool) : M Node PlacementError unit :=
  n ← get;
  r ← some_or LedgerNotFoundError (row id (nd_reservations n));
  throw_if (negb (is_in (mr_holder_type r) [MODEL; IMAGE])) LedgerNotFoundError;;
  (if same (mr_holder_type r) IMAGE
   then throw_if (negb (same (mr_state r) HELD) || negb instance_known || draining) LedgerNotFoundError
   else throw_if (same (mr_state r) RELEASING || draining) LedgerNotFoundError);;
  modify (with_rows (update_row id (set_pinned pinned))).

(** ** Standing reservations *)

Definition standing (id holder_id : string) (bytes now : Z) : MemoryReservation :=
  mkReservation id SANDBOX holder_id bytes true HELD now None.

(** [ensure_ledgers] on one node that has its ledger row. *)
Definition ensure_standing (now : Z) (holder_id new_id : string) (bytes : Z) : M Node PlacementError unit :=
  n ← get;
  if absent (holder_row SANDBOX holder_id (nd_reservations n)) && negb (bytes =? 0)
  then modify (with_rows (λ rows, rows ++ [standing new_id holder_id bytes now]))
  else mret tt.
Definition ensure_ledgers (now : Z) (sandbox_id failover_id : string) (sandbox_bytes failover_bytes : Z)
    : M Node PlacementError unit :=
  ensure_standing now "agent-sandbox" sandbox_id sandbox_bytes;;
  ensure_standing now "failover-frontend" failover_id failover_bytes.

(** [update_ledger]; the reservation it changes is the first row of any sandbox
    holder, in the order the database returns them. *)
Definition update_ledger (now : Z) (new_id : string) (budget sandbox : option Z) : M Node PlacementError unit :=
  throw_if (absent budget && absent sandbox) ValueError;;
  match budget with
  | Some b => modify (λ n, mkNode (nd_reservations n) (nd_leases n) b (nd_sandbox_bytes n)
                             (nd_measured_resident_bytes n))
  | None => mret tt
  end;;
  match sandbox with
  | None => mret tt
  | Some s =>
      modify (λ n, mkNode (nd_reservations n) (nd_leases n) (nd_budget_bytes n) s
                     (nd_measured_resident_bytes n));;
      n ← get;
      match List.find (λ r, same (mr_holder_type r) SANDBOX) (nd_reservations n) with
      | Some r =>
          modify (with_rows (update_row (mr_id r)
            (if s =? 0 then set_bytes s RELEASED (Some now) else set_bytes s HELD None)))
      | None =>
          if s =? 0 then mret tt
          else modify (with_rows (λ rows, rows ++ [standing new_id "agent-sandbox" s now]))
      end
  end.
