(* ===== verification/PlacementFacts.v ===== *)
(** * An admission never overcommits a Studio *)
From S2P Require Import Prelude Effects Placement.
Open Scope Z_scope.

(** ** Plans *)

Definition eligible (c : Candidate) : bool := negb (ca_pinned c) && (ca_in_flight c =? 0).
Definition evictable (candidates : list Candidate) : list Candidate :=
  filter (λ c, eligible c = true) (sorted_on ca_last_used_at candidates).
Definition freed_by (candidates : list Candidate) : Z := sum_Z (ca_bytes <$> candidates).

(** The shortest prefix of the evictable candidates that frees the shortage. *)
Definition least_prefix (shortage freed : Z) (k : nat) (candidates : list Candidate) : Prop :=
  shortage ≤ freed + freed_by (take k candidates)
  ∧ ∀ j, (j < k)%nat → freed + freed_by (take j candidates) < shortage.

Lemma freed_by_cons c cs : freed_by (c :: cs) = ca_bytes c + freed_by cs.
Proof. done. Qed.

Lemma eligible_test c : eligible c = negb (ca_pinned c || negb (ca_in_flight c =? 0)).
Proof. unfold eligible. by destruct (ca_pinned c), (ca_in_flight c =? 0). Qed.

Lemma choose_spec shortage freed candidates :
  freed < shortage → (∀ c, c ∈ candidates → 0 < ca_bytes c) →
  let es := filter (λ c, eligible c = true) candidates in
  match choose shortage freed candidates with
  | Some evictions => ∃ k, evictions = ca_reservation_id <$> take k es ∧ least_prefix shortage freed k es
  | None => freed + freed_by es < shortage
  end.
Proof.
  revert freed. induction candidates as [|c cs IH]; intros freed Hf Hb; [unfold freed_by; simpl; lia|].
  assert (Hcs : ∀ d, d ∈ cs → 0 < ca_bytes d) by (intros; apply Hb; set_solver). cbn [choose]. cbv zeta.
  rewrite filter_cons, eligible_test.
  destruct (ca_pinned c || negb (ca_in_flight c =? 0)); simpl negb.
  - rewrite decide_False by done. by apply IH.
  - rewrite decide_True by done.
    destruct (Z.leb_spec shortage (freed + ca_bytes c)) as [Hle|Hgt].
    + exists 1%nat. split; [done|]. split; [unfold freed_by; simpl; lia|].
      intros j Hj. replace j with 0%nat by lia. unfold freed_by. simpl. lia.
    + specialize (IH (freed + ca_bytes c) Hgt Hcs). cbv zeta in IH.
      destruct (choose shortage (freed + ca_bytes c) cs) as [evs|]; simpl.
      * destruct IH as (k & -> & Hk & Hmin). exists (S k). split; [done|].
        split; [rewrite firstn_cons, freed_by_cons; lia|]. intros [|j] Hj; [unfold freed_by; simpl; lia|].
        specialize (Hmin j ltac:(lia)). rewrite firstn_cons, freed_by_cons. lia.
      * rewrite freed_by_cons. lia.
Qed.

Lemma plan_run capacity required candidates :
  0 < required → (∀ c, c ∈ candidates → 0 < ca_bytes c) →
  let shortage := nc_reserved_bytes capacity + required - nc_budget_bytes capacity in
  let occupants := _occupant <$> sorted_on ca_last_used_at candidates in
  match plan_admission capacity required candidates with
  | Ok plan =>
      ap_occupants plan = occupants
      ∧ ∃ k, ap_evictions plan = ca_reservation_id <$> take k (evictable candidates)
             ∧ least_prefix shortage 0 k (evictable candidates)
  | Err e => e = CapacityRefused occupants ∧ freed_by (evictable candidates) < shortage
  end.
Proof.
  intros Hreq Hb. cbv zeta. unfold plan_admission. cbv zeta.
  rewrite raise_if_false by lia. rewrite raise_if_false.
  2:{ apply not_true_iff_false. rewrite existsb_exists. intros (c & Hc%list_elem_of_In & Hle).
      specialize (Hb c Hc). lia. }
  set (shortage := _ - _). destruct (Z.leb_spec shortage 0) as [Hfit|Hshort].
  - simpl. split; [done|]. exists 0%nat. split; [done|]. split; [unfold freed_by; simpl; lia|lia].
  - pose proof (choose_spec shortage 0 (sorted_on ca_last_used_at candidates) Hshort) as Hc.
    cbv zeta in Hc. fold (evictable candidates) in Hc.
    destruct (choose _ _ _) as [evs|]; simpl.
    + split; [done|]. apply Hc. intros c. rewrite elem_of_sorted_on. apply Hb.
    + split; [done|]. apply Hc. intros c. rewrite elem_of_sorted_on. apply Hb.
Qed.

(** C22. The plan of an admission: nothing is evicted when the request fits; otherwise
    the shortest prefix, in order of last use, of the candidates that are neither
    pinned nor in use; and a refusal means that evicting all of them would still not
    make room. *)
Theorem plan_admission_spec capacity required candidates :
  0 < required → (∀ c, c ∈ candidates → 0 < ca_bytes c) →
  let shortage := nc_reserved_bytes capacity + required - nc_budget_bytes capacity in
  let occupants := _occupant <$> sorted_on ca_last_used_at candidates in
  match plan_admission capacity required candidates with
  | Ok plan =>
      ap_occupants plan = occupants
      ∧ ∃ k, ap_evictions plan = ca_reservation_id <$> take k (evictable candidates)
             ∧ least_prefix shortage 0 k (evictable candidates)
  | Err e => e = CapacityRefused occupants ∧ freed_by (evictable candidates) < shortage
  end.
Proof. apply plan_run. Qed.

Definition demo_candidates : list Candidate :=
  [mkCandidate "a" "m1" 30 false 0 5; mkCandidate "b" "m2" 20 false 2 1; mkCandidate "c" "m3" 10 false 0 2].
Lemma plan_admission_spec_witness :
  plan_admission (mkCapacity 100 80) 45 demo_candidates
  = Ok (mkPlan ["c"; "a"] (_occupant <$> sorted_on ca_last_used_at demo_candidates))
  ∧ let shortage := nc_reserved_bytes (mkCapacity 100 80) + 45 - nc_budget_bytes (mkCapacity 100 80) in
    let occupants := _occupant <$> sorted_on ca_last_used_at demo_candidates in
    match plan_admission (mkCapacity 100 80) 45 demo_candidates with
    | Ok plan =>
        ap_occupants plan = occupants
        ∧ ∃ k, ap_evictions plan = ca_reservation_id <$> take k (evictable demo_candidates)
               ∧ least_prefix shortage 0 k (evictable demo_candidates)
    | Err e => e = CapacityRefused occupants ∧ freed_by (evictable demo_candidates) < shortage
    end.
Proof.
  split; [vm_compute; reflexivity|]. apply (plan_admission_spec (mkCapacity 100 80) 45 demo_candidates); [lia|].
  intros c. unfold demo_candidates. rewrite !elem_of_cons. intros [->|[->|[->|?%elem_of_nil]]]; simpl; [lia..|done].
Defined.

(** ** The bytes a plan keeps *)

Definition kept (plan : list string) (rows : list MemoryReservation) : list MemoryReservation :=
  filter (λ r, mr_id r ∉ plan) (counted_rows rows).
(** What stays counted once the planned evictions are gone. *)
Definition kept_bytes (plan : list string) (rows : list MemoryReservation) : Z :=
  sum_Z (mr_bytes <$> kept plan rows).

Definition rows_ok (rows : list MemoryReservation) : Prop :=
  NoDup (mr_id <$> rows) ∧ ∀ r, r ∈ rows → 0 < mr_bytes r.

Lemma kept_cons plan r rows :
  kept_bytes plan (r :: rows)
  = (if counted r && negb (is_in (mr_id r) plan) then mr_bytes r else 0) + kept_bytes plan rows.
Proof.
  unfold kept_bytes, kept, counted_rows, is_in. rewrite filter_cons.
  destruct (counted r); simpl; [|done]. rewrite filter_cons.
  case_decide; [rewrite bool_decide_eq_false_2 by done|rewrite bool_decide_eq_true_2 by tauto]; done.
Qed.

Lemma kept_app plan rows1 rows2 :
  kept_bytes plan (rows1 ++ rows2) = kept_bytes plan rows1 + kept_bytes plan rows2.
Proof.
  unfold kept_bytes, kept, counted_rows. by rewrite !filter_app, fmap_app, sum_Z_app.
Qed.

Lemma kept_nonneg plan rows : (∀ r, r ∈ rows → 0 < mr_bytes r) → 0 ≤ kept_bytes plan rows.
Proof.
  intros Hb. apply sum_Z_nonneg. intros b (r & -> & Hr)%list_elem_of_fmap.
  unfold kept, counted_rows in Hr. rewrite !list_elem_of_filter in Hr. destruct Hr as (_ & _ & Hr).
  specialize (Hb r Hr). lia.
Qed.

(** Changes that count no new bytes. *)
Definition shrinks (f : MemoryReservation → MemoryReservation) (r : MemoryReservation) : Prop :=
  mr_id (f r) = mr_id r ∧ mr_bytes (f r) = mr_bytes r ∧ (counted (f r) = true → counted r = true).

Lemma kept_map f plan rows :
  (∀ r, r ∈ rows → 0 < mr_bytes r ∧ shrinks f r) → kept_bytes plan (f <$> rows) ≤ kept_bytes plan rows.
Proof.
  induction rows as [|r rows IH]; intros Hf; [done|]. rewrite fmap_cons, !kept_cons.
  assert (kept_bytes plan (f <$> rows) ≤ kept_bytes plan rows) by (apply IH; intros; apply Hf; set_solver).
  destruct (Hf r) as (Hb & -> & -> & Hc); [set_solver|].
  destruct (counted (f r)); [rewrite Hc by done; lia|]. simpl. case_match; lia.
Qed.

Lemma rows_ok_map f rows : (∀ r, r ∈ rows → shrinks f r) → rows_ok rows → rows_ok (f <$> rows).
Proof.
  intros Hf [Hnd Hb]. split.
  - rewrite <- list_fmap_compose. by rewrite (fmap_ext_in _ mr_id) by (intros r Hr; apply (Hf r Hr)).
  - intros r' (r & -> & Hr)%list_elem_of_fmap. destruct (Hf r Hr) as (_ & -> & _). auto.
Qed.

(** A reservation and a candidate, as far as a plan counts them. *)
Definition weight (r : MemoryReservation) : string * Z := (mr_id r, mr_bytes r).
Definition candidate_weight (c : Candidate) : string * Z := (ca_reservation_id c, ca_bytes c).
Definition named_bytes (plan : list string) (l : list (string * Z)) : Z :=
  sum_Z (snd <$> filter (λ p, p.1 ∈ plan) l).

Lemma named_bytes_sub plan l1 l2 :
  l1 ⊆+ l2 → (∀ p, p ∈ l1 → p.1 ∈ plan) → (∀ p, p ∈ l2 → 0 < p.2) →
  sum_Z (l1.*2) ≤ named_bytes plan l2.
Proof.
  intros [rest Hp]%submseteq_Permutation Hin Hpos. unfold named_bytes.
  assert (Hf : filter (λ p, p.1 ∈ plan) l2 ≡ₚ filter (λ p, p.1 ∈ plan) (l1 ++ rest)) by (by rewrite Hp).
  rewrite Hf, filter_app, fmap_app, sum_Z_app, (filter_all _ l1) by (by apply Forall_forall).
  assert (0 ≤ sum_Z ((filter (λ p : string * Z, p.1 ∈ plan) rest).*2)); [|lia].
  apply sum_Z_nonneg. intros b ([i b'] & -> & [_ Hr]%list_elem_of_filter)%list_elem_of_fmap.
  specialize (Hpos (i, b')). simpl in *. apply Z.lt_le_incl, Hpos.
  rewrite Hp. apply elem_of_app. by right.
Qed.

Lemma counted_split plan rows :
  sum_Z (mr_bytes <$> counted_rows rows)
  = kept_bytes plan rows + named_bytes plan (weight <$> counted_rows rows).
Proof.
  unfold kept_bytes, kept, named_bytes. induction (counted_rows rows) as [|r l IH]; [done|].
  rewrite !fmap_cons, !filter_cons. cbn [sum_Z weight fst]. rewrite IH.
  destruct (decide (mr_id r ∈ plan)); case_decide; try tauto; rewrite fmap_cons; simpl; lia.
Qed.

Lemma evictable_sub candidates k :
  candidate_weight <$> take k (evictable candidates) ⊆+ candidate_weight <$> candidates.
Proof.
  apply fmap_submseteq. etrans; [apply sublist_submseteq, sublist_take|].
  unfold evictable. etrans; [apply sublist_submseteq, sublist_filter|]. by rewrite sorted_on_perm.
Qed.

(** A plan over the held models of the counted rows leaves room for the request. *)
Lemma plan_leaves_room rows candidates budget occupied required plan :
  rows_ok rows → candidate_weight <$> candidates ⊆+ weight <$> counted_rows rows →
  sum_Z (mr_bytes <$> counted_rows rows) ≤ occupied →
  plan_admission (mkCapacity budget occupied) required candidates = Ok plan →
  0 < required ∧ kept_bytes (ap_evictions plan) rows + required ≤ budget.
Proof.
  intros [_ Hb] Hsub Hocc Hplan.
  assert (Hpos : ∀ p, p ∈ weight <$> counted_rows rows → 0 < p.2).
  { intros p (r & -> & [_ Hr]%list_elem_of_filter)%list_elem_of_fmap. by apply Hb. }
  assert (Hreq : 0 < required).
  { unfold plan_admission in Hplan. apply raise_if_bind_Ok in Hplan as [? _]. lia. }
  assert (Hcb : ∀ c, c ∈ candidates → 0 < ca_bytes c).
  { intros c Hc. apply (Hpos (candidate_weight c)). eapply elem_of_submseteq; [|exact Hsub].
    by apply list_elem_of_fmap_2. }
  split; [done|]. pose proof (plan_run (mkCapacity budget occupied) required candidates Hreq Hcb) as Hs.
  cbv zeta in Hs. rewrite Hplan in Hs. destruct Hs as (_ & k & -> & Hk & _). simpl in Hk.
  rewrite (counted_split (ca_reservation_id <$> take k (evictable candidates))) in Hocc.
  assert (freed_by (take k (evictable candidates))
    ≤ named_bytes (ca_reservation_id <$> take k (evictable candidates)) (weight <$> counted_rows rows)); [|lia].
  unfold freed_by. rewrite (list_fmap_compose candidate_weight snd).
  apply named_bytes_sub; [|intros p (c & -> & Hc)%list_elem_of_fmap; by apply (list_elem_of_fmap_2 ca_reservation_id)|done].
  etrans; [apply evictable_sub|done].
Qed.

(** ** Reserving the target *)

Lemma update_row_absent id f rows : id ∉ (mr_id <$> rows) → update_row id f rows = rows.
Proof.
  unfold update_row. intros Hid. rewrite <- (list_fmap_id rows) at 2. apply fmap_ext_in.
  intros r Hr. simpl. destruct (String.eqb_spec (mr_id r) id) as [<-|]; [|done].
  destruct Hid. by apply list_elem_of_fmap_2.
Qed.

Lemma update_row_kept id f plan rows bytes :
  rows_ok rows → 0 < bytes → (∀ r, mr_id (f r) = mr_id r ∧ mr_bytes (f r) = bytes) →
  kept_bytes plan (update_row id f rows) ≤ kept_bytes plan rows + bytes.
Proof.
  intros [Hnd Hb] Hpos Hf. induction rows as [|r rows IH]; [unfold kept_bytes; simpl; lia|].
  rewrite fmap_cons in Hnd. apply NoDup_cons in Hnd as [Hr Hnd].
  assert (0 < mr_bytes r) by (apply Hb; set_solver).
  change (update_row id f (r :: rows))
    with ((if String.eqb (mr_id r) id then f r else r) :: update_row id f rows).
  destruct (String.eqb_spec (mr_id r) id) as [<-|Hne].
  - rewrite update_row_absent by done. rewrite !kept_cons. destruct (Hf r) as [-> ->].
    repeat case_match; lia.
  - rewrite !kept_cons. assert (kept_bytes plan (update_row id f rows) ≤ kept_bytes plan rows + bytes); [|lia].
    apply IH; [done|]. intros; apply Hb; set_solver.
Qed.

Lemma rows_ok_update id f rows :
  (∀ r, mr_id (f r) = mr_id r ∧ 0 < mr_bytes (f r)) → rows_ok rows → rows_ok (update_row id f rows).
Proof.
  intros Hf [Hnd Hb]. unfold update_row. split.
  - rewrite <- list_fmap_compose. rewrite (fmap_ext_in _ mr_id); [done|].
    intros r _. simpl. case_match; [apply (Hf r)|done].
  - intros r' (r & -> & Hr)%list_elem_of_fmap. case_match; [apply (Hf r)|auto].
Qed.

Lemma reserve_target_kept q plan rows :
  rows_ok rows → 0 < rq_required_bytes q → rq_new_id q ∉ (mr_id <$> rows) →
  rows_ok (reserve_target q rows)
  ∧ kept_bytes plan (reserve_target q rows) ≤ kept_bytes plan rows + rq_required_bytes q.
Proof.
  intros Hok Hreq Hnew. unfold reserve_target. destruct (holder_row _ _ _) as [t|].
  - split; [by apply rows_ok_update|]. by apply update_row_kept.
  - split.
    + destruct Hok as [Hnd Hb]. split; [rewrite fmap_app; simpl; apply NoDup_app|].
      * split_and!; [done| |apply NoDup_singleton]. intros id Hid ->%list_elem_of_singleton. done.
      * intros r [Hr| ->%list_elem_of_singleton]%elem_of_app; [auto|done].
    + rewrite kept_app, kept_cons. change (kept_bytes plan []) with 0. case_match; simpl; lia.
Qed.

(** ** One admission *)

(** The two ways a locked section ends: the rows are as before, or the target is
    reserved under a plan that leaves room for it. *)
Definition admission_run (q : Request) (n : Node) (a : Admission) (n' : Node) : Prop :=
  nd_budget_bytes n' = nd_budget_bytes n
  ∧ match a with
    | Planned plan =>
        nd_reservations n' = reserve_target q (nd_reservations n) ∧ 0 < rq_required_bytes q
        ∧ kept_bytes (ap_evictions plan) (nd_reservations n) + rq_required_bytes q ≤ nd_budget_bytes n
    | _ => nd_reservations n' = nd_reservations n
    end.

Lemma commit_plan_run q plan n a n' :
  0 < rq_required_bytes q →
  kept_bytes (ap_evictions plan) (nd_reservations n) + rq_required_bytes q ≤ nd_budget_bytes n →
  commit_plan q plan n = (Ok a, n') → admission_run q n a n'.
Proof.
  intros Hreq Hroom. unfold commit_plan. case_match; intros Hr; inv_run; split; simpl; done.
Qed.

Lemma candidates_weight now leases rows :
  candidate_weight <$> candidates_of now leases (counted_rows rows) ⊆+ weight <$> counted_rows rows.
Proof.
  unfold candidates_of. rewrite <- list_fmap_compose.
  change (weight <$> filter (λ r, mr_holder_type r = MODEL ∧ mr_state r = HELD) (counted_rows rows)
          ⊆+ weight <$> counted_rows rows).
  apply fmap_submseteq, sublist_submseteq, sublist_filter.
Qed.

Lemma drained_weight now leases candidates :
  candidate_weight <$> drained_of now leases candidates = candidate_weight <$> candidates.
Proof. unfold drained_of. by rewrite <- list_fmap_compose. Qed.

Lemma effective_occupied_ge rows measured occupied :
  effective_occupied_bytes rows measured = Some occupied → sum_Z (mr_bytes <$> rows) ≤ occupied.
Proof.
  unfold effective_occupied_bytes. destruct measured; [intros [= <-]; lia|].
  case_match; [done|]. intros [= <-]. lia.
Qed.

Lemma try_admission_run q n a n' :
  rows_ok (nd_reservations n) → try_admission q n = (Ok a, n') → admission_run q n a n'.
Proof.
  intros Hok. unfold try_admission. intros Hr. inv_run. cbv zeta in Hr.
  destruct (negb (rq_allows_admission q)); [inv_run; by split|].
  destruct (negb (rq_mix_allowed q)); [inv_run; by split|].
  destruct (rq_validation_smoke q && _); [inv_run; by split|].
  destruct (effective_occupied_bytes _ _) as [occupied|] eqn:Eo; [|inv_run; by split].
  apply effective_occupied_ge in Eo.
  destruct (plan_admission _ _ _) as [plan|[|occ| |why]] eqn:Ep; try (by inv_run).
  { edestruct plan_leaves_room as [Hreq Hroom]; [exact Hok|apply candidates_weight|exact Eo|exact Ep|].
    by eapply commit_plan_run. }
  destruct (rq_smoke q || _ || _); [inv_run; by split|]. unfold admit_drained in Hr. inv_run.
  destruct (plan_admission _ _ (drained_of _ _ _)) as [plan|[|occ'| |why]] eqn:Ed; try (inv_run; by split).
  edestruct plan_leaves_room as [Hreq Hroom]; [exact Hok| |exact Eo|exact Ed|];
    [rewrite drained_weight; apply candidates_weight|].
  apply commit_plan_run in Hr; [|done|exact Hroom]. destruct Hr as [Hbud Hcase]. split; [done|]. by destruct a.
Qed.

(** ** All transactions of a node *)

(** The transactions of the placement workflow and of its executor do not look at the state
    of the row they write: a load or an eviction that is confirmed late, and a decision that
    reserves its target again, count bytes that no admission has seen.  [revived] are the
    bytes of the rows with an id that are not counted, and [reserve_growth] those that
    reserving the target adds. *)
Definition revived (id : string) (rows : list MemoryReservation) : Z :=
  sum_Z (mr_bytes <$> filter (λ r, mr_id r = id ∧ counted r = false) rows).
Definition reserve_growth (q : Request) (rows : list MemoryReservation) : Z :=
  match holder_row MODEL (rq_target_holder_id q) rows with
  | None => rq_required_bytes q
  | Some t => Z.max 0 (rq_required_bytes q - (if counted t then mr_bytes t else 0))
  end.

(** One committed transaction on the node, with the plan of the newest admission and the
    bytes that late transactions have counted since.  New rows have new ids, and a decision
    that was planned asks for a positive size. *)
Inductive placement_step : Node * list string * Z → Node * list string * Z → Prop :=
| step_admitted q n plan n' old late :
    rq_new_id q ∉ (mr_id <$> nd_reservations n) →
    try_admission q n = (Ok (Planned plan), n') → placement_step (n, old, late) (n', ap_evictions plan, 0)
| step_not_admitted q n a n' old late :
    match a with Planned _ => False | _ => True end →
    try_admission q n = (Ok a, n') → placement_step (n, old, late) (n', old, late)
| step_begin_eviction id running n n' old late :
    begin_eviction id running n = (Ok tt, n') →
    placement_step (n, old, late) (n', old, late + revived id (nd_reservations n))
| step_unloaded now id n n' old late :
    confirm_unload now id n = (Ok tt, n') → placement_step (n, old, late) (n', old, late)
| step_loaded id n n' old late :
    confirm_load id n = (Ok tt, n') →
    placement_step (n, old, late) (n', old, late + revived id (nd_reservations n))
| step_reserve q n b n' old late :
    rq_new_id q ∉ (mr_id <$> nd_reservations n) → 0 < rq_required_bytes q →
    reserve q n = (Ok b, n') →
    placement_step (n, old, late) (n', old, late + reserve_growth q (nd_reservations n))
| step_failed holder n n' old late :
    fail_pending holder n = (Ok tt, n') → placement_step (n, old, late) (n', old, late)
| step_idle now ttl engine n n' old late :
    idle_pass now ttl engine n = (Ok tt, n') → placement_step (n, old, late) (n', old, late)
| step_acquire now id request new_id ttl ready allows n l n' old late :
    acquire_lease now id request new_id ttl ready allows n = (Ok l, n') →
    placement_step (n, old, late) (n', old, late)
| step_release now id n n' old late :
    release_lease now id n = (Ok tt, n') → placement_step (n, old, late) (n', old, late)
| step_refresh now id ttl n b n' old late :
    refresh_lease now id ttl n = (Ok b, n') → placement_step (n, old, late) (n', old, late)
| step_pin id pinned known draining n n' old late :
    set_pin id pinned known draining n = (Ok tt, n') → placement_step (n, old, late) (n', old, late).

(** Within the budget once the newest plan's evictions are gone, up to what came late. *)
Definition within_budget (st : Node * list string * Z) : Prop :=
  let '(n, plan, late) := st in
  rows_ok (nd_reservations n) ∧ 0 ≤ late
  ∧ kept_bytes plan (nd_reservations n) ≤ nd_budget_bytes n + late.

(** A transaction that maps the rows without counting more keeps the bound. *)
Lemma mapped_within f n n' plan late :
  within_budget (n, plan, late) → nd_reservations n' = f <$> nd_reservations n →
  nd_budget_bytes n' = nd_budget_bytes n → (∀ r, r ∈ nd_reservations n → shrinks f r) →
  within_budget (n', plan, late).
Proof.
  intros (Hok & Hl & Hb) Hrows Hbud Hf. unfold within_budget. rewrite Hrows, Hbud.
  split_and!; [by apply rows_ok_map|done|]. etrans; [|exact Hb]. apply kept_map.
  intros r Hr. split; [by apply Hok|auto].
Qed.

Lemma updated_within id f n n' plan late :
  within_budget (n, plan, late) → nd_reservations n' = update_row id f (nd_reservations n) →
  nd_budget_bytes n' = nd_budget_bytes n →
  (∀ r, r ∈ nd_reservations n → mr_id r = id → shrinks f r) → within_budget (n', plan, late).
Proof.
  intros Hw Hrows Hbud Hf. eapply mapped_within; [exact Hw|exact Hrows|done|].
  intros r Hr. simpl. unfold shrinks. destruct (String.eqb_spec (mr_id r) id); [by apply Hf|done].
Qed.

Lemma unchanged_within n n' plan late :
  within_budget (n, plan, late) → nd_reservations n' = nd_reservations n →
  nd_budget_bytes n' = nd_budget_bytes n → within_budget (n', plan, late).
Proof. unfold within_budget. by intros ? -> ->. Qed.

(** Rewriting the state of a row counts at most the bytes of its uncounted rows. *)
Lemma revived_cons id r rows :
  revived id (r :: rows)
  = (if String.eqb (mr_id r) id && negb (counted r) then mr_bytes r else 0) + revived id rows.
Proof.
  unfold revived. rewrite filter_cons. case_decide as Hd.
  - destruct Hd as [<- ->]. by rewrite String.eqb_refl.
  - destruct (String.eqb_spec (mr_id r) id) as [E|Hne]; [|done].
    destruct (counted r) eqn:Ec; [done|]. by destruct Hd.
Qed.

Lemma revived_nonneg id rows : rows_ok rows → 0 ≤ revived id rows.
Proof.
  intros [_ Hb]. apply sum_Z_nonneg. intros b (r & -> & [_ Hr]%list_elem_of_filter)%list_elem_of_fmap.
  specialize (Hb r Hr). lia.
Qed.

Lemma update_row_revived id f plan rows :
  (∀ r, r ∈ rows → 0 < mr_bytes r) → (∀ r, mr_id (f r) = mr_id r ∧ mr_bytes (f r) = mr_bytes r) →
  kept_bytes plan (update_row id f rows) ≤ kept_bytes plan rows + revived id rows.
Proof.
  intros Hb Hf. induction rows as [|r rows IH]; [done|].
  assert (0 < mr_bytes r) by (apply Hb; set_solver).
  assert (kept_bytes plan (update_row id f rows) ≤ kept_bytes plan rows + revived id rows)
    by (apply IH; intros; apply Hb; set_solver).
  change (update_row id f (r :: rows))
    with ((if String.eqb (mr_id r) id then f r else r) :: update_row id f rows).
  rewrite !kept_cons, revived_cons. destruct (String.eqb (mr_id r) id); simpl; [|lia].
  destruct (Hf r) as [-> ->]. destruct (counted r), (counted (f r)), (is_in (mr_id r) plan); simpl; lia.
Qed.

Lemma state_within id state n n' plan late :
  within_budget (n, plan, late) → nd_reservations n' = update_row id (set_state state) (nd_reservations n) →
  nd_budget_bytes n' = nd_budget_bytes n →
  within_budget (n', plan, late + revived id (nd_reservations n)).
Proof.
  intros (Hok & Hl & Hb) Hrows Hbud. unfold within_budget. rewrite Hrows, Hbud.
  pose proof (revived_nonneg id _ Hok). split_and!; [|lia|].
  - unfold update_row. destruct Hok as [Hnd Hpos]. split.
    + rewrite <- list_fmap_compose. rewrite (fmap_ext_in _ mr_id); [done|]. intros r _. simpl. by case_match.
    + intros r' (r & -> & Hr)%list_elem_of_fmap. case_match; exact (Hpos r Hr).
  - pose proof (update_row_revived id (set_state state) plan (nd_reservations n) (proj2 Hok) ltac:(done)). lia.
Qed.

(** Reserving the target counts at most what it grows by. *)
Lemma reserve_growth_nonneg q rows : 0 < rq_required_bytes q → 0 ≤ reserve_growth q rows.
Proof. unfold reserve_growth. case_match; lia. Qed.

Lemma update_row_growth t bytes plan rows :
  rows_ok rows → t ∈ rows → 0 < bytes →
  kept_bytes plan (update_row (mr_id t) (set_bytes bytes PENDING None) rows)
  ≤ kept_bytes plan rows + Z.max 0 (bytes - (if counted t then mr_bytes t else 0)).
Proof.
  intros [Hnd Hb] Ht Hpos. induction rows as [|r rows IH]; [by apply elem_of_nil in Ht|].
  rewrite fmap_cons in Hnd. apply NoDup_cons in Hnd as [Hr Hnd].
  change (update_row (mr_id t) (set_bytes bytes PENDING None) (r :: rows))
    with ((if String.eqb (mr_id r) (mr_id t) then set_bytes bytes PENDING None r else r)
          :: update_row (mr_id t) (set_bytes bytes PENDING None) rows).
  destruct (String.eqb_spec (mr_id r) (mr_id t)) as [E|Hne].
  - assert (r = t) as ->.
    { apply elem_of_cons in Ht as [->|Ht]; [done|]. destruct Hr. rewrite E. by apply list_elem_of_fmap_2. }
    rewrite update_row_absent by done. rewrite !kept_cons. simpl.
    destruct (counted t), (is_in (mr_id t) plan); simpl; lia.
  - rewrite !kept_cons. apply elem_of_cons in Ht as [->|Ht]; [done|].
    assert (kept_bytes plan (update_row (mr_id t) (set_bytes bytes PENDING None) rows)
            ≤ kept_bytes plan rows + Z.max 0 (bytes - (if counted t then mr_bytes t else 0))); [|lia].
    apply IH; [done|intros; apply Hb; set_solver|done].
Qed.

Lemma reserve_within q n n' plan late :
  within_budget (n, plan, late) → rq_new_id q ∉ (mr_id <$> nd_reservations n) → 0 < rq_required_bytes q →
  nd_reservations n' = reserve_target q (nd_reservations n) → nd_budget_bytes n' = nd_budget_bytes n →
  within_budget (n', plan, late + reserve_growth q (nd_reservations n)).
Proof.
  intros (Hok & Hl & Hb) Hnew Hreq Hrows Hbud. unfold within_budget. rewrite Hrows, Hbud.
  pose proof (reserve_growth_nonneg q (nd_reservations n) Hreq).
  destruct (reserve_target_kept q plan _ Hok Hreq Hnew) as [Hok' Hk]. split_and!; [done|lia|].
  unfold reserve_growth, reserve_target in *. destruct (holder_row _ _ _) as [t|] eqn:Et; [|lia].
  apply find_Some_elem in Et as [Et _].
  pose proof (update_row_growth t (rq_required_bytes q) plan _ Hok Et Hreq). lia.
Qed.

Lemma step_within st st' : placement_step st st' → within_budget st → within_budget st'.
Proof.
  intros Hs Hw. destruct Hs as [q n plan n' old late Hnew Hr|q n a n' old late Ha Hr|id running n n' old late Hr
    |now id n n' old late Hr|id n n' old late Hr|q n b n' old late Hnew Hreq Hr|holder n n' old late Hr
    |now ttl engine n n' old late Hr|now id request new_id ttl ready allows n l n' old late Hr
    |now id n n' old late Hr|now id ttl n b n' old late Hr|id pinned known draining n n' old late Hr].
  - destruct Hw as (Hok & _). apply try_admission_run in Hr as (Hbud & Hrows & Hreq & Hroom); [|done].
    unfold within_budget. rewrite Hrows, Hbud.
    destruct (reserve_target_kept q (ap_evictions plan) _ Hok Hreq Hnew). split_and!; [done|lia|lia].
  - apply try_admission_run in Hr as [Hbud Hrows]; [|apply Hw].
    destruct a; (done || by eapply unchanged_within).
  - unfold begin_eviction in Hr. inv_run. by eapply (state_within id RELEASING).
  - unfold confirm_unload in Hr. inv_run. eapply updated_within; [exact Hw|done..|].
    intros r Hin Hid. by split_and!.
  - unfold confirm_load in Hr. inv_run. by eapply (state_within id HELD).
  - unfold reserve in Hr. destruct (negb _); inv_run; [|by eapply reserve_within].
    destruct Hw as (Hok & Hl & Hb). pose proof (reserve_growth_nonneg q (nd_reservations n) Hreq).
    split_and!; [done|lia|lia].
  - unfold fail_pending in Hr. inv_run. eapply mapped_within; [exact Hw|done..|].
    intros r _. unfold shrinks. case_match; by split_and!.
  - unfold idle_pass in Hr. inv_run. eapply mapped_within; [exact Hw|done..|].
    intros r _. unfold shrinks. case_match; [|done]. case_match; [|done]. split_and!; [done..|]. intros _.
    guards. unfold counted. by match goal with Hh : mr_state r = HELD |- _ => rewrite Hh end.
  - unfold acquire_lease in Hr. cbv zeta in Hr. inv_run. eapply updated_within; [exact Hw|done..|].
    intros r Hin Hid. by split_and!.
  - unfold release_lease in Hr. inv_run. by eapply unchanged_within.
  - unfold refresh_lease in Hr. inv_run. repeat case_match; inv_run; by eapply unchanged_within.
  - unfold set_pin in Hr. inv_run.
    match goal with Hi : (if ?c then _ else _) _ = _ |- _ => destruct c end; inv_run;
      (eapply updated_within; [exact Hw|done..|]; intros r0 Hin Hid; by split_and!).
Qed.

Lemma run_within st st' : rtc placement_step st st' → within_budget st → within_budget st'.
Proof. induction 1; eauto using step_within. Qed.


(** ** A small node *)

Definition demo_rows : list MemoryReservation :=
  [standing "s" "agent-sandbox" 10 0;
   mkReservation "r1" MODEL "m1" 50 false HELD 5 None;
   mkReservation "r2" MODEL "m2" 30 false HELD 7 None].
Definition demo_node : Node := mkNode demo_rows [] 100 10 None.
Definition demo_request : Request :=
  mkRequest "m3" 40 false "r3" true true false false 0 9 9 [].
Definition after {A} (m : M Node PlacementError A) (n : Node) : Node := (m n).2.

Definition demo_admitted : Node := after (try_admission demo_request) demo_node.
Definition demo_evicting : Node := after (begin_eviction "r1" true) demo_admitted.
Definition demo_unloaded : Node := after (confirm_unload 11 "r1") demo_evicting.
Definition demo_reserve : Request :=
  mkRequest "m3" 40 false "r4" true true false false 0 9 9 [].
Definition demo_reserved : Node := after (reserve demo_reserve) demo_unloaded.
Definition demo_loaded : Node := after (confirm_load "r3") demo_reserved.

(** A decision fails while the node still loads its model, another admission takes the room,
    and the load is confirmed all the same: 130 of 100 bytes are counted. *)
Definition demo_failed : Node := after (fail_pending "m3") demo_reserved.
Definition demo_second : Request := mkRequest "m4" 50 false "r5" true true false false 0 12 12 [].
Definition demo_refilled : Node := after (try_admission demo_second) demo_failed.
Definition demo_late : Node := after (confirm_load "r3") demo_refilled.

Lemma demo_reserved_run : rtc placement_step (demo_node, [], 0) (demo_reserved, ["r1"], 0).
Proof.
  eapply rtc_l. { eapply (step_admitted demo_request _ _ demo_admitted); [set_solver|vm_compute; reflexivity]. }
  eapply rtc_l. { eapply (step_begin_eviction "r1" true _ demo_evicting); vm_compute; reflexivity. }
  eapply rtc_l. { eapply (step_unloaded 11 "r1" _ demo_unloaded). vm_compute. reflexivity. }
  eapply rtc_l. { eapply (step_reserve demo_reserve _ _ demo_reserved); [set_solver|vm_compute; reflexivity..]. }
  vm_compute. apply rtc_refl.
Qed.

Lemma demo_run : rtc placement_step (demo_node, [], 0) (demo_loaded, ["r1"], 0).
Proof.
  eapply rtc_r; [apply demo_reserved_run|].
  eapply (step_loaded "r3" demo_reserved demo_loaded _ 0). vm_compute. reflexivity.
Qed.

Lemma late_run : rtc placement_step (demo_node, [], 0) (demo_late, [], 40).
Proof.
  etrans; [apply demo_reserved_run|].
  eapply rtc_l. { eapply (step_failed "m3" _ demo_failed). vm_compute. reflexivity. }
  eapply rtc_l. { eapply (step_admitted demo_second _ (mkPlan [] _) demo_refilled); [vm_compute; set_solver|vm_compute; reflexivity]. }
  eapply rtc_l. { eapply (step_loaded "r3" _ demo_late). vm_compute. reflexivity. }
  vm_compute. apply rtc_refl.
Qed.

Lemma demo_node_ok : rows_ok (nd_reservations demo_node).
Proof.
  split; [apply (bool_decide_eq_true_1 _); vm_compute; reflexivity|].
  apply Forall_forall. repeat constructor.
Qed.


(** ** Where the transactions leave a gap *)

(** An eviction that was planned while its model was idle also unloads it when a
    request has taken a lease since: the marking transaction neither takes the node's
    lock nor looks at the leases again. *)
Example eviction_ignores_new_lease :
  ∃ n1 n2 n3 plan lease,
    try_admission demo_request demo_node = (Ok (Planned plan), n1) ∧ ap_evictions plan = ["r1"]
    ∧ acquire_lease 10 "r1" "request" "lease" 60 true true n1 = (Ok lease, n2)
    ∧ begin_eviction "r1" true n2 = (Ok tt, n3)
    ∧ active_leases 10 (nd_leases n3) "r1" = 1
    ∧ (mr_state <$> row "r1" (nd_reservations n3)) = Some RELEASING.
Proof. do 5 eexists. repeat split; vm_compute; reflexivity. Qed.

(** A change of the sandbox bytes rewrites the standing failover reservation when the
    database returns that row first: the query names the holder type, not the holder. *)
Example update_ledger_rewrites_failover :
  ∃ n1 n2 n3,
    ensure_ledgers 1 "s" "f" 10 20 (mkNode [] [] 100 10 None) = (Ok tt, n1)
    ∧ (mr_bytes <$> row "f" (nd_reservations n1)) = Some 20
    ∧ nd_reservations n2 ≡ₚ nd_reservations n1
    ∧ update_ledger 2 "x" None (Some 5) n2 = (Ok tt, n3)
    ∧ (mr_bytes <$> row "f" (nd_reservations n3)) = Some 5
    ∧ (mr_bytes <$> row "s" (nd_reservations n3)) = Some 10.
Proof.
  eexists _, (mkNode [standing "f" "failover-frontend" 20 1; standing "s" "agent-sandbox" 10 1] [] 100 10 None), _.
  split; [vm_compute; reflexivity|]. split; [vm_compute; reflexivity|].
  split; [apply Permutation_swap|]. repeat split; vm_compute; reflexivity.
Qed.
