(* ===== verification/Limits.v ===== *)
(** * API-key rate and quota

    coire_api/identity/limits.py and windows.py: the counters of requests per minute
    and of tokens per month, the two-step admission ([enforce_limits]) and the single
    statement that replaces it under the key's lock ([enforce_locked_limits]).  The
    tables are maps from the key and the start of the window; an exception rolls the
    transaction back.  The windows of one attempt are arguments. *)
From S2P Require Import Prelude Effects.
Open Scope Z_scope.

(** ** Windows *)

(** [minute_window] on microseconds since the epoch. *)
Definition minute_window (now : Z) : Z * Z :=
  let start := now - now mod 60_000_000 in (start, start + 60_000_000).
(** [month_window] on a year and a month. *)
Definition month_window (now : Z * Z) : (Z * Z) * (Z * Z) :=
  (now, if now.2 =? 12 then (now.1 + 1, 1) else (now.1, now.2 + 1)).

Record KeyAdmissionWindow := mkWindow {
  kw_minute_start : Z;
  kw_minute_end : Z;
  kw_month_start : Z * Z;
  kw_month_end : Z * Z;
}.
Definition current_window (now : Z) (month : Z * Z) : KeyAdmissionWindow :=
  mkWindow (minute_window now).1 (minute_window now).2 (month_window month).1 (month_window month).2.

(** ** Rows *)

Record ApiKey := mkApiKey {
  ak_id : string;
  ak_requests_per_minute : Z;
  ak_monthly_budget_tokens : Z;
  ak_revoked : bool;
}.
Record RateWindow := mkRate { rw_window_end : Z; rw_requests : Z }.
Record UsageAccumulator := mkUsage {
  ua_period_end : Z * Z;
  ua_requests : Z;
  ua_prompt_tokens : Z;
  ua_completion_tokens : Z;
}.
Record Counters := mkCounters {
  co_keys : gmap string ApiKey;
  co_rates : gmap (string * Z) RateWindow;
  co_usage : gmap (string * (Z * Z)) UsageAccumulator;
}.
Definition with_rates (v : gmap (string * Z) RateWindow) (s : Counters) : Counters :=
  mkCounters (co_keys s) v (co_usage s).
Definition with_usage (v : gmap (string * (Z * Z)) UsageAccumulator) (s : Counters) : Counters :=
  mkCounters (co_keys s) (co_rates s) v.

Inductive LimitError :=
| RateLimitExceeded (retry_at : Z)
| MonthlyQuotaExceeded (budget_tokens consumed_tokens : Z) (resets_at : Z * Z)
| LookupError.

(** ** Two steps *)

(** Insert the first request of the window, or count one more below the limit. *)
Definition admit_rate (w : KeyAdmissionWindow) (key : string) (limit : Z) : M Counters LimitError unit :=
  s ← get;
  match co_rates s !! (key, kw_minute_start w) with
  | None => put (with_rates (<[(key, kw_minute_start w) := mkRate (kw_minute_end w) 1]> (co_rates s)) s)
  | Some r =>
      throw_if (limit <=? rw_requests r) (RateLimitExceeded (kw_minute_end w));;
      put (with_rates (<[(key, kw_minute_start w) := mkRate (rw_window_end r) (rw_requests r + 1)]> (co_rates s)) s)
  end.

Definition consumed_tokens (w : KeyAdmissionWindow) (key : string) (s : Counters) : Z :=
  match co_usage s !! (key, kw_month_start w) with
  | Some u => ua_prompt_tokens u + ua_completion_tokens u
  | None => 0
  end.

Definition check_quota (w : KeyAdmissionWindow) (k : ApiKey) : M Counters LimitError unit :=
  s ← get;
  let consumed := consumed_tokens w (ak_id k) s in
  throw_if (ak_monthly_budget_tokens k <=? consumed)
           (MonthlyQuotaExceeded (ak_monthly_budget_tokens k) consumed (kw_month_end w)).

Definition enforce_limits (w : KeyAdmissionWindow) (key_id : string) : M Counters LimitError ApiKey :=
  s ← get;
  k ← some_or LookupError (co_keys s !! key_id);
  throw_if (ak_revoked k) LookupError;;
  admit_rate w (ak_id k) (ak_requests_per_minute k);;
  check_quota w k;;
  mret k.

(** [settle_usage] *)
Definition settle_usage (w : KeyAdmissionWindow) (key : string) (prompt completion : Z)
    : M Counters LimitError unit :=
  modify (λ s,
    let u := match co_usage s !! (key, kw_month_start w) with
             | Some u => mkUsage (ua_period_end u) (ua_requests u + 1)
                           (ua_prompt_tokens u + Z.max 0 prompt) (ua_completion_tokens u + Z.max 0 completion)
             | None => mkUsage (kw_month_end w) 1 (Z.max 0 prompt) (Z.max 0 completion)
             end in
    with_usage (<[(key, kw_month_start w) := u]> (co_usage s)) s).

(** ** One statement *)

(** [_LOCKED_KEY_ADMISSION]: the count it returns, or no row. *)
Definition locked_admission (w : KeyAdmissionWindow) (k : ApiKey) : M Counters LimitError (option Z) :=
  s ← get;
  let fits := consumed_tokens w (ak_id k) s <? ak_monthly_budget_tokens k in
  match co_rates s !! (ak_id k, kw_minute_start w) with
  | None =>
      if fits
      then put (with_rates (<[(ak_id k, kw_minute_start w) := mkRate (kw_minute_end w) 1]> (co_rates s)) s);;
           mret (Some 1)
      else mret None
  | Some r =>
      if fits && (rw_requests r <? ak_requests_per_minute k)
      then put (with_rates (<[(ak_id k, kw_minute_start w) :=
                  mkRate (rw_window_end r) (rw_requests r + 1)]> (co_rates s)) s);;
           mret (Some (rw_requests r + 1))
      else mret None
  end.

(** [raise_locked_limit_refusal] *)
Definition raise_locked_limit_refusal (w : KeyAdmissionWindow) (k : ApiKey) : M Counters LimitError unit :=
  s ← get;
  throw_if (match co_rates s !! (ak_id k, kw_minute_start w) with
            | Some r => ak_requests_per_minute k <=? rw_requests r
            | None => false
            end) (RateLimitExceeded (kw_minute_end w));;
  throw (MonthlyQuotaExceeded (ak_monthly_budget_tokens k) (consumed_tokens w (ak_id k) s) (kw_month_end w)).

Definition enforce_locked_limits (w : KeyAdmissionWindow) (k : ApiKey) : M Counters LimitError unit :=
  admitted ← locked_admission w k;
  match admitted with
  | Some _ => mret tt
  | None => raise_locked_limit_refusal w k
  end.

(** ** The statement does what the steps do *)

(** The row after one more request of the window. *)
Definition counted_request (w : KeyAdmissionWindow) (o : option RateWindow) : RateWindow :=
  match o with Some r => mkRate (rw_window_end r) (rw_requests r + 1) | None => mkRate (kw_minute_end w) 1 end.

(** What an admission amounts to: the rate first, then the quota, then the count. *)
Definition admission_outcome (w : KeyAdmissionWindow) (k : ApiKey) (s : Counters)
    : result LimitError unit * Counters :=
  let rate := co_rates s !! (ak_id k, kw_minute_start w) in
  let consumed := consumed_tokens w (ak_id k) s in
  if match rate with Some r => ak_requests_per_minute k <=? rw_requests r | None => false end
  then (Err (RateLimitExceeded (kw_minute_end w)), s)
  else if ak_monthly_budget_tokens k <=? consumed
  then (Err (MonthlyQuotaExceeded (ak_monthly_budget_tokens k) consumed (kw_month_end w)), s)
  else (Ok tt, with_rates (<[(ak_id k, kw_minute_start w) := counted_request w rate]> (co_rates s)) s).

Lemma locked_run w k s : enforce_locked_limits w k s = admission_outcome w k s.
Proof.
  unfold enforce_locked_limits, locked_admission, raise_locked_limit_refusal, admission_outcome.
  cbv [mbind M_bind get put throw_if throw mret M_ret]. rewrite !Z.leb_antisym.
  destruct (co_rates s !! _) as [r|] eqn:Er; destruct (consumed_tokens _ _ _ <? _); simpl; rewrite ?Er; try done;
    destruct (rw_requests r <? ak_requests_per_minute k) eqn:El; simpl; rewrite ?Er, ?Z.leb_antisym, ?El; done.
Qed.

Lemma stepped_run w k s :
  co_keys s !! ak_id k = Some k → ak_revoked k = false →
  transaction (enforce_limits w (ak_id k);; mret tt) s = admission_outcome w k s.
Proof.
  intros Hk Hrev. unfold transaction, enforce_limits, admit_rate, check_quota, admission_outcome.
  cbv [mbind M_bind get put some_or throw_if throw mret M_ret]. rewrite Hk, Hrev.
  destruct (co_rates s !! _) as [r|] eqn:Er; [destruct (ak_requests_per_minute k <=? rw_requests r); [done|]|];
    unfold consumed_tokens; simpl; by destruct (ak_monthly_budget_tokens k <=? _).
Qed.

(** C31. The single statement is equivalent to the two steps: for a key that is current,
    admission under the key's lock ends the same way, with the same refusal (the rate
    before the quota) and the same counters, as counting the request and then checking
    the quota in a transaction that an exception rolls back. *)
Theorem locked_limits_equivalent w k s :
  co_keys s !! ak_id k = Some k → ak_revoked k = false →
  enforce_locked_limits w k s = transaction (enforce_limits w (ak_id k);; mret tt) s.
Proof. intros Hk Hrev. by rewrite locked_run, stepped_run. Qed.

(** No window counts more requests than the key allows. *)
Lemma rate_bounded w k s s' key start r :
  (∀ key start r, co_rates s !! (key, start) = Some r → key = ak_id k → rw_requests r ≤ ak_requests_per_minute k) →
  1 ≤ ak_requests_per_minute k →
  enforce_locked_limits w k s = (Ok tt, s') → co_rates s' !! (key, start) = Some r → key = ak_id k →
  rw_requests r ≤ ak_requests_per_minute k.
Proof.
  intros Hall Hone Hrun Hr Hkey. rewrite locked_run in Hrun. unfold admission_outcome in Hrun. cbv zeta in Hrun.
  case_match eqn:Erate; [done|]. case_match; [done|]. injection Hrun as <-. simpl in Hr.
  rewrite lookup_insert in Hr. case_decide; [|by eapply Hall]. injection Hr as <-. unfold counted_request.
  destruct (co_rates s !! _) as [r0|]; simpl; lia.
Qed.

(** ** One key *)

Definition demo_key : ApiKey := mkApiKey "key" 2 100 false.
Definition demo_window : KeyAdmissionWindow := current_window 61_000_000 (2025, 12).
Definition demo_counters : Counters :=
  mkCounters {["key" := demo_key]} {[("key", 60_000_000) := mkRate 120_000_000 1]}
    {[("key", (2025, 12)) := mkUsage (2026, 1) 3 60 41]}.

Lemma locked_limits_equivalent_witness :
  (enforce_locked_limits demo_window demo_key demo_counters).1
    = Err (MonthlyQuotaExceeded 100 101 (2026, 1))
  ∧ enforce_locked_limits demo_window demo_key demo_counters
    = transaction (enforce_limits demo_window (ak_id demo_key);; mret tt) demo_counters.
Proof.
  split; [vm_compute; reflexivity|].
  apply (locked_limits_equivalent demo_window demo_key demo_counters); vm_compute; reflexivity.
Defined.
