(* ===== verification/RecipePng.v ===== *)
(** * Recipe extraction from an untrusted PNG

    packages/coire-core image_png.py: the streaming parser that takes the recipe out
    of a PNG without decoding it.  A binary file is what is left to read and the
    position of the next byte; bytes are integers from 0 to 255.  [zlib.crc32] is
    written out, with its running value as the code uses it.  The validation of the
    recipe's JSON and SHA-256 are arguments. *)
From S2P Require Import Prelude Effects.
Open Scope Z_scope.

(** ** Bytes *)

Definition is_byte (b : Z) : Prop := 0 ≤ b < 256.
#[global] Instance is_byte_dec b : Decision (is_byte b) := _.

Definition len {A} (l : list A) : Z := Z.of_nat (length l).

(** [x.startswith(p)] *)
Definition starts_with (p x : list Z) : bool := same (take (length p) x) p.

(** [struct.pack(">I", n)] and [struct.unpack(">I", data)] *)
Definition pack_u32 (n : Z) : list Z :=
  [n / 2 ^ 24 mod 256; n / 2 ^ 16 mod 256; n / 2 ^ 8 mod 256; n mod 256].
Definition unpack_u32 (data : list Z) : option Z :=
  match data with
  | [a; b; c; d] => Some (a * 2 ^ 24 + b * 2 ^ 16 + c * 2 ^ 8 + d)
  | _ => None
  end.

(** ** [zlib.crc32(data, value)]: reflected, polynomial 0xEDB88320 *)

Definition crc_mask : Z := 0xFFFFFFFF.
Definition crc_bit (c : Z) : Z :=
  if Z.testbit c 0 then Z.lxor (Z.shiftr c 1) 0xEDB88320 else Z.shiftr c 1.
Definition crc_byte (c b : Z) : Z := Nat.iter 8 crc_bit (Z.lxor c b).
Definition crc32 (data : list Z) (value : Z) : Z :=
  Z.lxor (foldl crc_byte (Z.lxor value crc_mask) data) crc_mask.

(** ** Constants *)

Definition PNG_SIGNATURE : list Z := [0x89; 80; 78; 71; 13; 10; 26; 10].
Definition RECIPE_KEY : list Z := [99; 111; 105; 114; 101; 46; 105; 109; 97; 103; 101; 0].
Definition STREAM_BLOCK : Z := 64 * 1024.
Definition TEXT_PREFIX : Z := 80.
Definition MAX_CHUNKS : Z := 10_000.
Definition RECIPE_INPUT_MAX_BYTES : Z := 64 * 1024 * 1024.
Definition RECIPE_METADATA_MAX_BYTES : Z := 64 * 1024.

Definition IHDR : list Z := [73; 72; 68; 82].
Definition PLTE : list Z := [80; 76; 84; 69].
Definition IDAT : list Z := [73; 68; 65; 84].
Definition IEND : list Z := [73; 69; 78; 68].
Definition iTXt : list Z := [105; 84; 88; 116].
Definition tEXt : list Z := [116; 69; 88; 116].
Definition zTXt : list Z := [122; 84; 88; 116].

(** The stable codes of [ImageRecipeParseError], the two exceptions Python itself
    could raise on the way, and the end of the model's fuel. *)
Inductive PngError :=
| InvalidPng
| UnsupportedRecipeEncoding
| RecipeTooLarge
| InvalidRecipe
| DuplicateRecipe
| MissingRecipe
| RecipeInputUnavailable
| RecipeInputTooLarge
| RecipeInputMismatch
| StructError
| IndexError
| OutOfFuel.
#[global] Instance PngError_eq_dec : EqDecision PngError.
Proof. solve_decision. Defined.

(** ** A file opened for reading *)

Record Source := mkSource { src_rest : list Z; src_tell : Z }.

Definition read (count : Z) : M Source PngError (list Z) := λ s,
  let data := take (Z.to_nat count) (src_rest s) in
  (Ok data, mkSource (drop (Z.to_nat count) (src_rest s)) (src_tell s + len data)).
Definition tell : M Source PngError Z := s ← get; mret (src_tell s).

Definition read_exact (count : Z) : M Source PngError (list Z) :=
  data ← read count;
  throw_if (negb (len data =? count)) InvalidPng;;
  mret data.

Definition read_u32 : M Source PngError Z :=
  data ← read_exact 4; some_or StructError (unpack_u32 data).

(** ** [_read_payload] *)

(** [while remaining: ...]: one block at a time into the running CRC. *)
Fixpoint stream_crc (fuel : nat) (remaining crc : Z) : M Source PngError Z :=
  if remaining =? 0 then mret crc else
  match fuel with
  | O => throw OutOfFuel
  | S fuel =>
      block ← read_exact (Z.min remaining STREAM_BLOCK);
      stream_crc fuel (remaining - len block) (crc32 block crc)
  end.
Definition stream_fuel (remaining : Z) : nat := S (Z.to_nat (remaining / STREAM_BLOCK)).

Definition read_payload (kind : list Z) (length : Z) : M Source PngError (option (list Z) * Z) :=
  let crc := crc32 kind 0 in
  prefix ← (if is_in kind [IHDR; iTXt; tEXt; zTXt] then read_exact (Z.min length TEXT_PREFIX)
            else mret []);
  let crc := crc32 prefix crc in
  let remaining := length - len prefix in
  let recipe_candidate := starts_with RECIPE_KEY prefix in
  throw_if (recipe_candidate && is_in kind [tEXt; zTXt]) UnsupportedRecipeEncoding;;
  if recipe_candidate && same kind iTXt then
    throw_if (length >? RECIPE_METADATA_MAX_BYTES + len RECIPE_KEY + 4) RecipeTooLarge;;
    rest ← read_exact remaining;
    mret (Some (prefix ++ rest), crc32 rest crc)
  else if same kind IHDR then mret (Some prefix, crc)
  else
    crc ← stream_crc (stream_fuel remaining) remaining crc;
    mret (None, crc).

(** ** [_parse_stream] *)

Section parser.
Context {Recipe : Type} (validate : list Z → option Recipe).

Definition parse_itxt (payload : list Z) : result PngError Recipe :=
  let key := length RECIPE_KEY in
  raise_if (negb (starts_with RECIPE_KEY payload)
            || negb (same (take 4 (drop key payload)) [0; 0; 0; 0])) UnsupportedRecipeEncoding;;
  let recipe_bytes := drop (key + 4) payload in
  raise_if (negb ((0 <? len recipe_bytes) && (len recipe_bytes <=? RECIPE_METADATA_MAX_BYTES)))
    RecipeTooLarge;;
  match validate recipe_bytes with Some r => Ok r | None => Err InvalidRecipe end.

Record PngState := mkPng {
  seen_ihdr : bool;
  seen_plte : bool;
  seen_idat : bool;
  idat_finished : bool;
  recipe : option Recipe;
}.

Definition png_start : PngState := mkPng false false false false None.
Definition with_recipe (r : Recipe) (st : PngState) : PngState :=
  mkPng (seen_ihdr st) (seen_plte st) (seen_idat st) (idat_finished st) (Some r).

Definition letter (c : Z) : bool := (65 <=? c) && (c <=? 90) || (97 <=? c) && (c <=? 122).

(** The order of chunks, before the payload is read. *)
Definition note_chunk (st : PngState) (kind : list Z) (length : Z) : result PngError PngState :=
  let '(mkPng ihdr plte idat finished r) := st in
  raise_if (negb ihdr && negb (same kind IHDR)) InvalidPng;;
  if same kind IHDR then
    raise_if (ihdr || negb (length =? 13)) InvalidPng;;
    Ok (mkPng true plte idat finished r)
  else if same kind PLTE then
    raise_if (plte || idat || (length =? 0) || (length >? 768) || negb (length mod 3 =? 0))
      InvalidPng;;
    Ok (mkPng ihdr true idat finished r)
  else if same kind IDAT then
    raise_if finished InvalidPng;;
    Ok (mkPng ihdr plte true finished r)
  else Ok (mkPng ihdr plte idat (finished || idat) r).

Definition allowed_depths (colour : Z) : list Z :=
  if colour =? 0 then [1; 2; 4; 8; 16]
  else if colour =? 2 then [8; 16]
  else if colour =? 3 then [1; 2; 4; 8]
  else if colour =? 4 then [8; 16]
  else if colour =? 6 then [8; 16]
  else [].

Definition header_byte (header : list Z) (i : nat) : result PngError Z :=
  match header !! i with Some b => Ok b | None => Err IndexError end.
Definition header_u32 (data : list Z) : result PngError Z :=
  match unpack_u32 data with Some n => Ok n | None => Err StructError end.

Definition check_header (header : list Z) : result PngError unit :=
  width ← header_u32 (take 4 header);
  height ← header_u32 (take 4 (drop 4 header));
  depth ← header_byte header 8;
  colour ← header_byte header 9;
  compression ← header_byte header 10;
  filtering ← header_byte header 11;
  interlace ← header_byte header 12;
  raise_if ((width =? 0) || (height =? 0) || negb (is_in depth (allowed_depths colour))
            || negb (compression =? 0) || negb (filtering =? 0)
            || negb (is_in interlace [0; 1])) InvalidPng.

(** What the chunk means once its CRC is right: [inr] is the recipe the parser
    returns, [inl] the state it goes on with. *)
Definition take_chunk (st : PngState) (kind : list Z) (length : Z) (payload : option (list Z))
    (at_end : bool) : result PngError (PngState + Recipe) :=
  if same kind IHDR then
    header ← match payload with Some p => Ok p | None => Err InvalidPng end;
    check_header header;;
    Ok (inl st)
  else if same kind iTXt && present payload then
    raise_if (present (recipe st)) DuplicateRecipe;;
    r ← parse_itxt (default [] payload);
    Ok (inl (with_recipe r st))
  else if same kind IEND then
    raise_if (negb (length =? 0) || negb (seen_idat st) || negb at_end) InvalidPng;;
    match recipe st with None => Err MissingRecipe | Some r => Ok (inr r) end
  else
    first ← header_byte kind 0;
    raise_if ((Z.land first 0x20 =? 0) && negb (is_in kind [PLTE; IDAT])) InvalidPng;;
    Ok (inl st).

(** One iteration of the loop over chunks. *)
Definition parse_chunk (file_size : Z) (st : PngState) : M Source PngError (PngState + Recipe) :=
  at0 ← tell;
  throw_if (file_size - at0 <? 12) InvalidPng;;
  length ← read_u32;
  kind ← read_exact 4;
  at1 ← tell;
  throw_if (negb (len kind =? 4) || negb (forallb letter kind)
            || (length >? file_size - at1 - 4)) InvalidPng;;
  st ← lift (note_chunk st kind length);
  '(payload, actual_crc) ← read_payload kind length;
  crc ← read_u32;
  throw_if (negb (actual_crc =? crc)) InvalidPng;;
  at2 ← tell;
  lift (take_chunk st kind length payload (at2 =? file_size)).

(** [while source.tell() < file_size: ...], with [chunk_count]. *)
Fixpoint parse_chunks (fuel : nat) (file_size chunk_count : Z) (st : PngState) :
    M Source PngError Recipe :=
  at0 ← tell;
  if negb (at0 <? file_size) then throw InvalidPng else
  match fuel with
  | O => throw OutOfFuel
  | S fuel =>
      throw_if (chunk_count + 1 >? MAX_CHUNKS) InvalidPng;;
      out ← parse_chunk file_size st;
      match out with
      | inr r => mret r
      | inl st => parse_chunks fuel file_size (chunk_count + 1) st
      end
  end.
Definition chunk_fuel : nat := S (Z.to_nat MAX_CHUNKS).

Definition parse_stream (file_size : Z) : M Source PngError Recipe :=
  signature ← read_exact (len PNG_SIGNATURE);
  throw_if (negb (same signature PNG_SIGNATURE)) InvalidPng;;
  parse_chunks chunk_fuel file_size 0 png_start.

(** ** [parse_recipe_png] *)

(** What [os.open] and [os.fstat] find: nothing, or a file with its type, its size
    and the bytes that reading it gives. *)
Record Opened := mkOpened { op_regular : bool; op_size : Z; op_bytes : list Z }.

Definition parse_recipe_png (sha256 : list Z → string) (file : option Opened)
    (expected_size : option Z) (expected_sha256 : option string) : result PngError Recipe :=
  match file with
  | None => Err RecipeInputUnavailable
  | Some f =>
      raise_if (negb (op_regular f)) RecipeInputUnavailable;;
      raise_if (negb ((0 <? op_size f) && (op_size f <=? RECIPE_INPUT_MAX_BYTES)))
        RecipeInputTooLarge;;
      raise_if (match expected_size with Some n => negb (op_size f =? n) | None => false end)
        RecipeInputMismatch;;
      r ← (parse_stream (op_size f) (mkSource (op_bytes f) 0)).1;
      raise_if (match expected_sha256 with
                | Some d => negb (same (sha256 (op_bytes f)) d)
                | None => false
                end) RecipeInputMismatch;;
      Ok r
  end.
End parser.
