(* ===== verification/RecipePngFacts.v ===== *)
(** * What the recipe parser accepts

    The files from which [parse_stream] takes a recipe are exactly the encodings of
    the chunk sequences of [valid_png]; a running CRC over blocks is the CRC of the
    whole; every failure has one of the documented codes. *)
From S2P Require Import Prelude Effects RecipePng.
Open Scope Z_scope.

(** ** Bytes and CRC *)

Lemma len_app {A} (l k : list A) : len (l ++ k) = len l + len k.
Proof. unfold len. rewrite length_app. lia. Qed.
Lemma len_nonneg {A} (l : list A) : 0 ≤ len l.
Proof. unfold len. lia. Qed.
Lemma len_cons {A} (x : A) l : len (x :: l) = 1 + len l.
Proof. unfold len. simpl. lia. Qed.
Lemma to_nat_len {A} (l : list A) : Z.to_nat (len l) = length l.
Proof. unfold len. lia. Qed.

Lemma unpack_pack n : 0 ≤ n < 2 ^ 32 → unpack_u32 (pack_u32 n) = Some n.
Proof. intros Hn. unfold unpack_u32, pack_u32. f_equal. Z.to_euclidean_division_equations. lia. Qed.

Lemma pack_unpack data n :
  Forall is_byte data → unpack_u32 data = Some n → data = pack_u32 n ∧ 0 ≤ n < 2 ^ 32.
Proof.
  unfold unpack_u32, is_byte. intros Hb Hn. repeat case_match; try done. simplify_eq.
  rewrite !Forall_cons in Hb. destruct Hb as (?&?&?&?&_). split; [|lia].
  unfold pack_u32. repeat f_equal; Z.to_euclidean_division_equations; lia.
Qed.

Lemma pack_byte n : Forall is_byte (pack_u32 n).
Proof. unfold pack_u32, is_byte. repeat constructor; apply Z.mod_pos_bound; lia. Qed.
Lemma len_pack n : len (pack_u32 n) = 4.
Proof. done. Qed.
Lemma take_pack n l : take 4 (pack_u32 n ++ l) = pack_u32 n.
Proof. done. Qed.
Lemma drop_pack n l : drop 4 (pack_u32 n ++ l) = l.
Proof. done. Qed.
Lemma lookup_pack n m l i :
  (pack_u32 n ++ pack_u32 m ++ l) !! S (S (S (S (S (S (S (S i))))))) = l !! i.
Proof. done. Qed.

(** A running CRC: feeding two blocks is feeding their concatenation. *)
Lemma crc32_app a b v : crc32 b (crc32 a v) = crc32 (a ++ b) v.
Proof.
  unfold crc32. rewrite foldl_app. by rewrite Z.lxor_assoc, Z.lxor_nilpotent, Z.lxor_0_r.
Qed.
Lemma crc32_nil v : crc32 [] v = v.
Proof. unfold crc32. simpl. by rewrite Z.lxor_assoc, Z.lxor_nilpotent, Z.lxor_0_r. Qed.

Lemma lxor_bound a b n : 0 ≤ n → 0 ≤ a < 2 ^ n → 0 ≤ b < 2 ^ n → 0 ≤ Z.lxor a b < 2 ^ n.
Proof.
  intros Hn Ha Hb.
  assert (0 ≤ Z.lxor a b) by (apply Z.lxor_nonneg; lia). split; [done|].
  destruct (decide (Z.lxor a b = 0)) as [->|]; [lia|].
  apply Z.log2_lt_pow2; [lia|]. pose proof (Z.log2_lxor a b).
  assert (∀ x, 0 ≤ x < 2 ^ n → Z.log2 x < n ∨ x = 0) as Hlog.
  { intros x Hx. destruct (decide (x = 0)); [by right|left]. apply Z.log2_lt_pow2; lia. }
  destruct (Hlog a Ha) as [?| ->], (Hlog b Hb) as [?| ->];
    rewrite ?Z.lxor_0_l, ?Z.lxor_0_r in *; lia.
Qed.

Lemma crc_bit_bound c : 0 ≤ c < 2 ^ 32 → 0 ≤ crc_bit c < 2 ^ 32.
Proof.
  intros Hc. unfold crc_bit.
  assert (0 ≤ Z.shiftr c 1 < 2 ^ 32).
  { rewrite Z.shiftr_div_pow2 by lia. split; [apply Z.div_pos; lia|].
    apply Z.div_lt_upper_bound; lia. }
  destruct (Z.testbit c 0); [|done]. by apply lxor_bound.
Qed.

Lemma crc_byte_bound c b : 0 ≤ c < 2 ^ 32 → is_byte b → 0 ≤ crc_byte c b < 2 ^ 32.
Proof.
  intros Hc Hb. unfold crc_byte. unfold is_byte in Hb.
  assert (0 ≤ Z.lxor c b < 2 ^ 32) as H by (apply lxor_bound; lia).
  revert H. generalize (Z.lxor c b) as x. intros x Hx.
  apply Nat.iter_invariant; [|done]. intros y Hy. by apply crc_bit_bound.
Qed.

Lemma crc32_bound data v : Forall is_byte data → 0 ≤ v < 2 ^ 32 → 0 ≤ crc32 data v < 2 ^ 32.
Proof.
  intros Hd Hv. unfold crc32. apply lxor_bound; [lia| |done].
  assert (0 ≤ Z.lxor v crc_mask < 2 ^ 32) as H by (by apply lxor_bound).
  revert H. generalize (Z.lxor v crc_mask) as c.
  induction Hd as [|b data Hb Hd IH]; intros c Hc; [done|]. simpl. by apply IH, crc_byte_bound.
Qed.

Lemma starts_with_iff p x : starts_with p x = true ↔ ∃ y, x = p ++ y.
Proof.
  unfold starts_with. rewrite same_true. split.
  - intros H. exists (drop (length p) x). rewrite <- H at 1. by rewrite take_drop.
  - intros [y ->]. by rewrite take_app_length.
Qed.

Lemma starts_with_take p x n :
  (length p ≤ n)%nat → starts_with p (take n x) = starts_with p x.
Proof. intros Hn. unfold starts_with. rewrite take_take. by rewrite Nat.min_l by done. Qed.

(** ** Reading *)

Lemma read_exact_Ok n s data s' :
  0 ≤ n →
  read_exact n s = (Ok data, s') ↔
  src_rest s = data ++ src_rest s' ∧ len data = n ∧ src_tell s' = src_tell s + n.
Proof.
  intros Hn. unfold read_exact, read, mbind, M_bind, throw_if. simpl.
  destruct s as [rest t], s' as [rest' t']; simpl. unfold len. split.
  - destruct (Z.eqb_spec (Z.of_nat (length (take (Z.to_nat n) rest))) n) as [E|E]; simpl; [|done].
    intros [= <- <- <-]. split_and!; [by rewrite take_drop|done|lia].
  - intros (-> & <- & ->). rewrite Nat2Z.id, take_app_length, drop_app_length.
    by rewrite Z.eqb_refl.
Qed.

Lemma read_exact_app data rest t :
  read_exact (len data) (mkSource (data ++ rest) t) = (Ok data, mkSource rest (t + len data)).
Proof. apply read_exact_Ok; [apply len_nonneg|done]. Qed.

Lemma read_exact_app' n data rest t :
  n = len data →
  read_exact n (mkSource (data ++ rest) t) = (Ok data, mkSource rest (t + n)).
Proof. intros ->. apply read_exact_app. Qed.

(** Blocks or not, the CRC is that of the whole payload. *)
Lemma stream_crc_app fuel data crc rest t :
  len data ≤ Z.of_nat fuel * STREAM_BLOCK →
  stream_crc fuel (len data) crc (mkSource (data ++ rest) t) =
  (Ok (crc32 data crc), mkSource rest (t + len data)).
Proof.
  revert data crc t. induction fuel as [|fuel IH]; intros data crc t Hf.
  all: cbn [stream_crc]; pose proof (len_nonneg data) as Hnn.
  all: destruct (Z.eqb_spec (len data) 0) as [E|E];
    [destruct data; [|rewrite len_cons in E; pose proof (len_nonneg data); lia];
     rewrite crc32_nil; by rewrite Z.add_0_r|].
  { lia. }
  set (n := Z.min (len data) STREAM_BLOCK).
  assert (Hn : 0 < n ≤ len data) by (unfold n, STREAM_BLOCK; lia).
  assert (Hlen : n = len (take (Z.to_nat n) data)).
  { unfold len in *. rewrite length_take. lia. }
  assert (Hrem : len data - n = len (drop (Z.to_nat n) data)).
  { unfold len in *. rewrite length_drop. lia. }
  replace (data ++ rest) with (take (Z.to_nat n) data ++ drop (Z.to_nat n) data ++ rest)
    by (by rewrite app_assoc, take_drop).
  unfold mbind, M_bind. rewrite (read_exact_app' n) by done. rewrite <- Hlen, Hrem, IH.
  - rewrite crc32_app, take_drop. rewrite <- Hrem. do 2 f_equal. lia.
  - rewrite <- Hrem. unfold n, STREAM_BLOCK in *. lia.
Qed.

Lemma stream_fuel_enough n : 0 ≤ n → n ≤ Z.of_nat (stream_fuel n) * STREAM_BLOCK.
Proof.
  intros Hn. unfold stream_fuel, STREAM_BLOCK. Z.to_euclidean_division_equations. lia.
Qed.

#[local] Arguments stream_crc : simpl never.
#[local] Arguments crc32 : simpl never.
#[local] Arguments allowed_depths : simpl never.
#[local] Opaque pack_u32.
#[local] Arguments read_exact : simpl never.
#[local] Arguments unpack_u32 : simpl never.
#[local] Arguments read_payload : simpl never.

(** ** Chunks and their encoding *)

Record Chunk := mkChunk { ck_kind : list Z; ck_payload : list Z }.

Definition chunk_crc (c : Chunk) : Z := crc32 (ck_kind c ++ ck_payload c) 0.
Definition encode_chunk (c : Chunk) : list Z :=
  pack_u32 (len (ck_payload c)) ++ ck_kind c ++ ck_payload c ++ pack_u32 (chunk_crc c).
Definition encode_png (cs : list Chunk) : list Z := PNG_SIGNATURE ++ concat (encode_chunk <$> cs).

Record wf_chunk (c : Chunk) : Prop := {
  wf_kind : length (ck_kind c) = 4%nat;
  wf_letters : forallb letter (ck_kind c) = true;
  wf_bytes : Forall is_byte (ck_payload c);
  wf_length : len (ck_payload c) < 2 ^ 32;
}.

Definition is_recipe (c : Chunk) : bool :=
  same (ck_kind c) iTXt && starts_with RECIPE_KEY (ck_payload c).

(** The payload the parser keeps of a chunk. *)
Definition capture (c : Chunk) : result PngError (option (list Z)) :=
  let '(mkChunk kind payload) := c in
  raise_if (starts_with RECIPE_KEY payload && is_in kind [tEXt; zTXt]) UnsupportedRecipeEncoding;;
  if is_recipe c then
    raise_if (len payload >? RECIPE_METADATA_MAX_BYTES + len RECIPE_KEY + 4) RecipeTooLarge;;
    Ok (Some payload)
  else Ok (if same kind IHDR then Some (take (Z.to_nat TEXT_PREFIX) payload) else None).

Lemma wf_kind_bytes c : wf_chunk c → Forall is_byte (ck_kind c).
Proof.
  intros Hwf. apply Forall_forall. intros x Hx%list_elem_of_In.
  pose proof (proj1 (forallb_forall _ _) (wf_letters _ Hwf) x Hx) as Hl.
  unfold letter in Hl. unfold is_byte. lia.
Qed.

Lemma chunk_crc_bound c : wf_chunk c → 0 ≤ chunk_crc c < 2 ^ 32.
Proof.
  intros Hwf. apply crc32_bound; [|lia]. apply Forall_app. split; [by apply wf_kind_bytes|apply Hwf].
Qed.

Lemma len_encode_chunk c :
  length (ck_kind c) = 4%nat → len (encode_chunk c) = 12 + len (ck_payload c).
Proof. intros Hk. unfold encode_chunk. rewrite !len_app. rewrite !len_pack.
  replace (len (ck_kind c)) with 4 by (unfold len; lia). lia.
Qed.

(** The prefix of at most 80 bytes decides what the payload starts with. *)
Lemma prefix_split (payload : list Z) :
  payload = take (Z.to_nat (Z.min (len payload) TEXT_PREFIX)) payload
            ++ drop (Z.to_nat TEXT_PREFIX) payload ∧
  take (Z.to_nat (Z.min (len payload) TEXT_PREFIX)) payload = take (Z.to_nat TEXT_PREFIX) payload.
Proof.
  assert (take (Z.to_nat (Z.min (len payload) TEXT_PREFIX)) payload
          = take (Z.to_nat TEXT_PREFIX) payload) as E.
  { destruct (Z.le_ge_cases (len payload) TEXT_PREFIX) as [H|H].
    - rewrite Z.min_l by done. rewrite to_nat_len.
      rewrite !take_ge; [done| |lia]. unfold len in H. lia.
    - by rewrite Z.min_r. }
  split; [|done]. rewrite E. by rewrite take_drop.
Qed.

Lemma read_prefix payload rest t :
  read_exact (Z.min (len payload) TEXT_PREFIX) (mkSource (payload ++ rest) t) =
  (Ok (take (Z.to_nat TEXT_PREFIX) payload),
   mkSource (drop (Z.to_nat TEXT_PREFIX) payload ++ rest) (t + Z.min (len payload) TEXT_PREFIX)).
Proof.
  destruct (prefix_split payload) as [E1 E2]. rewrite E2 in E1.
  rewrite E1 at 2. rewrite <- app_assoc. apply read_exact_app'.
  unfold len. rewrite length_take. unfold TEXT_PREFIX. lia.
Qed.

(** [remaining] after the prefix is the length of what is left. *)
Lemma prefix_remaining (payload : list Z) :
  len payload - len (take (Z.to_nat TEXT_PREFIX) payload) = len (drop (Z.to_nat TEXT_PREFIX) payload).
Proof. unfold len. rewrite length_take, length_drop. lia. Qed.

Lemma prefix_crc kind payload :
  crc32 (drop (Z.to_nat TEXT_PREFIX) payload) (crc32 (take (Z.to_nat TEXT_PREFIX) payload) (crc32 kind 0))
  = crc32 (kind ++ payload) 0.
Proof. by rewrite !crc32_app, take_drop. Qed.

Lemma prefix_tell (payload : list Z) t :
  t + Z.min (len payload) TEXT_PREFIX + len (drop (Z.to_nat TEXT_PREFIX) payload) = t + len payload.
Proof. rewrite <- prefix_remaining. unfold len. rewrite length_take. unfold TEXT_PREFIX. lia. Qed.

Lemma read_payload_app c rest t :
  (ck_kind c = IHDR → len (ck_payload c) ≤ TEXT_PREFIX) →
  let out := read_payload (ck_kind c) (len (ck_payload c)) (mkSource (ck_payload c ++ rest) t) in
  match capture c with
  | Ok p => out = (Ok (p, chunk_crc c), mkSource rest (t + len (ck_payload c)))
  | Err e => out.1 = Err e
  end.
Proof.
  destruct c as [kind payload]. intros Hihdr out. unfold capture, is_recipe, chunk_crc in *. simpl in *.
  subst out. unfold read_payload.
  destruct (is_in kind [IHDR; iTXt; tEXt; zTXt]) eqn:Hin.
  - unfold mbind, M_bind. rewrite read_prefix. rewrite starts_with_take by (vm_compute; lia).
    destruct (starts_with RECIPE_KEY payload && is_in kind [tEXt; zTXt]) eqn:Hz; [done|]. simpl.
    rewrite (andb_comm (same kind iTXt)).
    destruct (starts_with RECIPE_KEY payload && same kind iTXt) eqn:Hi.
    + destruct (len payload >? _) eqn:Hlong; [done|]. simpl. rewrite prefix_remaining.
      rewrite read_exact_app, prefix_crc, prefix_tell, take_drop. done.
    + destruct (same kind IHDR) eqn:Hh.
      * guards. subst. specialize (Hihdr eq_refl). simpl.
        rewrite take_ge by (unfold len, TEXT_PREFIX in *; lia).
        rewrite drop_ge by (unfold len, TEXT_PREFIX in *; lia).
        rewrite crc32_app, Z.min_l by done. done.
      * rewrite prefix_remaining. rewrite stream_crc_app by apply stream_fuel_enough, len_nonneg.
        by rewrite prefix_crc, prefix_tell.
  - assert (is_in kind [tEXt; zTXt] = false ∧ same kind iTXt = false ∧ same kind IHDR = false)
      as (-> & -> & ->).
    { unfold is_in, same in *. rewrite !bool_decide_eq_false in *. set_solver. }
    unfold mbind, M_bind. simpl. rewrite Z.sub_0_r, crc32_nil.
    rewrite stream_crc_app by apply stream_fuel_enough, len_nonneg.
    by rewrite andb_false_r, crc32_app.
Qed.

(** What a successful read took from the file. *)
Definition consumed (n : Z) (s s' : Source) : Prop :=
  ∃ data, src_rest s = data ++ src_rest s' ∧ len data = n ∧ src_tell s' = src_tell s + n.

Lemma consumed_0 s : consumed 0 s s.
Proof. exists []. split_and!; [done|done|lia]. Qed.
Lemma consumed_trans n m s1 s2 s3 : consumed n s1 s2 → consumed m s2 s3 → consumed (n + m) s1 s3.
Proof.
  intros (d1 & E1 & L1 & T1) (d2 & E2 & L2 & T2). exists (d1 ++ d2).
  rewrite E1, E2, len_app, app_assoc. split_and!; [done|lia|lia].
Qed.
Lemma consumed_eq n m s s' : consumed n s s' → n = m → consumed m s s'.
Proof. by intros H <-. Qed.
Lemma read_exact_consumed n s data s' :
  0 ≤ n → read_exact n s = (Ok data, s') → consumed n s s' ∧ len data = n.
Proof. intros Hn H%read_exact_Ok; [|done]. split; [exists data; tauto|tauto]. Qed.

Lemma stream_crc_consumed fuel n crc s v s' :
  0 ≤ n → stream_crc fuel n crc s = (Ok v, s') → consumed n s s'.
Proof.
  revert n crc s. induction fuel as [|fuel IH]; intros n crc s Hn; unfold stream_crc; fold stream_crc.
  all: destruct (Z.eqb_spec n 0) as [->|E]; intros H; inv_run; try apply consumed_0.
  apply read_exact_consumed in H0 as [H0 L]; [|unfold STREAM_BLOCK; lia].
  assert (Hle : Z.min n STREAM_BLOCK ≤ n) by lia.
  apply IH in H; [|lia]. rewrite L in H.
  eapply consumed_eq; [by eapply consumed_trans|lia].
Qed.

Lemma read_payload_consumed kind n s out s' :
  0 ≤ n → (kind = IHDR → n ≤ TEXT_PREFIX) →
  read_payload kind n s = (Ok out, s') → consumed n s s'.
Proof.
  intros Hn Hihdr H. unfold read_payload in H. inv_run.
  assert (consumed (len x) s x0 ∧ len x ≤ n ∧ (same kind IHDR = true → len x = n))
    as (Hpre & Hle & Hall).
  { destruct (is_in kind _) eqn:Hin; inv_run.
    - apply read_exact_consumed in H0 as [H0 L]; [|unfold TEXT_PREFIX; lia]. rewrite L.
      split_and!; [done|lia|]. intros E. guards. specialize (Hihdr E). lia.
    - split_and!; [apply consumed_0|done|]. intros E. guards. subst. discriminate Hin. }
  assert (consumed (n - len x) x0 s').
  { clear H0. repeat case_test; inv_run.
    - by apply read_exact_consumed in H2 as [? _]; [|lia].
    - rewrite Hall by done. rewrite Z.sub_diag. apply consumed_0.
    - eapply stream_crc_consumed; [|done]. lia. }
  eapply consumed_eq; [by eapply consumed_trans|lia].
Qed.

#[local] Arguments capture : simpl never.

Section grammar.
Context {Recipe : Type} (validate : list Z → option Recipe).
Implicit Types (st : @PngState Recipe) (c : Chunk) (cs : list Chunk) (r : Recipe).

(** One chunk as a whole: the reference for one iteration of the parser. *)
Definition chunk_step st c (at_end : bool) : result PngError (PngState + Recipe) :=
  st' ← note_chunk st (ck_kind c) (len (ck_payload c));
  p ← capture c;
  take_chunk validate st' (ck_kind c) (len (ck_payload c)) p at_end.

Lemma note_chunk_ihdr st kind n st' : note_chunk st kind n = Ok st' → kind = IHDR → n = 13.
Proof.
  intros H ->. destruct st as [a b d e f]. unfold note_chunk in H. inv_ok.
  rewrite same_refl in H. inv_ok. guards. lia.
Qed.

Lemma parse_chunk_encoded size st c rest t out :
  wf_chunk c → t + len (encode_chunk c) ≤ size →
  chunk_step st c (t + len (encode_chunk c) =? size) = Ok out →
  parse_chunk validate size st (mkSource (encode_chunk c ++ rest) t) =
  (Ok out, mkSource rest (t + len (encode_chunk c))).
Proof.
  intros Hwf Hsize Hstep. unfold chunk_step in Hstep. inv_ok.
  pose proof (len_encode_chunk c (wf_kind _ Hwf)) as Hlen. rewrite Hlen in *.
  pose proof (len_nonneg (ck_payload c)) as Hnn.
  pose proof (wf_length _ Hwf). pose proof (chunk_crc_bound c Hwf).
  assert (Hk : len (ck_kind c) = 4) by (unfold len; rewrite (wf_kind _ Hwf); done).
  pose proof (read_payload_app c (pack_u32 (chunk_crc c) ++ rest) (t + 4 + 4)) as Hread.
  cbv zeta in Hread. rewrite H0 in Hread.
  unfold parse_chunk, read_u32, encode_chunk. unfold mbind, M_bind, tell, get, throw_if, lift, mret, M_ret.
  simpl. replace (size - t <? 12) with false by lia.
  rewrite <- !app_assoc. rewrite (read_exact_app' 4) by (by rewrite ?len_pack). simpl.
  rewrite unpack_pack by lia. simpl. rewrite (read_exact_app' 4) by (by rewrite ?len_pack). simpl.
  rewrite Hk, (wf_letters _ Hwf). replace (len (ck_payload c) >? _) with false by lia. simpl.
  rewrite H. rewrite Hread by (intros Ek; apply (note_chunk_ihdr _ _ _ _ H) in Ek; rewrite Ek; done).
  rewrite (read_exact_app' 4) by (by rewrite ?len_pack). simpl. rewrite unpack_pack by lia. simpl.
  rewrite Z.eqb_refl. simpl. replace (t + 4 + 4 + len (ck_payload c) + 4)
    with (t + (12 + len (ck_payload c))) by lia. by rewrite Hstep.
Qed.

Lemma read_u32_Ok s n s' :
  Forall is_byte (src_rest s) → read_u32 s = (Ok n, s') →
  src_rest s = pack_u32 n ++ src_rest s' ∧ 0 ≤ n < 2 ^ 32 ∧ src_tell s' = src_tell s + 4.
Proof.
  intros Hb H. unfold read_u32 in H. inv_run. apply read_exact_Ok in H0 as (E & _ & T); [|lia].
  rewrite E in Hb. apply Forall_app in Hb as [Hb _].
  apply pack_unpack in H as [-> ?]; [|done]. done.
Qed.

Lemma parse_chunk_sound size st s out s' :
  Forall is_byte (src_rest s) → parse_chunk validate size st s = (Ok out, s') →
  ∃ c, wf_chunk c ∧ src_rest s = encode_chunk c ++ src_rest s' ∧
       src_tell s' = src_tell s + len (encode_chunk c) ∧ src_tell s' ≤ size ∧
       chunk_step st c (src_tell s' =? size) = Ok out.
Proof.
  intros Hb H. unfold parse_chunk, tell in H. inv_run.
  rename x3 into n, x5 into kind, x11 into st', H0 into Hnote, H7 into Hread.
  destruct x13 as [p crc]. inv_run.
  rename H into Htake, x into crc'.
  apply read_u32_Ok in H2 as (E1 & Hn & T1); [|done].
  rewrite E1 in Hb. apply Forall_app in Hb as [_ Hb].
  apply read_exact_Ok in H3 as (E2 & L2 & T2); [|lia].
  rewrite E2 in Hb. apply Forall_app in Hb as [_ Hb].
  assert (Hihdr : kind = IHDR → n ≤ TEXT_PREFIX).
  { intros ->. apply note_chunk_ihdr in Hnote; [subst; unfold TEXT_PREFIX; lia|done]. }
  pose proof (read_payload_consumed _ _ _ _ _ (proj1 Hn) Hihdr Hread) as (payload & E3 & L3 & T3).
  rewrite E3 in Hb. apply Forall_app in Hb as [Hpb Hb].
  apply read_u32_Ok in H0 as (E4 & Hc & T4); [|done]. guards. subst crc'.
  assert (Hwf : wf_chunk (mkChunk kind payload)).
  { constructor; simpl; [|done|done|lia]. unfold len in L2. lia. }
  pose proof (read_payload_app (mkChunk kind payload) (src_rest x14) (src_tell x6)) as Happ.
  simpl in Happ. rewrite L3 in Happ. specialize (Happ Hihdr).
  rewrite <- E3 in Happ. destruct x6 as [rest6 t6]; simpl in *. rewrite Hread in Happ.
  destruct (capture (mkChunk kind payload)) as [p'|] eqn:Hcap; [|done].
  injection Happ as -> -> _.
  exists (mkChunk kind payload). rewrite len_encode_chunk by apply Hwf.
  unfold encode_chunk. simpl. rewrite L3. split_and!; [done| |lia|lia|].
  - rewrite E1, E2, E3, E4. by rewrite <- !app_assoc.
  - unfold chunk_step. simpl. rewrite L3, Hnote. simpl. by rewrite Hcap.
Qed.

(** ** The chunks the parser accepts *)

(** A whole sequence: every chunk but the last one goes on, the last one returns. *)
Inductive accepts : PngState → list Chunk → Recipe → Prop :=
| accepts_last st c r : chunk_step st c true = Ok (inr r) → accepts st [c] r
| accepts_more st c st' cs r :
    chunk_step st c false = Ok (inl st') → accepts st' cs r → accepts st (c :: cs) r.

Lemma accepts_nonempty st cs r : accepts st cs r → cs ≠ [].
Proof. by destruct 1. Qed.

Lemma chunk_step_return st c at_end r : chunk_step st c at_end = Ok (inr r) → at_end = true.
Proof.
  unfold chunk_step, take_chunk. intros H. inv_ok. repeat case_test; inv_ok; try done.
  by guards.
Qed.
(** Going on does not depend on being at the end. *)
Lemma chunk_step_continue st c at_end st' :
  chunk_step st c at_end = Ok (inl st') → chunk_step st c false = Ok (inl st').
Proof.
  unfold chunk_step. destruct (note_chunk _ _ _) as [st1|]; [|done]. simpl.
  destruct (capture c) as [p|]; [|done]. simpl. unfold take_chunk.
  destruct (same (ck_kind c) IHDR), (same (ck_kind c) iTXt && present p); try done.
  destruct (same (ck_kind c) IEND); [|done]. intros H. inv_ok. by destruct (recipe _).
Qed.

Definition body (cs : list Chunk) : list Z := concat (encode_chunk <$> cs).
Lemma body_cons c cs : body (c :: cs) = encode_chunk c ++ body cs.
Proof. done. Qed.
Lemma encode_chunk_pos c : wf_chunk c → 12 ≤ len (encode_chunk c).
Proof.
  intros Hwf. rewrite len_encode_chunk by apply Hwf. pose proof (len_nonneg (ck_payload c)). lia.
Qed.
Lemma body_pos cs : Forall wf_chunk cs → cs ≠ [] → 0 < len (body cs).
Proof.
  intros Hwf Hne. destruct Hwf as [|c cs Hc _]; [done|]. rewrite body_cons, len_app.
  pose proof (encode_chunk_pos c Hc). pose proof (len_nonneg (body cs)). lia.
Qed.

Lemma parse_chunks_complete fuel size count st cs r rest t :
  accepts st cs r → Forall wf_chunk cs →
  t + len (body cs) = size → count + len cs ≤ MAX_CHUNKS → len cs < Z.of_nat fuel →
  parse_chunks validate fuel size count st (mkSource (body cs ++ rest) t) =
  (Ok r, mkSource rest size).
Proof.
  intros Hacc. revert fuel count t.
  induction Hacc as [st c r Hc|st c st' cs r Hc Hacc IH]; intros fuel count t Hwf Ht Hcount Hfuel.
  all: apply Forall_cons in Hwf as [Hwc Hwf]; pose proof (encode_chunk_pos c Hwc) as Hpos.
  all: rewrite body_cons, len_app in Ht; rewrite body_cons, <- app_assoc.
  all: rewrite len_cons in *; destruct fuel as [|fuel];
    [match type of Hfuel with 1 + len ?l < _ => pose proof (len_nonneg l) end; lia|].
  all: cbn [parse_chunks]; unfold mbind, M_bind, tell, get, mret, M_ret; simpl.
  - change (len (body [])) with 0 in Ht. change (len []) with 0 in Hcount.
    replace (t <? size) with true by lia. simpl.
    unfold throw_if. replace (count + 1 >? MAX_CHUNKS) with false by lia. simpl.
    rewrite (parse_chunk_encoded _ _ _ _ _ (inr r)); [|done|lia|].
    + do 2 f_equal. lia.
    + by replace (_ =? size) with true by lia.
  - pose proof (body_pos cs Hwf (accepts_nonempty _ _ _ Hacc)). pose proof (len_nonneg cs).
    replace (t <? size) with true by lia. simpl.
    unfold throw_if. replace (count + 1 >? MAX_CHUNKS) with false by lia. simpl.
    rewrite (parse_chunk_encoded _ _ _ _ _ (inl st')); [|done|lia|].
    + apply IH; [done|lia|lia|lia].
    + by replace (_ =? size) with false by lia.
Qed.

Lemma parse_chunks_sound fuel size count st s r s' :
  Forall is_byte (src_rest s) → parse_chunks validate fuel size count st s = (Ok r, s') →
  ∃ cs, accepts st cs r ∧ Forall wf_chunk cs ∧ src_rest s = body cs ++ src_rest s' ∧
        src_tell s + len (body cs) = size ∧ count + len cs ≤ MAX_CHUNKS.
Proof.
  revert count st s. induction fuel as [|fuel IH]; intros count st s Hb H; cbn [parse_chunks] in H.
  all: unfold tell in H; inv_run; case_test; inv_run.
  match goal with Hp : parse_chunk _ _ _ _ = _ |- _ => rename Hp into Hstep end.
  apply parse_chunk_sound in Hstep as (c & Hwf & E & T & Hle & Hc); [|done].
  destruct x1 as [st'|r']; inv_run.
  - apply IH in H as (cs & Hacc & Hwfs & E2 & T2 & Hcount);
      [|rewrite E in Hb; by apply Forall_app in Hb as [_ Hb]].
    exists (c :: cs). split_and!.
    + eapply accepts_more; [by eapply chunk_step_continue|done].
    + by constructor.
    + by rewrite E, E2, body_cons, app_assoc.
    + rewrite body_cons, len_app. lia.
    + rewrite len_cons. lia.
  - pose proof (chunk_step_return _ _ _ _ Hc) as Hend. rewrite Hend in Hc.
    exists [c]. split_and!.
    + by apply accepts_last.
    + by constructor.
    + by rewrite E, body_cons, app_nil_r.
    + rewrite body_cons, len_app. change (len (body [])) with 0. lia.
    + rewrite len_cons. change (len []) with 0. lia.
Qed.

(** ** The grammar *)

(** The payload of a recipe chunk: the key, four zero bytes and a valid document. *)
Definition recipe_bytes (c : Chunk) r : Prop :=
  ∃ doc, ck_payload c = RECIPE_KEY ++ [0; 0; 0; 0] ++ doc ∧
         0 < len doc ≤ RECIPE_METADATA_MAX_BYTES ∧ validate doc = Some r.

(** Lower-case first letter, and not a recipe in an encoding that is refused. *)
Definition ancillary (c : Chunk) : bool :=
  match ck_kind c with k :: _ => negb (Z.land k 0x20 =? 0) | [] => false end
  && negb (starts_with RECIPE_KEY (ck_payload c) && is_in (ck_kind c) [tEXt; zTXt]).
Definition palette (c : Chunk) : Prop :=
  ck_kind c = PLTE ∧ 0 < len (ck_payload c) ≤ 768 ∧ len (ck_payload c) mod 3 = 0.
Definition header (c : Chunk) : Prop :=
  ck_kind c = IHDR ∧ ∃ width height depth colour interlace,
    ck_payload c = pack_u32 width ++ pack_u32 height ++ [depth; colour; 0; 0; interlace] ∧
    0 < width < 2 ^ 32 ∧ 0 < height < 2 ^ 32 ∧
    depth ∈ allowed_depths colour ∧ interlace ∈ [0; 1].
Definition iend : Chunk := mkChunk IEND [].

(** Exactly one recipe chunk, and it holds [r]. *)
Definition one_recipe cs r : Prop := ∃ c, List.filter is_recipe cs = [c] ∧ recipe_bytes c r.

Record valid_png (cs : list Chunk) r : Prop := {
  valid_chunks : Forall wf_chunk cs;
  valid_count : len cs ≤ MAX_CHUNKS;
  valid_recipe : one_recipe cs r;
  valid_order : ∃ ihdr pre idats post,
    cs = ihdr :: pre ++ idats ++ post ++ [iend] ∧ header ihdr ∧
    Forall (λ c, ancillary c = true ∨ palette c) pre ∧
    (length (filter (λ c, ck_kind c = PLTE) pre) ≤ 1)%nat ∧
    idats ≠ [] ∧ Forall (λ c, ck_kind c = IDAT) idats ∧
    Forall (λ c, ancillary c = true) post;
}.

Lemma parse_itxt_iff c r : parse_itxt validate (ck_payload c) = Ok r ↔ recipe_bytes c r.
Proof.
  unfold parse_itxt, recipe_bytes. split.
  - intros H. inv_ok. guards.
    match goal with Hs : starts_with _ _ = true |- _ => apply starts_with_iff in Hs as [y E] end.
    rewrite E in *.
    rewrite drop_app_length in *.
    rewrite <- drop_drop, drop_app_length in *.
    exists (drop 4 y). split_and!; [|lia|lia|by case_match; simplify_eq].
    rewrite <- (take_drop 4 y) at 1. congruence.
  - intros (doc & -> & Hlen & Hv).
    assert (starts_with RECIPE_KEY (RECIPE_KEY ++ [0; 0; 0; 0] ++ doc) = true) as ->
      by (apply starts_with_iff; eauto).
    rewrite <- drop_drop, drop_app_length. simpl. rewrite drop_0.
    replace (0 <? len doc) with true by lia. replace (len doc <=? _) with true by lia. simpl.
    by rewrite Hv.
Qed.

Lemma recipe_ancillary c : is_recipe c = true → ancillary c = true.
Proof.
  unfold is_recipe, ancillary. intros H. guards. rewrite H. simpl. by rewrite andb_false_r.
Qed.

(** The chunks between IHDR and IEND, and what each does to the parser's state. *)
Inductive moves (p i f : bool) (ro : option Recipe) (c : Chunk) : PngState → Prop :=
| moves_ancillary : ancillary c = true → is_recipe c = false → moves p i f ro c (mkPng true p i (f || i) ro)
| moves_recipe r :
    ro = None → is_recipe c = true → recipe_bytes c r → moves p i f ro c (mkPng true p i (f || i) (Some r))
| moves_plte : p = false → i = false → palette c → moves p i f ro c (mkPng true true i f ro)
| moves_idat : f = false → ck_kind c = IDAT → moves p i f ro c (mkPng true p true f ro).

Lemma capture_ancillary c p : capture c = Ok p →
  (starts_with RECIPE_KEY (ck_payload c) && is_in (ck_kind c) [tEXt; zTXt]) = false ∧
  (is_recipe c = true → p = Some (ck_payload c)) ∧
  (is_recipe c = false → ck_kind c ≠ IHDR → p = None).
Proof.
  destruct c as [kind payload]. unfold capture. intros H. inv_ok. split; [done|].
  destruct (is_recipe _); inv_ok; split; try done. intros _ Hk. simpl in Hk.
  by rewrite (proj2 (same_false kind IHDR) Hk).
Qed.

Lemma capture_plain c :
  ancillary c = true ∨ palette c ∨ ck_kind c = IDAT → is_recipe c = false → ck_kind c ≠ IHDR →
  capture c = Ok None.
Proof.
  destruct c as [kind payload]. unfold capture. intros Hc Hr Hk. rewrite Hr.
  assert (starts_with RECIPE_KEY payload && is_in kind [tEXt; zTXt] = false) as ->.
  { destruct Hc as [Ha|[[E _]|E]]; simpl in *; [|rewrite E; apply andb_false_r..].
    unfold ancillary in Ha. simpl in Ha. by guards. }
  simpl in *. by rewrite (proj2 (same_false kind IHDR) Hk).
Qed.

Lemma recipe_length c r : recipe_bytes c r →
  len (ck_payload c) ≤ RECIPE_METADATA_MAX_BYTES + len RECIPE_KEY + 4.
Proof. intros (doc & -> & ? & _). rewrite !len_app. change (len [0; 0; 0; 0]) with 4. lia. Qed.

Lemma capture_recipe c r : is_recipe c = true → recipe_bytes c r → capture c = Ok (Some (ck_payload c)).
Proof.
  intros Hr Hb. pose proof (recipe_length c r Hb) as Hl. pose proof (recipe_ancillary c Hr) as Ha.
  destruct c as [kind payload]. unfold capture. rewrite Hr. unfold ancillary in Ha. simpl in *. guards.
  rewrite H0. simpl. by replace (len payload >? _) with false by lia.
Qed.

(** The kinds a lower-case letter rules out. *)
Lemma ancillary_kind c : ancillary c = true →
  ck_kind c ≠ IHDR ∧ ck_kind c ≠ PLTE ∧ ck_kind c ≠ IDAT ∧ ck_kind c ≠ IEND.
Proof.
  unfold ancillary. intros H. guards. split_and!; intros E; rewrite E in H; discriminate H.
Qed.

(** A chunk of another kind leaves the order's flags to [idat_finished]. *)
Lemma note_other p i f ro kind n :
  kind ≠ IHDR → kind ≠ PLTE → kind ≠ IDAT →
  note_chunk (mkPng true p i f ro) kind n = Ok (mkPng true p i (f || i) ro : @PngState Recipe).
Proof.
  intros H1 H2 H3. unfold note_chunk. simpl.
  rewrite (proj2 (same_false kind IHDR) H1), (proj2 (same_false kind PLTE) H2).
  by rewrite (proj2 (same_false kind IDAT) H3).
Qed.

Lemma first_letter c k ks : ck_kind c = k :: ks → ancillary c = true → (Z.land k 0x20 =? 0) = false.
Proof. unfold ancillary. intros -> H. by guards. Qed.

Lemma moves_step p i f ro c st' at_end :
  wf_chunk c → moves p i f ro c st' →
  chunk_step (mkPng true p i f ro) c at_end = Ok (inl st').
Proof.
  intros Hwf Hm. unfold chunk_step. destruct Hm as [Ha Hr|r -> Hr Hb| -> -> Hp| -> Hk].
  - destruct (ancillary_kind c Ha) as (K1 & K2 & K3 & K4). rewrite note_other by done. simpl.
    rewrite capture_plain by auto. simpl. unfold take_chunk, same.
    rewrite !bool_decide_eq_false_2 by done. rewrite andb_false_r. unfold header_byte.
    destruct (ck_kind c) as [|k ks] eqn:E; [pose proof (wf_kind _ Hwf) as Hl; by rewrite E in Hl|].
    simpl.
    by rewrite (first_letter c k ks E Ha), bool_decide_eq_false_2.
  - destruct (ancillary_kind c (recipe_ancillary c Hr)) as (K1 & K2 & K3 & K4).
    rewrite note_other by done. simpl. rewrite (capture_recipe c r) by done. simpl. unfold take_chunk.
    rewrite (proj2 (same_false (ck_kind c) IHDR) K1).
    unfold is_recipe in Hr. apply andb_true_iff in Hr as [-> _]. simpl.
    by rewrite (proj2 (parse_itxt_iff c r) Hb).
  - destruct Hp as (E & Hl & Hmod). rewrite capture_plain by (unfold is_recipe, palette; rewrite ?E; by auto).
    rewrite E. simpl. unfold take_chunk. rewrite Hmod.
    replace (len (ck_payload c) =? 0) with false by lia.
    by replace (len (ck_payload c) >? 768) with false by lia.
  - rewrite capture_plain by (unfold is_recipe, palette; rewrite ?Hk; by auto). by rewrite Hk.
Qed.

Lemma step_moves p i f ro c st' at_end :
  wf_chunk c → chunk_step (mkPng true p i f ro) c at_end = Ok (inl st') → moves p i f ro c st'.
Proof.
  intros Hwf H. unfold chunk_step in H. inv_ok.
  destruct (capture_ancillary _ _ H1) as (Hanc & Hsome & Hnone).
  unfold take_chunk in H. destruct (same (ck_kind c) IHDR) eqn:K1.
  { guards. by rewrite K1 in H0. }
  guards. unfold note_chunk in H0. cbn [negb andb raise_if] in H0.
  rewrite (proj2 (same_false (ck_kind c) IHDR) K1) in H0. inv_ok.
  destruct (same (ck_kind c) PLTE) eqn:K2; inv_ok; guards.
  { rewrite K2 in H. simpl in H. inv_ok. apply moves_plte; [done|done|].
    pose proof (len_nonneg (ck_payload c)). split_and!; [done|lia|lia|done]. }
  destruct (same (ck_kind c) IDAT) eqn:K3; inv_ok; guards.
  { rewrite K3 in H. simpl in H. inv_ok. by apply moves_idat. }
  destruct (is_recipe c) eqn:Hr.
  - rewrite (Hsome eq_refl) in H. pose proof Hr as Hr'. unfold is_recipe in Hr'.
    apply andb_true_iff in Hr' as [Hk _]. rewrite Hk in H. simpl in H. inv_ok.
    apply moves_recipe; [by destruct ro|done|by apply parse_itxt_iff].
  - rewrite (Hnone eq_refl K1), andb_false_r in H. destruct (same (ck_kind c) IEND).
    { inv_ok. by destruct (recipe _). }
    inv_ok. apply moves_ancillary; [|done]. unfold ancillary. rewrite Hanc.
    destruct (ck_kind c) as [|k ks] eqn:E; [done|].
    unfold header_byte in H0. simpl in H0. inv_ok. rewrite andb_true_r.
    destruct (Z.land x 32 =? 0); [|done]. simpl in H2. guards. set_solver.
Qed.

Lemma return_iff p i f ro c r :
  chunk_step (mkPng true p i f ro) c true = Ok (inr r) ↔ c = iend ∧ i = true ∧ ro = Some r.
Proof.
  split.
  - intros H. unfold chunk_step in H. inv_ok. unfold take_chunk in H.
    repeat case_test; inv_ok; try done. guards. destruct c as [kind payload]. simpl in *. subst kind.
    unfold note_chunk in H0. simpl in H0. inv_ok. simpl in *.
    destruct payload; [|rewrite len_cons in *; pose proof (len_nonneg payload); lia].
    by destruct ro; simplify_eq.
  - intros (-> & -> & ->). by destruct f.
Qed.

(** The recipe a suffix of the chunks must still bring. *)
Definition recipe_from (ro : option Recipe) cs r : Prop :=
  match ro with
  | None => one_recipe cs r
  | Some r' => List.filter is_recipe cs = [] ∧ r' = r
  end.
Lemma recipe_from_plain ro c cs r :
  is_recipe c = false → recipe_from ro (c :: cs) r ↔ recipe_from ro cs r.
Proof. intros Hc. destruct ro; simpl; unfold one_recipe; simpl; by rewrite Hc. Qed.
Lemma recipe_from_recipe ro c cs r :
  is_recipe c = true →
  recipe_from ro (c :: cs) r ↔ ro = None ∧ ∃ r', recipe_bytes c r' ∧ recipe_from (Some r') cs r.
Proof.
  intros Hc. destruct ro; simpl; unfold one_recipe; simpl; rewrite Hc; split.
  - by intros [? _].
  - by intros [? _].
  - intros (c' & [= -> Hf] & Hb). eauto.
  - intros (_ & r' & Hb & Hf & ->). exists c. by rewrite Hf.
Qed.

Lemma recipe_from_other ro c cs r :
  ck_kind c ≠ iTXt → recipe_from ro (c :: cs) r ↔ recipe_from ro cs r.
Proof.
  intros Hk. apply recipe_from_plain. unfold is_recipe.
  by rewrite (proj2 (same_false (ck_kind c) iTXt) Hk).
Qed.

(** The chunks after IHDR that the parser accepts in a given state. *)
Definition after_header (p i f : bool) (ro : option Recipe) cs r : Prop :=
  recipe_from ro cs r ∧
  ∃ pre idats post,
    cs = pre ++ idats ++ post ++ [iend] ∧
    (i = true → pre = []) ∧ (i = false → idats ≠ []) ∧ (f = true → idats = []) ∧
    Forall (λ c, ancillary c = true ∨ palette c) pre ∧
    (length (filter (λ c, ck_kind c = PLTE) pre) ≤ if p then 0 else 1)%nat ∧
    Forall (λ c, ck_kind c = IDAT) idats ∧
    Forall (λ c, ancillary c = true) post.

Lemma after_header_last p i f ro r :
  i = true → ro = Some r → after_header p i f ro [iend] r.
Proof. intros -> ->. split; [done|]. exists [], [], []. split_and!; try done; simpl; lia. Qed.

(** An ancillary chunk before the image data, or after it. *)
Lemma after_header_ancillary p i f ro ro' c cs r :
  ancillary c = true → recipe_from ro (c :: cs) r →
  after_header p i (f || i) ro' cs r → after_header p i f ro (c :: cs) r.
Proof.
  intros Ha Hr (_ & pre & idats & post & -> & Hi1 & Hi2 & Hf & Hpre & Hpl & Hid & Hpost).
  split; [done|]. destruct (ancillary_kind c Ha) as (_ & K2 & _ & _). destruct i.
  - rewrite orb_true_r in Hf. rewrite Hi1, Hf by done. exists [], [], (c :: post).
    split_and!; try done; [simpl; lia|by constructor].
  - rewrite orb_false_r in Hf. exists (c :: pre), idats, post.
    split_and!; try done; [constructor; auto|]. by rewrite filter_cons_False.
Qed.

Lemma accepts_after_header p i f ro cs r :
  accepts (mkPng true p i f ro) cs r → Forall wf_chunk cs → after_header p i f ro cs r.
Proof.
  remember (mkPng true p i f ro) as st eqn:Est. intros Hacc. revert p i f ro Est.
  induction Hacc as [st c r Hc|st c st' cs r Hc Hacc IH]; intros p i f ro -> Hwf.
  { apply return_iff in Hc as (-> & Hi & Hro). by apply after_header_last. }
  apply Forall_cons in Hwf as [Hwc Hwf]. apply step_moves in Hc; [|done].
  destruct Hc as [Ha Hr|r' -> Hr Hb| -> -> Hp| -> Hk].
  - pose proof (IH _ _ _ _ eq_refl Hwf) as Hrest. eapply after_header_ancillary; [done| |done].
    apply recipe_from_plain; [done|]. apply Hrest.
  - pose proof (IH _ _ _ _ eq_refl Hwf) as Hrest. eapply after_header_ancillary; [|  |done].
    + by apply recipe_ancillary.
    + apply recipe_from_recipe; [done|]. split; [done|]. exists r'. split; [done|]. apply Hrest.
  - destruct (IH _ _ _ _ eq_refl Hwf)
      as (Hr & pre & idats & post & -> & Hi1 & Hi2 & Hf & Hpre & Hpl & Hid & Hpost).
    split; [apply recipe_from_other; [by rewrite (proj1 Hp)|done]|].
    exists (c :: pre), idats, post. split_and!; try done; [constructor; auto|].
    rewrite filter_cons_True by apply Hp. simpl. lia.
  - destruct (IH _ _ _ _ eq_refl Hwf)
      as (Hr & pre & idats & post & -> & Hi1 & Hi2 & Hf & Hpre & Hpl & Hid & Hpost).
    split; [apply recipe_from_other; [by rewrite Hk|done]|]. rewrite Hi1 by done.
    exists [], (c :: idats), post. split_and!; try done; [simpl; lia|by constructor].
Qed.

Lemma ancillary_moves p i f ro c cs r :
  ancillary c = true → recipe_from ro (c :: cs) r →
  ∃ ro', moves p i f ro c (mkPng true p i (f || i) ro') ∧ recipe_from ro' cs r.
Proof.
  intros Ha Hr. destruct (is_recipe c) eqn:Hc.
  - apply recipe_from_recipe in Hr as (-> & r' & Hb & Hr); [|done].
    exists (Some r'). split; [by apply moves_recipe|done].
  - exists ro. split; [by apply moves_ancillary|]. by apply recipe_from_plain in Hr.
Qed.

Lemma after_header_accepts p i f ro cs r :
  after_header p i f ro cs r → Forall wf_chunk cs → accepts (mkPng true p i f ro) cs r.
Proof.
  revert p i f ro. induction cs as [|c cs IH]; intros p i f ro Hcs Hwf.
  all: destruct Hcs as (Hr & pre & idats & post & Ecs & Hi1 & Hi2 & Hf & Hpre & Hpl & Hid & Hpost).
  { by destruct pre, idats, post. }
  apply Forall_cons in Hwf as [Hwc Hwf].
  destruct pre as [|c' pre]; [destruct idats as [|c' idats]; [destruct post as [|c' post]|]|].
  all: simpl in Ecs; injection Ecs as Ec ->; subst c.
  - destruct i; [|by destruct Hi2]. apply accepts_last, return_iff. split_and!; [done|done|].
    apply recipe_from_other in Hr; [|done]. destruct ro as [r'|]; [by destruct Hr as [_ ->]|].
    by destruct Hr as (? & ? & _).
  - destruct i; [|by destruct Hi2]. apply Forall_cons in Hpost as [Ha Hpost].
    destruct (ancillary_moves p true f ro c' _ r Ha Hr) as (ro' & Hm & Hr').
    eapply accepts_more; [by apply moves_step|]. apply IH; [|done].
    split; [done|]. exists [], [], post. by split_and!.
  - destruct f; [by discriminate Hf|]. apply Forall_cons in Hid as [Hk Hid].
    eapply accepts_more; [by apply moves_step, moves_idat|]. apply IH; [|done].
    split; [by apply recipe_from_other in Hr; [|rewrite Hk]|]. exists [], idats, post.
    by split_and!.
  - destruct i; [by discriminate Hi1|]. apply Forall_cons in Hpre as [Hc Hpre].
    destruct Hc as [Ha|Hp].
    + destruct (ancillary_moves p false f ro c' _ r Ha Hr) as (ro' & Hm & Hr').
      eapply accepts_more; [by apply moves_step|]. apply IH; [|done]. rewrite orb_false_r.
      split; [done|]. exists pre, idats, post. split_and!; try done.
      rewrite filter_cons_False in Hpl; [done|]. by apply ancillary_kind in Ha as (_ & ? & _).
    + rewrite filter_cons_True in Hpl by apply Hp. destruct p; simpl in Hpl; [lia|].
      eapply accepts_more; [by apply moves_step, moves_plte|]. apply IH; [|done].
      split; [apply recipe_from_other in Hr; [done|by rewrite (proj1 Hp)]|].
      exists pre, idats, post. split_and!; try done. lia.
Qed.

(** ** The header chunk *)

Lemma check_header_iff payload :
  Forall is_byte payload → length payload = 13%nat →
  check_header payload = Ok tt ↔
  ∃ width height depth colour interlace,
    payload = pack_u32 width ++ pack_u32 height ++ [depth; colour; 0; 0; interlace] ∧
    0 < width < 2 ^ 32 ∧ 0 < height < 2 ^ 32 ∧
    depth ∈ allowed_depths colour ∧ interlace ∈ [0; 1].
Proof.
  intros Hb Hlen. split.
  - do 13 (destruct payload as [|? payload]; [done|]). destruct payload; [|done].
    intros H. unfold check_header, header_u32, header_byte in H. simpl in H. inv_ok. simpl in *. inv_ok.
    rewrite !Forall_cons in Hb. destruct_and! Hb.
    match goal with Hg : raise_if ?g InvalidPng = Ok _ |- _ => destruct g eqn:Hg'; [done|clear Hg] end.
    guards.
    destruct (pack_unpack [z; z0; z1; z2] _ ltac:(by repeat apply Forall_cons_2) eq_refl) as [E1 B1].
    destruct (pack_unpack [z3; z4; z5; z6] _ ltac:(by repeat apply Forall_cons_2) eq_refl) as [E2 B2].
    do 2 eexists. exists z7, z8, z11. rewrite <- E1, <- E2. split_and!; simpl; try lia; try done. congruence.
  - intros (w & h & d & co & il & -> & Hw & Hh & Hd & Hi).
    unfold check_header, header_u32, header_byte.
    rewrite take_pack, drop_pack, take_pack, !unpack_pack by lia.
    do 5 (rewrite lookup_pack; simpl).
    replace (w =? 0) with false by lia. replace (h =? 0) with false by lia.
    by rewrite (proj2 (is_in_true d _) Hd), (proj2 (is_in_true il _) Hi).
Qed.

Lemma header_step c st' at_end :
  wf_chunk c →
  chunk_step png_start c at_end = Ok (inl st') ↔ header c ∧ st' = mkPng true false false false None.
Proof.
  intros Hwf. unfold chunk_step, header. split.
  - intros H. inv_ok. unfold note_chunk in H0. simpl in H0. inv_ok. guards.
    match goal with Hk : ck_kind c = IHDR |- _ => rename Hk into K end.
    rewrite K in H0. simpl in H0. inv_ok. guards. unfold take_chunk in H. rewrite K in H. simpl in H. inv_ok.
    destruct c as [kind payload]. simpl in *. subst kind. unfold capture in H1. inv_ok. simpl in *. inv_ok.
    assert (length payload = 13%nat) by (unfold len in *; lia).
    rewrite take_ge in * by (unfold TEXT_PREFIX; lia). units.
    split; [|done]. split; [done|]. apply check_header_iff; [apply Hwf|done|done].
  - intros [(K & w & h & d & co & il & E & Hv) ->].
    assert (Hl : len (ck_payload c) = 13).
    { rewrite E, !len_app, !len_pack. done. }
    destruct c as [kind payload]. simpl in *. subst kind. unfold capture. rewrite Hl. simpl.
    rewrite take_ge by (unfold TEXT_PREFIX, len in *; lia). rewrite andb_false_r. simpl.
    unfold take_chunk. rewrite same_refl. unfold mbind, result_bind.
    rewrite (proj2 (check_header_iff payload (wf_bytes _ Hwf) ltac:(unfold len in *; lia))); [done|].
    exists w, h, d, co, il. tauto.
Qed.

Lemma header_return c r : chunk_step png_start c true ≠ Ok (inr r).
Proof.
  unfold chunk_step. intros H. inv_ok. unfold note_chunk in H0. simpl in H0. inv_ok. guards.
  match goal with Hk : ck_kind c = IHDR |- _ => rename Hk into K end.
  unfold take_chunk in H. rewrite K, same_refl in H. by inv_ok.
Qed.

Lemma accepts_valid cs r :
  Forall wf_chunk cs → len cs ≤ MAX_CHUNKS → accepts png_start cs r ↔ valid_png cs r.
Proof.
  intros Hwf Hn. split.
  - intros Hacc. inversion Hacc as [? c ? Hc|? c st' cs' ? Hc Hrest]; subst.
    { by apply header_return in Hc. }
    apply Forall_cons in Hwf as [Hwc Hwf]. apply header_step in Hc as [Hh ->]; [|done].
    apply accepts_after_header in Hrest
      as (Hr & pre & idats & post & -> & _ & Hi & _ & Hpre & Hpl & Hid & Hpost); [|done].
    split; [by constructor|done| |].
    + apply (recipe_from_other None c _ r); [by rewrite (proj1 Hh)|done].
    + exists c, pre, idats, post. split_and!; try done. by apply Hi.
  - intros [_ _ Hr (c & pre & idats & post & -> & Hh & Hpre & Hpl & Hne & Hid & Hpost)].
    apply Forall_cons in Hwf as [Hwc Hwf].
    eapply accepts_more; [by apply header_step|]. apply after_header_accepts; [|done]. split.
    + apply (recipe_from_other None c _ r); [by rewrite (proj1 Hh)|done].
    + exists pre, idats, post. by split_and!.
Qed.

Lemma chunk_fuel_enough n : n ≤ MAX_CHUNKS → n < Z.of_nat chunk_fuel.
Proof. unfold chunk_fuel, MAX_CHUNKS. lia. Qed.
#[local] Opaque chunk_fuel.

(** A file of [size] bytes gives a recipe exactly if its bytes encode valid chunks. *)
Lemma parse_stream_exact size data r :
  Forall is_byte data →
  (parse_stream validate size (mkSource data 0)).1 = Ok r ↔
  ∃ cs rest, data = encode_png cs ++ rest ∧ len (encode_png cs) = size ∧ valid_png cs r.
Proof.
  intros Hb. unfold parse_stream. split.
  - intros H. match type of H with (?x).1 = _ => destruct x as [out s'] eqn:Hrun end. cbn [fst] in H. subst out.
    rename Hrun into H. inv_run. guards. subst.
    apply read_exact_Ok in H0 as (E & _ & T); [|done]. cbn [src_rest src_tell] in E, T. rewrite E in Hb.
    apply Forall_app in Hb as [_ Hb].
    apply parse_chunks_sound in H as (cs & Hacc & Hwf & E' & Hsize & Hn); [|done].
    exists cs, (src_rest s'). rewrite E, E'. unfold encode_png. rewrite <- app_assoc. split; [done|].
    rewrite len_app, T in *. split; [unfold body in *; lia|]. by apply accepts_valid.
  - intros (cs & rest & -> & Hsize & Hv). pose proof (valid_chunks _ _ Hv) as Hwf.
    pose proof (valid_count _ _ Hv) as Hn. apply accepts_valid in Hv; [|done|done].
    unfold encode_png in *. rewrite len_app in Hsize. rewrite <- app_assoc.
    unfold mbind, M_bind. rewrite read_exact_app, same_refl. simpl.
    rewrite (parse_chunks_complete _ _ _ _ cs r);
      [done|done|done|unfold body; lia|lia|by apply chunk_fuel_enough].
Qed.

(** C10. A file gives a recipe if and only if it is a regular file of 1 byte to 64 MiB,
    of the expected size and digest where those are given, and its bytes are the
    encoding (lengths, kinds, payloads and CRCs) of chunks in the order of [valid_png]:
    one valid header first, at most one palette before the image data, the image data
    in one run, only ancillary chunks around it, exactly one recipe chunk, whose
    document is the recipe, and the end chunk last, where the file ends. *)
Theorem recipe_png_exact sha256 f expected_size expected_sha256 r :
  Forall is_byte (op_bytes f) →
  parse_recipe_png validate sha256 (Some f) expected_size expected_sha256 = Ok r ↔
  op_regular f = true ∧ 0 < op_size f ≤ RECIPE_INPUT_MAX_BYTES ∧
  (∀ n, expected_size = Some n → n = op_size f) ∧
  (∀ d, expected_sha256 = Some d → d = sha256 (op_bytes f)) ∧
  ∃ cs rest, op_bytes f = encode_png cs ++ rest ∧ len (encode_png cs) = op_size f ∧ valid_png cs r.
Proof.
  intros Hb. unfold parse_recipe_png. split.
  - intros H. inv_ok.
    match goal with Hp : (parse_stream _ _ _).1 = _ |- _ => apply parse_stream_exact in Hp; [|done] end.
    guards.
    split_and!; [done|lia|lia| | |done].
    + intros n ->. guards. lia.
    + intros d ->. by guards.
  - intros (-> & Hsize & Hn & Hd & Hex). simpl.
    replace (0 <? op_size f) with true by lia. replace (op_size f <=? _) with true by lia. simpl.
    rewrite raise_if_false by (destruct expected_size as [n|]; [rewrite (Hn n eq_refl); lia|done]).
    apply parse_stream_exact in Hex; [|done]. rewrite Hex. simpl. rewrite raise_if_false; [done|].
    destruct expected_sha256 as [d|]; [|done]. by rewrite (Hd d eq_refl), same_refl.
Qed.
End grammar.

(** ** Failures *)

(** The codes of [ImageRecipeParseError]. *)
Definition documented (e : PngError) : bool :=
  negb (is_in e [StructError; IndexError; OutOfFuel]).

(** [returns Q m]: a value of [Q], or a documented failure. *)
Definition returns {A} (Q : A → Prop) (m : M Source PngError A) : Prop :=
  ∀ s, match (m s).1 with Ok a => Q a | Err e => documented e = true end.
Definition yields {A} (Q : A → Prop) (m : result PngError A) : Prop :=
  match m with Ok a => Q a | Err e => documented e = true end.

Lemma returns_ret {A} (Q : A → Prop) a : Q a → returns Q (mret a).
Proof. by intros H s. Qed.
Lemma returns_bind {A B} (Q : A → Prop) (R : B → Prop) (m : M Source PngError A) (f : A → M Source PngError B) :
  returns Q m → (∀ a, Q a → returns R (f a)) → returns R (m ≫= f).
Proof.
  intros Hm Hf s. unfold mbind, M_bind. specialize (Hm s).
  destruct (m s) as [[a|e] s1]; simpl in *; [by apply Hf|done].
Qed.
Lemma returns_throw_if {Q : unit → Prop} c e : Q tt → documented e = true → returns Q (throw_if c e).
Proof. by destruct c; intros ?? s. Qed.
Lemma returns_lift {A} (Q : A → Prop) (m : result PngError A) : yields Q m → returns Q (lift m).
Proof. by intros H s. Qed.
Lemma returns_tell : returns (λ _, True) tell.
Proof. by intros s. Qed.
Lemma returns_weaken {A} (Q R : A → Prop) m : returns Q m → (∀ a, Q a → R a) → returns R m.
Proof. intros Hm HQ s. specialize (Hm s). destruct (m s).1; auto. Qed.
Lemma yields_bind {A B} (Q : A → Prop) (R : B → Prop) m (f : A → result PngError B) :
  yields Q m → (∀ a, Q a → yields R (f a)) → yields R (m ≫= f).
Proof. destruct m; simpl; auto. Qed.
Lemma yields_raise_if {Q : unit → Prop} c e : Q tt → documented e = true → yields Q (raise_if c e).
Proof. by destruct c. Qed.

Lemma returns_read_exact n : returns (λ d, len d = n) (read_exact n).
Proof.
  intros s. unfold read_exact, read, mbind, M_bind, throw_if. simpl.
  by destruct (Z.eqb_spec (len (take (Z.to_nat n) (src_rest s))) n).
Qed.

Lemma unpack_total d : len d = 4 → ∃ n, unpack_u32 d = Some n.
Proof.
  intros Hd. unfold len in Hd. do 4 (destruct d as [|? d]; [done|]). destruct d; [by eexists|simpl in Hd; lia].
Qed.
Lemma returns_read_u32 : returns (λ _, True) read_u32.
Proof.
  eapply returns_bind; [apply returns_read_exact|]. intros d Hd.
  destruct (unpack_total d Hd) as [n ->]. by apply returns_ret.
Qed.


Lemma returns_stream_crc fuel n crc :
  n ≤ Z.of_nat fuel * STREAM_BLOCK → 0 ≤ n ∨ (0 < fuel)%nat →
  returns (λ _, True) (stream_crc fuel n crc).
Proof.
  revert n crc. induction fuel as [|fuel IH]; intros n crc Hn Hpos; unfold stream_crc; fold stream_crc.
  all: destruct (Z.eqb_spec n 0); [by apply returns_ret|].
  { lia. }
  eapply returns_bind; [apply returns_read_exact|]. intros d Hd.
  pose proof (len_nonneg d). apply IH; unfold STREAM_BLOCK in *; lia.
Qed.

(** The header's payload is captured whole. *)
Definition header_captured (kind : list Z) (n : Z) (p : option (list Z)) : Prop :=
  kind = IHDR → n = 13 → ∃ h, p = Some h ∧ len h = 13.

Lemma returns_read_payload kind n :
  returns (λ out, header_captured kind n out.1) (read_payload kind n).
Proof.
  unfold read_payload.
  apply (returns_bind (λ d, n - len d ≤ Z.of_nat (stream_fuel (n - len d)) * STREAM_BLOCK ∧
                            (kind = IHDR → n = 13 → len d = 13))).
  { assert (∀ m, m ≤ Z.of_nat (stream_fuel m) * STREAM_BLOCK) as Hfuel.
    { intros m. unfold stream_fuel, STREAM_BLOCK. Z.to_euclidean_division_equations. lia. }
    destruct (is_in kind [IHDR; iTXt; tEXt; zTXt]) eqn:Hin.
    - eapply returns_weaken; [apply returns_read_exact|]. intros d Hd. split; [apply Hfuel|].
      intros _ ->. done.
    - apply returns_ret. split; [apply Hfuel|]. intros ->. discriminate Hin. }
  intros d [Hfuel Hd]. apply (returns_bind (λ _, True)); [by apply returns_throw_if|]. intros _ _.
  destruct (starts_with RECIPE_KEY d && same kind iTXt) eqn:Hi.
  { apply (returns_bind (λ _, True)); [by apply returns_throw_if|]. intros _ _.
    eapply returns_bind; [apply returns_read_exact|]. intros rest _. apply returns_ret.
    intros ->. guards. done. }
  destruct (same kind IHDR) eqn:Hk; guards.
  - apply returns_ret. intros _ Hn. exists d. auto.
  - apply (returns_bind (λ _, True)).
    + apply returns_stream_crc; [done|right; unfold stream_fuel; lia].
    + intros crc _. apply returns_ret. by intros ->.
Qed.

Lemma yields_header_byte l i : (i < length l)%nat → yields (λ _, True) (header_byte l i).
Proof. intros [b Hb]%lookup_lt_is_Some. unfold header_byte. by rewrite Hb. Qed.
Lemma yields_header_u32 d : len d = 4 → yields (λ _, True) (header_u32 d).
Proof. intros Hd. destruct (unpack_total d Hd) as [n Hn]. unfold header_u32. by rewrite Hn. Qed.

Lemma yields_check_header h : len h = 13 → yields (λ _, True) (check_header h).
Proof.
  intros Hl. unfold len in Hl. unfold check_header.
  do 2 (eapply yields_bind;
    [apply yields_header_u32; unfold len; rewrite ?length_take, ?length_drop; lia|intros ? _]).
  do 5 (eapply yields_bind; [apply yields_header_byte; lia|intros ? _]).
  by apply yields_raise_if.
Qed.

Section failures.
Context {Recipe : Type} (validate : list Z → option Recipe).
Implicit Types (st : @PngState Recipe).

Lemma yields_parse_itxt p : yields (λ _, True) (parse_itxt validate p).
Proof.
  unfold parse_itxt. do 2 (eapply yields_bind; [by apply (yields_raise_if (Q := λ _, True))|intros _ _]).
  by destruct (validate _).
Qed.

Lemma yields_note_chunk st kind n : yields (λ _, kind = IHDR → n = 13) (note_chunk st kind n).
Proof.
  destruct (note_chunk st kind n) as [st'|e] eqn:H; simpl; [by eapply note_chunk_ihdr|].
  destruct st as [a b c d f]. unfold note_chunk in H. revert H.
  repeat (case_match || unfold raise_if, mbind, result_bind); naive_solver.
Qed.

Lemma yields_take_chunk st kind n p at_end :
  len kind = 4 → (kind = IHDR → n = 13) → header_captured kind n p →
  yields (λ _, True) (take_chunk validate st kind n p at_end).
Proof.
  intros Hk Hn Hp. unfold take_chunk. destruct (same kind IHDR) eqn:K1; guards.
  { destruct (Hp K1 (Hn K1)) as (h & -> & Hh). simpl.
    eapply yields_bind; [by apply yields_check_header|done]. }
  destruct (same kind iTXt && present p).
  { eapply yields_bind; [by apply (yields_raise_if (Q := λ _, True))|intros _ _].
    eapply yields_bind; [apply yields_parse_itxt|done]. }
  destruct (same kind IEND).
  { eapply yields_bind; [by apply (yields_raise_if (Q := λ _, True))|intros _ _]. by destruct (recipe st). }
  eapply yields_bind; [apply yields_header_byte; unfold len in Hk; lia|intros ? _].
  by eapply yields_bind; [apply (yields_raise_if (Q := λ _, True))|].
Qed.

Lemma returns_parse_chunk size st : returns (λ _, True) (parse_chunk validate size st).
Proof.
  unfold parse_chunk.
  eapply returns_bind; [apply returns_tell|intros at0 _].
  eapply returns_bind; [by apply (returns_throw_if (Q := λ _, True))|intros _ _].
  eapply returns_bind; [apply returns_read_u32|intros n _].
  eapply returns_bind; [apply returns_read_exact|intros kind Hk].
  eapply returns_bind; [apply returns_tell|intros at1 _].
  eapply returns_bind; [by apply (returns_throw_if (Q := λ _, True))|intros _ _].
  eapply returns_bind; [apply returns_lift, yields_note_chunk|intros st' Hn].
  eapply returns_bind; [apply returns_read_payload|intros [p crc] Hp]. simpl in Hp.
  eapply returns_bind; [apply returns_read_u32|intros crc' _].
  eapply returns_bind; [by apply (returns_throw_if (Q := λ _, True))|intros _ _].
  eapply returns_bind; [apply returns_tell|intros at2 _].
  by apply returns_lift, yields_take_chunk.
Qed.

Lemma returns_parse_chunks fuel size count st :
  count ≤ MAX_CHUNKS < count + Z.of_nat fuel →
  returns (λ _, True) (parse_chunks validate fuel size count st).
Proof.
  revert count st. induction fuel as [|fuel IH]; intros count st Hf; [lia|]. cbn [parse_chunks].
  eapply returns_bind; [apply returns_tell|intros at0 _].
  destruct (negb (at0 <? size)); [by intros s|].
  destruct (Z.gtb_spec (count + 1) MAX_CHUNKS); [by intros s|].
  eapply returns_bind; [by apply (returns_throw_if (Q := λ _, True))|intros _ _].
  eapply returns_bind; [apply returns_parse_chunk|intros [st'|r] _]; [|by apply returns_ret].
  apply IH. lia.
Qed.

(** C32. Whatever the bytes, the parser ends within the fuel the model gives it and
    either returns a recipe or raises one of the documented codes: it never unpacks a
    short integer and never indexes past the header. *)
Theorem png_failures_documented sha256 file expected_size expected_sha256 e :
  parse_recipe_png validate sha256 file expected_size expected_sha256 = Err e →
  documented e = true.
Proof.
  assert (yields (λ _, True) (parse_recipe_png validate sha256 file expected_size expected_sha256)) as H.
  { destruct file as [f|]; [|done]. unfold parse_recipe_png.
    do 3 (eapply yields_bind; [by apply (yields_raise_if (Q := λ _, True))|intros _ _]).
    apply (yields_bind (λ _, True)).
    - generalize (mkSource (op_bytes f) 0). change (returns (λ _, True) (parse_stream validate (op_size f))).
      eapply returns_bind; [apply returns_read_exact|intros sig _].
      eapply returns_bind; [by apply (returns_throw_if (Q := λ _, True))|intros _ _].
      apply returns_parse_chunks. split; [done|]. by apply chunk_fuel_enough.
    - intros r _. by eapply yields_bind; [apply (yields_raise_if (Q := λ _, True))|]. }
  intros He. by rewrite He in H.
Qed.
End failures.

(** The payload of a chunk read in blocks of 64 KiB, or in a prefix and the rest,
    is captured as if it had been read whole, with the CRC of its kind and payload, and
    exactly its bytes are consumed; where the whole chunk is refused, so is the stream. *)
Theorem streamed_payload_whole c rest t :
  (ck_kind c = IHDR → len (ck_payload c) ≤ TEXT_PREFIX) →
  let out := read_payload (ck_kind c) (len (ck_payload c)) (mkSource (ck_payload c ++ rest) t) in
  match capture c with
  | Ok p => out = (Ok (p, chunk_crc c), mkSource rest (t + len (ck_payload c)))
  | Err e => out.1 = Err e
  end.
Proof. apply read_payload_app. Qed.

(** ** A small PNG *)

Section example.
(** A validator that takes the document's bytes as the recipe. *)
Definition any_document (doc : list Z) : option (list Z) := Some doc.

Definition small_header : Chunk := mkChunk IHDR (pack_u32 2 ++ pack_u32 1 ++ [8; 2; 0; 0; 0]).
Definition small_recipe : Chunk := mkChunk iTXt (RECIPE_KEY ++ [0; 0; 0; 0] ++ [123; 125]).
Definition small_png : list Chunk := [small_header; small_recipe; mkChunk IDAT [1; 2; 3]; iend].
Definition small_file (cs : list Chunk) : Opened :=
  mkOpened true (len (encode_png cs)) (encode_png cs).
Definition parse_small (cs : list Chunk) : result PngError (list Z) :=
  parse_recipe_png any_document (λ _, "") (Some (small_file cs)) None None.

Example small_png_parsed : parse_small small_png = Ok [123; 125].
Proof. vm_compute. reflexivity. Qed.

(** Without a recipe, with two, and with image data in two runs. *)
Example small_png_refused :
  parse_small [small_header; mkChunk IDAT [1; 2; 3]; iend] = Err MissingRecipe ∧
  parse_small [small_header; small_recipe; small_recipe; mkChunk IDAT [1; 2; 3]; iend]
    = Err DuplicateRecipe ∧
  parse_small [small_header; mkChunk IDAT [1]; small_recipe; mkChunk IDAT [1]; iend] = Err InvalidPng ∧
  parse_small [small_header; mkChunk tEXt (RECIPE_KEY ++ [123; 125]); mkChunk IDAT [1]; iend]
    = Err UnsupportedRecipeEncoding.
Proof. vm_compute. auto. Qed.
End example.

Lemma recipe_png_exact_witness :
  ∃ cs rest, op_bytes (small_file small_png) = encode_png cs ++ rest ∧
             len (encode_png cs) = op_size (small_file small_png) ∧
             valid_png any_document cs [123; 125].
Proof.
  assert (Forall is_byte (op_bytes (small_file small_png))) as Hb.
  { apply (bool_decide_unpack _). vm_compute. exact I. }
  destruct (proj1 (recipe_png_exact any_document (λ _, "") (small_file small_png) None None
                     [123; 125] Hb)) as (_ & _ & _ & _ & Hex); [vm_compute; reflexivity|exact Hex].
Defined.

Lemma png_failures_documented_witness : documented MissingRecipe = true.
Proof.
  apply (png_failures_documented any_document (λ _, "")
           (Some (small_file [small_header; mkChunk IDAT [1; 2; 3]; iend])) None None).
  vm_compute. reflexivity.
Defined.

Lemma streamed_payload_whole_witness :
  read_payload IHDR 13 (mkSource (ck_payload small_header ++ [7]) 16) =
  (Ok (Some (ck_payload small_header), chunk_crc small_header), mkSource [7] (16 + 13)).
Proof.
  apply (streamed_payload_whole small_header [7] 16). intros _. vm_compute. discriminate.
Defined.
