(* ===== verification/ImageModels.v ===== *)
(** * Image contracts

    models/images.py and models/image_worker.py: what an image job is asked to do, the
    commands of its fenced attempts and the records of its outputs.  A model is a
    record and its validators a test; numeric field bounds are part of the test.
    Decimals are canonical rationals, identifiers and digests are strings. *)
From Stdlib Require Import Qcanon.
From S2P Require Import Prelude RecipePng.
Open Scope Z_scope.

Definition UINT32_MAX : Z := 2 ^ 32 - 1.
Definition GENERATION_INPUT_MAX_BYTES : Z := 10 * 1024 * 1024.

Definition within (lo x hi : Z) : bool := (lo <=? x) && (x <=? hi).
Definition distinct {A} `{EqDecision A} (l : list A) : bool := bool_decide (NoDup l).
(** [x <= y] on decimals. *)
Definition dec_le (x y : Qc) : bool := bool_decide (x <= y)%Qc.
Definition dec_of (n : Z) : Qc := Qc_of_Z n.
(** Python's [set(xs) == set(ys)] *)
Definition same_set {A} `{EqDecision A} (xs ys : list A) : bool :=
  forallb (λ x, is_in x ys) xs && forallb (λ y, is_in y xs) ys.

(** ** What is asked for *)

Inductive ImageMode := TXT2IMG | IMG2IMG | FILL | CONTROL.
#[global] Instance ImageMode_eq_dec : EqDecision ImageMode.
Proof. solve_decision. Defined.

Record ImageLora := mkLora { lo_model_id : string; lo_variant_id : option string; lo_scale : Qc }.
#[global] Instance ImageLora_eq_dec : EqDecision ImageLora.
Proof. solve_decision. Defined.

Record ImageControl := mkControl {
  ct_image_id : string;
  ct_model_id : string;
  ct_variant_id : option string;
  ct_strength : Qc;
  ct_low_threshold : Z;
  ct_high_threshold : Z;
}.
#[global] Instance ImageControl_eq_dec : EqDecision ImageControl.
Proof. solve_decision. Defined.

Record ImageUpscale := mkUpscale { up_model_id : string; up_variant_id : option string; up_factor : Z }.
#[global] Instance ImageUpscale_eq_dec : EqDecision ImageUpscale.
Proof. solve_decision. Defined.

Record ImageSpec := mkSpec {
  sp_model_id : string;
  sp_variant_id : option string;
  sp_mode : ImageMode;
  sp_prompt : string;
  sp_negative_prompt : option string;
  sp_width : Z;
  sp_height : Z;
  sp_steps : Z;
  sp_guidance : Qc;
  sp_seed : option Z;
  sp_n : Z;
  sp_loras : list ImageLora;
  sp_init_image_id : option string;
  sp_strength : option Qc;
  sp_mask_id : option string;
  sp_control : option ImageControl;
  sp_upscale : option ImageUpscale;
  sp_explicit : bool;
}.
#[global] Instance ImageSpec_eq_dec : EqDecision ImageSpec.
Proof. solve_decision. Defined.

Definition lora_fields (l : ImageLora) : bool :=
  dec_le (dec_of (-2)) (lo_scale l) && dec_le (lo_scale l) (dec_of 2).
Definition control_fields (c : ImageControl) : bool :=
  negb (dec_le (ct_strength c) (dec_of 0)) && dec_le (ct_strength c) (dec_of 1)
  && within 0 (ct_low_threshold c) 255 && within 0 (ct_high_threshold c) 255
  (* thresholds_ordered *)
  && (ct_low_threshold c <? ct_high_threshold c).
Definition upscale_fields (u : ImageUpscale) : bool := is_in (up_factor u) [2; 4].

Definition spec_fields (s : ImageSpec) : bool :=
  within 1 (Z.of_nat (String.length (sp_prompt s))) 4000
  && match sp_negative_prompt s with
     | Some p => Z.of_nat (String.length p) <=? 4000
     | None => true
     end
  && within 64 (sp_width s) 4096 && (sp_width s mod 8 =? 0)
  && within 64 (sp_height s) 4096 && (sp_height s mod 8 =? 0)
  && within 1 (sp_steps s) 150
  && dec_le (dec_of 0) (sp_guidance s) && dec_le (sp_guidance s) (dec_of 30)
  && match sp_seed s with Some x => within 0 x UINT32_MAX | None => true end
  && within 1 (sp_n s) 4
  && (len (sp_loras s) <=? 4) && forallb lora_fields (sp_loras s)
  && match sp_strength s with
     | Some x => negb (dec_le x (dec_of 0)) && dec_le x (dec_of 1)
     | None => true
     end
  && match sp_control s with Some c => control_fields c | None => true end
  && match sp_upscale s with Some u => upscale_fields u | None => true end.

(** [ImageSpec.fixed_pipeline] *)
Definition fixed_pipeline (s : ImageSpec) : bool :=
  (sp_width s * sp_height s <=? 16_000_000)
  && match sp_upscale s with
     | Some u => (sp_width s * up_factor u <=? 4096) && (sp_height s * up_factor u <=? 4096)
                 && (sp_width s * sp_height s * up_factor u ^ 2 <=? 16_000_000)
     | None => true
     end
  && distinct (lo_model_id <$> sp_loras s)
  && match sp_mode s with
     | TXT2IMG => absent (sp_init_image_id s) && absent (sp_mask_id s) && absent (sp_control s)
                  && absent (sp_strength s)
     | IMG2IMG => present (sp_init_image_id s) && present (sp_strength s)
                  && absent (sp_mask_id s) && absent (sp_control s)
     | FILL => present (sp_init_image_id s) && present (sp_mask_id s) && absent (sp_control s)
     | CONTROL => present (sp_control s) && absent (sp_init_image_id s) && absent (sp_mask_id s)
                  && absent (sp_strength s)
     end.
Definition valid_spec (s : ImageSpec) : bool := spec_fields s && fixed_pipeline s.

(** [image_input_bindings], before its sort: every input once, with its purpose. *)
Inductive Purpose := Init | Mask | Control.
#[global] Instance Purpose_eq_dec : EqDecision Purpose.
Proof. solve_decision. Defined.
Definition opt_list {A} (o : option A) : list A := match o with Some a => [a] | None => [] end.
Definition input_bindings (s : ImageSpec) : list (string * Purpose) :=
  ((λ i, (i, Init)) <$> opt_list (sp_init_image_id s))
  ++ ((λ i, (i, Mask)) <$> opt_list (sp_mask_id s))
  ++ ((λ c, (ct_image_id c, Control)) <$> opt_list (sp_control s)).

(** ** Capabilities of a base model *)

Record ImageCapabilityProfile := mkProfile {
  cp_modes : list ImageMode;
  cp_min_width : Z;
  cp_max_width : Z;
  cp_min_height : Z;
  cp_max_height : Z;
  cp_max_pixels : Z;
  cp_min_steps : Z;
  cp_max_steps : Z;
  cp_min_guidance : Qc;
  cp_max_guidance : Qc;
  cp_max_outputs : Z;
  cp_default_width : option Z;
  cp_default_height : option Z;
  cp_default_steps : option Z;
  cp_default_guidance : option Qc;
  cp_supports_negative_prompt : bool;
  cp_max_loras : Z;
  cp_required_dependency_ids : list string;
}.

(** [ordered_bounds] *)
Definition ordered_bounds (p : ImageCapabilityProfile) : bool :=
  (cp_min_width p <=? cp_max_width p) && (cp_min_height p <=? cp_max_height p)
  && (cp_min_steps p <=? cp_max_steps p) && dec_le (cp_min_guidance p) (cp_max_guidance p)
  && distinct (cp_modes p) && distinct (cp_required_dependency_ids p)
  && match cp_default_width p, cp_default_height p, cp_default_steps p, cp_default_guidance p with
     | None, None, None, None => true
     | Some w, Some h, Some st, Some g =>
         within (cp_min_width p) w (cp_max_width p) && within (cp_min_height p) h (cp_max_height p)
         && (w * h <=? cp_max_pixels p) && within (cp_min_steps p) st (cp_max_steps p)
         && dec_le (cp_min_guidance p) g && dec_le g (cp_max_guidance p)
     | _, _, _, _ => false
     end.

Inductive LimitViolation :=
| ModeUnsupported | WidthExceeds | HeightExceeds | PixelsExceed | StepsExceed | GuidanceExceeds
| OutputsExceed | LorasExceed | NegativePromptUnsupported.

(** [validate_spec]: the first violated limit. *)
Definition validate_spec (p : ImageCapabilityProfile) (s : ImageSpec) : result LimitViolation unit :=
  raise_if (negb (is_in (sp_mode s) (cp_modes p))) ModeUnsupported;;
  raise_if (negb (within (cp_min_width p) (sp_width s) (cp_max_width p))) WidthExceeds;;
  raise_if (negb (within (cp_min_height p) (sp_height s) (cp_max_height p))) HeightExceeds;;
  raise_if (sp_width s * sp_height s >? cp_max_pixels p) PixelsExceed;;
  raise_if (negb (within (cp_min_steps p) (sp_steps s) (cp_max_steps p))) StepsExceed;;
  raise_if (negb (dec_le (cp_min_guidance p) (sp_guidance s)
                  && dec_le (sp_guidance s) (cp_max_guidance p))) GuidanceExceeds;;
  raise_if (sp_n s >? cp_max_outputs p) OutputsExceed;;
  raise_if (len (sp_loras s) >? cp_max_loras p) LorasExceed;;
  raise_if (present (sp_negative_prompt s) && negb (cp_supports_negative_prompt p))
    NegativePromptUnsupported.

(** ** Resolved specifications and recipes *)

(** [expand_image_seeds]: the batch of one seed, wrapping at 32 bits. *)
Definition expand_image_seeds (seed count : Z) : option (list Z) :=
  if within 0 seed UINT32_MAX && within 1 count 4
  then Some ((λ i, (seed + i) mod (UINT32_MAX + 1)) <$> seqZ 0 count)
  else None.

Record ImageManifestDigest := mkManifest {
  md_model_id : string;
  md_variant_id : option string;
  md_slug : option string;
  md_revision : string;
  md_sha256 : string;
}.
#[global] Instance ImageManifestDigest_eq_dec : EqDecision ImageManifestDigest.
Proof. solve_decision. Defined.
Record ImageInputDigest := mkInputDigest {
  id_input_id : string; id_sha256 : string; id_width : Z; id_height : Z }.
#[global] Instance ImageInputDigest_eq_dec : EqDecision ImageInputDigest.
Proof. solve_decision. Defined.

Record ResolvedImageSpec := mkResolved {
  rs_spec : ImageSpec;
  rs_seeds : list Z;
  rs_pipeline_version : string;
  rs_environment_fingerprint : string;
  rs_model_sha256 : string;
  rs_dependencies : list ImageManifestDigest;
  rs_inputs : list ImageInputDigest;
  rs_preset_id : option string;
  rs_preset_revision : option Z;
  rs_spec_hash : string;
}.
#[global] Instance ResolvedImageSpec_eq_dec : EqDecision ResolvedImageSpec.
Proof. solve_decision. Defined.

Record ImageRecipe := mkRecipe {
  rc_resolved : ResolvedImageSpec;
  rc_output_index : Z;
  rc_seed : Z;
  rc_pixel_sha256 : string;
  rc_width : Z;
  rc_height : Z;
}.
#[global] Instance ImageRecipe_eq_dec : EqDecision ImageRecipe.
Proof. solve_decision. Defined.

Section resolved.
(** [canonical_spec_hash]: SHA-256 of the canonical JSON. *)
Context (canonical_spec_hash : ImageSpec → string).

(** [ResolvedImageSpec.seeds_match] *)
Definition seeds_match (r : ResolvedImageSpec) : bool :=
  match sp_seed (rs_spec r) with
  | None => false
  | Some seed =>
      (len (rs_seeds r) =? sp_n (rs_spec r)) && forallb (λ s, within 0 s UINT32_MAX) (rs_seeds r)
      && same (Some (rs_seeds r)) (expand_image_seeds seed (sp_n (rs_spec r)))
      && negb (present (rs_preset_revision r) && absent (rs_preset_id r))
      && distinct (md_model_id <$> rs_dependencies r)
      && distinct (id_input_id <$> rs_inputs r)
      && same (rs_spec_hash r) (canonical_spec_hash (rs_spec r))
  end.
Definition valid_resolved (r : ResolvedImageSpec) : bool :=
  valid_spec (rs_spec r) && (len (rs_dependencies r) <=? 16) && (len (rs_inputs r) <=? 3)
  && match rs_preset_revision r with Some n => 1 <=? n | None => true end
  && seeds_match r.

(** [ImageRecipe.matches_resolved] *)
Definition matches_resolved (r : ImageRecipe) : bool :=
  let spec := rs_spec (rc_resolved r) in
  let factor := match sp_upscale spec with Some u => up_factor u | None => 1 end in
  (rc_output_index r <? len (rs_seeds (rc_resolved r)))
  && same (Some (rc_seed r)) (rs_seeds (rc_resolved r) !! Z.to_nat (rc_output_index r))
  && (rc_width r =? sp_width spec * factor) && (rc_height r =? sp_height spec * factor).
Definition valid_image_recipe (r : ImageRecipe) : bool :=
  valid_resolved (rc_resolved r) && within 0 (rc_output_index r) 3
  && within 0 (rc_seed r) UINT32_MAX && within 1 (rc_width r) 4096 && within 1 (rc_height r) 4096
  && matches_resolved r.
End resolved.

(** [ImageJobSettingsSnapshot] and its one-time [bind]. *)
Record ImageJobSettingsSnapshot := mkSnapshot {
  ss_effective_spec : ImageSpec;
  ss_resolved : option ResolvedImageSpec;
}.
Inductive BindError := RuntimeAlreadyBound | SpecDiffers.
Definition matching_spec (s : ImageJobSettingsSnapshot) : bool :=
  match ss_resolved s with
  | Some r => same (rs_spec r) (ss_effective_spec s)
  | None => true
  end.
Definition bind_resolved (s : ImageJobSettingsSnapshot) (r : ResolvedImageSpec) :
    result BindError ImageJobSettingsSnapshot :=
  match ss_resolved s with
  | Some r' => if same r' r then Ok s else Err RuntimeAlreadyBound
  | None =>
      raise_if (negb (same (rs_spec r) (ss_effective_spec s))) SpecDiffers;;
      Ok (mkSnapshot (ss_effective_spec s) (Some r))
  end.

(** ** Attempts *)

(** [re.fullmatch(ULID_PATTERN, value)]: 26 characters of 0-9A-HJKMNP-TV-Z. *)
Definition ulid_char (c : Ascii.ascii) : bool :=
  let n := Z.of_N (Ascii.N_of_ascii c) in
  within 48 n 57 || within 65 n 72 || is_in n [74; 75; 77; 78] || within 80 n 84 || within 86 n 90.
Definition is_ulid (s : string) : bool :=
  (String.length s =? 26)%nat && forallb ulid_char (String.list_ascii_of_string s).

(** Every mutable command identifies one execution attempt of a job. *)
Record ImageJobBinding := mkBinding { jb_job_id : string; jb_attempt : Z; jb_fence : Z }.
#[global] Instance ImageJobBinding_eq_dec : EqDecision ImageJobBinding.
Proof. solve_decision. Defined.
Definition binding_fields (b : ImageJobBinding) : bool :=
  is_ulid (jb_job_id b) && (1 <=? jb_attempt b) && (1 <=? jb_fence b).

Inductive ContentTag := Normal | Explicit | Unknown.
#[global] Instance ContentTag_eq_dec : EqDecision ContentTag.
Proof. solve_decision. Defined.
Record ImageClassificationResult := mkClassification {
  cl_tag : ContentTag;
  cl_score : option Qc;
  cl_threshold : Qc;
  cl_classifier_revision : string;
  cl_processor_sha256 : option string;
  cl_safe_error : option string;
  cl_tagged_at : Z;
}.
#[global] Instance ImageClassificationResult_eq_dec : EqDecision ImageClassificationResult.
Proof. solve_decision. Defined.
Definition consistent_result (c : ImageClassificationResult) : bool :=
  same (cl_threshold c + cl_threshold c)%Qc (dec_of 1)
  && match cl_tag c with
     | Unknown => absent (cl_score c) && present (cl_safe_error c)
     | Normal => present (cl_score c)
     | Explicit => present (cl_score c) || present (cl_safe_error c)
     end
  && negb (present (cl_score c) && (absent (cl_processor_sha256 c) || present (cl_safe_error c))).

Record NodeImageInputManifest := mkInput {
  in_input_id : string;
  in_purpose : Purpose;
  in_sha256 : string;
  in_byte_count : Z;
  in_width : Z;
  in_height : Z;
}.
#[global] Instance NodeImageInputManifest_eq_dec : EqDecision NodeImageInputManifest.
Proof. solve_decision. Defined.

Record NodeImageStartRequest := mkStart {
  st_binding : ImageJobBinding;
  st_node : string;
  st_model_id : string;
  st_instance_id : string;
  st_resolved : ResolvedImageSpec;
  st_inputs : list NodeImageInputManifest;
  st_deadline_at : Z;
  st_reservation_bytes : Z;
}.
#[global] Instance NodeImageStartRequest_eq_dec : EqDecision NodeImageStartRequest.
Proof. solve_decision. Defined.

Definition start_n (r : NodeImageStartRequest) : Z := sp_n (rs_spec (st_resolved r)).
Definition start_steps (r : NodeImageStartRequest) : Z := sp_steps (rs_spec (st_resolved r)).

(** [_check_inputs]; [purposes] is a dictionary, so a reused id keeps its last purpose. *)
Definition check_inputs (manifests : list NodeImageInputManifest) (resolved : ResolvedImageSpec) : bool :=
  let spec := rs_spec resolved in
  let digest m := mkInputDigest (in_input_id m) (in_sha256 m) (in_width m) (in_height m) in
  let bindings := input_bindings spec in
  let purposes : gmap string Purpose := foldl (λ d '(i, p), <[i := p]> d) ∅ bindings in
  distinct (in_input_id <$> manifests)
  && same_set (digest <$> manifests) (rs_inputs resolved)
  && (size purposes =? length bindings)%nat
  && same_set (bindings.*1) (in_input_id <$> manifests)
  && forallb (λ m, same (purposes !! in_input_id m) (Some (in_purpose m))
                   && (in_width m =? sp_width spec) && (in_height m =? sp_height spec)) manifests.
(** [model_and_inputs_match] *)
Definition model_and_inputs_match (r : NodeImageStartRequest) : bool :=
  same (st_model_id r) (sp_model_id (rs_spec (st_resolved r)))
  && check_inputs (st_inputs r) (st_resolved r).

Record NodeImageInputRequest := mkInputRequest {
  ir_binding : ImageJobBinding;
  ir_node : string;
  ir_input_id : string;
  ir_purpose : Purpose;
  ir_sha256 : string;
  ir_byte_count : Z;
}.

(** ** Outputs, grants and receipts *)

Record ImageWorkerOutputManifest := mkOutput {
  om_index : Z;
  om_byte_count : Z;
  om_sha256 : string;
  om_recipe_sha256 : string;
  om_classification : option ImageClassificationResult;
}.
#[global] Instance ImageWorkerOutputManifest_eq_dec : EqDecision ImageWorkerOutputManifest.
Proof. solve_decision. Defined.

Record ImageTransferGrant := mkGrant {
  tg_binding : ImageJobBinding;
  tg_node : string;
  tg_index : Z;
  tg_expected_bytes : Z;
  tg_expected_sha256 : string;
  tg_token : string;
  tg_issued_at : Z;
  tg_expires_at : Z;
}.
(** [short_lived]: within five minutes, in microseconds *)
Definition short_lived (g : ImageTransferGrant) : bool :=
  (tg_issued_at g <? tg_expires_at g) && (tg_expires_at g <=? tg_issued_at g + 300_000_000).

Record NodeImageTransferRequest := mkTransfer {
  tr_binding : ImageJobBinding;
  tr_node : string;
  tr_grants : list ImageTransferGrant;
}.
Definition grants_match (r : NodeImageTransferRequest) : bool :=
  within 1 (len (tr_grants r)) 4
  && forallb (λ g, same (tg_binding g) (tr_binding r) && same (tg_node g) (tr_node r)) (tr_grants r)
  && distinct (tg_index <$> tr_grants r).

Record ImageTransferReceipt := mkReceipt {
  rp_binding : ImageJobBinding;
  rp_node : string;
  rp_index : Z;
  rp_output_id : string;
  rp_byte_count : Z;
  rp_sha256 : string;
  rp_recipe_sha256 : string;
  rp_classification : option ImageClassificationResult;
  rp_verified_at : Z;
}.
#[global] Instance ImageTransferReceipt_eq_dec : EqDecision ImageTransferReceipt.
Proof. solve_decision. Defined.

Record NodeImageCleanupRequest := mkCleanup {
  cr_binding : ImageJobBinding;
  cr_node : string;
  cr_receipts : list ImageTransferReceipt;
}.
Definition cleanup_receipts_match (r : NodeImageCleanupRequest) : bool :=
  within 1 (len (cr_receipts r)) 4
  && forallb (λ p, same (rp_binding p) (cr_binding r) && same (rp_node p) (cr_node r)) (cr_receipts r)
  && distinct (rp_index <$> cr_receipts r)
  && distinct (rp_output_id <$> cr_receipts r).

(** ** Status of a job on its node, and of its attempt in the worker *)

Inductive JobState :=
| Queued | Reserving | Running | Transferring | Cancelling | Cancelled | Failed | Succeeded.
#[global] Instance JobState_eq_dec : EqDecision JobState.
Proof. solve_decision. Defined.

Record NodeImageJob := mkJob {
  nj_binding : ImageJobBinding;
  nj_node : string;
  nj_instance_id : string;
  nj_state : JobState;
  nj_pid : option Z;
  nj_process_create_time : option Z;
  nj_progress_step : option Z;
  nj_progress_total : option Z;
  nj_cache_status : option string;
  nj_outputs : list ImageWorkerOutputManifest;
  nj_receipts : list ImageTransferReceipt;
  nj_scratch_cleaned : bool;
  nj_safe_error : option string;
  nj_updated_at : Z;
}.
#[global] Instance NodeImageJob_eq_dec : EqDecision NodeImageJob.
Proof. solve_decision. Defined.

Definition at_least (lo : Z) (o : option Z) : bool :=
  match o with Some x => lo <=? x | None => true end.
(** The field bounds of [NodeImageJob] and [receipts_match]. *)
Definition job_fields (j : NodeImageJob) : bool :=
  binding_fields (nj_binding j) && at_least 1 (nj_pid j)
  && at_least 1 (nj_process_create_time j) && at_least 0 (nj_progress_step j)
  && at_least 1 (nj_progress_total j) && (len (nj_outputs j) <=? 4) && (len (nj_receipts j) <=? 4).
Definition receipts_match (j : NodeImageJob) : bool :=
  forallb (λ p, same (rp_binding p) (nj_binding j) && same (rp_node p) (nj_node j)) (nj_receipts j)
  && negb (same (nj_state j) Succeeded
           && (negb (nj_scratch_cleaned j) || negb (nonempty (nj_receipts j))))
  && negb (nonempty (nj_outputs j)
           && negb (is_in (nj_state j) [Transferring; Cancelling; Cancelled; Failed; Succeeded]))
  && distinct (om_index <$> nj_outputs j).
Definition valid_job (j : NodeImageJob) : bool := job_fields j && receipts_match j.

Inductive WorkerState := WWaiting | WRunning | WGenerated | WCancelled | WFailed.
#[global] Instance WorkerState_eq_dec : EqDecision WorkerState.
Proof. solve_decision. Defined.

Record ImageWorkerStatus := mkWorkerStatus {
  ws_binding : ImageJobBinding;
  ws_state : WorkerState;
  ws_output_index : option Z;
  ws_step : option Z;
  ws_total_steps : option Z;
  ws_cache_status : option string;
  ws_safe_error : option string;
  ws_outputs : list ImageWorkerOutputManifest;
  ws_updated_at : Z;
}.
(** [outputs_match_state] *)
Definition valid_worker_status (w : ImageWorkerStatus) : bool :=
  binding_fields (ws_binding w)
  && match ws_output_index w with Some i => within 0 i 3 | None => true end
  && at_least 0 (ws_step w) && at_least 1 (ws_total_steps w) && (len (ws_outputs w) <=? 4)
  && (if same (ws_state w) WGenerated then nonempty (ws_outputs w) else negb (nonempty (ws_outputs w)))
  && distinct (om_index <$> ws_outputs w).

Record ImageWorkerLoadRequest := mkLoad {
  ld_slug : string;
  ld_model_id : string;
  ld_variant_id : option string;
  ld_instance_id : string;
  ld_manifest_sha256 : string;
  ld_reservation_bytes : Z;
  ld_runtime_version : string;
}.
Record NodeImageCancelRequest := mkCancel { cn_binding : ImageJobBinding; cn_requested_at : Z }.

(** ** Seeds *)

Lemma expand_seed_lookup seed n seeds i s :
  expand_image_seeds seed n = Some seeds → seeds !! i = Some s →
  s = (seed + Z.of_nat i) mod 2 ^ 32 ∧ Z.of_nat i < n ≤ 4.
Proof.
  unfold expand_image_seeds, within. intros H Hs. case_match eqn:Hb; [|done]. injection H as <-.
  rewrite list_lookup_fmap in Hs. destruct (seqZ 0 n !! i) as [k|] eqn:Hk; [|done].
  apply lookup_seqZ in Hk as [-> Hi]. injection Hs as <-. split; [by rewrite Z.add_0_l|].
  apply andb_true_iff in Hb as [_ Hb]. lia.
Qed.

(** The seeds of a batch are as many as its outputs, fit 32 bits and are pairwise
    distinct although they wrap around, so two valid recipes of one resolved request that
    name the same seed are of the same output. *)
Theorem batch_seeds_distinct hash resolved a b :
  valid_image_recipe hash a = true → valid_image_recipe hash b = true →
  rc_resolved a = resolved → rc_resolved b = resolved →
  len (rs_seeds resolved) = sp_n (rs_spec resolved) ∧ NoDup (rs_seeds resolved) ∧
  (rc_seed a = rc_seed b → rc_output_index a = rc_output_index b) ∧ rc_seed a < 2 ^ 32.
Proof.
  intros Ha Hb Ea Eb. unfold valid_image_recipe, valid_resolved, seeds_match, matches_resolved in *.
  rewrite Ea, Eb in *. destruct (sp_seed (rs_spec resolved)) as [seed|]; [|guards; done]. guards.
  unfold within in *. guards.
  match goal with H : Some (rs_seeds resolved) = expand_image_seeds _ _ |- _ => symmetry in H; rename H into Hex end.
  assert (Hinj : ∀ i j s, rs_seeds resolved !! i = Some s → rs_seeds resolved !! j = Some s → i = j).
  { intros i j s Hi Hj. destruct (expand_seed_lookup _ _ _ _ _ Hex Hi) as [E1 B1].
    destruct (expand_seed_lookup _ _ _ _ _ Hex Hj) as [E2 B2]. rewrite E1 in E2. clear -E2 B1 B2.
    apply Nat2Z.inj. revert E2 B1 B2. generalize (Z.of_nat i) (Z.of_nat j) (Nat2Z.is_nonneg i) (Nat2Z.is_nonneg j).
    intros x y Hx Hy E B1 B2. Z.to_euclidean_division_equations. lia. }
  split_and!; [lia| | |unfold UINT32_MAX in *; lia].
  - apply NoDup_alt. intros i j s. apply Hinj.
  - intros Es. rewrite <- Es in *.
    match goal with H1 : Some (rc_seed a) = _ !! Z.to_nat (rc_output_index a),
                    H2 : Some (rc_seed a) = _ !! Z.to_nat (rc_output_index b) |- _ =>
      pose proof (Hinj _ _ _ (eq_sym H1) (eq_sym H2)) end. lia.
Qed.

Lemma batch_seeds_distinct_witness :
  ∃ resolved, rs_seeds resolved = [UINT32_MAX; 0] ∧ NoDup (rs_seeds resolved).
Proof.
  set (spec := mkSpec "m" None TXT2IMG "p" None 64 64 1 (dec_of 0) (Some UINT32_MAX) 2 [] None None None
                 None None false).
  set (resolved := mkResolved spec [UINT32_MAX; 0] "v" "e" "s" [] [] None None "h").
  exists resolved. split; [reflexivity|].
  apply (batch_seeds_distinct (λ _, "h") resolved (mkRecipe resolved 0 UINT32_MAX "p" 64 64)
           (mkRecipe resolved 1 0 "p" 64 64)); vm_compute; reflexivity.
Defined.
