(* ===== verification/ImageJobs.v ===== *)
(** * The node's journal of image jobs

    coire_node/image_jobs.py: one file per job with its start command and its status,
    replaced atomically.  The node's disk is the journal's directory and the two scratch
    trees; every durable operation may fail before or after it took effect, which is
    also what a crash at that point leaves, and every reading of the clock is taken
    from a list.  A file that is not private, or does not parse, is [Unreadable]. *)
From S2P Require Import Prelude Effects RecipePng ImageModels.
Open Scope Z_scope.

Inductive ImageError :=
| ImageJournalUnavailable
| ImageJournalConflict
| ImageCleanupUnavailable
| ImageTransferUnavailable
| ImageDispatchUnavailable
| ImageDispatchConflict
| ImageProcessUnavailable
| ValueError.
#[global] Instance ImageError_eq_dec : EqDecision ImageError.
Proof. solve_decision. Defined.

(** ** The node's disk *)

Record JobRecord := mkRecord { jr_request : NodeImageStartRequest; jr_status : NodeImageJob }.
#[global] Instance JobRecord_eq_dec : EqDecision JobRecord.
Proof. solve_decision. Defined.
Inductive Entry := Stored (r : JobRecord) | Unreadable.

(** Names in a scratch directory: [<index>.png], an input's id, an upload in progress
    [.<id>.<tmp>.uploading], and anything else. *)
Inductive Name := Png (index : Z) | InputName (id : string) | Uploading (id tmp : string) | Other (s : string).
#[global] Instance Name_eq_dec : EqDecision Name.
Proof. solve_decision. Defined.
#[global] Instance Name_countable : Countable Name.
Proof.
  apply (inj_countable' (λ n, match n with
    | Png i => inl (inl i) | InputName i => inl (inr i)
    | Uploading i t => inr (inl (i, t)) | Other s => inr (inr s) end)
    (λ x, match x with
    | inl (inl i) => Png i | inl (inr i) => InputName i
    | inr (inl (i, t)) => Uploading i t | inr (inr s) => Other s end)).
  by intros [].
Defined.
#[global] Instance ImageJobBinding_countable : Countable ImageJobBinding.
Proof.
  apply (inj_countable' (λ b, (jb_job_id b, jb_attempt b, jb_fence b))
    (λ '(i, a, f), mkBinding i a f)). by intros [].
Defined.

(** The scratch trees have a directory per attempt, [<job>-<attempt>-<fence>].
    [sf_private]: a regular file of this user without other permissions; names with the
    same inode are hard links to one file. *)
Record ScratchFile := mkFile { sf_private : bool; sf_inode : Z; sf_bytes : list Z }.
Record ScratchDir := mkDir { sd_private : bool; sd_files : gmap Name ScratchFile }.
Record ScratchTree := mkTree { st_private : bool; st_dirs : gmap ImageJobBinding ScratchDir }.

Inductive Fault := Fine | FailsBefore | FailsAfter.

Record World := mkWorld {
  w_root_private : bool;
  w_jobs : gmap string Entry;
  (** names in the journal's directory that are not [<name>.json] *)
  w_others : list string;
  w_outputs : option ScratchTree;
  w_inputs : option ScratchTree;
  w_faults : list Fault;
  w_clock : list Z;
}.
Definition with_jobs (v : gmap string Entry) (w : World) : World :=
  mkWorld (w_root_private w) v (w_others w) (w_outputs w) (w_inputs w) (w_faults w) (w_clock w).
Definition with_outputs (v : option ScratchTree) (w : World) : World :=
  mkWorld (w_root_private w) (w_jobs w) (w_others w) v (w_inputs w) (w_faults w) (w_clock w).
Definition with_inputs (v : option ScratchTree) (w : World) : World :=
  mkWorld (w_root_private w) (w_jobs w) (w_others w) (w_outputs w) v (w_faults w) (w_clock w).
Definition with_faults (v : list Fault) (w : World) : World :=
  mkWorld (w_root_private w) (w_jobs w) (w_others w) (w_outputs w) (w_inputs w) v (w_clock w).
Definition with_clock (v : list Z) (w : World) : World :=
  mkWorld (w_root_private w) (w_jobs w) (w_others w) (w_outputs w) (w_inputs w) (w_faults w) v.

Abbreviation IO := (M World ImageError).

(** A durable operation, with the fault that meets it. *)
Definition durable (e : ImageError) (effect : World → World) : IO unit := λ w,
  match w_faults w with
  | [] => (Ok tt, effect w)
  | Fine :: fs => (Ok tt, effect (with_faults fs w))
  | FailsBefore :: fs => (Err e, with_faults fs w)
  | FailsAfter :: fs => (Err e, effect (with_faults fs w))
  end.

(** [datetime.now(UTC)] *)
Definition now : IO Z := λ w,
  match w_clock w with
  | [] => (Ok 0, w)
  | t :: ts => (Ok t, with_clock ts w)
  end.

(** [max(datetime.now(UTC), status.updated_at + timedelta(microseconds=1))] *)
Definition later (status : NodeImageJob) : IO Z :=
  t ← now; mret (Z.max t (nj_updated_at status + 1)).

(** ** State machine *)

Definition terminal (s : JobState) : bool := is_in s [Cancelled; Failed; Succeeded].
(** [_NEXT.get(state, frozenset())] *)
Definition next_states (s : JobState) : list JobState :=
  match s with
  | Queued => [Reserving; Cancelling; Cancelled; Failed]
  | Reserving => [Running; Cancelling; Cancelled; Failed]
  | Running => [Transferring; Cancelling; Cancelled; Failed]
  | Transferring => [Succeeded; Cancelling; Cancelled; Failed]
  | Cancelling => [Cancelled; Failed]
  | _ => []
  end.

Definition nj_job_id (j : NodeImageJob) : string := jb_job_id (nj_binding j).
Definition st_job_id (r : NodeImageStartRequest) : string := jb_job_id (st_binding r).

(** [model_dump(exclude={"scratch_cleaned", "updated_at"})] *)
Definition without_cleanup (j : NodeImageJob) : NodeImageJob :=
  mkJob (nj_binding j) (nj_node j) (nj_instance_id j) (nj_state j) (nj_pid j)
    (nj_process_create_time j) (nj_progress_step j) (nj_progress_total j) (nj_cache_status j)
    (nj_outputs j) (nj_receipts j) false (nj_safe_error j) 0.

(** The guards of [advance] on the recorded and the new status. *)
Definition initial_process_binding (old new : NodeImageJob) : bool :=
  same (nj_state old) Queued && same (nj_state new) Reserving
  && absent (nj_pid old) && absent (nj_process_create_time old)
  && present (nj_pid new) && present (nj_process_create_time new).
Definition same_attempt (old new : NodeImageJob) : bool :=
  same (nj_binding new) (nj_binding old) && same (nj_node new) (nj_node old)
  && same (nj_instance_id new) (nj_instance_id old)
  && (initial_process_binding old new
      || same (nj_pid new) (nj_pid old)
         && same (nj_process_create_time new) (nj_process_create_time old)).
Definition terminal_cleanup_repair (old new : NodeImageJob) : bool :=
  same (nj_state old) (nj_state new) && is_in (nj_state old) [Cancelled; Failed]
  && negb (nj_scratch_cleaned old) && nj_scratch_cleaned new
  && same (without_cleanup new) (without_cleanup old).
Definition transition_allowed (old new : NodeImageJob) : bool :=
  negb ((terminal (nj_state old) && negb (terminal_cleanup_repair old new))
        || (negb (same (nj_state new) (nj_state old))
            && negb (is_in (nj_state new) (next_states (nj_state old))))).
Definition progress_kept (old new : NodeImageJob) : bool :=
  match nj_progress_step old with
  | Some a => match nj_progress_step new with Some b => a <=? b | None => false end
  | None => true
  end
  && match nj_progress_total old with
     | Some a => same (nj_progress_total new) (Some a)
     | None => true
     end.
Definition evidence_kept (old new : NodeImageJob) : bool :=
  same (take (length (nj_receipts old)) (nj_receipts new)) (nj_receipts old)
  && negb (nonempty (nj_outputs old) && negb (same (nj_outputs new) (nj_outputs old)))
  && negb (negb (same (nj_outputs new) (nj_outputs old)) && negb (same (nj_state new) Transferring))
  && negb (negb (same (nj_receipts new) (nj_receipts old)) && negb (same (nj_state old) Transferring))
  && negb (nj_scratch_cleaned old && negb (nj_scratch_cleaned new))
  && (nj_updated_at old <? nj_updated_at new).

(** ** [ImageJobJournal] *)

Section journal.
(** The journal's node, and the length of a record's JSON. *)
Context (node : string) (record_bytes : JobRecord → Z).

Definition MAX_RECORD_BYTES : Z := 128 * 1024.

Definition private_root : IO unit :=
  w ← get; throw_if (negb (w_root_private w)) ImageJournalUnavailable.

(** [_path] *)
Definition job_path (job_id : string) : IO string :=
  throw_if (negb (is_ulid job_id)) ImageJournalConflict;; mret job_id.

(** [_read] and [_record] *)
Definition record_matches (r : JobRecord) : bool :=
  same (st_binding (jr_request r)) (nj_binding (jr_status r))
  && same (st_node (jr_request r)) (nj_node (jr_status r))
  && same (st_instance_id (jr_request r)) (nj_instance_id (jr_status r)).
Definition read_record (job_id : string) : IO (option JobRecord) :=
  path ← job_path job_id;
  w ← get;
  match w_jobs w !! path with
  | None => mret None
  | Some Unreadable => throw ImageJournalUnavailable
  | Some (Stored r) =>
      throw_if (negb (record_matches r)) ImageJournalUnavailable;;
      throw_if (negb (same (st_node (jr_request r)) node)) ImageJournalUnavailable;;
      mret (Some r)
  end.

(** [_write]: replaced atomically, then the directory is synced. *)
Definition write_record (path : string) (r : JobRecord) : IO unit :=
  throw_if (record_bytes r >? MAX_RECORD_BYTES) ImageJournalUnavailable;;
  durable ImageJournalUnavailable (λ w, with_jobs (<[path := Stored r]> (w_jobs w)) w).

Definition initial_status (r : NodeImageStartRequest) (at0 : Z) : NodeImageJob :=
  mkJob (st_binding r) (st_node r) (st_instance_id r) Queued None None None None None [] [] false None at0.

Definition begin (request : NodeImageStartRequest) : IO NodeImageJob :=
  throw_if (negb (same (st_node request) node)) ImageJournalConflict;;
  private_root;;
  path ← job_path (st_job_id request);
  existing ← read_record (st_job_id request);
  match existing with
  | Some r =>
      throw_if (negb (same (jr_request r) request)) ImageJournalConflict;;
      mret (jr_status r)
  | None =>
      t ← now;
      throw_if (st_deadline_at request <=? t) ImageJournalConflict;;
      t' ← now;
      let status := initial_status request t' in
      write_record path (mkRecord request status);;
      mret status
  end.

Definition get_status (job_id : string) : IO (option NodeImageJob) :=
  private_root;;
  r ← read_record job_id;
  mret (jr_status <$> r).
Definition get_request (job_id : string) : IO (option NodeImageStartRequest) :=
  private_root;;
  r ← read_record job_id;
  mret (jr_request <$> r).

Definition advance (status : NodeImageJob) : IO NodeImageJob :=
  throw_if (negb (valid_job status)) ImageJournalConflict;;
  private_root;;
  path ← job_path (nj_job_id status);
  record ← read_record (nj_job_id status);
  r ← some_or ImageJournalConflict record;
  let old := jr_status r in
  throw_if (negb (same_attempt old status)) ImageJournalConflict;;
  if same status old then mret old else
  throw_if (negb (transition_allowed old status)) ImageJournalConflict;;
  throw_if (negb (progress_kept old status)) ImageJournalConflict;;
  throw_if (negb (evidence_kept old status)) ImageJournalConflict;;
  write_record path (mkRecord (jr_request r) status);;
  mret status.

(** ** Inventory and pages *)

Record InventoryEntry := mkInventory {
  ie_work_id : string;
  ie_cleaning : bool;
  ie_process_id : option Z;
  ie_process_created_at : option Z;
}.

(** Sorted insertion: [bisect.insort] on a sorted list, and [sorted]. *)
Fixpoint insort (x : string) (l : list string) : list string :=
  match l with
  | [] => [x]
  | y :: l' => if String.leb y x then y :: insort x l' else x :: l
  end.
Definition sort_ids (l : list string) : list string := foldr insort [] l.

Fixpoint entries_of (ids : list string) : IO (list InventoryEntry) :=
  match ids with
  | [] => mret []
  | id :: ids =>
      throw_if (negb (is_ulid id)) ImageJournalUnavailable;;
      record ← read_record id;
      r ← some_or ImageJournalUnavailable record;
      rest ← entries_of ids;
      let s := jr_status r in
      mret (if negb (terminal (nj_state s)) || negb (nj_scratch_cleaned s)
            then mkInventory (nj_job_id s) (terminal (nj_state s)) (nj_pid s)
                   (nj_process_create_time s) :: rest
            else rest)
  end.
Definition upgrade_entries : IO (list InventoryEntry) :=
  private_root;;
  w ← get;
  throw_if (nonempty (w_others w)) ImageJournalUnavailable;;
  entries_of (sort_ids ((map_to_list (w_jobs w)).*1)).

(** One page: the directory is read in any order, and at most [limit] ids are kept. *)
Definition eligible (after_job : option string) (id : string) : bool :=
  is_ulid id && negb (match after_job with Some a => String.leb id a | None => false end).
Definition page_step (after_job : option string) (limit : Z) (page : list string) (id : string) :
    list string :=
  if negb (eligible after_job id) then page else
  let page := insort id page in
  if len page >? limit then removelast page else page.
Definition scan_page (after_job : option string) (limit : Z) (listing : list string) : list string :=
  foldl (page_step after_job limit) [] listing.

Fixpoint pending_of (ids : list string) : IO (list NodeImageJob) :=
  match ids with
  | [] => mret []
  | id :: ids =>
      record ← read_record id;
      r ← some_or ImageJournalUnavailable record;
      rest ← pending_of ids;
      let s := jr_status r in
      mret (if is_in (nj_state s) [Failed; Cancelled] && negb (nj_scratch_cleaned s)
            then s :: rest else rest)
  end.
Definition pending_terminal_cleanup (listing : list string) (after_job : option string) (limit : Z) :
    IO (list NodeImageJob * option string) :=
  match after_job with Some a => job_path a;; mret tt | None => mret tt end;;
  throw_if (negb (within 1 limit 25)) ImageJournalConflict;;
  private_root;;
  let page := scan_page after_job limit listing in
  pending ← pending_of page;
  mret (pending, last page).
End journal.
