(* ===== verification/ImageDispatch.v ===== *)
(** * Image attempts on a node

    coire_node: the staging and the discarding of inputs (image_jobs.py), the deletion of
    generated outputs (image_cleanup.py), their transfer to the core (image_transfer.py)
    and the dispatcher that serialises them (image_dispatch.py).  What the worker process
    and the core answer to a call is an argument of the call. *)
From S2P Require Import Prelude Effects RecipePng ImageModels ImageJobs.
Open Scope Z_scope.

(** [model_copy(update={...})] *)
Definition set_state (s : JobState) (j : NodeImageJob) : NodeImageJob :=
  mkJob (nj_binding j) (nj_node j) (nj_instance_id j) s (nj_pid j) (nj_process_create_time j)
    (nj_progress_step j) (nj_progress_total j) (nj_cache_status j) (nj_outputs j) (nj_receipts j)
    (nj_scratch_cleaned j) (nj_safe_error j) (nj_updated_at j).
Definition set_process (pid created : option Z) (j : NodeImageJob) : NodeImageJob :=
  mkJob (nj_binding j) (nj_node j) (nj_instance_id j) (nj_state j) pid created
    (nj_progress_step j) (nj_progress_total j) (nj_cache_status j) (nj_outputs j) (nj_receipts j)
    (nj_scratch_cleaned j) (nj_safe_error j) (nj_updated_at j).
Definition set_progress (step total : option Z) (j : NodeImageJob) : NodeImageJob :=
  mkJob (nj_binding j) (nj_node j) (nj_instance_id j) (nj_state j) (nj_pid j)
    (nj_process_create_time j) step total (nj_cache_status j) (nj_outputs j) (nj_receipts j)
    (nj_scratch_cleaned j) (nj_safe_error j) (nj_updated_at j).
Definition set_cache (c : option string) (j : NodeImageJob) : NodeImageJob :=
  mkJob (nj_binding j) (nj_node j) (nj_instance_id j) (nj_state j) (nj_pid j)
    (nj_process_create_time j) (nj_progress_step j) (nj_progress_total j) c (nj_outputs j)
    (nj_receipts j) (nj_scratch_cleaned j) (nj_safe_error j) (nj_updated_at j).
Definition set_outputs (o : list ImageWorkerOutputManifest) (j : NodeImageJob) : NodeImageJob :=
  mkJob (nj_binding j) (nj_node j) (nj_instance_id j) (nj_state j) (nj_pid j)
    (nj_process_create_time j) (nj_progress_step j) (nj_progress_total j) (nj_cache_status j) o
    (nj_receipts j) (nj_scratch_cleaned j) (nj_safe_error j) (nj_updated_at j).
Definition set_receipts (r : list ImageTransferReceipt) (j : NodeImageJob) : NodeImageJob :=
  mkJob (nj_binding j) (nj_node j) (nj_instance_id j) (nj_state j) (nj_pid j)
    (nj_process_create_time j) (nj_progress_step j) (nj_progress_total j) (nj_cache_status j)
    (nj_outputs j) r (nj_scratch_cleaned j) (nj_safe_error j) (nj_updated_at j).
Definition set_cleaned (c : bool) (j : NodeImageJob) : NodeImageJob :=
  mkJob (nj_binding j) (nj_node j) (nj_instance_id j) (nj_state j) (nj_pid j)
    (nj_process_create_time j) (nj_progress_step j) (nj_progress_total j) (nj_cache_status j)
    (nj_outputs j) (nj_receipts j) c (nj_safe_error j) (nj_updated_at j).
Definition set_error (e : option string) (j : NodeImageJob) : NodeImageJob :=
  mkJob (nj_binding j) (nj_node j) (nj_instance_id j) (nj_state j) (nj_pid j)
    (nj_process_create_time j) (nj_progress_step j) (nj_progress_total j) (nj_cache_status j)
    (nj_outputs j) (nj_receipts j) (nj_scratch_cleaned j) e (nj_updated_at j).
Definition set_updated (t : Z) (j : NodeImageJob) : NodeImageJob :=
  mkJob (nj_binding j) (nj_node j) (nj_instance_id j) (nj_state j) (nj_pid j)
    (nj_process_create_time j) (nj_progress_step j) (nj_progress_total j) (nj_cache_status j)
    (nj_outputs j) (nj_receipts j) (nj_scratch_cleaned j) (nj_safe_error j) t.

(** [(a.attempt, a.fence) == (b.attempt, b.fence)] *)
Definition same_fence (a b : ImageJobBinding) : bool :=
  (jb_attempt a =? jb_attempt b) && (jb_fence a =? jb_fence b).

(** ** The scratch trees *)

Definition alter_dir (key : ImageJobBinding) (f : ScratchDir → ScratchDir) (t : option ScratchTree) :
    option ScratchTree :=
  (λ t, mkTree (st_private t) (alter f key (st_dirs t))) <$> t.
Definition unlink_file (key : ImageJobBinding) (name : Name) (t : option ScratchTree) :
    option ScratchTree :=
  alter_dir key (λ d, mkDir (sd_private d) (delete name (sd_files d))) t.
Definition put_file (key : ImageJobBinding) (name : Name) (f : ScratchFile) (t : option ScratchTree) :
    option ScratchTree :=
  alter_dir key (λ d, mkDir (sd_private d) (<[name := f]> (sd_files d))) t.
Definition remove_dir (key : ImageJobBinding) (t : option ScratchTree) : option ScratchTree :=
  (λ t, mkTree (st_private t) (delete key (st_dirs t))) <$> t.
Definition find_dir (key : ImageJobBinding) (t : option ScratchTree) : option ScratchDir :=
  t ≫= λ t, st_dirs t !! key.
Definition find_file (key : ImageJobBinding) (name : Name) (t : option ScratchTree) : option ScratchFile :=
  find_dir key t ≫= λ d, sd_files d !! name.

(** [st_nlink]: the names of the directory that are links to the file. *)
Definition links (d : ScratchDir) (f : ScratchFile) : nat :=
  length (filter (λ x, sf_inode x.2 = sf_inode f) (map_to_list (sd_files d))).
(** regular, of this user, without other permissions, and [st_nlink == 1] *)
Definition exclusive (d : ScratchDir) (f : ScratchFile) : bool :=
  sf_private f && (links d f =? 1)%nat.
Definition fresh_inode (d : option ScratchDir) : Z :=
  match d with
  | Some d => 1 + foldr Z.max 0 ((λ x, sf_inode x.2) <$> map_to_list (sd_files d))
  | None => 1
  end.

Definition on_outputs (f : option ScratchTree → option ScratchTree) (w : World) : World :=
  with_outputs (f (w_outputs w)) w.
Definition on_inputs (f : option ScratchTree → option ScratchTree) (w : World) : World :=
  with_inputs (f (w_inputs w)) w.

(** [os.fsync] of a directory *)
Definition sync_dir (e : ImageError) : IO unit := durable e id.
(** [os.rmdir] refuses a directory that is not empty. *)
Definition empty_dir (key : ImageJobBinding) (t : option ScratchTree) : bool :=
  match find_dir key t with Some d => bool_decide (sd_files d = ∅) | None => false end.

Section dispatch.
Context (node : string) (record_bytes : JobRecord → Z).
(** The JSON validation of a recipe, SHA-256, and [canonical_recipe_bytes] hashed:
    [None] where the encoding exceeds its bound. *)
Context (validate : list Z → option ImageRecipe) (sha256 : list Z → string)
  (recipe_sha256 : ImageRecipe → option string).
(** [_check_staged_png]: Pillow's format, size, mode and integrity. *)
Context (staged_png_ok : list Z → Z → Z → Purpose → bool).

Abbreviation get_status := (get_status node).
Abbreviation get_request := (get_request node).
Abbreviation advance := (advance node record_bytes).
Abbreviation begin := (begin node record_bytes).

(** ** image_cleanup.py *)

(** The shared end of both discards: every file unlinked, then the directory. *)
Definition discard_dir (e : ImageError) (on : (option ScratchTree → option ScratchTree) → World → World)
    (key : ImageJobBinding) (names : list Name) : IO unit :=
  for_each (λ name, durable e (on (unlink_file key name))) names;;
  sync_dir e;;
  durable e (on (remove_dir key));;
  sync_dir e.

(** The shared checks: [None] if there is nothing to discard. *)
Definition open_attempt (e : ImageError) (tree : option ScratchTree) (key : ImageJobBinding) :
    IO (option ScratchDir) :=
  match tree with
  | None => mret None
  | Some t =>
      throw_if (negb (st_private t)) e;;
      match st_dirs t !! key with
      | None => mret None
      | Some d => throw_if (negb (sd_private d)) e;; mret (Some d)
      end
  end.

Definition png_names (n : Z) : list Name := Png <$> seqZ 0 n.

Definition discard_cancelled_image_scratch (status : NodeImageJob) : IO unit :=
  original ← get_request (nj_job_id status);
  match original with
  | None => throw ImageJournalConflict
  | Some original =>
      throw_if (negb (same_fence (st_binding original) (nj_binding status)
                      && same (st_node original) (nj_node status)
                      && same (st_instance_id original) (nj_instance_id status)))
        ImageJournalConflict;;
      w ← get;
      dir ← open_attempt ImageCleanupUnavailable (w_outputs w) (nj_binding status);
      match dir with
      | None => mret tt
      | Some d =>
          let names := (map_to_list (sd_files d)).*1 in
          throw_if (negb (forallb (λ name, is_in name (png_names (start_n original))) names))
            ImageCleanupUnavailable;;
          throw_if (negb (forallb (λ x, exclusive d x.2) (map_to_list (sd_files d))))
            ImageCleanupUnavailable;;
          discard_dir ImageCleanupUnavailable on_outputs (nj_binding status) names
      end
  end.

(** [_verify_output]: the file is exactly what the receipt names. *)
Definition verify_output (key : ImageJobBinding) (receipt : ImageTransferReceipt)
    (status : NodeImageJob) : IO unit :=
  w ← get;
  d ← some_or ImageCleanupUnavailable (find_dir key (w_outputs w));
  f ← some_or ImageCleanupUnavailable (sd_files d !! Png (rp_index receipt));
  throw_if (negb (exclusive d f)) ImageCleanupUnavailable;;
  match parse_recipe_png validate sha256 (Some (mkOpened true (len (sf_bytes f)) (sf_bytes f)))
          (Some (rp_byte_count receipt)) (Some (rp_sha256 receipt)) with
  | Err _ => throw ImageCleanupUnavailable
  | Ok recipe =>
      original ← get_request (nj_job_id status);
      original ← some_or ImageCleanupUnavailable original;
      throw_if (negb (same (rc_resolved recipe) (st_resolved original))) ImageCleanupUnavailable;;
      throw_if (negb (rc_output_index recipe =? rp_index receipt)) ImageCleanupUnavailable;;
      digest ← some_or ValueError (recipe_sha256 recipe);
      throw_if (negb (same digest (rp_recipe_sha256 receipt))) ImageCleanupUnavailable
  end.

(** The deletion of one output, if it is still there. *)
Definition delete_output (key : ImageJobBinding) (status : NodeImageJob)
    (receipt : ImageTransferReceipt) : IO unit :=
  w ← get;
  if present (find_file key (Png (rp_index receipt)) (w_outputs w)) then
    verify_output key receipt status;;
    durable ImageCleanupUnavailable (on_outputs (unlink_file key (Png (rp_index receipt))))
  else mret tt.

(** The receipts are on record before any byte is deleted. *)
Definition record_receipts (key : ImageJobBinding) (receipts : list ImageTransferReceipt)
    (current : NodeImageJob) : IO NodeImageJob :=
  if nonempty (nj_receipts current) then mret current else
  for_each (λ r, verify_output key r current) receipts;;
  t ← later current;
  advance (set_updated t (set_receipts receipts current)).

(** [attempt_dir.rmdir()]: refused while a file is left. *)
Definition remove_empty (key : ImageJobBinding) : IO unit :=
  w ← get;
  throw_if (negb (empty_dir key (w_outputs w))) ImageCleanupUnavailable;;
  durable ImageCleanupUnavailable (on_outputs (remove_dir key)).
Definition delete_outputs (key : ImageJobBinding) (receipts : list ImageTransferReceipt)
    (current : NodeImageJob) : IO unit :=
  w ← get;
  (if present (find_dir key (w_outputs w)) then
     for_each (delete_output key current) receipts;; remove_empty key
   else mret tt);;
  sync_dir ImageCleanupUnavailable.

Record CleanupReceipt := mkCleaned { ck_binding : ImageJobBinding; ck_cleaned_at : Z }.

(** Record, delete, and only then succeed. *)
Definition finish_cleanup (key : ImageJobBinding) (receipts : list ImageTransferReceipt)
    (current : NodeImageJob) : IO CleanupReceipt :=
  current ← record_receipts key receipts current;
  delete_outputs key receipts current;;
  t ← later current;
  succeeded ← advance (set_updated t (set_cleaned true (set_state Succeeded current)));
  mret (mkCleaned key (nj_updated_at succeeded)).

Definition cleanup_image_outputs (request : NodeImageCleanupRequest) : IO CleanupReceipt :=
  let key := cr_binding request in
  current ← get_status (jb_job_id key);
  original ← get_request (jb_job_id key);
  current ← some_or ImageJournalConflict current;
  original ← some_or ImageJournalConflict original;
  throw_if (negb (same (nj_node current) (cr_node request)
                  && same_fence (nj_binding current) key
                  && same (cr_node request) node)) ImageJournalConflict;;
  let receipts := sorted_on rp_index (cr_receipts request) in
  throw_if (negb (same (rp_index <$> receipts) (seqZ 0 (start_n original)))) ImageJournalConflict;;
  if same (nj_state current) Succeeded then
    throw_if (negb (same (nj_receipts current) receipts) || negb (nj_scratch_cleaned current))
      ImageJournalConflict;;
    mret (mkCleaned key (nj_updated_at current))
  else
  throw_if (negb (same (nj_state current) Transferring)) ImageJournalConflict;;
  throw_if (nonempty (nj_receipts current) && negb (same (nj_receipts current) receipts))
    ImageJournalConflict;;
  w ← get;
  tree ← some_or ImageCleanupUnavailable (w_outputs w);
  throw_if (negb (st_private tree)) ImageCleanupUnavailable;;
  match st_dirs tree !! key with
  | Some d => throw_if (negb (sd_private d)) ImageCleanupUnavailable
  | None => throw_if (negb (nonempty (nj_receipts current))) ImageCleanupUnavailable
  end;;
  finish_cleanup key receipts current.

(** ** Inputs (image_jobs.py) *)

(** [_private_root] of the tree and of the attempt's directory: created if missing. *)
Definition make_input_tree : IO unit :=
  w ← get;
  match w_inputs w with
  | None => durable ImageJournalUnavailable (on_inputs (λ _, Some (mkTree true ∅)))
  | Some t => throw_if (negb (st_private t)) ImageJournalUnavailable
  end.
Definition make_input_dir (key : ImageJobBinding) : IO unit :=
  w ← get;
  match find_dir key (w_inputs w) with
  | None => durable ImageJournalUnavailable
              (on_inputs (λ t, (λ t, mkTree (st_private t) (<[key := mkDir true ∅]> (st_dirs t))) <$> t))
  | Some d => throw_if (negb (sd_private d)) ImageJournalUnavailable
  end.

(** [async for block in chunks]: the upload grows the temporary file. *)
Fixpoint receive (key : ImageJobBinding) (temporary : Name) (inode deadline byte_count : Z)
    (got : list Z) (chunks : list (list Z)) : IO (list Z) :=
  match chunks with
  | [] => mret got
  | block :: chunks =>
      t ← now;
      throw_if (deadline <=? t) ImageJournalConflict;;
      throw_if (len (got ++ block) >? byte_count) ImageJournalConflict;;
      durable ImageJournalUnavailable
        (on_inputs (put_file key temporary (mkFile true inode (got ++ block))));;
      receive key temporary inode deadline byte_count (got ++ block) chunks
  end.

(** [_same_staged_file] *)
Definition same_staged_file (d : ScratchDir) (target : ScratchFile) (staged : list Z) (size : Z) (digest : string) : bool :=
  exclusive d target && (len (sf_bytes target) =? size) && same (sha256 (sf_bytes target)) digest
  && same (sf_bytes target) staged.

Definition stage_node_image_input (command : NodeImageInputRequest) (tmp : string)
    (chunks : list (list Z)) : IO Z :=
  let key := ir_binding command in
  let job_id := jb_job_id key in
  throw_if (negb (same (ir_node command) node)) ImageJournalConflict;;
  original ← get_request job_id;
  current ← get_status job_id;
  original ← some_or ImageJournalConflict original;
  current ← some_or ImageJournalConflict current;
  t ← now;
  throw_if (negb (same (nj_state current) Queued) || (st_deadline_at original <=? t)
            || negb (same_fence (st_binding original) key)) ImageJournalConflict;;
  expected ← some_or ImageJournalConflict
    (List.find (λ i, same (in_input_id i) (ir_input_id command)) (st_inputs original));
  throw_if (negb (same (in_purpose expected) (ir_purpose command)
                  && same (in_sha256 expected) (ir_sha256 command)
                  && (in_byte_count expected =? ir_byte_count command))) ImageJournalConflict;;
  make_input_tree;;
  make_input_dir key;;
  let temporary := Uploading (ir_input_id command) tmp in
  let target := InputName (ir_input_id command) in
  let unlink_temporary := durable ImageJournalUnavailable (on_inputs (unlink_file key temporary)) in
  w ← get;
  let inode := fresh_inode (find_dir key (w_inputs w)) in
  durable ImageJournalUnavailable (on_inputs (put_file key temporary (mkFile true inode [])));;
  received ← on_error
    (received ← receive key temporary inode (st_deadline_at original) (ir_byte_count command) [] chunks;
     t ← now;
     throw_if ((st_deadline_at original <=? t) || negb (len received =? ir_byte_count command)
               || negb (same (sha256 received) (ir_sha256 command))) ImageJournalConflict;;
     durable ImageJournalUnavailable id;;
     mret received) (λ _, unlink_temporary);
  finally
    (latest ← get_status job_id;
     latest ← some_or ImageJournalConflict latest;
     t ← now;
     throw_if (negb (same (nj_state latest) Queued) || negb (same_fence (nj_binding latest) key)
               || (st_deadline_at original <=? t)) ImageJournalConflict;;
     throw_if (negb (staged_png_ok received (in_width expected) (in_height expected)
                       (ir_purpose command))) ImageJournalConflict;;
     t ← now;
     throw_if (st_deadline_at original <=? t) ImageJournalConflict;;
     w ← get;
     d ← some_or ImageJournalUnavailable (find_dir key (w_inputs w));
     match sd_files d !! target with
     | None => durable ImageJournalUnavailable
                 (on_inputs (put_file key target (mkFile true inode received)))
     | Some f =>
         throw_if (negb (same_staged_file d f received (ir_byte_count command) (ir_sha256 command)))
           ImageJournalConflict
     end;;
     sync_dir ImageJournalUnavailable;;
     now) unlink_temporary.

(** What [discard_node_image_inputs] may find in the attempt's directory. *)
Definition discardable (inputs : list string) (name : Name) : bool :=
  match name with
  | InputName id => is_in id inputs
  | Uploading id _ => is_in id inputs
  | _ => false
  end.
Definition discard_node_image_inputs (status : NodeImageJob) : IO unit :=
  original ← get_request (nj_job_id status);
  match original with
  | None => throw ImageJournalConflict
  | Some original =>
      throw_if (negb (same_fence (st_binding original) (nj_binding status)
                      && same (st_node original) (nj_node status))) ImageJournalConflict;;
      w ← get;
      dir ← open_attempt ImageJournalUnavailable (w_inputs w) (nj_binding status);
      match dir with
      | None => mret tt
      | Some d =>
          let allowed := remove_dups (in_input_id <$> st_inputs original) in
          let names := (map_to_list (sd_files d)).*1 in
          throw_if (len names >? len allowed * 2) ImageJournalUnavailable;;
          throw_if (negb (forallb (discardable allowed) names)) ImageJournalUnavailable;;
          throw_if (negb (forallb (λ x, exclusive d x.2) (map_to_list (sd_files d))))
            ImageJournalUnavailable;;
          discard_dir ImageJournalUnavailable on_inputs (nj_binding status) names
      end
  end.

(** ** image_transfer.py *)

(** [_verify_grant_file] *)
Definition verify_grant_file (key : ImageJobBinding) (grant : ImageTransferGrant)
    (original : NodeImageStartRequest) (recipe_digest : string) : IO unit :=
  w ← get;
  f ← some_or ImageTransferUnavailable (find_file key (Png (tg_index grant)) (w_outputs w));
  throw_if (negb (sf_private f)) ImageTransferUnavailable;;
  match parse_recipe_png validate sha256 (Some (mkOpened true (len (sf_bytes f)) (sf_bytes f)))
          (Some (tg_expected_bytes grant)) (Some (tg_expected_sha256 grant)) with
  | Err _ => throw ImageTransferUnavailable
  | Ok recipe =>
      throw_if (negb (same (rc_resolved recipe) (st_resolved original))) ImageTransferUnavailable;;
      throw_if (negb (rc_output_index recipe =? tg_index grant)) ImageTransferUnavailable;;
      digest ← some_or ValueError (recipe_sha256 recipe);
      throw_if (negb (same digest recipe_digest)) ImageTransferUnavailable
  end.

Definition manifest_of (index : Z) (outputs : list ImageWorkerOutputManifest) :
    option ImageWorkerOutputManifest :=
  List.find (λ o, om_index o =? index) outputs.

Definition with_classification (c : option ImageClassificationResult) (r : ImageTransferReceipt) :
    ImageTransferReceipt :=
  mkReceipt (rp_binding r) (rp_node r) (rp_index r) (rp_output_id r) (rp_byte_count r) (rp_sha256 r)
    (rp_recipe_sha256 r) c (rp_verified_at r).

(** What the core answers to the upload of these bytes under a grant: [None] is an HTTP
    error, another status or an answer that is not a receipt. *)
Definition Core : Type := ImageTransferGrant → list Z → option ImageTransferReceipt.

(** One upload and the checks of its receipt. *)
Definition put_output (core : Core) (request : NodeImageTransferRequest)
    (outputs : list ImageWorkerOutputManifest) (grant : ImageTransferGrant) : IO ImageTransferReceipt :=
  w ← get;
  f ← some_or ImageTransferUnavailable
        (find_file (tr_binding request) (Png (tg_index grant)) (w_outputs w));
  throw_if (negb (sf_private f) || negb (len (sf_bytes f) =? tg_expected_bytes grant))
    ImageTransferUnavailable;;
  receipt ← some_or ImageTransferUnavailable (core grant (sf_bytes f));
  manifest ← some_or ImageTransferUnavailable (manifest_of (tg_index grant) outputs);
  throw_if (negb (same (rp_binding receipt) (tr_binding request)
                  && same (rp_node receipt) (tr_node request)
                  && (rp_index receipt =? tg_index grant)
                  && (rp_byte_count receipt =? tg_expected_bytes grant)
                  && same (rp_sha256 receipt) (tg_expected_sha256 grant)
                  && same (rp_recipe_sha256 receipt) (om_recipe_sha256 manifest)))
    ImageTransferUnavailable;;
  mret (with_classification (om_classification manifest) receipt).

Fixpoint put_all (core : Core) (request : NodeImageTransferRequest)
    (outputs : list ImageWorkerOutputManifest) (grants : list ImageTransferGrant) :
    IO (list ImageTransferReceipt) :=
  match grants with
  | [] => mret []
  | g :: gs =>
      r ← put_output core request outputs g;
      rs ← put_all core request outputs gs;
      mret (r :: rs)
  end.

Definition check_grant (t : Z) (key : ImageJobBinding) (original : NodeImageStartRequest)
    (outputs : list ImageWorkerOutputManifest) (grant : ImageTransferGrant) : IO unit :=
  manifest ← some_or ImageTransferUnavailable (manifest_of (tg_index grant) outputs);
  throw_if ((tg_expires_at grant <=? t)
            || negb (tg_expected_bytes grant =? om_byte_count manifest)
            || negb (same (tg_expected_sha256 grant) (om_sha256 manifest))) ImageTransferUnavailable;;
  verify_grant_file key grant original (om_recipe_sha256 manifest).

Definition push_image_outputs (core : Core) (has_token : bool) (current : NodeImageJob)
    (original : NodeImageStartRequest) (request : NodeImageTransferRequest) :
    IO (list ImageTransferReceipt) :=
  let key := tr_binding request in
  let indexes := seqZ 0 (start_n original) in
  throw_if (negb (same (nj_state current) Transferring
                  && same (nj_binding current) key && same (nj_node current) (tr_node request)
                  && same (st_binding original) key && same (st_node original) (tr_node request)
                  && same_set (tg_index <$> tr_grants request) indexes
                  && same_set (om_index <$> nj_outputs current) indexes
                  && has_token)) ImageTransferUnavailable;;
  t ← now;
  w ← get;
  tree ← some_or ImageTransferUnavailable (w_outputs w);
  throw_if (negb (st_private tree)) ImageTransferUnavailable;;
  d ← some_or ImageTransferUnavailable (st_dirs tree !! key);
  throw_if (negb (sd_private d)) ImageTransferUnavailable;;
  for_each (check_grant t key original (nj_outputs current)) (tr_grants request);;
  put_all core request (nj_outputs current) (sorted_on tg_index (tr_grants request)).

(** ** image_dispatch.py *)

(** The worker process, as one call of the dispatcher finds it. *)
Record Resident := mkResident {
  re_instance_id : string;
  re_pid : option Z;
  re_process_create_time : option Z;
}.
Inductive StatusReply := NotAccepted | Observed (w : ImageWorkerStatus) | NoReply.
Record Worker := mkWorker {
  (** [current_status()] *)
  wk_resident : option Resident;
  (** [private_control(instance_id)]: [None] raises [ImageProcessUnavailable] *)
  wk_control : string → option ImageWorkerLoadRequest;
  (** the answer to [/status]: 404, a status, or nothing that can be used *)
  wk_status : ImageJobBinding → StatusReply;
  (** the answer to [PUT /job] *)
  wk_run : NodeImageStartRequest → option ImageWorkerStatus;
  (** the answers to [/cancel] and to the [/status] after it *)
  wk_cancel : ImageJobBinding → option ImageWorkerStatus;
  wk_cancel_status : ImageJobBinding → option ImageWorkerStatus;
  (** [stop(...)]: the instance, whether it failed (is gone) and what it still reserves *)
  wk_stop : string → option (string * bool * Z);
}.

(** [_supported] *)
Definition supported (r : NodeImageStartRequest) (load : ImageWorkerLoadRequest) : bool :=
  let resolved := st_resolved r in
  let spec := rs_spec resolved in
  let mode := sp_mode spec in
  let ids := in_input_id <$> st_inputs r in
  same (st_instance_id r) (ld_instance_id load) && same (st_model_id r) (ld_model_id load)
  && same (sp_variant_id spec) (ld_variant_id load)
  && same (rs_model_sha256 resolved) (ld_manifest_sha256 load)
  && same (rs_pipeline_version resolved) (ld_runtime_version load)
  && (st_reservation_bytes r =? ld_reservation_bytes load)
  && (same mode FILL || same (sp_guidance spec) (dec_of 0))
  && absent (sp_negative_prompt spec)
  && negb (same mode CONTROL && nonempty (sp_loras spec))
  && (length (sp_loras spec) + length (opt_list (sp_upscale spec))
      + length (opt_list (sp_control spec)) =? length (rs_dependencies resolved))%nat
  && same_set ((lo_model_id <$> sp_loras spec) ++ (up_model_id <$> opt_list (sp_upscale spec))
               ++ (ct_model_id <$> opt_list (sp_control spec)))
       (md_model_id <$> rs_dependencies resolved)
  && (same mode FILL || absent (sp_mask_id spec))
  && match mode with
     | TXT2IMG => negb (nonempty (st_inputs r)) && negb (nonempty (rs_inputs resolved))
     | IMG2IMG => match sp_init_image_id spec with Some i => same ids [i] | None => false end
     | FILL =>
         match sp_init_image_id spec, sp_mask_id spec with
         | Some i, Some m =>
             negb (nonempty (sp_loras spec)) && absent (sp_strength spec)
             && same_set ids [i; m] && (length ids =? 2)%nat
             && existsb (λ x, same (in_input_id x) i && same (in_purpose x) Init) (st_inputs r)
             && existsb (λ x, same (in_input_id x) m && same (in_purpose x) Mask) (st_inputs r)
         | _, _ => false
         end
     | CONTROL => match sp_control spec with Some c => same ids [ct_image_id c] | None => false end
     end.

(** [_progress] *)
Definition progress (w : ImageWorkerStatus) (r : NodeImageStartRequest) : IO (option Z * option Z) :=
  match ws_step w with
  | None => mret (None, None)
  | Some step =>
      match ws_output_index w with
      | None => throw ImageDispatchUnavailable
      | Some i =>
          throw_if (negb (same (ws_total_steps w) (Some (start_steps r))) || (step >? start_steps r)
                    || (i >=? start_n r)) ImageDispatchUnavailable;;
          mret (Some (i * start_steps r + step), Some (start_n r * start_steps r))
      end
  end.

Definition complete_outputs (outputs : list ImageWorkerOutputManifest) (r : NodeImageStartRequest) : bool :=
  same_set (om_index <$> outputs) (seqZ 0 (start_n r)).

(** [_discard_terminal_attempt] *)
Definition discard_terminal_attempt (current : NodeImageJob) : IO unit :=
  discard_cancelled_image_scratch current;; discard_node_image_inputs current.

(** [self.journal.advance(current.model_copy(update={..., "updated_at": _later(current)}))] *)
Definition advance_from (current : NodeImageJob) (update : NodeImageJob → NodeImageJob) : IO NodeImageJob :=
  t ← later current; advance (set_updated t (update current)).

(** [_reconcile] *)
Definition reconcile (current : NodeImageJob) (request : NodeImageStartRequest)
    (observed : ImageWorkerStatus) : IO NodeImageJob :=
  match ws_state observed with
  | WWaiting =>
      throw_if (negb (is_in (nj_state current) [Queued; Reserving])) ImageDispatchUnavailable;;
      mret current
  | WRunning =>
      if same (nj_state current) Cancelling then mret current else
      throw_if (negb (is_in (nj_state current) [Reserving; Running])) ImageDispatchUnavailable;;
      '(step, total) ← progress observed request;
      let '(step, total) := match step with
                            | None => (nj_progress_step current, nj_progress_total current)
                            | Some _ => (step, total)
                            end in
      advance_from current (λ j, set_cache (ws_cache_status observed)
                                   (set_progress step total (set_state Running j)))
  | WGenerated =>
      throw_if (negb (complete_outputs (ws_outputs observed) request)) ImageDispatchUnavailable;;
      if same (nj_state current) Transferring then
        if nonempty (nj_outputs current) then
          throw_if (negb (same (nj_outputs current) (ws_outputs observed))) ImageDispatchUnavailable;;
          mret current
        else advance_from current (set_outputs (ws_outputs observed))
      else if same (nj_state current) Cancelling then mret current else
      throw_if (negb (is_in (nj_state current) [Reserving; Running])) ImageDispatchUnavailable;;
      running ← (if same (nj_state current) Reserving
                 then advance_from current (set_state Running) else mret current);
      advance_from running (λ j, set_cache (ws_cache_status observed)
                                   (set_outputs (ws_outputs observed) (set_state Transferring j)))
  | WCancelled | WFailed =>
      throw_if (terminal (nj_state current)) ImageDispatchUnavailable;;
      let cancelled := same (ws_state observed) WCancelled in
      throw_if (same (nj_state current) Queued && negb cancelled) ImageDispatchUnavailable;;
      (if cancelled then mret tt else discard_terminal_attempt current);;
      advance_from current (λ j,
        set_cleaned (negb cancelled)
          (set_error (if cancelled then None else Some "generation_failed")
             (set_state (if cancelled then Cancelled else Failed) j)))
  end.

(** [_worker_status]: [None] if the worker is up and has never accepted the attempt. *)
Definition worker_status (wk : Worker) (current : NodeImageJob) : IO (option ImageWorkerStatus) :=
  _ ← some_or ImageDispatchUnavailable (wk_control wk (nj_instance_id current));
  match wk_status wk (nj_binding current) with
  | NotAccepted => mret None
  | NoReply => throw ImageDispatchUnavailable
  | Observed observed =>
      throw_if (negb (valid_worker_status observed)) ImageDispatchUnavailable;;
      throw_if (negb (same (ws_binding observed) (nj_binding current))) ImageDispatchUnavailable;;
      mret (Some observed)
  end.

(** [start], from the resident worker's answer to [PUT /job] on. *)
Definition started (request : NodeImageStartRequest) (reserving : NodeImageJob)
    (reply : ImageWorkerStatus) : IO NodeImageJob :=
  match ws_state reply with
  | WWaiting => mret reserving
  | WRunning | WGenerated =>
      '(step, total) ← progress reply request;
      running ← advance_from reserving (λ j, set_progress step total (set_state Running j));
      if same (ws_state reply) WGenerated then
        throw_if (negb (complete_outputs (ws_outputs reply) request)) ImageDispatchUnavailable;;
        advance_from running (λ j, set_outputs (ws_outputs reply) (set_state Transferring j))
      else mret running
  | WCancelled | WFailed =>
      let cancelled := same (ws_state reply) WCancelled in
      (if cancelled then mret tt else discard_terminal_attempt reserving);;
      advance_from reserving (λ j,
        set_cleaned (negb cancelled)
          (set_error (match ws_safe_error reply with
                      | Some e => if same e "" then Some "generation_failed" else Some e
                      | None => Some "generation_failed"
                      end)
             (set_state (if cancelled then Cancelled else Failed) j)))
  end.

(** The delivery of a start to the worker: the intent is journaled first. *)
Definition deliver (wk : Worker) (request : NodeImageStartRequest) : IO (bool * NodeImageJob) :=
  load ← some_or ImageDispatchUnavailable (wk_control wk (st_instance_id request));
  throw_if (negb (supported request load)) ImageDispatchConflict;;
  queued ← begin request;
  resident ← some_or ImageDispatchUnavailable (wk_resident wk);
  throw_if (absent (re_pid resident) || absent (re_process_create_time resident))
    ImageDispatchUnavailable;;
  reserving ← advance_from queued (λ j,
    set_process (re_pid resident) (re_process_create_time resident) (set_state Reserving j));
  reply ← some_or ImageDispatchUnavailable (wk_run wk request);
  throw_if (negb (valid_worker_status reply)) ImageDispatchUnavailable;;
  throw_if (negb (same (ws_binding reply) (st_binding request))) ImageDispatchUnavailable;;
  job ← started request reserving reply;
  mret (true, job).

Definition start (wk : Worker) (request : NodeImageStartRequest) : IO (bool * NodeImageJob) :=
  existing ← get_status (st_job_id request);
  match existing with
  | None => deliver wk request
  | Some job =>
      if negb (is_in (nj_state job) [Queued; Reserving]) then
        status ← begin request; mret (false, status)
      else
        observed ← worker_status wk job;
        match observed with
        | None => deliver wk request
        | Some observed =>
            original ← get_request (st_job_id request);
            original ← some_or ImageDispatchUnavailable original;
            job ← reconcile job original observed;
            mret (false, job)
        end
  end.

Definition reserve_inputs (wk : Worker) (request : NodeImageStartRequest) : IO (bool * NodeImageJob) :=
  throw_if (negb (same (st_node request) node)) ImageDispatchConflict;;
  throw_if (match wk_resident wk with
            | Some r => negb (same (re_instance_id r) (st_instance_id request))
            | None => false
            end) ImageDispatchConflict;;
  existing ← get_status (st_job_id request);
  status ← begin request;
  mret (absent existing, status).

(** [scratch_cleaned] recorded once the scratch is gone. *)
Definition repair_terminal (current : NodeImageJob) : IO NodeImageJob :=
  discard_terminal_attempt current;; advance_from current (set_cleaned true).

Definition status (wk : Worker) (binding : ImageJobBinding) : IO (option NodeImageJob) :=
  found ← get_status (jb_job_id binding);
  match found with
  | None => mret None
  | Some current =>
      throw_if (negb (same_fence (nj_binding current) binding)) ImageDispatchConflict;;
      if is_in (nj_state current) [Failed; Cancelled] && negb (nj_scratch_cleaned current) then
        job ← repair_terminal current; mret (Some job)
      else if terminal (nj_state current) then mret (Some current)
      else
      original ← get_request (jb_job_id binding);
      request ← some_or ImageDispatchUnavailable original;
      if same (nj_state current) Transferring && complete_outputs (nj_outputs current) request
      then mret (Some current)
      else
      load ← some_or ImageDispatchUnavailable (wk_control wk (nj_instance_id current));
      throw_if (negb (supported request load)) ImageDispatchUnavailable;;
      match wk_status wk binding with
      | Observed observed =>
          throw_if (negb (valid_worker_status observed)
                    || negb (same (ws_binding observed) binding)) ImageDispatchUnavailable;;
          job ← map_error (λ e, if same e ImageJournalConflict then ImageDispatchUnavailable else e)
                  (reconcile current request observed);
          mret (Some job)
      | _ => throw ImageDispatchUnavailable
      end
  end.

(** [_cooperative_cancel] *)
Definition cooperative_cancel (wk : Worker) (request : NodeImageCancelRequest) (current : NodeImageJob) : bool :=
  let binding := cn_binding request in
  let bound w := valid_worker_status w && same (ws_binding w) binding in
  match wk_control wk (nj_instance_id current), wk_cancel wk binding with
  | Some _, Some observed =>
      bound observed
      && (same (ws_state observed) WCancelled
          || match wk_cancel_status wk binding with
             | Some observed => bound observed && same (ws_state observed) WCancelled
             | None => false
             end)
  | _, _ => false
  end.

Definition cancel (wk : Worker) (request : NodeImageCancelRequest) : IO (option NodeImageJob) :=
  found ← get_status (jb_job_id (cn_binding request));
  match found with
  | None => mret None
  | Some current =>
      throw_if (negb (same_fence (nj_binding current) (cn_binding request))) ImageDispatchConflict;;
      if is_in (nj_state current) [Cancelled; Failed] && negb (nj_scratch_cleaned current) then
        job ← repair_terminal current; mret (Some job)
      else if terminal (nj_state current) then mret (Some current)
      else if same (nj_state current) Queued then
        discard_terminal_attempt current;;
        job ← advance_from current (λ j, set_cleaned true (set_state Cancelled j));
        mret (Some job)
      else
      current ← (if same (nj_state current) Cancelling then mret current
                 else advance_from current (set_state Cancelling));
      (if cooperative_cancel wk request current then mret tt else
         '(instance, failed, reserved) ←
           some_or ImageDispatchUnavailable (wk_stop wk (nj_instance_id current));
         throw_if (negb (same instance (nj_instance_id current)) || negb failed
                   || negb (reserved =? 0)) ImageDispatchUnavailable);;
      discard_terminal_attempt current;;
      job ← advance_from current (λ j, set_cleaned true (set_error None (set_state Cancelled j)));
      mret (Some job)
  end.

Definition cleanup (request : NodeImageCleanupRequest) : IO CleanupReceipt :=
  found ← get_status (jb_job_id (cr_binding request));
  current ← some_or ImageJournalConflict found;
  throw_if (negb (is_in (nj_state current) [Transferring; Succeeded])
            || negb (same_fence (nj_binding current) (cr_binding request))) ImageJournalConflict;;
  discard_node_image_inputs current;;
  cleanup_image_outputs request.

(** The receipts of an earlier call, which must still match the manifests. *)
Definition recorded_receipts_match (current : NodeImageJob) (original : NodeImageStartRequest) : bool :=
  (len (nj_receipts current) =? start_n original)
  && forallb (λ r, match manifest_of (rp_index r) (nj_outputs current) with
                   | None => false
                   | Some m => (rp_byte_count r =? om_byte_count m)
                               && same (rp_sha256 r) (om_sha256 m)
                               && same (rp_recipe_sha256 r) (om_recipe_sha256 m)
                   end) (nj_receipts current).

Definition transfer (core : Core) (has_token : bool) (request : NodeImageTransferRequest) :
    IO NodeImageJob :=
  let job_id := jb_job_id (tr_binding request) in
  current ← get_status job_id;
  original ← get_request job_id;
  current ← some_or ImageJournalConflict current;
  original ← some_or ImageJournalConflict original;
  throw_if (negb (same (nj_node current) (tr_node request)
                  && same_fence (nj_binding current) (tr_binding request))) ImageJournalConflict;;
  if same (nj_state current) Succeeded then mret current else
  throw_if (negb (same (nj_state current) Transferring)) ImageJournalConflict;;
  receipts ← (if nonempty (nj_receipts current) then
                throw_if (negb (recorded_receipts_match current original)) ImageJournalConflict;;
                mret (nj_receipts current)
              else push_image_outputs core has_token current original request);
  discard_node_image_inputs current;;
  let command := mkCleanup (tr_binding request) (tr_node request) receipts in
  throw_if (negb (cleanup_receipts_match command)) ValueError;;
  cleanup_image_outputs command;;
  result ← get_status job_id;
  result ← some_or ImageTransferUnavailable result;
  throw_if (negb (same (nj_state result) Succeeded)) ImageTransferUnavailable;;
  mret result.

(** [sweep_terminal_scratch]: an attempt that cannot be repaired is left for later. *)
Definition ignore_errors (m : IO NodeImageJob) : IO unit := λ w, (Ok tt, (m w).2).
Definition sweep_terminal_scratch (listing : list string) (after_job : option string) :
    IO (option string) :=
  '(pending, cursor) ← pending_terminal_cleanup node listing after_job 25;
  for_each (λ s, ignore_errors (repair_terminal s)) pending;;
  mret cursor.
End dispatch.
