(* ===== verification/ImageJobFacts.v ===== *)
(** * Facts about the image journal

    Jobs only move forward: whatever commands the dispatcher runs, with whatever answers,
    failed writes and clock readings, a recorded job keeps its request, follows the state
    machine and keeps its evidence ([evolves]).  A page of the terminal sweep is the
    prefix of the sorted ids after the cursor. *)
From stdpp Require Import sorting.
From S2P Require Import Prelude Effects RecipePng ImageModels ImageJobs ImageDispatch.
Open Scope Z_scope.

(** ** Order of ids *)

Lemma ascii_compare_trans a b c :
  Ascii.compare a b ≠ Gt → Ascii.compare b c ≠ Gt → Ascii.compare a c ≠ Gt.
Proof. unfold Ascii.compare. rewrite !N.compare_le_iff. lia. Qed.

Lemma leb_true x y : String.leb x y = true ↔ String.compare x y ≠ Gt.
Proof. unfold String.leb. by destruct (String.compare x y). Qed.

Lemma compare_refl x : String.compare x x = Eq.
Proof.
  induction x as [|a x IH]; simpl; [done|].
  replace (Ascii.compare a a) with Eq; [done|]. unfold Ascii.compare. by rewrite N.compare_refl.
Qed.

Lemma compare_trans x y z :
  String.compare x y ≠ Gt → String.compare y z ≠ Gt → String.compare x z ≠ Gt.
Proof.
  revert y z. induction x as [|a x IH]; intros [|b y] [|c z]; simpl; try done.
  intros Hab Hbc. unfold Ascii.compare in *.
  destruct (N.compare_spec (Ascii.N_of_ascii a) (Ascii.N_of_ascii b)),
    (N.compare_spec (Ascii.N_of_ascii b) (Ascii.N_of_ascii c)),
    (N.compare_spec (Ascii.N_of_ascii a) (Ascii.N_of_ascii c)); try done; try lia.
  eapply IH; eauto.
Qed.

Definition id_le (x y : string) : Prop := String.leb x y = true.
#[global] Instance id_le_trans : Transitive id_le.
Proof. intros x y z. unfold id_le. rewrite !leb_true. apply compare_trans. Qed.
#[global] Instance id_le_total : Total id_le.
Proof. intros x y. apply String.leb_total. Qed.
#[global] Instance id_le_antisym : AntiSymm (=) id_le.
Proof. intros x y. apply String.leb_antisym. Qed.
#[global] Instance id_le_refl : Reflexive id_le.
Proof. intros x. unfold id_le. by rewrite leb_true, compare_refl. Qed.

(** ** Pages *)

Lemma insort_perm x l : insort x l ≡ₚ x :: l.
Proof.
  induction l as [|y l IH]; simpl; [done|]. destruct (String.leb y x); [|done].
  rewrite IH. apply Permutation_swap.
Qed.
Lemma sort_ids_perm l : sort_ids l ≡ₚ l.
Proof. induction l as [|x l IH]; simpl; [done|]. by rewrite insort_perm, IH. Qed.

Lemma insort_sorted x l : StronglySorted id_le l → StronglySorted id_le (insort x l).
Proof.
  induction 1 as [|y l Hl IH Hy]; simpl; [repeat constructor|].
  destruct (String.leb y x) eqn:E.
  - constructor; [done|]. rewrite insort_perm. by constructor.
  - assert (id_le x y) by (destruct (id_le_total x y); [done|unfold id_le in *; congruence]).
    constructor; [by constructor|]. constructor; [done|].
    eapply Forall_impl; [done|]. intros z Hz. by etrans.
Qed.
Lemma sort_ids_sorted l : StronglySorted id_le (sort_ids l).
Proof. induction l; simpl; [constructor|by apply insort_sorted]. Qed.

(** Two sorted lists with the same elements are equal. *)
Lemma sorted_unique l k : StronglySorted id_le l → StronglySorted id_le k → l ≡ₚ k → l = k.
Proof.
  intros Hl Hk Hp. eapply StronglySorted_unique; try done. apply _.
Qed.

Lemma sort_ids_proper l k : l ≡ₚ k → sort_ids l = sort_ids k.
Proof.
  intros Hp. apply sorted_unique; [apply sort_ids_sorted..|]. by rewrite !sort_ids_perm.
Qed.

(** Keeping a prefix while inserting is inserting and then taking the prefix. *)
Lemma take_insort n x l : take n (insort x (take n l)) = take n (insort x l).
Proof.
  revert n. induction l as [|y l IH]; intros [|n]; simpl; try done.
  destruct (String.leb y x); simpl; f_equal; [apply IH|].
  destruct n; simpl; [done|]. f_equal. rewrite take_take. f_equal. lia.
Qed.

Lemma length_insort x l : length (insort x l) = S (length l).
Proof. by rewrite insort_perm. Qed.

Lemma removelast_take {A} (l : list A) n : length l = S n → removelast l = take n l.
Proof.
  intros Hl. destruct l as [|x l] using rev_ind; [done|].
  rewrite length_app in Hl. simpl in Hl. rewrite removelast_last.
  rewrite take_app_le by lia. by rewrite take_ge by lia.
Qed.

Lemma page_step_take after_job limit n s id :
  Z.of_nat n = limit → eligible after_job id = true →
  page_step after_job limit (take n s) id = take n (insort id s).
Proof.
  intros <- He. unfold page_step. rewrite He. simpl. rewrite <- take_insort.
  assert (length (insort id (take n s)) ≤ S n)%nat as Hlen.
  { rewrite length_insort, length_take. lia. }
  unfold len. destruct (Z.gtb_spec (Z.of_nat (length (insort id (take n s)))) (Z.of_nat n)).
  all: clear He; revert Hlen H; generalize (insort id (take n s)) as l; intros l Hlen H.
  - apply removelast_take. lia.
  - by rewrite take_ge by lia.
Qed.

Lemma scan_page_sorted after_job limit listing :
  0 ≤ limit →
  scan_page after_job limit listing =
  take (Z.to_nat limit) (sort_ids (List.filter (eligible after_job) listing)).
Proof.
  intros Hl. unfold scan_page.
  assert (∀ seen, foldl (page_step after_job limit) (take (Z.to_nat limit) (sort_ids seen)) listing
    = take (Z.to_nat limit) (sort_ids (List.filter (eligible after_job) listing ++ seen))) as H.
  { induction listing as [|id listing IH]; intros seen; simpl; [done|].
    destruct (eligible after_job id) eqn:He.
    - rewrite page_step_take by (done || lia).
      change (insort id (sort_ids seen)) with (sort_ids (id :: seen)). rewrite IH. f_equal.
      apply sort_ids_proper. simpl. by rewrite Permutation_middle.
    - unfold page_step at 2. rewrite He. simpl. apply IH. }
  specialize (H []). rewrite app_nil_r in H. cbn [sort_ids foldr] in H. by rewrite take_nil in H.
Qed.

(** *** All pages together *)

(** The pages of consecutive sweeps, each after the last id of the one before. *)
Fixpoint sweep_pages (fuel : nat) (after_job : option string) (limit : Z) (listing : list string) :
    list (list string) :=
  match fuel with
  | O => []
  | S fuel =>
      let page := scan_page after_job limit listing in
      match last page with
      | None => []
      | Some cursor => page :: sweep_pages fuel (Some cursor) limit listing
      end
  end.

Lemma filter_none_bool {A} (f : A → bool) l : (∀ x, x ∈ l → f x = false) → List.filter f l = [].
Proof.
  induction l as [|x l IH]; intros H; simpl; [done|]. rewrite H by set_solver. apply IH. set_solver.
Qed.
Lemma filter_all_bool {A} (f : A → bool) l : (∀ x, x ∈ l → f x = true) → List.filter f l = l.
Proof.
  induction l as [|x l IH]; intros H; simpl; [done|]. rewrite H by set_solver. f_equal. apply IH. set_solver.
Qed.

(** Past an element of a strictly sorted list. *)
Lemma filter_after l k x :
  StronglySorted id_le (l ++ k) → NoDup (l ++ k) → last l = Some x →
  List.filter (λ id, negb (String.leb id x)) (l ++ k) = k.
Proof.
  intros Hs Hnd Hx. apply last_Some in Hx as [l' ->]. rewrite List.filter_app.
  rewrite filter_none_bool, filter_all_bool; [done| |].
  - intros y Hy. apply negb_true_iff, not_true_iff_false. intros Hle.
    assert (id_le x y) as Hxy by (eapply StronglySorted_app_1_elem_of; [done|set_solver|done]).
    assert (y = x) as -> by (by apply String.leb_antisym).
    apply NoDup_app in Hnd as (_ & Hd & _). apply (Hd x); set_solver.
  - intros y Hy. apply negb_false_iff. apply elem_of_app in Hy as [Hy| ->%list_elem_of_singleton].
    + apply StronglySorted_app_1_l in Hs. apply (StronglySorted_app_1_elem_of id_le l' [x]); [done..|set_solver].
    + apply id_le_refl.
Qed.

Lemma filter_perm_bool {A} (f : A → bool) l k : l ≡ₚ k → List.filter f l ≡ₚ List.filter f k.
Proof.
  induction 1 as [|x l k Hp IH|x y l|]; simpl; [done|by destruct (f x); rewrite IH| |by etrans].
  destruct (f x), (f y); try done. apply Permutation_swap.
Qed.

Lemma eligible_after after_job x id :
  eligible after_job x = true →
  eligible (Some x) id = eligible after_job id && negb (String.leb id x).
Proof.
  unfold eligible. intros Hx. apply andb_true_iff in Hx as [_ Hx]. apply negb_true_iff in Hx.
  destruct (is_ulid id); [|done]. simpl. destruct after_job as [a|]; [|done].
  destruct (String.leb id x) eqn:Hid; [by rewrite andb_false_r|]. rewrite andb_true_r. simpl.
  symmetry. apply negb_true_iff, not_true_iff_false. intros Ha.
  assert (id_le a x) by (destruct (id_le_total a x); [done|unfold id_le in *; congruence]).
  assert (id_le id x) by (by etrans). unfold id_le in *. congruence.
Qed.

Lemma next_page after_job limit listing x :
  0 < limit → NoDup listing → last (scan_page after_job limit listing) = Some x →
  sort_ids (List.filter (eligible (Some x)) listing) =
  drop (Z.to_nat limit) (sort_ids (List.filter (eligible after_job) listing)).
Proof.
  intros Hl Hnd Hx. rewrite scan_page_sorted in Hx by lia.
  set (s := sort_ids (List.filter (eligible after_job) listing)) in *.
  assert (Hs : StronglySorted id_le s) by apply sort_ids_sorted.
  assert (Hp : s ≡ₚ List.filter (eligible after_job) listing) by apply sort_ids_perm.
  assert (Hnds : NoDup s).
  { rewrite Hp. apply NoDup_ListNoDup, List.NoDup_filter. by apply NoDup_ListNoDup. }
  assert (Hxe : eligible after_job x = true).
  { assert (x ∈ s) as Hin.
    { apply last_Some in Hx as [l' El]. rewrite <- (take_drop (Z.to_nat limit) s), El. set_solver. }
    rewrite Hp, list_elem_of_In, List.filter_In in Hin. tauto. }
  rewrite <- (take_drop (Z.to_nat limit) s) in Hs, Hnds.
  pose proof (filter_after _ _ _ Hs Hnds Hx) as Hk. rewrite take_drop in Hk.
  apply sorted_unique; [apply sort_ids_sorted|by apply StronglySorted_app_1_r in Hs|].
  rewrite sort_ids_perm. rewrite <- Hk, (filter_perm_bool _ _ _ Hp).
  assert (Heq : ∀ l, List.filter (eligible (Some x)) l =
    List.filter (λ id, negb (String.leb id x)) (List.filter (eligible after_job) l)).
  { induction l as [|y l IH]; simpl; [done|]. rewrite (eligible_after after_job x y Hxe).
    destruct (eligible after_job y); simpl; [|done]. destruct (negb _); simpl; by rewrite IH. }
  by rewrite Heq.
Qed.

Lemma sweep_pages_all fuel after_job limit listing :
  0 < limit → NoDup listing →
  (length (List.filter (eligible after_job) listing) < fuel)%nat →
  concat (sweep_pages fuel after_job limit listing) =
  sort_ids (List.filter (eligible after_job) listing).
Proof.
  intros Hl Hnd. revert after_job. induction fuel as [|fuel IH]; intros after_job Hf; [lia|].
  cbn [sweep_pages]. destruct (last (scan_page after_job limit listing)) as [x|] eqn:Hx.
  - cbn [concat]. pose proof (next_page _ _ _ _ Hl Hnd Hx) as Hnext.
    rewrite IH; [|].
    + rewrite Hnext, scan_page_sorted by lia. apply take_drop.
    + rewrite <- (Permutation_length (sort_ids_perm (List.filter (eligible (Some x)) listing))), Hnext.
      rewrite length_drop, (Permutation_length (sort_ids_perm _)).
      destruct (List.filter (eligible after_job) listing) eqn:E; simpl in *; [|lia].
      rewrite scan_page_sorted, E in Hx by lia. simpl in Hx. by rewrite take_nil in Hx.
  - apply last_None in Hx. rewrite scan_page_sorted in Hx by lia.
    destruct (sort_ids (List.filter (eligible after_job) listing)) as [|y s]; [done|].
    destruct (Z.to_nat limit) eqn:E; [lia|done].
Qed.

(** ** Jobs move forward *)

Definition state_next (a b : JobState) : Prop := b ∈ next_states a.

(** What never changes, what only grows, and where the state may have gone. *)
Record job_le (old new : NodeImageJob) : Prop := {
  jl_binding : nj_binding new = nj_binding old;
  jl_node : nj_node new = nj_node old;
  jl_instance : nj_instance_id new = nj_instance_id old;
  jl_state : rtc state_next (nj_state old) (nj_state new);
  jl_pid p : nj_pid old = Some p → nj_pid new = Some p;
  jl_created p : nj_process_create_time old = Some p → nj_process_create_time new = Some p;
  jl_step a : nj_progress_step old = Some a → ∃ b, nj_progress_step new = Some b ∧ a ≤ b;
  jl_total a : nj_progress_total old = Some a → nj_progress_total new = Some a;
  jl_receipts : nj_receipts old `prefix_of` nj_receipts new;
  jl_outputs : nj_outputs old ≠ [] → nj_outputs new = nj_outputs old;
  jl_cleaned : nj_scratch_cleaned old = true → nj_scratch_cleaned new = true;
  jl_updated : nj_updated_at old ≤ nj_updated_at new;
  jl_terminal : terminal (nj_state old) = true → without_cleanup new = without_cleanup old;
}.

Lemma terminal_stuck a b : terminal a = true → rtc state_next a b → b = a.
Proof.
  intros Ha Hr. destruct Hr as [|a c ? Hc _]; [done|]. unfold state_next in Hc.
  destruct a; simpl in *; try discriminate Ha; by apply not_elem_of_nil in Hc.
Qed.

#[global] Instance job_le_refl : Reflexive job_le.
Proof. intros j. split; naive_solver. Qed.
#[global] Instance job_le_trans : Transitive job_le.
Proof.
  intros a b c [] []. split; try (etrans; done); try (by eauto).
  - intros x Hx. destruct (jl_step0 x Hx) as (y & Hy & ?). destruct (jl_step1 y Hy) as (z & Hz & ?).
    exists z. split; [done|lia].
  - intros Ha. rewrite jl_outputs1; [auto|]. by rewrite jl_outputs0.
  - intros Ha. pose proof (terminal_stuck _ _ Ha jl_state0) as Es.
    rewrite jl_terminal1; [auto|by rewrite Es].
Qed.

Lemma same_attempt_pid old new : same_attempt old new = true →
  (∀ p, nj_pid old = Some p → nj_pid new = Some p) ∧
  (∀ p, nj_process_create_time old = Some p → nj_process_create_time new = Some p).
Proof.
  unfold same_attempt, initial_process_binding. intros H. guards.
  apply orb_true_iff in H0 as [H0|H0]; guards.
  - by destruct (nj_pid old), (nj_process_create_time old).
  - split; congruence.
Qed.

(** The guards of [advance] are exactly what moving forward needs. *)
Lemma advance_guards_le old new :
  same_attempt old new = true → transition_allowed old new = true →
  progress_kept old new = true → evidence_kept old new = true → job_le old new.
Proof.
  intros Ha Ht Hp He. destruct (same_attempt_pid _ _ Ha) as [Hpid Hcr].
  unfold same_attempt in Ha. unfold transition_allowed in Ht. unfold progress_kept in Hp.
  unfold evidence_kept in He. guards. split; try done.
  - destruct (same (nj_state new) (nj_state old)) eqn:Es; guards; [by rewrite Es|].
    simpl in H12. guards. by apply rtc_once.
  - intros a Ea. rewrite Ea in H5. destruct (nj_progress_step new) as [b|]; [|done].
    exists b. split; [done|lia].
  - intros a Ea. rewrite Ea in H6. by guards.
  - rewrite <- H. apply prefix_take.
  - intros Hne. destruct (nj_outputs old) eqn:Eo; [done|]. simpl in H4. by guards.
  - intros Hc. rewrite Hc in H1. simpl in H1. by guards.
  - lia.
  - intros Hterm. rewrite Hterm in H11. simpl in H11. unfold terminal_cleanup_repair in H11. by guards.
Qed.

(** ** Relations every call keeps *)

Create HintDb image discriminated.

Lemma steps_ignore (R : relation World) (m : IO NodeImageJob) : steps R m → steps R (ignore_errors m).
Proof. intros Hm w. apply Hm. Qed.

(** A call that leaves the records alone. *)
Definition same_jobs (w w' : World) : Prop := w_jobs w' = w_jobs w.
#[global] Instance same_jobs_preorder : PreOrder same_jobs.
Proof. split; [by intros w|]. intros a b c H1 H2. unfold same_jobs in *. congruence. Qed.

Lemma steps_durable R e f :
  PreOrder R → (∀ w fs, R w (with_faults fs w)) → (∀ w, R w (f w)) → steps R (durable e f).
Proof.
  intros HR Hf He w. unfold durable. destruct (w_faults w) as [|[] fs]; simpl.
  - apply He.
  - etrans; [apply (Hf w fs)|apply He].
  - apply Hf.
  - etrans; [apply (Hf w fs)|apply He].
Qed.

Definition evolves (w w' : World) : Prop :=
  ∀ id r, w_jobs w !! id = Some (Stored r) →
  ∃ r', w_jobs w' !! id = Some (Stored r') ∧ jr_request r' = jr_request r ∧
        job_le (jr_status r) (jr_status r').
#[global] Instance evolves_preorder : PreOrder evolves.
Proof.
  split.
  - intros w id r Hr. by exists r.
  - intros a b c Hab Hbc id r Hr. destruct (Hab id r Hr) as (r1 & Hr1 & E1 & L1).
    destruct (Hbc id r1 Hr1) as (r2 & Hr2 & E2 & L2). exists r2.
    split_and!; [done|congruence|by etrans].
Qed.
Lemma same_jobs_evolves w w' : same_jobs w w' → evolves w w'.
Proof. intros H id r Hr. exists r. by rewrite H. Qed.

Section reading.
Context (node : string).
Abbreviation read_record := (read_record node).

Lemma private_root_same w : (private_root w).2 = w.
Proof. unfold private_root, mbind, M_bind, get. simpl. by destruct (w_root_private w). Qed.
Lemma job_path_run id w out w' :
  job_path id w = (out, w') → w' = w ∧ ∀ p, out = Ok p → p = id.
Proof.
  unfold job_path, mbind, M_bind, throw_if. destruct (is_ulid id); intros [= <- <-]; naive_solver.
Qed.

Lemma read_record_run id w out w' :
  read_record id w = (out, w') →
  w' = w ∧ match out with
           | Ok (Some r) => w_jobs w !! id = Some (Stored r) ∧ record_matches r = true ∧
                            st_node (jr_request r) = node ∧ is_ulid id = true
           | Ok None => w_jobs w !! id = None ∧ is_ulid id = true
           | Err _ => True
           end.
Proof.
  unfold read_record, ImageJobs.read_record, job_path, mbind, M_bind, get, throw_if. simpl.
  destruct (is_ulid id) eqn:Hu; simpl; [|by intros [= <- <-]].
  destruct (w_jobs w !! id) as [[r|]|]; simpl; [|by intros [= <- <-]..].
  destruct (record_matches r) eqn:Hm; simpl; [|by intros [= <- <-]].
  destruct (same (st_node (jr_request r)) node) eqn:Hn; simpl; [|by intros [= <- <-]].
  intros [= <- <-]. guards. done.
Qed.
Lemma read_record_same id w : (read_record id w).2 = w.
Proof. destruct (read_record id w) as [out w'] eqn:E. by apply read_record_run in E as [-> _]. Qed.

Lemma get_status_run id w out w' :
  get_status node id w = (out, w') →
  w' = w ∧ match out with
           | Ok (Some j) => ∃ r, w_jobs w !! id = Some (Stored r) ∧ jr_status r = j ∧
                                 record_matches r = true ∧ st_node (jr_request r) = node
           | Ok None => w_jobs w !! id = None
           | Err _ => True
           end.
Proof.
  intros H. unfold get_status in H. walk H.
  - done.
  - by apply read_record_run in Hm as [-> _].
  - apply read_record_run in Hm as [-> Hr]. inversion H; subst.
    match goal with o : option JobRecord |- _ => destruct o as [r|] end; [|tauto].
    split; [done|]. exists r. naive_solver.
Qed.
Lemma get_request_run id w out w' :
  get_request node id w = (out, w') →
  w' = w ∧ match out with
           | Ok (Some q) => ∃ r, w_jobs w !! id = Some (Stored r) ∧ jr_request r = q ∧
                                 record_matches r = true ∧ st_node (jr_request r) = node
           | Ok None => w_jobs w !! id = None
           | Err _ => True
           end.
Proof.
  intros H. unfold get_request in H. walk H.
  - done.
  - by apply read_record_run in Hm as [-> _].
  - apply read_record_run in Hm as [-> Hr]. inversion H; subst.
    match goal with o : option JobRecord |- _ => destruct o as [r|] end; [|tauto].
    split; [done|]. exists r. naive_solver.
Qed.
Lemma get_status_same id w : (get_status node id w).2 = w.
Proof. destruct (get_status _ id w) as [out w'] eqn:E. by apply get_status_run in E as [-> _]. Qed.
Lemma get_request_same id w : (get_request node id w).2 = w.
Proof. destruct (get_request _ id w) as [out w'] eqn:E. by apply get_request_run in E as [-> _]. Qed.

Lemma now_run w out w' : now w = (out, w') → ∃ t ts, out = Ok t ∧ w' = with_clock ts w.
Proof.
  unfold now. destruct (w_clock w) as [|t ts] eqn:E; intros [= <- <-]; [|eauto].
  exists 0, []. split; [done|]. destruct w; simpl in *. by rewrite <- E.
Qed.
End reading.

(** Reading leaves the disk as it is. *)
Ltac quiet :=
  repeat match goal with
  | H : job_path _ _ = (_, _) |- _ => apply job_path_run in H as [-> H]
  | H : read_record _ _ _ = (_, _) |- _ => apply read_record_run in H as [-> H]
  | H : get_status _ _ _ = (_, _) |- _ => apply get_status_run in H as [-> H]
  | H : get_request _ _ _ = (_, _) |- _ => apply get_request_run in H as [-> H]
  end.

Section journal.
Context (node : string) (record_bytes : JobRecord → Z).
Abbreviation advance := (advance node record_bytes).
Abbreviation begin := (begin node record_bytes).

(** What a write leaves: the old records, or the new one in its place. *)
Lemma write_record_run path r w out w' :
  write_record record_bytes path r w = (out, w') →
  (w_jobs w' = w_jobs w ∧ ∃ e, out = Err e) ∨ w_jobs w' = <[path := Stored r]> (w_jobs w).
Proof.
  unfold write_record, mbind, M_bind, throw_if, durable.
  destruct (record_bytes r >? MAX_RECORD_BYTES); simpl; [intros [= <- <-]; eauto|].
  destruct (w_faults w) as [|[] fs]; intros [= <- <-]; simpl; eauto.
Qed.

(** The effect of [advance]: nothing, or a status that moves its job forward. *)
Definition advanced (status : NodeImageJob) (w w' : World) : Prop :=
  ∃ r, w_jobs w !! nj_job_id status = Some (Stored r) ∧ valid_job status = true ∧
       record_matches r = true ∧ st_node (jr_request r) = node ∧ job_le (jr_status r) status ∧
       w_jobs w' = <[nj_job_id status := Stored (mkRecord (jr_request r) status)]> (w_jobs w).

Lemma advance_run status w out w' :
  advance status w = (out, w') →
  match out with
  | Ok j => j = status ∧
            (advanced status w w' ∨
             (w' = w ∧ ∃ r, w_jobs w !! nj_job_id status = Some (Stored r) ∧ jr_status r = status))
  | Err _ => w_jobs w' = w_jobs w ∨ advanced status w w'
  end.
Proof.
  intros H. unfold advance, ImageJobs.advance in H. walk H; try (by left); quiet; try (by left).
  rename x5 into r. subst x3. destruct Hm0 as (Hr & Hmatch & Hnode & _). guards.
  specialize (Hm _ eq_refl). subst x1.
  destruct (same status (jr_status r)) eqn:Es.
  { inv_run. guards. injection H as <- <-. split; [done|right]. split; [done|]. by exists r. }
  walk H; try (by left); guards.
  - apply write_record_run in Hm as [[E _]|E]; [by left|right].
    exists r. split_and!; try done. by apply advance_guards_le.
  - injection H as <- <-. split; [done|left]. exists r.
    apply write_record_run in Hm as [[_ [e' He]]|E]; [done|].
    split_and!; try done. by apply advance_guards_le.
Qed.

Lemma advance_evolves status : steps evolves (advance status).
Proof.
  intros w. destruct (advance status w) as [out w'] eqn:E. simpl.
  apply advance_run in E.
  assert (w_jobs w' = w_jobs w ∨ advanced status w w') as [Hs|(r & Hr & _ & _ & _ & Hle & Hw)].
  { destruct out; [destruct E as [_ [?|[-> _]]]; auto|done]. }
  { by apply same_jobs_evolves. }
  intros id r0 Hr0. rewrite Hw. destruct (decide (id = nj_job_id status)) as [->|Hne].
  - rewrite Hr in Hr0. injection Hr0 as <-. eexists. by rewrite lookup_insert_eq.
  - exists r0. by rewrite lookup_insert_ne.
Qed.

Lemma begin_run request w out w' :
  begin request w = (out, w') →
  (w_jobs w' = w_jobs w ∨
   ∃ t, w_jobs w !! st_job_id request = None ∧ st_node request = node ∧
        is_ulid (st_job_id request) = true ∧
        w_jobs w' = <[st_job_id request := Stored (mkRecord request (initial_status request t))]> (w_jobs w)) ∧
  ∀ j, out = Ok j → w_jobs w' !! st_job_id request = Some (Stored (mkRecord request j)).
Proof.
  intros H. unfold begin, ImageJobs.begin in H.
  walk H; try (split; [by left|done]); quiet; try (split; [by left|done]).
  specialize (Hm _ eq_refl). subst x1. guards. destruct x3 as [r|].
  { destruct Hm0 as (Hr & _). walk H; [split; [by left|done]|].
    guards. injection H as <- <-. split; [by left|]. intros j [= <-]. rewrite Hr. by destruct r; simpl in *; subst. }
  destruct Hm0 as [Hnone Hu]. walk H; apply now_run in Hm as (t & ts & [= ->] & ->).
  { split; [by left|done]. }
  all: apply now_run in Hm0 as (t' & ts' & [= ->] & ->).
  - apply write_record_run in Hm1 as [[E _]|E]; (split; [|done]); [by left|right]. by exists t'.
  - injection H as <- <-. apply write_record_run in Hm1 as [[_ [e He]]|E]; [done|].
    split; [right; by exists t'|]. intros j [= <-]. rewrite E. by rewrite lookup_insert_eq.
Qed.

Lemma begin_evolves request : steps evolves (begin request).
Proof.
  intros w. destruct (begin request w) as [out w'] eqn:E. simpl.
  apply begin_run in E as [[Hs|(t & Hnone & _ & _ & Hw)] _]; [by apply same_jobs_evolves|].
  intros id r0 Hr0. exists r0. rewrite Hw, lookup_insert_ne; [done|congruence].
Qed.
End journal.

(** ** Every call of the dispatcher *)

Section calls.
Context (node : string) (record_bytes : JobRecord → Z) (validate : list Z → option ImageRecipe)
  (sha256 : list Z → string) (recipe_sha256 : ImageRecipe → option string)
  (staged_png_ok : list Z → Z → Z → Purpose → bool).
(** A relation that [advance], [begin] and everything that leaves the records alone keep. *)
Context (R : relation World) `{!PreOrder R}
  (R_advance : ∀ s, steps R (advance node record_bytes s))
  (R_begin : ∀ r, steps R (begin node record_bytes r))
  (R_same : ∀ w w', same_jobs w w' → R w w').

Lemma calls_same {A} (m : IO A) : (∀ w, (m w).2 = w) → steps R m.
Proof. by apply steps_same. Qed.
Lemma calls_now : steps R now.
Proof.
  intros w. destruct (now w) as [out w'] eqn:E. simpl. apply now_run in E as (t & ts & _ & ->).
  by apply R_same.
Qed.
Lemma calls_durable e f : (∀ w, same_jobs w (f w)) → steps R (durable e f).
Proof. intros Hf. apply steps_durable; [done|intros; by apply R_same|intros; by apply R_same, Hf]. Qed.
Lemma calls_private_root : steps R private_root.
Proof. apply calls_same, private_root_same. Qed.
Lemma calls_get_status id : steps R (get_status node id).
Proof. apply calls_same, get_status_same. Qed.
Lemma calls_get_request id : steps R (get_request node id).
Proof. apply calls_same, get_request_same. Qed.
Lemma calls_read_record id : steps R (read_record node id).
Proof. apply calls_same, read_record_same. Qed.
Lemma calls_job_path id : steps R (job_path id).
Proof. apply calls_same. intros w. destruct (job_path id w) eqn:E. by apply job_path_run in E as [-> _]. Qed.

Hint Resolve steps_ret steps_get steps_throw steps_throw_if steps_some_or calls_now
  calls_private_root calls_get_status calls_get_request calls_read_record calls_job_path
  R_advance R_begin : image.

Ltac calls := repeat first
  [ progress intros
  | solve [auto with image]
  | match goal with
    | |- steps _ (_ ≫= _) => apply (steps_bind R)
    | |- steps _ (for_each _ _) => apply (steps_for_each R)
    | |- steps _ (finally _ _) => apply (steps_finally R)
    | |- steps _ (on_error _ _) => apply (steps_on_error R)
    | |- steps _ (map_error _ _) => apply (steps_map_error R)
    | |- steps _ (ignore_errors _) => apply (steps_ignore R)
    | |- steps _ (durable _ _) => apply calls_durable; done
    | |- steps _ (match ?x with _ => _ end) => destruct x
    | |- steps _ (let '(_, _) := ?x in _) => destruct x
    end ].

Lemma calls_later s : steps R (later s).
Proof. unfold later. calls. Qed.
Lemma calls_advance_from j f : steps R (advance_from node record_bytes j f).
Proof. unfold advance_from. pose proof calls_later. calls. Qed.
Lemma calls_discard_dir e (on : (option ScratchTree → option ScratchTree) → World → World) key names :
  (∀ f w, same_jobs w (on f w)) → steps R (discard_dir e on key names).
Proof.
  intros Hon. unfold discard_dir, sync_dir. calls; apply calls_durable; done.
Qed.
Lemma calls_open_attempt e t key : steps R (open_attempt e t key).
Proof. unfold open_attempt. calls. Qed.
Hint Resolve calls_later calls_advance_from calls_open_attempt : image.

Lemma calls_discard_scratch j : steps R (discard_cancelled_image_scratch node j).
Proof. unfold discard_cancelled_image_scratch. calls. by apply calls_discard_dir. Qed.
Lemma calls_discard_inputs j : steps R (discard_node_image_inputs node j).
Proof. unfold discard_node_image_inputs. calls. by apply calls_discard_dir. Qed.
Hint Resolve calls_discard_scratch calls_discard_inputs : image.

Lemma calls_verify_output key r j :
  steps R (verify_output node validate sha256 recipe_sha256 key r j).
Proof. unfold verify_output. calls. Qed.
Hint Resolve calls_verify_output : image.
Lemma calls_delete_output key j r :
  steps R (delete_output node validate sha256 recipe_sha256 key j r).
Proof. unfold delete_output. calls. Qed.
Hint Resolve calls_delete_output : image.

Lemma calls_delete_outputs key rs j :
  steps R (delete_outputs node validate sha256 recipe_sha256 key rs j).
Proof. unfold delete_outputs, remove_empty, sync_dir. calls. Qed.
Hint Resolve calls_delete_outputs : image.
Lemma calls_cleanup_outputs req :
  steps R (cleanup_image_outputs node record_bytes validate sha256 recipe_sha256 req).
Proof.
  unfold cleanup_image_outputs, finish_cleanup, record_receipts. calls.
Qed.
Hint Resolve calls_cleanup_outputs : image.

Lemma calls_receive key tmp inode deadline n got chunks : steps R (receive key tmp inode deadline n got chunks).
Proof. revert got. induction chunks as [|b chunks IH]; intros got; cbn [receive]; calls. Qed.
Hint Resolve calls_receive : image.
Lemma calls_stage command tmp chunks :
  steps R (stage_node_image_input node sha256 staged_png_ok command tmp chunks).
Proof. unfold stage_node_image_input, make_input_tree, make_input_dir, sync_dir. calls. Qed.

Lemma calls_put_all core req outs grants : steps R (put_all core req outs grants).
Proof. induction grants as [|g gs IH]; cbn [put_all]; unfold put_output; calls. Qed.
Hint Resolve calls_put_all : image.
Lemma calls_push core token j q req :
  steps R (push_image_outputs validate sha256 recipe_sha256 core token j q req).
Proof. unfold push_image_outputs, check_grant, verify_grant_file. calls. Qed.
Hint Resolve calls_push : image.
Lemma calls_progress w q : steps R (progress w q).
Proof. unfold progress. calls. Qed.
Hint Resolve calls_progress : image.
Lemma calls_reconcile j q w : steps R (reconcile node record_bytes j q w).
Proof. unfold reconcile, discard_terminal_attempt. calls. Qed.
Hint Resolve calls_reconcile : image.
Lemma calls_started q j w : steps R (started node record_bytes q j w).
Proof. unfold started, discard_terminal_attempt. calls. Qed.
Hint Resolve calls_started : image.
Lemma calls_pending ids : steps R (pending_of node ids).
Proof. induction ids; cbn [pending_of]; calls. Qed.
Hint Resolve calls_pending : image.

Lemma calls_worker_status wk j : steps R (worker_status wk j).
Proof. unfold worker_status. calls. Qed.
Hint Resolve calls_worker_status : image.
Lemma calls_deliver wk q : steps R (deliver node record_bytes wk q).
Proof. unfold deliver. calls. Qed.
Hint Resolve calls_deliver : image.
Lemma calls_start wk q : steps R (start node record_bytes wk q).
Proof. unfold start. calls. Qed.
Lemma calls_reserve wk q : steps R (reserve_inputs node record_bytes wk q).
Proof. unfold reserve_inputs. calls. Qed.
Lemma calls_repair j : steps R (repair_terminal node record_bytes j).
Proof. unfold repair_terminal, discard_terminal_attempt. calls. Qed.
Hint Resolve calls_repair : image.
Lemma calls_status wk b : steps R (status node record_bytes wk b).
Proof. unfold status. calls. Qed.
Lemma calls_cancel wk q : steps R (cancel node record_bytes wk q).
Proof. unfold cancel, discard_terminal_attempt. calls. Qed.
Lemma calls_cleanup q :
  steps R (cleanup node record_bytes validate sha256 recipe_sha256 q).
Proof. unfold cleanup. calls. Qed.
Lemma calls_transfer core token q :
  steps R (transfer node record_bytes validate sha256 recipe_sha256 core token q).
Proof. unfold transfer. calls. Qed.
Lemma calls_sweep listing after_job : steps R (sweep_terminal_scratch node record_bytes listing after_job).
Proof. unfold sweep_terminal_scratch, pending_terminal_cleanup. calls. Qed.
End calls.

(** ** Runs of the node *)

(** A command of the dispatcher with the answers it meets. *)
Inductive Command :=
| CReserve (wk : Worker) (q : NodeImageStartRequest)
| CStage (q : NodeImageInputRequest) (tmp : string) (chunks : list (list Z))
| CStart (wk : Worker) (q : NodeImageStartRequest)
| CStatus (wk : Worker) (b : ImageJobBinding)
| CCancel (wk : Worker) (q : NodeImageCancelRequest)
| CTransfer (core : Core) (token : bool) (q : NodeImageTransferRequest)
| CCleanup (q : NodeImageCleanupRequest)
| CSweep (listing : list string) (after_job : option string).

Section runs.
Context (node : string) (record_bytes : JobRecord → Z) (validate : list Z → option ImageRecipe)
  (sha256 : list Z → string) (recipe_sha256 : ImageRecipe → option string)
  (staged_png_ok : list Z → Z → Z → Purpose → bool).

Definition run_command (c : Command) (w : World) : World :=
  match c with
  | CReserve wk q => (reserve_inputs node record_bytes wk q w).2
  | CStage q tmp chunks => (stage_node_image_input node sha256 staged_png_ok q tmp chunks w).2
  | CStart wk q => (start node record_bytes wk q w).2
  | CStatus wk b => (status node record_bytes wk b w).2
  | CCancel wk q => (cancel node record_bytes wk q w).2
  | CTransfer core token q =>
      (transfer node record_bytes validate sha256 recipe_sha256 core token q w).2
  | CCleanup q => (cleanup node record_bytes validate sha256 recipe_sha256 q w).2
  | CSweep listing after_job => (sweep_terminal_scratch node record_bytes listing after_job w).2
  end.

(** The node runs a command, or its surroundings change: the worker writes into the
    scratch trees, a restart meets other faults and another clock. *)
Inductive node_step (w : World) : World → Prop :=
| node_command c : node_step w (run_command c w)
| node_surroundings w' : same_jobs w w' → node_step w w'.

Lemma command_evolves c w : evolves w (run_command c w).
Proof.
  destruct c; simpl;
    [apply calls_reserve|apply calls_stage|apply calls_start|apply calls_status|apply calls_cancel
    |apply calls_transfer|apply calls_cleanup|apply calls_sweep];
    first [apply _|apply advance_evolves|apply begin_evolves|apply same_jobs_evolves].
Qed.

(** C14. However the dispatcher's commands, worker answers, failed writes, restarts and
    clocks interleave, a recorded job keeps its request and attempt, only follows the
    state machine, never leaves a terminal state (only the cleanup mark may be added),
    never loses progress, receipts, output manifests or its process, and its update time
    does not go back. *)
Theorem job_history w w' : rtc node_step w w' → evolves w w'.
Proof.
  induction 1 as [w|w1 w2 w3 Hstep _ IH]; [done|]. etrans; [|done].
  destruct Hstep as [c|w2 Hs]; [apply command_evolves|by apply same_jobs_evolves].
Qed.
End runs.
