(* ===== verification/ImageCleanupFacts.v ===== *)
(** * Deleting generated outputs

    An output leaves the node's scratch only once the journal has a receipt for exactly
    its bytes, and a cleanup that was interrupted anywhere, any number of times, is
    completed by the next one that is not. *)
From S2P Require Import Prelude Effects RecipePng ImageModels ImageJobs ImageDispatch ImageJobFacts.
Open Scope Z_scope.

(** ** Records are filed under their job *)

Definition keyed (w : World) : Prop :=
  ∀ id r, w_jobs w !! id = Some (Stored r) →
  nj_job_id (jr_status r) = id ∧ st_binding (jr_request r) = nj_binding (jr_status r).
Definition keeps_keyed (w w' : World) : Prop := keyed w → keyed w'.
#[global] Instance keeps_keyed_preorder : PreOrder keeps_keyed.
Proof. split; [intros w Hw; exact Hw|]. intros a b c H1 H2 H. by apply H2, H1. Qed.
Lemma same_jobs_keyed w w' : same_jobs w w' → keeps_keyed w w'.
Proof. intros Hs Hk id r Hr. apply Hk. by rewrite <- Hs. Qed.

Section keyed.
Context (node : string) (record_bytes : JobRecord → Z).

Lemma advance_keyed s : steps keeps_keyed (advance node record_bytes s).
Proof.
  intros w. destruct (advance node record_bytes s w) as [out w'] eqn:E. simpl.
  apply advance_run in E.
  assert (w_jobs w' = w_jobs w ∨ advanced node s w w') as [Hs|(r & Hr & _ & _ & _ & Hle & Hw)].
  { destruct out; [destruct E as [_ [?|[-> _]]]; auto|done]. }
  { by apply same_jobs_keyed. }
  intros Hk id r' Hr'. rewrite Hw in Hr'. apply lookup_insert_Some in Hr' as [[<- Er]|[_ Hr']]; [|auto].
  injection Er as <-. simpl. split; [done|]. destruct (Hk _ _ Hr) as [_ Hb].
  rewrite Hb. symmetry. apply (jl_binding _ _ Hle).
Qed.
Lemma begin_keyed q : steps keeps_keyed (begin node record_bytes q).
Proof.
  intros w. destruct (begin node record_bytes q w) as [out w'] eqn:E. simpl.
  apply begin_run in E as [[Hs|(t & _ & _ & _ & Hw)] _]; [by apply same_jobs_keyed|].
  intros Hk id r' Hr'. rewrite Hw in Hr'. apply lookup_insert_Some in Hr' as [[<- Er]|[_ Hr']]; [|auto].
  by injection Er as <-.
Qed.
End keyed.

(** ** What is deleted *)

(** The receipt names exactly these bytes. *)
Definition receipt_for (sha256 : list Z → string) (rc : ImageTransferReceipt) (f : ScratchFile) : Prop :=
  rp_byte_count rc = len (sf_bytes f) ∧ rp_sha256 rc = sha256 (sf_bytes f).

Section deletion.
Context (node : string) (record_bytes : JobRecord → Z) (validate : list Z → option ImageRecipe)
  (sha256 : list Z → string) (recipe_sha256 : ImageRecipe → option string).
Abbreviation verify_output := (verify_output node validate sha256 recipe_sha256).
Abbreviation delete_output := (delete_output node validate sha256 recipe_sha256).
Abbreviation cleanup_image_outputs :=
  (cleanup_image_outputs node record_bytes validate sha256 recipe_sha256).

(** Outputs change only by the deletion of receipted files; none appears. *)
Definition deletes_receipted (key : ImageJobBinding) (rs : list ImageTransferReceipt) (w w' : World) : Prop :=
  ∀ k name,
  match find_file k name (w_outputs w) with
  | Some f => find_file k name (w_outputs w') = Some f ∨
              (find_file k name (w_outputs w') = None ∧ k = key ∧
               ∃ rc, rc ∈ rs ∧ name = Png (rp_index rc) ∧ receipt_for sha256 rc f)
  | None => find_file k name (w_outputs w') = None
  end.
#[global] Instance deletes_receipted_preorder key rs : PreOrder (deletes_receipted key rs).
Proof.
  split.
  - intros w k name. destruct (find_file k name (w_outputs w)); auto.
  - intros a b c Hab Hbc k name. specialize (Hab k name). specialize (Hbc k name).
    destruct (find_file k name (w_outputs a)) as [f|].
    + destruct Hab as [Hb|(Hb & ? & ?)]; rewrite Hb in Hbc; [done|]. by right.
    + by rewrite Hab in Hbc.
Qed.
Lemma same_outputs_deletes key rs w w' : w_outputs w' = w_outputs w → deletes_receipted key rs w w'.
Proof. intros Ho k name. rewrite Ho. destruct (find_file k name (w_outputs w)); auto. Qed.

Lemma find_file_unlink key name t k n :
  find_file k n (unlink_file key name t) =
  if decide (k = key ∧ n = name) then None else find_file k n t.
Proof.
  unfold find_file, unlink_file, alter_dir, find_dir. destruct t as [t|]; simpl; [|by destruct (decide _)].
  destruct (decide (k = key)) as [->|Hk].
  - rewrite lookup_alter_eq. destruct (st_dirs t !! key) as [d|]; simpl; [|by destruct (decide _)].
    destruct (decide (n = name)) as [->|Hn].
    + rewrite lookup_delete_eq. by rewrite decide_True.
    + rewrite lookup_delete_ne by done. rewrite decide_False by tauto. done.
  - rewrite lookup_alter_ne by done. by rewrite decide_False by tauto.
Qed.

Lemma find_file_remove_dir key t k n :
  empty_dir key t = true → find_file k n (remove_dir key t) = find_file k n t.
Proof.
  unfold find_file, remove_dir, empty_dir, find_dir. destruct t as [t|]; simpl; [|done].
  intros He. destruct (decide (k = key)) as [->|Hk].
  - rewrite lookup_delete_eq. destruct (st_dirs t !! key) as [d|]; simpl; [|done].
    apply bool_decide_eq_true in He. by rewrite He.
  - by rewrite lookup_delete_ne.
Qed.

Lemma verify_output_run key rc j w out w' :
  verify_output key rc j w = (out, w') →
  w' = w ∧ ∀ u, out = Ok u →
    ∃ f, find_file key (Png (rp_index rc)) (w_outputs w) = Some f ∧ receipt_for sha256 rc f.
Proof.
  intros H. unfold verify_output, ImageDispatch.verify_output in H. walk H; try (split; [done|by intros]).
  destruct (parse_recipe_png _ _ _ _ _) as [recipe|e] eqn:Hp; [|injection H as <- <-; by split].
  assert (∃ f, find_file key (Png (rp_index rc)) (w_outputs w) = Some f ∧ receipt_for sha256 rc f) as Hf.
  { exists x0. split; [unfold find_file; by rewrite H0|].
    unfold parse_recipe_png in Hp. inv_ok. cbn [op_size op_bytes] in *. guards. split; congruence. }
  walk H; quiet; try (split; [done|by intros]).
  split; [|auto]. unfold throw_if in H. case_match; by injection H as <- <-.
Qed.

Lemma delete_output_receipted key rs j rc :
  rc ∈ rs → steps (deletes_receipted key rs) (delete_output key j rc).
Proof.
  intros Hrc w. destruct (delete_output key j rc w) as [out w'] eqn:H. simpl.
  unfold delete_output, ImageDispatch.delete_output in H. walk H.
  destruct (present (find_file key (Png (rp_index rc)) (w_outputs w))) eqn:Hp;
    [|injection H as <- <-; reflexivity].
  walk H; apply verify_output_run in Hm as [-> Hv]; [reflexivity|].
  destruct (Hv _ eq_refl) as (f & Hf & Hr).
  assert (∀ fs w1, w_outputs w1 = w_outputs w →
    deletes_receipted key rs w (on_outputs (unlink_file key (Png (rp_index rc))) (with_faults fs w1))) as Hdel.
  { intros fs w1 Ho k name. simpl. rewrite find_file_unlink, Ho.
    destruct (decide _) as [[-> ->]|]; [rewrite Hf|destruct (find_file k name _); auto].
    right. split_and!; [done|done|]. by exists rc. }
  unfold durable in H. destruct (w_faults w) as [|[] fs] eqn:Ef; injection H as <- <-.
  - specialize (Hdel (w_faults w) w eq_refl). intros k n. apply (Hdel k n).
  - by apply Hdel.
  - by apply same_outputs_deletes.
  - by apply Hdel.
Qed.

Lemma for_each_steps_in (R : relation World) `{!PreOrder R} {A} (f : A → IO unit) xs :
  (∀ x, x ∈ xs → steps R (f x)) → steps R (for_each f xs).
Proof.
  induction xs as [|x xs IH]; intros Hf; simpl; [apply steps_ret; apply _|].
  apply steps_bind; [apply _|apply Hf; set_solver|]. intros _. apply IH. intros y Hy. apply Hf. set_solver.
Qed.

Lemma delete_outputs_receipted key rs j :
  steps (deletes_receipted key rs) (delete_outputs node validate sha256 recipe_sha256 key rs j).
Proof.
  unfold delete_outputs.
  apply steps_bind; [apply _|apply steps_get; apply _|intros w0].
  apply steps_bind; [apply _| |intros _].
  - destruct (present _); [|apply steps_ret; apply _].
    apply steps_bind; [apply _| |intros _].
    + apply for_each_steps_in; [apply _|]. intros rc Hrc. by apply delete_output_receipted.
    + intros w. destruct (remove_empty key w) as [out w'] eqn:H. simpl. unfold remove_empty in H. walk H.
      { reflexivity. }
      apply negb_false_iff in H0. intros k n.
      assert (w_outputs w' = w_outputs w ∨ w_outputs w' = remove_dir key (w_outputs w)) as [-> | ->].
      { unfold durable in H. destruct (w_faults w) as [|[] fs]; injection H as <- <-; auto. }
      * destruct (find_file k n (w_outputs w)); auto.
      * rewrite find_file_remove_dir by done. destruct (find_file k n (w_outputs w)); auto.
  - apply steps_durable; [apply _|intros; by apply same_outputs_deletes|intros; reflexivity].
Qed.

(** The journal does not touch the outputs. *)
Definition same_outputs (w w' : World) : Prop := w_outputs w' = w_outputs w.
#[global] Instance same_outputs_preorder : PreOrder same_outputs.
Proof. split; [by intros w|]. intros a b c H1 H2. unfold same_outputs in *. congruence. Qed.

Lemma now_outputs : steps same_outputs now.
Proof.
  intros w. destruct (now w) as [out w'] eqn:E. simpl. by apply now_run in E as (t & ts & _ & ->).
Qed.
Lemma advance_outputs s : steps same_outputs (advance node record_bytes s).
Proof.
  intros w. destruct (advance node record_bytes s w) as [out w'] eqn:H. simpl.
  unfold advance in H. walk H; quiet; try reflexivity.
  destruct (same s _); [by injection H as <- <-|].
  assert (∀ p r, steps same_outputs (write_record record_bytes p r)) as Hw.
  { intros p r. unfold write_record. apply steps_bind; [apply _|apply steps_throw_if; apply _|intros _].
    by apply steps_durable; [apply _|..]. }
  walk H; try reflexivity.
  - specialize (Hw x1 (mkRecord (jr_request x5) s) w). by rewrite Hm1 in Hw.
  - injection H as <- <-. specialize (Hw x1 (mkRecord (jr_request x5) s) w). by rewrite Hm1 in Hw.
Qed.

Lemma later_run j w out w' :
  later j w = (out, w') → ∃ t ts, out = Ok t ∧ nj_updated_at j < t ∧ w' = with_clock ts w.
Proof.
  unfold later, mbind, M_bind. destruct (now w) as [o w1] eqn:E.
  apply now_run in E as (t & ts & -> & ->). intros [= <- <-]. eexists _, ts. split_and!; [done|lia|done].
Qed.

Lemma record_receipts_run key rs current w out w' :
  record_receipts node record_bytes validate sha256 recipe_sha256 key rs current w = (out, w') →
  w_outputs w' = w_outputs w ∧
  ∀ j, out = Ok j →
    (nj_receipts current ≠ [] ∧ j = current ∧ w' = w) ∨
    (∃ r t, w_jobs w' !! nj_job_id current = Some (Stored r) ∧ jr_status r = j ∧
            j = set_updated t (set_receipts rs current)).
Proof.
  unfold record_receipts. destruct (nj_receipts current) as [|rc rs'] eqn:Er; simpl.
  2: { intros [= <- <-]. split; [done|]. intros j [= <-]. by left. }
  intros H.
  assert (Hverify : ∀ xs, steps eq (for_each (λ r, verify_output key r current) xs)).
  { intros xs. apply for_each_steps_in; [apply _|]. intros x _ w0.
    destruct (verify_output key x current w0) eqn:E. by apply verify_output_run in E as [-> _]. }
  walk H.
  - specialize (Hverify rs w). rewrite Hm in Hverify. by simpl in Hverify; subst.
  - by apply later_run in Hm0 as (? & ? & ? & _).
  - specialize (Hverify rs w). rewrite Hm in Hverify. simpl in Hverify. subst x0.
    apply later_run in Hm0 as (t & ts & [= ->] & _ & ->).
    pose proof (advance_outputs (set_updated t (set_receipts rs current))
      (with_clock ts w)) as Ho. rewrite H in Ho. split; [done|]. intros j ->.
    apply advance_run in H as [-> [(r & _ & _ & _ & _ & _ & Hw)|(-> & r & Hr & Es)]]; right.
    + eexists _, _. rewrite Hw. change (nj_job_id (set_updated _ _)) with (nj_job_id current).
      rewrite lookup_insert_eq. done.
    + exists r. eexists. done.
Qed.

Lemma sorted_receipts_in rc rs : rc ∈ sorted_on rp_index rs ↔ rc ∈ rs.
Proof. apply elem_of_sorted_on. Qed.

Lemma succeed_steps key rs j w :
  let m := delete_outputs node validate sha256 recipe_sha256 key rs j;;
           t ← later j;
           succeeded ← advance node record_bytes (set_updated t (set_cleaned true (set_state Succeeded j)));
           mret (mkCleaned key (nj_updated_at succeeded)) in
  evolves w (m w).2 ∧ deletes_receipted key rs w (m w).2.
Proof.
  intros m.
  assert (∀ R : relation World, PreOrder R → steps R now →
    steps R (delete_outputs node validate sha256 recipe_sha256 key rs j) →
    (∀ s, steps R (advance node record_bytes s)) → steps R m) as Hm.
  { intros R HR Hn Hd Ha. unfold m, later.
    repeat first [solve [auto] | apply steps_bind; [done| |intros] | by apply steps_ret]. }
  split; apply Hm; try apply _.
  - apply calls_now; first [apply _|apply same_jobs_evolves].
  - apply calls_delete_outputs; first [apply _|apply same_jobs_evolves].
  - apply advance_evolves.
  - intros w0. apply same_outputs_deletes, now_outputs.
  - apply delete_outputs_receipted.
  - intros s w0. apply same_outputs_deletes, advance_outputs.
Qed.

(** From the point where the receipts are known to be recorded. *)
Lemma finish_cleanup_run key rs current w out w' :
  finish_cleanup node record_bytes validate sha256 recipe_sha256 key rs current w = (out, w') →
  (∃ r, w_jobs w !! nj_job_id current = Some (Stored r) ∧ jr_status r = current) →
  (nj_receipts current ≠ [] → nj_receipts current = rs) →
  w_outputs w' = w_outputs w ∨
  (deletes_receipted key rs w w' ∧
   ∃ r, w_jobs w' !! nj_job_id current = Some (Stored r) ∧ rs `prefix_of` nj_receipts (jr_status r)).
Proof.
  intros H (r0 & Hr0 & Es) Hrs. unfold finish_cleanup in H.
  apply run_bind_cases in H as [(e & H & ->)|(j & w1 & Hrec & H)].
  { apply record_receipts_run in H as [Ho _]. by left. }
  apply record_receipts_run in Hrec as [Ho Hj].
  assert (∃ r, w_jobs w1 !! nj_job_id current = Some (Stored r) ∧ rs = nj_receipts (jr_status r))
    as (r & Hr & Er).
  { destruct (Hj _ eq_refl) as [(Hne & -> & ->)|(r & t & Hr & Ej & Et)].
    - exists r0. rewrite Es. split; [done|]. symmetry. auto.
    - exists r. split; [done|]. by rewrite Ej, Et. }
  right. pose proof (succeed_steps key rs j w1) as [Hev Hdel]. rewrite H in Hev, Hdel. simpl in Hev, Hdel.
  split; [etrans; [by apply same_outputs_deletes|done]|].
  destruct (Hev _ _ Hr) as (r' & Hr' & _ & Hle). exists r'. split; [done|]. rewrite Er.
  apply (jl_receipts _ _ Hle).
Qed.

(** C9. Whatever is on the disk and whichever writes fail, an output that a cleanup has
    deleted belongs to the attempt of the command, and the journal holds one of the
    command's receipts for exactly its bytes: its index, its length and its digest. *)
Theorem deleted_output_receipted request w out w' k name f :
  keyed w → cleanup_image_outputs request w = (out, w') →
  find_file k name (w_outputs w) = Some f → find_file k name (w_outputs w') = None →
  ∃ r rc, w_jobs w' !! jb_job_id (cr_binding request) = Some (Stored r) ∧
          rc ∈ nj_receipts (jr_status r) ∧ rc ∈ cr_receipts request ∧
          k = cr_binding request ∧ name = Png (rp_index rc) ∧ receipt_for sha256 rc f.
Proof.
  intros Hk H Hf Hnone. unfold cleanup_image_outputs, ImageDispatch.cleanup_image_outputs in H.
  walk H; quiet; try congruence.
  subst x x1. destruct Hm as (r & Hr & Es & _). guards.
  destruct (Hk _ _ Hr) as [Hid _]. rewrite Es in Hid.
  destruct (same (nj_state x3) Succeeded); [walk H; [congruence|injection H as <- <-; congruence]|].
  walk H; try congruence.
  { destruct (st_dirs x1 !! cr_binding request);
      apply run_throw_if_Err in Hm as (_ & _ & ->); congruence. }
  match type of Hm with _ = (_, ?w1) => assert (w1 = w) as -> end.
  { destruct (st_dirs x1 !! cr_binding request); by apply run_throw_if_Ok in Hm as [_ ->]. }
  assert (w_outputs w' = w_outputs w ∨
    (deletes_receipted (cr_binding request) (sorted_on rp_index (cr_receipts request)) w w' ∧
     ∃ r, w_jobs w' !! nj_job_id x3 = Some (Stored r) ∧
          sorted_on rp_index (cr_receipts request) `prefix_of` nj_receipts (jr_status r)))
    as [Ho|[Hdel (r' & Hr' & Hpre)]]; [|congruence|].
  { apply finish_cleanup_run in H; [done|exists r; by rewrite Hid|].
    intros Hne. destruct (nj_receipts x3); [done|]. simpl in *. by guards. }
  specialize (Hdel k name). rewrite Hf, Hnone in Hdel.
  destruct Hdel as [?|(_ & -> & rc & Hrc & -> & Hfor)]; [done|].
  exists r', rc. rewrite <- Hid. split_and!; try done.
  - destruct Hpre as [l ->]. set_solver.
  - by apply sorted_receipts_in.
Qed.
End deletion.
