(* ===== verification/ImageResume.v ===== *)
(** * An interrupted cleanup resumes

    A transferred attempt whose outputs and receipts agree stays one that can be cleaned
    up ([cleanable]) whatever writes of a cleanup fail, and a cleanup without failures
    then returns, with the job succeeded and its scratch gone. *)
From S2P Require Import Prelude Effects RecipePng ImageModels ImageJobs ImageDispatch ImageJobFacts ImageCleanupFacts.
Open Scope Z_scope.

#[local] Arguments parse_recipe_png : simpl never.

Section resume.
Context (node : string) (record_bytes : JobRecord → Z) (validate : list Z → option ImageRecipe)
  (sha256 : list Z → string) (recipe_sha256 : ImageRecipe → option string).
(** Records have at most 128 KiB. *)
Hypothesis records_fit : ∀ r, record_bytes r ≤ MAX_RECORD_BYTES.
(** The start command of the attempt, and a cleanup command for all its outputs. *)
Context (q : NodeImageStartRequest) (request : NodeImageCleanupRequest).
Abbreviation key := (cr_binding request).
Abbreviation job_id := (jb_job_id (cr_binding request)).
Abbreviation rs := (sorted_on rp_index (cr_receipts request)).
Hypothesis q_binding : st_binding q = key.
Hypothesis q_node : st_node q = node.
Hypothesis request_node : cr_node request = node.
Hypothesis request_ulid : is_ulid job_id = true.
Hypothesis request_valid : cleanup_receipts_match request = true.
Hypothesis request_complete : rp_index <$> rs = seqZ 0 (start_n q).

Abbreviation advance := (advance node record_bytes).
Abbreviation verify_output := (verify_output node validate sha256 recipe_sha256).
Abbreviation delete_output := (delete_output node validate sha256 recipe_sha256).
Abbreviation delete_outputs := (delete_outputs node validate sha256 recipe_sha256).
Abbreviation record_receipts := (record_receipts node record_bytes validate sha256 recipe_sha256).
Abbreviation finish_cleanup := (finish_cleanup node record_bytes validate sha256 recipe_sha256).
Abbreviation cleanup_image_outputs :=
  (cleanup_image_outputs node record_bytes validate sha256 recipe_sha256).

(** ** The scratch of the attempt *)

(** The file is what the receipt names, and the recipe in it is the attempt's. *)
Definition verifies (d : ScratchDir) (rc : ImageTransferReceipt) (f : ScratchFile) : Prop :=
  exclusive d f = true ∧
  ∃ recipe, parse_recipe_png validate sha256 (Some (mkOpened true (len (sf_bytes f)) (sf_bytes f)))
              (Some (rp_byte_count rc)) (Some (rp_sha256 rc)) = Ok recipe ∧
            rc_resolved recipe = st_resolved q ∧ rc_output_index recipe = rp_index rc ∧
            recipe_sha256 recipe = Some (rp_recipe_sha256 rc).
(** Nothing but receipted outputs is left. *)
Definition files_ok (d : ScratchDir) : Prop :=
  ∀ name f, sd_files d !! name = Some f → ∃ rc, rc ∈ rs ∧ name = Png (rp_index rc) ∧ verifies d rc f.
Definition scratch_ok (t : option ScratchTree) : Prop :=
  ∃ tree, t = Some tree ∧ st_private tree = true ∧
  ∀ d, st_dirs tree !! key = Some d → sd_private d = true ∧ files_ok d.

Lemma rs_index_inj a b : a ∈ rs → b ∈ rs → rp_index a = rp_index b → a = b.
Proof.
  apply NoDup_fmap_inj. rewrite request_complete. apply NoDup_seqZ.
Qed.

Lemma links_delete d name f n :
  sd_files d !! n = Some f → n ≠ name →
  (links (mkDir (sd_private d) (delete name (sd_files d))) f ≤ links d f)%nat ∧
  (1 ≤ links (mkDir (sd_private d) (delete name (sd_files d))) f)%nat.
Proof.
  intros Hf Hn. unfold links. simpl. split.
  - destruct (sd_files d !! name) as [g|] eqn:Hg.
    + rewrite <- (map_to_list_delete (sd_files d) name g) by done. rewrite filter_cons.
      destruct (decide _); simpl; lia.
    + by rewrite delete_id.
  - assert ((n, f) ∈ filter (λ x : Name * ScratchFile, sf_inode x.2 = sf_inode f)
              (map_to_list (delete name (sd_files d)))) as Hin.
    { apply list_elem_of_filter. split; [done|]. apply elem_of_map_to_list. by rewrite lookup_delete_ne. }
    destruct (filter _ _); [by apply not_elem_of_nil in Hin|]. simpl. lia.
Qed.

Lemma exclusive_delete d name f n :
  sd_files d !! n = Some f → n ≠ name → exclusive d f = true →
  exclusive (mkDir (sd_private d) (delete name (sd_files d))) f = true.
Proof.
  unfold exclusive. intros Hf Hn H. apply andb_true_iff in H as [-> Hl]. apply Nat.eqb_eq in Hl.
  destruct (links_delete d name f n Hf Hn). apply Nat.eqb_eq. lia.
Qed.

Lemma files_ok_delete d name :
  files_ok d → files_ok (mkDir (sd_private d) (delete name (sd_files d))).
Proof.
  intros Hd n f Hf. simpl in Hf. apply lookup_delete_Some in Hf as [Hn Hf].
  destruct (Hd n f Hf) as (rc & Hrc & -> & Hex & Hv). exists rc. split_and!; [done|done|].
  split; [by eapply exclusive_delete|done].
Qed.

Lemma scratch_ok_unlink t name : scratch_ok t → scratch_ok (unlink_file key name t).
Proof.
  intros (tree & -> & Hp & Hd). unfold unlink_file, alter_dir. simpl.
  eexists. split_and!; [done|done|]. simpl. intros d. rewrite lookup_alter_eq.
  destruct (st_dirs tree !! key) as [d0|] eqn:E; simpl; [|done]. intros [= <-].
  destruct (Hd d0 eq_refl). split; [done|by apply files_ok_delete].
Qed.
Lemma scratch_ok_remove t : scratch_ok t → scratch_ok (remove_dir key t).
Proof.
  intros (tree & -> & Hp & Hd). unfold remove_dir. simpl. eexists. split_and!; [done|done|].
  simpl. intros d. by rewrite lookup_delete_eq.
Qed.

(** ** The record of the attempt *)

Record current_ok (j : NodeImageJob) : Prop := {
  co_binding : nj_binding j = key;
  co_node : nj_node j = node;
  co_instance : nj_instance_id j = st_instance_id q;
  co_valid : valid_job j = true;
}.
Definition stored (j : NodeImageJob) (w : World) : Prop :=
  current_ok j ∧ w_root_private w = true ∧ w_jobs w !! job_id = Some (Stored (mkRecord q j)).

Lemma stored_id j w : stored j w → nj_job_id j = job_id.
Proof. intros [[Hb _ _ _] _]. unfold nj_job_id. by rewrite Hb. Qed.

Lemma read_stored j w : stored j w → read_record node job_id w = (Ok (Some (mkRecord q j)), w).
Proof.
  intros ([Hb Hn Hi _] & _ & Hj). unfold read_record, job_path, mbind, M_bind, get, throw_if, mret, M_ret.
  rewrite request_ulid. simpl. rewrite Hj. unfold record_matches. simpl.
  rewrite Hb, Hn, Hi, q_binding, q_node, !same_refl. done.
Qed.
Lemma private_stored j w : stored j w → private_root w = (Ok tt, w).
Proof.
  intros (_ & Hp & _). unfold private_root, mbind, M_bind, get, throw_if. simpl. by rewrite Hp.
Qed.
Lemma get_status_stored j w : stored j w → get_status node job_id w = (Ok (Some j), w).
Proof.
  intros Hs. unfold get_status, mbind, M_bind. by rewrite (private_stored j), (read_stored j).
Qed.
Lemma get_request_stored j w : stored j w → get_request node job_id w = (Ok (Some q), w).
Proof.
  intros Hs. unfold get_request, mbind, M_bind. by rewrite (private_stored j), (read_stored j).
Qed.

Lemma verify_output_ok j rc d f w :
  stored j w → find_dir key (w_outputs w) = Some d → sd_files d !! Png (rp_index rc) = Some f →
  verifies d rc f → verify_output key rc j w = (Ok tt, w).
Proof.
  intros Hs Hd Hf (Hex & recipe & Hp & Hres & Hi & Hdig).
  unfold ImageDispatch.verify_output, mbind, M_bind, get, some_or, throw_if, mret, M_ret. simpl.
  rewrite Hd, Hf, Hex. simpl. rewrite Hp, (stored_id j w Hs), (get_request_stored j w Hs). simpl.
  rewrite Hres, same_refl, Hi, Z.eqb_refl, Hdig. simpl. by rewrite same_refl.
Qed.

(** Where nothing fails. *)
Definition calm (w : World) : Prop := w_faults w = [].

(** ** Recording *)

(** A status that may replace the recorded one. *)
Definition replaces (old new : NodeImageJob) : Prop :=
  current_ok new ∧ same_attempt old new = true ∧ transition_allowed old new = true ∧
  progress_kept old new = true ∧ evidence_kept old new = true ∧ same new old = false.

Lemma advance_resumes old new w :
  stored old w → replaces old new →
  (∃ out w', advance new w = (out, w') ∧ w_outputs w' = w_outputs w ∧
             (stored old w' ∧ is_ok out = false ∨ stored new w' ∧ (out = Ok new ∨ is_ok out = false)) ∧
             (calm w → out = Ok new ∧ calm w')).
Proof.
  intros Hs (Hc & Ha & Ht & Hp & He & Hne).
  assert (Hid : nj_job_id new = job_id) by (unfold nj_job_id; by rewrite (co_binding _ Hc)).
  unfold ImageJobs.advance. rewrite (co_valid _ Hc), Hid. unfold mbind, M_bind. simpl.
  rewrite (private_stored old w Hs). unfold job_path, mbind, M_bind, throw_if, mret, M_ret.
  rewrite request_ulid. simpl. rewrite (read_stored old w Hs). simpl.
  rewrite Ha. simpl. rewrite Hne, Ht, Hp, He. simpl.
  unfold write_record, mbind, M_bind, throw_if. pose proof (records_fit (mkRecord q new)).
  replace (record_bytes (mkRecord q new) >? MAX_RECORD_BYTES) with false by lia. simpl.
  destruct Hs as (Hold & Hroot & Hj).
  assert (∀ w1, w_jobs w1 = w_jobs w → w_root_private w1 = true →
    stored new (with_jobs (<[job_id := Stored (mkRecord q new)]> (w_jobs w1)) w1)) as Hnew.
  { intros w1 _ Hr. split_and!; [done|done|]. simpl. by rewrite lookup_insert_eq. }
  unfold durable, calm. destruct (w_faults w) as [|[] fs] eqn:Ef; eexists _, _; (split; [reflexivity|]).
  - split_and!; [done| |done..]. right. split; [by apply Hnew|by left].
  - split_and!; [done| |done..]. right. split; [by apply (Hnew (with_faults fs w))|by left].
  - split_and!; [done| |done..]. left. done.
  - split_and!; [done| |done..]. right. split; [by apply (Hnew (with_faults fs w))|by right].
Qed.

Lemma rs_bound : forallb (λ p, same (rp_binding p) key && same (rp_node p) node) rs = true ∧
                 len rs <= 4 ∧ nonempty rs = true.
Proof.
  unfold cleanup_receipts_match, within in request_valid. guards.
  assert (len rs = len (cr_receipts request)) as Hl.
  { unfold len. by rewrite (Permutation_length (sorted_on_perm rp_index (cr_receipts request))). }
  split_and!.
  - rewrite forallb_forall in *. intros x Hx. rewrite <- request_node.
    match goal with H : ∀ x, In x _ → _ |- _ => apply H end.
    rewrite <- list_elem_of_In in *. by apply elem_of_sorted_on in Hx.
  - lia.
  - destruct rs; [|done]. change (len []) with 0 in Hl. lia.
Qed.

Lemma current_ok_update j j' :
  current_ok j → nj_binding j' = nj_binding j → nj_node j' = nj_node j →
  nj_instance_id j' = nj_instance_id j → valid_job j' = true → current_ok j'.
Proof. intros [] ? ? ? ?. split; congruence. Qed.

Lemma same_refl_pid j j' :
  nj_binding j' = nj_binding j → nj_node j' = nj_node j → nj_instance_id j' = nj_instance_id j →
  nj_pid j' = nj_pid j → nj_process_create_time j' = nj_process_create_time j →
  same_attempt j j' = true.
Proof.
  intros E1 E2 E3 E4 E5. unfold same_attempt. rewrite E1, E2, E3, E4, E5, !same_refl. simpl.
  apply orb_true_r.
Qed.
Lemma progress_kept_refl j j' :
  nj_progress_step j' = nj_progress_step j → nj_progress_total j' = nj_progress_total j →
  progress_kept j j' = true.
Proof.
  intros E1 E2. unfold progress_kept. rewrite E1, E2.
  destruct (nj_progress_step j), (nj_progress_total j); rewrite ?same_refl, ?Z.leb_refl; done.
Qed.
Lemma updated_differs j j' : nj_updated_at j < nj_updated_at j' → same j' j = false.
Proof. intros H. apply same_false. intros ->. lia. Qed.

Lemma record_replaces j t :
  current_ok j → nj_state j = Transferring → nj_receipts j = [] → nj_updated_at j < t →
  replaces j (set_updated t (set_receipts rs j)).
Proof.
  intros Hc Hs Hr Ht. destruct rs_bound as (Hb & Hl & Hne).
  split_and!; [|by apply same_refl_pid| |by apply progress_kept_refl| |by apply updated_differs].
  - apply (current_ok_update j); try done. pose proof (co_valid _ Hc) as Hv.
    unfold valid_job, job_fields, receipts_match in *. simpl. guards.
    rewrite (co_binding _ Hc), (co_node _ Hc) in *. rewrite Hs in *.
    rewrite !andb_true_iff. split_and!; try done; [lia|by rewrite andb_false_r].
  - unfold transition_allowed. simpl. by rewrite Hs, same_refl.
  - unfold evidence_kept. simpl. rewrite Hr, Hs, !same_refl. simpl.
    replace (nj_updated_at j <? t) with true by lia.
    rewrite !andb_false_r. by destruct (nj_scratch_cleaned j).
Qed.

Lemma succeed_replaces j t :
  current_ok j → nj_state j = Transferring → nj_receipts j = rs → nj_updated_at j < t →
  replaces j (set_updated t (set_cleaned true (set_state Succeeded j))).
Proof.
  intros Hc Hs Hr Ht. destruct rs_bound as (Hb & Hl & Hne).
  split_and!; [|by apply same_refl_pid| |by apply progress_kept_refl| |by apply updated_differs].
  - apply (current_ok_update j); try done. pose proof (co_valid _ Hc) as Hv.
    unfold valid_job, job_fields, receipts_match in *. simpl. guards.
    rewrite (co_binding _ Hc), (co_node _ Hc), Hr in *. rewrite Hs in *.
    rewrite !andb_true_iff. split_and!; try done; [by rewrite Hne|by rewrite andb_false_r].
  - unfold transition_allowed. simpl. by rewrite Hs.
  - unfold evidence_kept. simpl. rewrite !same_refl, take_ge by done. rewrite same_refl. simpl.
    replace (nj_updated_at j <? t) with true by lia. rewrite !andb_false_r. done.
Qed.

(** ** Deleting *)

Definition resumable (j : NodeImageJob) (w : World) : Prop := stored j w ∧ scratch_ok (w_outputs w).
Definition gone (rc : ImageTransferReceipt) (w : World) : Prop :=
  find_file key (Png (rp_index rc)) (w_outputs w) = None.

(** A step from a resumable disk: it stays resumable, [Q] holds if the step returns, and
    it returns where nothing fails. *)
Definition resumes {A} (j : NodeImageJob) (m : IO A) (w : World) (Q : World → Prop) : Prop :=
  ∃ out w', m w = (out, w') ∧ resumable j w' ∧ (is_ok out = true → Q w') ∧
            (calm w → is_ok out = true ∧ calm w').

Lemma resumes_ret {A} j (a : A) w (Q : World → Prop) : resumable j w → Q w → resumes j (mret a) w Q.
Proof. intros Hr HQ. by exists (Ok a), w. Qed.
Lemma resumes_bind {A B} j (m : IO A) (f : A → IO B) w (Q R : World → Prop) :
  resumes j m w Q → (∀ a w1, resumable j w1 → Q w1 → resumes j (f a) w1 R) → resumes j (m ≫= f) w R.
Proof.
  intros (out & w1 & E & Hr & HQ & Hc) Hf. unfold resumes, mbind, M_bind. rewrite E.
  destruct out as [a|e].
  - destruct (Hf a w1 Hr (HQ eq_refl)) as (out & w' & E' & Hr' & HQ' & Hc').
    exists out, w'. split_and!; [done|apply Hr'..|done|]. intros Hw. by apply Hc', Hc.
  - exists (Err e), w1. split_and!; [done|apply Hr..|done|]. intros Hw. by destruct (Hc Hw).
Qed.

(** A durable change of the outputs that keeps them in order. *)
Lemma durable_resumes j w e g :
  resumable j w → scratch_ok (g (w_outputs w)) →
  resumes j (durable e (on_outputs g)) w (λ w', w_outputs w' = g (w_outputs w)).
Proof.
  intros [Hs Ho] Hg. unfold durable, calm.
  destruct (w_faults w) as [|[] fs] eqn:Ef; eexists _, _;
    (split; [unfold durable; rewrite Ef; reflexivity|]);
    (split; [split; [exact Hs|first [exact Hg|exact Ho]]|]); unfold calm; rewrite Ef; by split.
Qed.

Lemma delete_output_resumes j rc w :
  rc ∈ rs → resumable j w → resumes j (delete_output key j rc) w (gone rc).
Proof.
  intros Hrc Hres. unfold ImageDispatch.delete_output, resumes. unfold mbind at 1, M_bind at 1, get. cbv beta iota.
  destruct (find_file key (Png (rp_index rc)) (w_outputs w)) as [f|] eqn:Hf; cbn [present];
    [|by apply (resumes_ret j tt)].
  destruct Hres as [Hs Ho]. pose proof Ho as (tree & Et & Hp & Hd).
  unfold find_file in Hf. destruct (find_dir key (w_outputs w)) as [d|] eqn:Hdir; [|done]. simpl in Hf.
  assert (Hdd : st_dirs tree !! key = Some d) by (unfold find_dir in Hdir; by rewrite Et in Hdir).
  destruct (Hd d Hdd) as [_ Hfiles]. destruct (Hfiles _ _ Hf) as (rc' & Hrc' & [= Ei] & Hv).
  assert (rc' = rc) as -> by (by apply rs_index_inj).
  apply (resumes_bind j _ _ w (λ w1, w1 = w)).
  { exists (Ok tt), w. by rewrite (verify_output_ok j rc d f w Hs Hdir Hf Hv). }
  intros _ w1 Hr1 ->.
  destruct (durable_resumes j w ImageCleanupUnavailable (unlink_file key (Png (rp_index rc))) Hr1
              (scratch_ok_unlink _ _ Ho)) as (out & w' & E & Hr & HQ & Hc).
  exists out, w'. split_and!; [done|apply Hr..| |done]. intros Hok. unfold gone.
  rewrite (HQ Hok), find_file_unlink. by rewrite decide_True.
Qed.

Lemma gone_mono j rc rc' w : rc ∈ rs → gone rc' w → gone rc' (delete_output key j rc w).2.
Proof.
  intros Hrc Hg.
  pose proof (delete_output_receipted node validate sha256 recipe_sha256 key rs j rc Hrc w
    key (Png (rp_index rc'))) as Hdel. unfold gone in *. by rewrite Hg in Hdel.
Qed.

Lemma delete_each_resumes j done xs w :
  (∀ rc, rc ∈ xs → rc ∈ rs) → resumable j w → (∀ rc, rc ∈ done → gone rc w) →
  resumes j (for_each (delete_output key j) xs) w (λ w', ∀ rc, rc ∈ done ++ xs → gone rc w').
Proof.
  revert done w. induction xs as [|rc xs IH]; intros done w Hin Hres Hdone.
  { apply (resumes_ret j tt); [done|]. by rewrite app_nil_r. }
  cbn [for_each]. apply (resumes_bind j _ _ w (λ w1, ∀ rc', rc' ∈ done ++ [rc] → gone rc' w1)).
  - destruct (delete_output_resumes j rc w ltac:(set_solver) Hres) as (out & w1 & E & Hr & HQ & Hc).
    exists out, w1. split_and!; [easy|apply Hr..| |easy]. intros Hok rc' [Hd| ->%list_elem_of_singleton]%elem_of_app.
    + pose proof (gone_mono j rc rc' w ltac:(set_solver) (Hdone _ Hd)) as Hm. by rewrite E in Hm.
    + by apply HQ.
  - intros _ w1 Hr1 Hd1. replace (done ++ rc :: xs) with ((done ++ [rc]) ++ xs) by (by rewrite <- app_assoc).
    apply IH; [set_solver|easy|easy].
Qed.

Lemma all_gone_empty w :
  scratch_ok (w_outputs w) → present (find_dir key (w_outputs w)) = true →
  (∀ rc, rc ∈ rs → gone rc w) → empty_dir key (w_outputs w) = true.
Proof.
  intros (tree & Et & _ & Hd) Hpres Hall. unfold empty_dir, find_dir in *. rewrite Et in *. simpl in *.
  destruct (st_dirs tree !! key) as [d|] eqn:Hdir; [|done]. apply bool_decide_eq_true.
  destruct (Hd d eq_refl) as [_ Hfiles]. apply map_eq. intros name. rewrite lookup_empty.
  destruct (sd_files d !! name) as [f|] eqn:Hf; [|done].
  destruct (Hfiles _ _ Hf) as (rc & Hrc & -> & _). specialize (Hall rc Hrc).
  unfold gone, find_file, find_dir in Hall. rewrite Et in Hall. simpl in Hall. rewrite Hdir in Hall.
  simpl in Hall. congruence.
Qed.

(** Unlinking files leaves the directory. *)
Definition dir_kept (w w' : World) : Prop :=
  present (find_dir key (w_outputs w)) = true → present (find_dir key (w_outputs w')) = true.
#[local] Instance dir_kept_preorder : PreOrder dir_kept.
Proof. split; [intros w H; exact H|]. intros a b c H1 H2 H. by apply H2, H1. Qed.
Lemma delete_each_dir j xs : steps dir_kept (for_each (delete_output key j) xs).
Proof.
  apply for_each_steps_in; [apply _|]. intros rc _ w.
  destruct (delete_output key j rc w) as [out w'] eqn:H. simpl.
  unfold ImageDispatch.delete_output in H. walk H.
  destruct (present (find_file _ _ _)); [|by injection H as <- <-].
  walk H; apply verify_output_run in Hm as [-> _]; [easy|].
  assert (∀ w1, w_outputs w1 = w_outputs w →
    dir_kept w (on_outputs (unlink_file key (Png (rp_index rc))) w1)) as Hk.
  { intros w1 Ho Hp. simpl. rewrite Ho. unfold unlink_file, alter_dir, find_dir in *.
    destruct (w_outputs w) as [t|]; [|easy]. simpl in *. rewrite lookup_alter_eq.
    by destruct (st_dirs t !! key). }
  unfold durable in H. destruct (w_faults w) as [|[] fs]; injection H as <- <-; try (by apply Hk). easy.
Qed.

Lemma remove_empty_resumes j w :
  resumable j w → empty_dir key (w_outputs w) = true →
  resumes j (remove_empty key) w (λ w', find_dir key (w_outputs w') = None).
Proof.
  intros Hres He. unfold remove_empty, resumes. unfold mbind at 1, M_bind at 1, get. cbv beta iota. rewrite He.
  destruct (durable_resumes j w ImageCleanupUnavailable (remove_dir key) Hres
              (scratch_ok_remove _ (proj2 Hres))) as (out & w' & E & Hr & HQ & Hc).
  exists out, w'. split_and!; [exact E|apply Hr..| |done]. intros Hok. rewrite (HQ Hok).
  unfold remove_dir, find_dir. destruct (w_outputs w); simpl; [by rewrite lookup_delete_eq|done].
Qed.

Lemma delete_outputs_resumes j w :
  resumable j w →
  resumes j (delete_outputs key rs j) w (λ w', find_dir key (w_outputs w') = None).
Proof.
  intros Hres. unfold ImageDispatch.delete_outputs, resumes. unfold mbind at 1, M_bind at 1, get. cbv beta iota.
  apply (resumes_bind j _ _ w (λ w', find_dir key (w_outputs w') = None)).
  - destruct (present (find_dir key (w_outputs w))) eqn:Hp.
    + apply (resumes_bind j _ _ w (λ w1, empty_dir key (w_outputs w1) = true)).
      * destruct (delete_each_resumes j [] rs w) as (out & w1 & E & Hr & HQ & Hc);
          [done|done|by intros ? ?%not_elem_of_nil|].
        exists out, w1. split_and!; [done|apply Hr..| |done]. intros Hok.
        apply all_gone_empty; [apply Hr| |by apply HQ].
        pose proof (delete_each_dir j rs w Hp) as Hd. by rewrite E in Hd.
      * intros _ w1 Hr1 He. by apply remove_empty_resumes.
    + apply resumes_ret; [done|]. by destruct (find_dir key (w_outputs w)).
  - intros _ w1 Hr1 Hn. unfold sync_dir.
    destruct (durable_resumes j w1 ImageCleanupUnavailable id Hr1 (proj2 Hr1)) as (out & w' & E & Hr & HQ & Hc).
    assert (durable ImageCleanupUnavailable id w1 = durable ImageCleanupUnavailable (on_outputs id) w1) as Eid.
    { unfold durable. destruct w1 as [? ? ? ? ? fs ?]. simpl. by destruct fs as [|[] ?]. }
    exists out, w'. rewrite Eid. split_and!; [done|apply Hr..| |done]. intros Hok. by rewrite (HQ Hok).
Qed.

(** ** The whole command *)

Definition complete (w : World) : Prop :=
  ∃ d, find_dir key (w_outputs w) = Some d ∧
       ∀ rc, rc ∈ rs → ∃ f, sd_files d !! Png (rp_index rc) = Some f.

(** An attempt whose cleanup can run or resume, and one whose cleanup is over. *)
Definition unfinished (w : World) : Prop :=
  ∃ j, resumable j w ∧ nj_state j = Transferring ∧
       (nj_receipts j = rs ∨ (nj_receipts j = [] ∧ complete w)).
Definition finished (w : World) : Prop :=
  ∃ j, stored j w ∧ nj_state j = Succeeded ∧ nj_receipts j = rs ∧ nj_scratch_cleaned j = true ∧
       find_dir key (w_outputs w) = None.
Definition cleanable (w : World) : Prop := unfinished w ∨ finished w.

(** Record: the receipts are there or everything is as it was. *)
Lemma record_resumes j w :
  resumable j w → nj_state j = Transferring → nj_receipts j = rs ∨ (nj_receipts j = [] ∧ complete w) →
  ∃ out w', record_receipts key rs j w = (out, w') ∧ unfinished w' ∧
            (∀ j', out = Ok j' → resumable j' w' ∧ nj_state j' = Transferring ∧ nj_receipts j' = rs) ∧
            (calm w → is_ok out = true ∧ calm w').
Proof.
  intros Hres Hst Hrec. unfold ImageDispatch.record_receipts.
  destruct rs_bound as (_ & _ & Hne).
  destruct Hrec as [Hr|[Hr Hcomp]]; rewrite Hr.
  { rewrite Hne. exists (Ok j), w. split_and!; [done|exists j; auto| |done]. intros j' [= <-]. auto. }
  cbn [nonempty].
  assert (Hver : ∀ xs, (∀ rc, rc ∈ xs → rc ∈ rs) →
    for_each (λ r, verify_output key r j) xs w = (Ok tt, w)).
  { induction xs as [|rc xs IH]; intros Hin; [done|]. cbn [for_each]. unfold mbind, M_bind.
    destruct Hcomp as (d & Hdir & Hall). destruct (Hall rc) as [f Hf]; [set_solver|].
    destruct Hres as [Hs (tree & Et & Hp & Hd)].
    assert (Hdd : st_dirs tree !! key = Some d) by (unfold find_dir in Hdir; by rewrite Et in Hdir).
    destruct (Hd d Hdd) as [_ Hfiles]. destruct (Hfiles _ _ Hf) as (rc' & Hrc' & [= Ei] & Hv).
    assert (rc' = rc) as -> by (apply rs_index_inj; [done|set_solver|done]).
    rewrite (verify_output_ok j rc d f w Hs Hdir Hf Hv). apply IH. set_solver. }
  unfold mbind, M_bind. rewrite Hver by done.
  destruct (later j w) as [o w1] eqn:El. apply later_run in El as (t & ts & -> & Ht & ->).
  destruct (advance_resumes j (set_updated t (set_receipts rs j)) (with_clock ts w))
    as (out & w' & E & Ho & Hout & Hcalm); [exact (proj1 Hres)|apply record_replaces; auto; apply Hres|].
  rewrite E. exists out, w'.
  assert (Hres' : ∀ j', stored j' w' → resumable j' w') by (intros j' Hs'; split; [done|rewrite Ho; apply Hres]).
  split_and!; [done| | |].
  - destruct Hout as [[Hs' _]|[Hs' _]]; eexists; (split; [by apply Hres'|]); split; auto.
    right. split; [done|]. unfold complete. by rewrite Ho.
  - intros j' ->. destruct Hout as [[_ ?]|[Hs' [[= ->]|?]]]; [done| |done]. auto.
  - intros Hc. destruct (Hcalm Hc) as [-> ?]. done.
Qed.

Lemma finish_resumes j w :
  resumable j w → nj_state j = Transferring → nj_receipts j = rs ∨ (nj_receipts j = [] ∧ complete w) →
  ∃ out w', finish_cleanup key rs j w = (out, w') ∧ cleanable w' ∧
            (calm w → is_ok out = true ∧ calm w' ∧ finished w').
Proof.
  intros Hres Hst Hrec. unfold ImageDispatch.finish_cleanup.
  destruct (record_resumes j w Hres Hst Hrec) as (out1 & w1 & E1 & Hun & Hok & Hc1).
  unfold mbind at 1, M_bind at 1. rewrite E1.
  destruct out1 as [j1|e]; [|exists (Err e), w1; split_and!; [done|by left|]; intros Hc; by destruct (Hc1 Hc)].
  destruct (Hok _ eq_refl) as (Hr1 & Hst1 & Hrs1).
  destruct (delete_outputs_resumes j1 w1 Hr1) as (out2 & w2 & E2 & Hr2 & HQ2 & Hc2).
  unfold mbind at 1, M_bind at 1. rewrite E2.
  destruct out2 as [u|e].
  2: { exists (Err e), w2. split_and!; [done|left; exists j1; auto|].
       intros Hc. destruct (Hc1 Hc) as [_ Hcw]. by destruct (Hc2 Hcw). }
  unfold mbind at 1, M_bind at 1. destruct (later j1 w2) as [o w3] eqn:El.
  apply later_run in El as (t & ts & -> & Ht & ->).
  destruct (advance_resumes j1 (set_updated t (set_cleaned true (set_state Succeeded j1))) (with_clock ts w2))
    as (out & w' & E & Ho & Hout & Hcalm);
    [exact (proj1 Hr2)|apply succeed_replaces; auto; apply Hr2|].
  unfold mbind, M_bind. rewrite E.
  assert (Hfin : stored (set_updated t (set_cleaned true (set_state Succeeded j1))) w' → finished w').
  { intros Hs. eexists. split_and!; [exact Hs|done|done|done|]. rewrite Ho. by apply HQ2. }
  assert (Hclean : cleanable w').
  { destruct Hout as [[Hs _]|[Hs _]]; [left|by right; apply Hfin].
    exists j1. split; [split; [done|rewrite Ho; apply Hr2]|auto]. }
  destruct out as [sj|e].
  - exists (Ok (mkCleaned key (nj_updated_at sj))), w'. split_and!; [done|done|].
    intros Hc. destruct Hout as [[_ ?]|[Hs _]]; [done|].
    destruct (Hc1 Hc) as [_ Hcw]. destruct (Hc2 Hcw) as [_ Hcw2]. destruct (Hcalm Hcw2). auto.
  - exists (Err e), w'. split_and!; [done|done|].
    intros Hc. destruct (Hc1 Hc) as [_ Hcw]. destruct (Hc2 Hcw) as [_ Hcw2]. by destruct (Hcalm Hcw2).
Qed.

Lemma cleanup_steps w :
  cleanable w →
  ∃ out w', cleanup_image_outputs request w = (out, w') ∧ cleanable w' ∧
            (calm w → is_ok out = true ∧ calm w' ∧ finished w').
Proof.
  intros Hclean. unfold ImageDispatch.cleanup_image_outputs.
  assert (∃ j, stored j w ∧ (nj_state j = Transferring ∧ scratch_ok (w_outputs w) ∧
      (nj_receipts j = rs ∨ (nj_receipts j = [] ∧ complete w)) ∨
    nj_state j = Succeeded ∧ nj_receipts j = rs ∧ nj_scratch_cleaned j = true ∧
    find_dir key (w_outputs w) = None)) as (j & Hs & Hphase).
  { destruct Hclean as [(j & [Hs Ho] & ? & ?)|(j & Hs & ?)]; exists j; split; auto. }
  assert (Hfence : same_fence (nj_binding j) key = true).
  { rewrite (co_binding _ (proj1 Hs)). unfold same_fence. by rewrite !Z.eqb_refl. }
  unfold mbind, M_bind. rewrite (get_status_stored j w Hs), (get_request_stored j w Hs). simpl.
  rewrite (co_node _ (proj1 Hs)), request_node, Hfence, request_complete, !same_refl. unfold throw_if. simpl.
  destruct Hphase as [(Hst & Ho & Hrec)|(Hst & Hr & Hcl & Hdir)]; rewrite Hst; simpl.
  2: { rewrite Hr, same_refl, Hcl. eexists _, w. split; [reflexivity|]. split; [done|].
       intros Hc. split_and!; [done|done|]. by exists j. }
  assert (nonempty (nj_receipts j) && negb (same (nj_receipts j) rs) = false) as ->.
  { destruct Hrec as [->|[-> _]]; [by rewrite same_refl, andb_false_r|done]. }
  destruct (finish_resumes j w (conj Hs Ho) Hst Hrec) as (out & w' & E & Hc & Hfin).
  exists out, w'. split; [|done]. destruct Ho as (tree & Et & Hp & Hd). simpl. rewrite Et. simpl. rewrite Hp. simpl.
  destruct (st_dirs tree !! key) as [d|] eqn:Ed.
  - destruct (Hd d eq_refl) as [-> _]. done.
  - assert (nonempty (nj_receipts j) = true) as ->; [|done].
    destruct rs_bound as (_ & _ & Hne). destruct Hrec as [->|[_ (d & Hdir & _)]]; [done|].
    unfold find_dir in Hdir. rewrite Et in Hdir. simpl in Hdir. congruence.
Qed.

(** A cleanup attempt, with the faults and the clock it meets. *)
Definition attempt_cleanup (w : World) (env : list Fault * list Z) : World :=
  (cleanup_image_outputs request (with_clock env.2 (with_faults env.1 w))).2.

Lemma cleanable_env w env : cleanable w → cleanable (with_clock env.2 (with_faults env.1 w)).
Proof. done. Qed.

(** C13. However often the cleanup of a transferred attempt is interrupted, wherever in its
    writes and deletions, the next one that meets no failure returns, and then the job is
    recorded as succeeded, with every receipt, and its outputs are gone. *)
Theorem cleanup_resumes w attempts clock :
  cleanable w →
  let w1 := foldl attempt_cleanup w attempts in
  ∃ receipt w2, cleanup_image_outputs request (with_clock clock (with_faults [] w1)) = (Ok receipt, w2) ∧
                finished w2.
Proof.
  intros Hw w1.
  assert (cleanable w1) as Hw1.
  { subst w1. revert w Hw. induction attempts as [|env attempts IH]; intros w Hw; [done|]. simpl.
    apply IH. unfold attempt_cleanup.
    destruct (cleanup_steps (with_clock env.2 (with_faults env.1 w))) as (out & w' & E & Hc & _);
      [by apply (cleanable_env w env)|]. by rewrite E. }
  destruct (cleanup_steps (with_clock clock (with_faults [] w1))) as (out & w2 & E & _ & Hcalm);
    [by apply (cleanable_env w1 ([], clock))|].
  destruct (Hcalm eq_refl) as (Hok & _ & Hfin). destruct out as [receipt|]; [|done].
  by exists receipt, w2.
Qed.
End resume.
