(* ===== verification/ImageScenario.v ===== *)
(** * Image attempts, run

    One attempt with one output and one input: a cleanup interrupted after its receipts
    were recorded and resumed, and an upload interrupted between the link of the staged
    input and the removal of its temporary name, which no later command can discard. *)
From S2P Require Import Prelude Effects RecipePng RecipePngFacts ImageModels ImageJobs ImageDispatch ImageJobFacts ImageCleanupFacts ImageResume.
Open Scope Z_scope.

(** ** The attempt *)

Definition job : string := "01J00000000000000000000000".
Definition binding : ImageJobBinding := mkBinding job 1 7.
Definition studio : string := "coire-studio-a".

Definition small_spec : ImageSpec :=
  mkSpec "model" None IMG2IMG "a lake" None 64 64 4 (dec_of 0) (Some 9) 1 [] (Some "input") (Some (dec_of 1))
    None None None false.
Definition small_resolved : ResolvedImageSpec :=
  mkResolved small_spec [9] "mflux-0.20.0" "env" "sum" [] [mkInputDigest "input" "in-sha" 64 64] None None "hash".
Definition small_recipe_of : ImageRecipe := mkRecipe small_resolved 0 9 "pixels" 64 64.
Definition small_start : NodeImageStartRequest :=
  mkStart binding studio "model" "instance" small_resolved
    [mkInput "input" Init "in-sha" 3 64 64] 1000 4096.

(** The arguments: a validator that reads every document as this recipe, and digests
    that tell the output from the input. *)
Definition validate (_ : list Z) : option ImageRecipe := Some small_recipe_of.
Definition sha256 (bytes : list Z) : string := if len bytes =? 3 then "in-sha" else "out-sha".
Definition recipe_sha256 (_ : ImageRecipe) : option string := Some "recipe-sha".
Definition record_bytes (_ : JobRecord) : Z := 1024.
Definition staged_png_ok (_ : list Z) (_ _ : Z) (_ : Purpose) : bool := true.

Definition output_bytes : list Z := encode_png small_png.
Definition output : ImageWorkerOutputManifest :=
  mkOutput 0 (len output_bytes) "out-sha" "recipe-sha" None.
Definition receipt : ImageTransferReceipt :=
  mkReceipt binding studio 0 "output" (len output_bytes) "out-sha" "recipe-sha" None 50.
Definition cleanup_command : NodeImageCleanupRequest := mkCleanup binding studio [receipt].

Definition transferring : NodeImageJob :=
  mkJob binding studio "instance" Transferring (Some 5) (Some 6) (Some 4) (Some 4) None [output] []
    false None 40.
Definition output_dir : ScratchDir := mkDir true {[Png 0 := mkFile true 1 output_bytes]}.
Definition transferred : World :=
  mkWorld true {[job := Stored (mkRecord small_start transferring)]} []
    (Some (mkTree true {[binding := output_dir]})) None [] [].

Lemma transferred_cleanable :
  cleanable studio validate sha256 recipe_sha256 small_start cleanup_command transferred.
Proof.
  left. exists transferring. split_and!; [split| |].
  - split_and!; [|done|done]. split; by vm_compute.
  - eexists. split_and!; [reflexivity|done|].
    intros d Hd. cbn [st_dirs] in Hd. apply lookup_singleton_Some in Hd as [_ <-]. split; [done|].
    intros name f Hf. cbn [sd_files output_dir] in Hf. apply lookup_singleton_Some in Hf as [<- <-].
    exists receipt. split_and!; [vm_compute; by left|done|].
    split; [by vm_compute|]. exists small_recipe_of. split_and!; by vm_compute.
  - done.
  - right. split; [done|]. exists output_dir. split; [reflexivity|].
    intros rc Hrc. vm_compute in Hrc. apply list_elem_of_singleton in Hrc as ->.
    exists (mkFile true 1 output_bytes). done.
Qed.

Lemma transferred_keyed : keyed transferred.
Proof.
  intros id r Hr. unfold transferred in Hr. cbn [w_jobs] in Hr.
  by apply lookup_singleton_Some in Hr as [<- [= <-]].
Qed.

Definition clean := cleanup_image_outputs studio record_bytes validate sha256 recipe_sha256 cleanup_command.

(** Interrupted right after the deletion of the output. *)
Definition interrupted : World := (clean (with_faults [Fine; FailsAfter] transferred)).2.
Example interrupted_state :
  find_file binding (Png 0) (w_outputs interrupted) = None ∧
  (∃ j, w_jobs interrupted !! job = Some (Stored (mkRecord small_start j)) ∧
        nj_state j = Transferring ∧ nj_receipts j = [receipt]).
Proof. split; [by vm_compute|]. eexists. by vm_compute. Qed.

Lemma cleanup_resumes_witness :
  ∃ done w, clean (with_clock [] (with_faults [] interrupted)) = (Ok done, w) ∧
            finished studio small_start cleanup_command w.
Proof.
  apply (cleanup_resumes studio record_bytes validate sha256 recipe_sha256 ltac:(done) small_start
           cleanup_command eq_refl eq_refl eq_refl eq_refl ltac:(by vm_compute) ltac:(by vm_compute)
           transferred [([Fine; FailsAfter], [])] []).
  apply transferred_cleanable.
Defined.

Lemma deleted_output_receipted_witness :
  ∃ r rc, w_jobs interrupted !! job = Some (Stored r) ∧ rc ∈ nj_receipts (jr_status r) ∧
          rc ∈ [receipt] ∧ binding = cr_binding cleanup_command ∧ Png 0 = Png (rp_index rc) ∧
          receipt_for sha256 rc (mkFile true 1 output_bytes).
Proof.
  apply (deleted_output_receipted studio record_bytes validate sha256 recipe_sha256 cleanup_command
           (with_faults [Fine; FailsAfter] transferred)
           (clean (with_faults [Fine; FailsAfter] transferred)).1 interrupted binding (Png 0)).
  - exact transferred_keyed.
  - apply surjective_pairing.
  - reflexivity.
  - apply interrupted_state.
Defined.

Lemma job_history_witness :
  evolves transferred
    (run_command studio record_bytes validate sha256 recipe_sha256 staged_png_ok (CCleanup cleanup_command)
       (with_faults [Fine; FailsAfter] transferred)).
Proof.
  apply (job_history studio record_bytes validate sha256 recipe_sha256 staged_png_ok).
  eapply rtc_l; [|eapply rtc_once, node_command]. by apply node_surroundings.
Defined.

(** ** An upload interrupted before its temporary name is removed *)

Definition queued_job : NodeImageJob := initial_status small_start 10.
Definition queued_world : World :=
  mkWorld true {[job := Stored (mkRecord small_start queued_job)]} [] None None [] [].
Definition upload : NodeImageInputRequest := mkInputRequest binding studio "input" Init "in-sha" 3.

Definition stage := stage_node_image_input studio sha256 staged_png_ok upload "tmp" [[1; 2]; [3]].
(** The tree, the directory, the temporary file, two blocks, their sync, the link and the
    directory's sync succeed; the agent stops before the temporary name is removed. *)
Definition crash_before_unlink : list Fault := replicate 8 Fine ++ [FailsBefore].
Definition after_crash : World := (stage (with_faults crash_before_unlink queued_world)).2.

Example staged_without_crash :
  is_ok (stage queued_world).1 = true ∧
  is_ok (discard_node_image_inputs studio queued_job (stage queued_world).2).1 = true.
Proof. by vm_compute. Qed.
Example linked_twice :
  (map_to_list <$> (sd_files <$> find_dir binding (w_inputs after_crash))) =
  Some [(Uploading "input" "tmp", mkFile true 1 [1; 2; 3]); (InputName "input", mkFile true 1 [1; 2; 3])]
  ∨ (map_to_list <$> (sd_files <$> find_dir binding (w_inputs after_crash))) =
  Some [(InputName "input", mkFile true 1 [1; 2; 3]); (Uploading "input" "tmp", mkFile true 1 [1; 2; 3])].
Proof. vm_compute. auto. Qed.

(** The agent stops while an input is staged, after the file has been linked to its
    name and before the temporary name is removed.  From then on the directory holds one
    file under two names, its link count is two, and every attempt to cancel the job
    raises and changes nothing, whatever the worker answers and whether writes succeed;
    an upload without that crash is discarded. *)
Theorem interrupted_upload_stuck wk requested_at faults clock :
  let w := with_clock clock (with_faults faults after_crash) in
  cancel studio record_bytes wk (mkCancel binding requested_at) w = (Err ImageJournalUnavailable, w) ∧
  is_ok (cancel studio record_bytes wk (mkCancel binding requested_at) (stage queued_world).2).1 = true.
Proof. vm_compute. split; reflexivity. Qed.

(** ** A page of the sweep *)

(** Consecutive sweeps, each after the last id of the page before, read every job of
    the directory exactly once and in order, in whatever order the directory lists its
    entries and although a page keeps at most [limit] ids while it is built; each page is
    the next [limit] ids. *)
Theorem sweep_covers fuel limit listing :
  0 < limit → NoDup listing → (length (List.filter is_ulid listing) < fuel)%nat →
  concat (sweep_pages fuel None limit listing) = sort_ids (List.filter is_ulid listing) ∧
  scan_page None limit listing = take (Z.to_nat limit) (sort_ids (List.filter is_ulid listing)).
Proof.
  intros Hl Hnd Hf.
  assert (List.filter (eligible None) listing = List.filter is_ulid listing) as E.
  { apply List.filter_ext. intros id. unfold eligible. apply andb_true_r. }
  split; [|rewrite scan_page_sorted by lia; by rewrite E].
  rewrite sweep_pages_all; [by rewrite E|done|done|by rewrite E].
Qed.

Definition job2 : string := "01J00000000000000000000001".
Lemma sweep_covers_witness :
  concat (sweep_pages 3 None 1 [job2; "notes"; job]) = [job; job2] ∧
  scan_page None 1 [job2; "notes"; job] = [job].
Proof.
  apply (sweep_covers 3 1 [job2; "notes"; job]).
  - lia.
  - apply (bool_decide_unpack _). vm_compute. exact I.
  - vm_compute. lia.
Defined.
