(* ===== verification/Instances.v ===== *)
(** * Model instances

    coire_api/instance/service.py, the instance routes that write, and the single-node
    launch and drain of coire_scheduler/instances.py.  The database is [Cluster]: a table
    is the list of its rows in the order of insertion, except that the memory ledger, the
    reservations and the leases of a node are kept with the node ([Placement.Node]).  A
    [session_scope] block is a [transaction]; it reads the clock once.  Workflow steps
    that poll are split into the transaction they repeat.  New row ids, the answers of
    the registry ([resolve_target]) and of other services are arguments. *)
From S2P Require Import Prelude Effects Placement.
Open Scope Z_scope.

(** ** Rows *)

Inductive InstanceState :=
| Requested | Reserving | Launching | Warming | Ready | Draining | Stopped | Failed.
#[global] Instance InstanceState_eq : EqDecision InstanceState.
Proof. solve_decision. Defined.

Inductive Reachability := HEALTHY | DEGRADED | UNREACHABLE | UNKNOWN.
#[global] Instance Reachability_eq : EqDecision Reachability.
Proof. solve_decision. Defined.
Inductive EngineState := EStarting | EReady | EStopping | EStopped | EFailed | EOrphan.
#[global] Instance EngineState_eq : EqDecision EngineState.
Proof. solve_decision. Defined.
Inductive PlacementState :=
| PRequested | PWaitingForDrain | PEvicting | PReserving | PLoading | PReady | PRefused | PFailed.
#[global] Instance PlacementState_eq : EqDecision PlacementState.
Proof. solve_decision. Defined.
Inductive ShardingMode := TENSOR_PARALLEL | PIPELINE_PARALLEL.
#[global] Instance ShardingMode_eq : EqDecision ShardingMode.
Proof. solve_decision. Defined.
Inductive ShardGroupState := GPreparing | GStarting | GReady | GStopping | GStopped | GFailed.
#[global] Instance ShardGroupState_eq : EqDecision ShardGroupState.
Proof. solve_decision. Defined.
Inductive CommandState := CPending | CRunning | CSucceeded | CFailed.
#[global] Instance CommandState_eq : EqDecision CommandState.
Proof. solve_decision. Defined.
Inductive ShardOperation := Prepare | MarkReady | Stop.
#[global] Instance ShardOperation_eq : EqDecision ShardOperation.
Proof. solve_decision. Defined.

(** The placement policy: [image:...], [sharded:tp], [sharded:pp] or a single node. *)
Inductive Policy := Image (p : string) | Sharded (m : ShardingMode) | Single (p : string).
#[global] Instance Policy_eq : EqDecision Policy.
Proof. solve_decision. Defined.
Definition is_sharded (p : Policy) : bool := match p with Sharded _ => true | _ => false end.
Definition is_image (p : Policy) : bool := match p with Image _ => true | _ => false end.

Record ModelInstance := mkInstance {
  in_id : string;
  in_model_id : string;
  in_variant_id : option string;
  in_adapter_id : option string;
  in_decision_id : option string;
  in_policy : Policy;
  in_smoke : bool;
  in_state : InstanceState;
  in_failure_code : option string;
  in_failure_detail : option string;
  in_updated_at : Z;
  in_transitioned_at : Z;
  in_drain_deadline : option Z;
  in_fallback_attempted_at : option Z;
  in_fallback_instance_id : option string;
  in_fallback_no_fit : bool;
}.
Record InstanceMember := mkMember {
  mb_instance_id : string;
  mb_node_id : string;
  mb_rank : Z;
  mb_engine_id : option string;
  mb_reservation_id : option string;
  mb_host : string;
  mb_port : option Z;
  mb_rank_healthy : bool;
  mb_last_rank_health_at : option Z;
}.
Record InstanceTransition := mkTransition {
  tr_instance_id : string;
  tr_sequence : Z;
  tr_previous_state : option InstanceState;
  tr_state : InstanceState;
  tr_reason : option string;
}.
Record Audit := mkAudit {
  au_action : string;
  au_target_id : string;
  au_previous : option InstanceState;
  au_state : option InstanceState;
}.
Record EngineProcess := mkEngine {
  en_id : string;
  en_instance_id : option string;
  en_model_id : option string;
  en_variant_id : option string;
  en_adapter_id : option string;
  en_node_id : string;
  en_port : Z;
  en_state : EngineState;
  en_started_at : Z;
}.
Record ModelVariant := mkVariant {
  va_id : string;
  va_model_id : string;
  va_slug : string;
  va_validated : bool;
  va_visual : bool;
  va_memory_estimate_bytes : Z;
}.
Record VariantCopy := mkCopy { vc_variant_id : string; vc_node_id : string; vc_verified : bool }.
Record PlacementDecision := mkDecision {
  pd_id : string;
  pd_model_id : string;
  pd_variant_id : option string;
  pd_policy : string;
  pd_required_bytes : Z;
  pd_state : PlacementState;
  pd_selected_node_id : option string;
  pd_evicted_reservation_ids : list string;
  pd_refusal_code : option string;
  pd_refusal_detail : option string;
}.
Record PlacementCommand := mkPlacementCommand {
  pc_id : string;
  pc_decision_id : string;
  pc_node_id : string;
  pc_reservation_id : option string;
  pc_engine_id : string;
  pc_state : CommandState;
  pc_failure_code : option string;
  pc_failure_detail : option string;
}.
Record EvictionEvent := mkEviction {
  ev_decision_id : string;
  ev_node_id : string;
  ev_reservation_id : string;
  ev_lru_rank : Z;
  ev_skipped : list PlacementOccupant;
  ev_outcome : string;
}.
Record ShardGroup := mkGroup {
  sg_id : string;
  sg_instance_id : string;
  sg_mode : ShardingMode;
  sg_state : ShardGroupState;
  sg_command_id : string;
  sg_hostfile_sha256 : string;
  sg_state_reason : option string;
  sg_stopped_at : option Z;
}.
Record ShardRank := mkRank { rk_rank : Z; rk_node_name : string; rk_host : string; rk_port : Z }.
Record ShardGroupCommand := mkGroupCommand {
  gc_command_id : string;
  gc_group_id : string;
  gc_instance_id : string;
  gc_variant_id : string;
  gc_slug : string;
  gc_mode : ShardingMode;
  gc_ranks : list ShardRank;
  gc_estimate_bytes_per_rank : Z;
  gc_hostfile_sha256 : string;
}.
Record ShardCommand := mkShardCommand {
  sc_id : string;
  sc_group_id : string;
  sc_node_id : string;
  sc_operation : ShardOperation;
  sc_payload : option ShardGroupCommand;
  sc_state : CommandState;
  sc_result : option ShardGroupState;
  sc_failure_detail : option string;
  sc_created_at : Z;
}.

(** A node with its ledger row, if it has one, its reservations and its leases. *)
Record Studio := mkStudio {
  st_id : string;
  st_name : string;
  st_control_host : option string;
  st_data_host : option string;
  st_reachability : Reachability;
  st_has_ledger : bool;
  st_health : Reachability;
  st_health_reason : option string;
  st_node : Node;
}.

Record Cluster := mkCluster {
  cl_instances : list ModelInstance;
  cl_transitions : list InstanceTransition;
  cl_audit : list Audit;
  cl_members : list InstanceMember;
  cl_studios : list Studio;
  cl_engines : list EngineProcess;
  cl_variants : list ModelVariant;
  cl_copies : list VariantCopy;
  cl_decisions : list PlacementDecision;
  cl_placement_commands : list PlacementCommand;
  cl_evictions : list EvictionEvent;
  cl_groups : list ShardGroup;
  cl_shard_commands : list ShardCommand;
}.

Inductive InstanceError :=
| LookupError (what : string)
| InvalidInstanceTransition
| InstanceRuntimeError (why : string)
| IntegrityError
| ModelNotFound
| HTTPException (code : Z)
| ImageNotFound
| ImageConflict (why : string)
| UpgradeConflict (why : string)
| UpgradeUnavailable (why : string).

Definition IO := M Cluster InstanceError.

(** ** Tables *)

Definition with_instances f (w : Cluster) : Cluster :=
  mkCluster (f (cl_instances w)) (cl_transitions w) (cl_audit w) (cl_members w) (cl_studios w)
    (cl_engines w) (cl_variants w) (cl_copies w) (cl_decisions w) (cl_placement_commands w)
    (cl_evictions w) (cl_groups w) (cl_shard_commands w).
Definition with_transitions f (w : Cluster) : Cluster :=
  mkCluster (cl_instances w) (f (cl_transitions w)) (cl_audit w) (cl_members w) (cl_studios w)
    (cl_engines w) (cl_variants w) (cl_copies w) (cl_decisions w) (cl_placement_commands w)
    (cl_evictions w) (cl_groups w) (cl_shard_commands w).
Definition with_audit f (w : Cluster) : Cluster :=
  mkCluster (cl_instances w) (cl_transitions w) (f (cl_audit w)) (cl_members w) (cl_studios w)
    (cl_engines w) (cl_variants w) (cl_copies w) (cl_decisions w) (cl_placement_commands w)
    (cl_evictions w) (cl_groups w) (cl_shard_commands w).
Definition with_members f (w : Cluster) : Cluster :=
  mkCluster (cl_instances w) (cl_transitions w) (cl_audit w) (f (cl_members w)) (cl_studios w)
    (cl_engines w) (cl_variants w) (cl_copies w) (cl_decisions w) (cl_placement_commands w)
    (cl_evictions w) (cl_groups w) (cl_shard_commands w).
Definition with_studios f (w : Cluster) : Cluster :=
  mkCluster (cl_instances w) (cl_transitions w) (cl_audit w) (cl_members w) (f (cl_studios w))
    (cl_engines w) (cl_variants w) (cl_copies w) (cl_decisions w) (cl_placement_commands w)
    (cl_evictions w) (cl_groups w) (cl_shard_commands w).
Definition with_engines f (w : Cluster) : Cluster :=
  mkCluster (cl_instances w) (cl_transitions w) (cl_audit w) (cl_members w) (cl_studios w)
    (f (cl_engines w)) (cl_variants w) (cl_copies w) (cl_decisions w) (cl_placement_commands w)
    (cl_evictions w) (cl_groups w) (cl_shard_commands w).
Definition with_decisions f (w : Cluster) : Cluster :=
  mkCluster (cl_instances w) (cl_transitions w) (cl_audit w) (cl_members w) (cl_studios w)
    (cl_engines w) (cl_variants w) (cl_copies w) (f (cl_decisions w)) (cl_placement_commands w)
    (cl_evictions w) (cl_groups w) (cl_shard_commands w).
Definition with_placement_commands f (w : Cluster) : Cluster :=
  mkCluster (cl_instances w) (cl_transitions w) (cl_audit w) (cl_members w) (cl_studios w)
    (cl_engines w) (cl_variants w) (cl_copies w) (cl_decisions w) (f (cl_placement_commands w))
    (cl_evictions w) (cl_groups w) (cl_shard_commands w).
Definition with_evictions f (w : Cluster) : Cluster :=
  mkCluster (cl_instances w) (cl_transitions w) (cl_audit w) (cl_members w) (cl_studios w)
    (cl_engines w) (cl_variants w) (cl_copies w) (cl_decisions w) (cl_placement_commands w)
    (f (cl_evictions w)) (cl_groups w) (cl_shard_commands w).
Definition with_groups f (w : Cluster) : Cluster :=
  mkCluster (cl_instances w) (cl_transitions w) (cl_audit w) (cl_members w) (cl_studios w)
    (cl_engines w) (cl_variants w) (cl_copies w) (cl_decisions w) (cl_placement_commands w)
    (cl_evictions w) (f (cl_groups w)) (cl_shard_commands w).
Definition with_shard_commands f (w : Cluster) : Cluster :=
  mkCluster (cl_instances w) (cl_transitions w) (cl_audit w) (cl_members w) (cl_studios w)
    (cl_engines w) (cl_variants w) (cl_copies w) (cl_decisions w) (cl_placement_commands w)
    (cl_evictions w) (cl_groups w) (f (cl_shard_commands w)).

(** A row by its key, and the update of the rows with a key. *)
Definition by_key {A} (key : A → string) (id : string) (rows : list A) : option A :=
  List.find (λ r, String.eqb (key r) id) rows.
Definition update_key {A} (key : A → string) (id : string) (f : A → A) (rows : list A) : list A :=
  (λ r, if String.eqb (key r) id then f r else r) <$> rows.

Definition instance_row (id : string) (w : Cluster) : option ModelInstance :=
  by_key in_id id (cl_instances w).
Definition studio_row (id : string) (w : Cluster) : option Studio := by_key st_id id (cl_studios w).
Definition members_of (id : string) (w : Cluster) : list InstanceMember :=
  filter (λ m, mb_instance_id m = id) (cl_members w).
Definition group_of (instance : string) (w : Cluster) : option ShardGroup :=
  by_key sg_instance_id instance (cl_groups w).
Definition decision_row (id : option string) (w : Cluster) : option PlacementDecision :=
  d ← id; by_key pd_id d (cl_decisions w).

Definition reservations (w : Cluster) : list MemoryReservation :=
  s ← cl_studios w; nd_reservations (st_node s).
(** A reservation by its primary key, with the node that holds it. *)
Definition reservation_row (id : string) (w : Cluster) : option MemoryReservation :=
  row id (reservations w).
Definition on_node (f : Node → Node) (s : Studio) : Studio :=
  mkStudio (st_id s) (st_name s) (st_control_host s) (st_data_host s) (st_reachability s)
    (st_has_ledger s) (st_health s) (st_health_reason s) (f (st_node s)).
Definition on_rows (f : MemoryReservation → MemoryReservation) (w : Cluster) : Cluster :=
  with_studios (fmap (on_node (with_rows (fmap f)))) w.
Definition on_reservation (id : string) (f : MemoryReservation → MemoryReservation) : Cluster → Cluster :=
  on_rows (λ r, if String.eqb (mr_id r) id then f r else r).
(** The reservations an instance holds as a model, in one of the counted states. *)
Definition owned (instance : string) (r : MemoryReservation) : bool :=
  same (mr_holder_type r) MODEL && String.eqb (mr_holder_id r) instance.
Definition on_owned (instance : string) (f : MemoryReservation → MemoryReservation) : Cluster → Cluster :=
  on_rows (λ r, if owned instance r && counted r then f r else r).

Definition update_instance (id : string) (f : ModelInstance → ModelInstance) : IO unit :=
  modify (with_instances (update_key in_id id f)).

(** ** Transitions *)

Definition allowed_transitions (s : InstanceState) : list InstanceState :=
  match s with
  | Requested => [Reserving; Failed]
  | Reserving => [Launching; Failed]
  | Launching => [Warming; Failed]
  | Warming => [Ready; Failed]
  | Ready => [Draining; Failed]
  | Draining => [Stopped; Failed]
  | Stopped => []
  | Failed => []
  end.

Definition set_in_state (now : Z) (s : InstanceState) (code detail : option string)
    (i : ModelInstance) : ModelInstance :=
  mkInstance (in_id i) (in_model_id i) (in_variant_id i) (in_adapter_id i) (in_decision_id i)
    (in_policy i) (in_smoke i) s code detail now now (in_drain_deadline i)
    (in_fallback_attempted_at i) (in_fallback_instance_id i) (in_fallback_no_fit i).
(** The row after a transition; only a failure sets its code and detail. *)
Definition moved (now : Z) (target : InstanceState) (reason failure_code : option string)
    (i : ModelInstance) : ModelInstance :=
  if same target Failed
  then set_in_state now target (Some (default "instance_failed" failure_code))
         (Some (default "instance lifecycle failed" reason)) i
  else set_in_state now target (in_failure_code i) (in_failure_detail i) i.

Definition transitions_of (id : string) (w : Cluster) : list InstanceTransition :=
  filter (λ t, tr_instance_id t = id) (cl_transitions w).
(** [coalesce(max(sequence), 0)] *)
Definition last_sequence (id : string) (w : Cluster) : Z :=
  foldr Z.max 0 (tr_sequence <$> transitions_of id w).

Definition append_initial_transition (i : ModelInstance) : IO unit :=
  w ← get;
  throw_if (existsb (λ t, tr_sequence t =? 1) (transitions_of (in_id i) w)) IntegrityError;;
  modify (with_transitions (λ ts,
    ts ++ [mkTransition (in_id i) 1 None (in_state i) (Some "instance requested")])).

Section service.
(** [resolve_instance_target] finds the registry target of an instance. *)
Context (resolves : ModelInstance → Cluster → bool).

(** The single member of an adapter instance holds its reservation and serves with
    exactly its engine. *)
Definition adapter_ready (i : ModelInstance) (w : Cluster) : bool :=
  match members_of (in_id i) w with
  | [m] =>
      match mb_reservation_id m ≫= (λ id, reservation_row id w),
            mb_engine_id m ≫= (λ id, by_key en_id id (cl_engines w)) with
      | Some hold, Some engine =>
          owned (in_id i) hold
          && existsb (λ s, String.eqb (st_id s) (mb_node_id m)
                           && present (row (mr_id hold) (nd_reservations (st_node s)))) (cl_studios w)
          && same (mr_state hold) HELD
          && same (en_instance_id engine) (Some (in_id i))
          && same (en_model_id engine) (Some (in_model_id i))
          && same (en_variant_id engine) (in_variant_id i)
          && same (en_adapter_id engine) (in_adapter_id i)
          && String.eqb (en_node_id engine) (mb_node_id m)
          && same (en_state engine) EReady
      | _, _ => false
      end
  | _ => false
  end.

Definition transition (now : Z) (id : string) (target : InstanceState)
    (reason failure_code : option string) : IO ModelInstance :=
  w ← get;
  i ← some_or (LookupError "instance not found") (instance_row id w);
  if same (in_state i) target then mret i else
  throw_if (negb (is_in target (allowed_transitions (in_state i)))) InvalidInstanceTransition;;
  (if same target Ready && present (in_adapter_id i)
   then throw_if (negb (resolves i w)) ModelNotFound;;
        throw_if (negb (adapter_ready i w)) InvalidInstanceTransition
   else mret tt);;
  update_instance id (moved now target reason failure_code);;
  modify (with_transitions (λ ts,
    ts ++ [mkTransition id (last_sequence id w + 1) (Some (in_state i)) target reason]));;
  modify (with_audit (λ l, l ++ [mkAudit "instance.transition" id (Some (in_state i)) (Some target)]));;
  mret (moved now target reason failure_code i).

(** [transition(...)] where the caller ignores the row. *)
Definition move (now : Z) (id : string) (target : InstanceState) (reason failure_code : option string)
    : IO unit := transition now id target reason failure_code;; mret tt.

(** What [project_instance] reports: a ready instance with an unhealthy member has failed. *)
Definition effective_state (i : ModelInstance) (w : Cluster) : InstanceState :=
  if same (in_state i) Ready
     && existsb (λ m, match studio_row (mb_node_id m) w with
                      | Some s => negb (same (st_reachability s) HEALTHY)
                      | None => true
                      end) (members_of (in_id i) w)
  then Failed else in_state i.

(** ** Routes *)

(** [create_instance]: an active instance of the same key, or a new one.  [known] says
    whether the model exists, [registry] the status with which the resolution of the
    target refuses. *)
Definition active (s : InstanceState) : bool := is_in s [Requested; Reserving; Launching; Warming].
Definition new_instance (now : Z) (id model : string) (variant adapter : option string) (policy : Policy)
    : ModelInstance :=
  mkInstance id model variant adapter None policy false Requested None None now now None None None false.
Definition add_instance (i : ModelInstance) : IO unit :=
  w ← get;
  throw_if (present (instance_row (in_id i) w)) IntegrityError;;
  modify (with_instances (λ l, l ++ [i]));;
  append_initial_transition i.
Definition create_instance (known : bool) (registry : option Z) (now : Z) (new_id model variant : string)
    (adapter : option string) (policy : Policy) : IO ModelInstance :=
  w ← get;
  throw_if (negb known) (HTTPException 404);;
  v ← some_or (HTTPException 409) (by_key va_id variant (cl_variants w));
  throw_if (negb (String.eqb (va_model_id v) model && va_validated v)) (HTTPException 409);;
  match registry with Some code => throw (HTTPException code) | None => mret tt end;;
  throw_if (present adapter && is_sharded policy) (HTTPException 409);;
  match List.find (λ i, String.eqb (in_model_id i) model && same (in_variant_id i) (Some variant)
                        && same (in_adapter_id i) adapter && same (in_policy i) policy
                        && active (in_state i)) (cl_instances w) with
  | Some i => mret i
  | None =>
      let i := new_instance now new_id model (Some variant) adapter policy in
      add_instance i;;
      modify (with_audit (λ l, l ++ [mkAudit "instance.create" new_id None None]));;
      mret i
  end.

Definition set_deadline (at_ : Z) (i : ModelInstance) : ModelInstance :=
  mkInstance (in_id i) (in_model_id i) (in_variant_id i) (in_adapter_id i) (in_decision_id i)
    (in_policy i) (in_smoke i) (in_state i) (in_failure_code i) (in_failure_detail i)
    (in_updated_at i) (in_transitioned_at i) (Some at_)
    (in_fallback_attempted_at i) (in_fallback_instance_id i) (in_fallback_no_fit i).
Definition drain_instance (now timeout : Z) (id : string) : IO unit :=
  w ← get;
  i ← some_or (HTTPException 404) (instance_row id w);
  throw_if (absent (in_variant_id i)) (HTTPException 404);;
  if same (in_state i) Ready then
    update_instance id (set_deadline (now + timeout));;
    move now id Draining None None;;
    modify (with_audit (λ l, l ++ [mkAudit "instance.drain" id None None]))
  else throw_if (negb (is_in (in_state i) [Draining; Stopped; Failed])) (HTTPException 409).

(** ** Launching on one node *)

Definition set_decision (d : string) (i : ModelInstance) : ModelInstance :=
  mkInstance (in_id i) (in_model_id i) (in_variant_id i) (in_adapter_id i) (Some d)
    (in_policy i) (in_smoke i) (in_state i) (in_failure_code i) (in_failure_detail i)
    (in_updated_at i) (in_transitioned_at i) (in_drain_deadline i)
    (in_fallback_attempted_at i) (in_fallback_instance_id i) (in_fallback_no_fit i).
Definition set_holder (holder : string) (r : MemoryReservation) : MemoryReservation :=
  mkReservation (mr_id r) (mr_holder_type r) holder (mr_bytes r) (mr_pinned r) (mr_state r)
    (mr_last_used_at r) (mr_released_at r).

(** Which launch an instance gets; [None] for an image base. *)
Definition launch_kind (id : string) : IO (option bool) :=
  w ← get;
  match instance_row id w with
  | None => mret (Some false)
  | Some i =>
      if is_image (in_policy i) then mret None
      else throw_if (present (in_adapter_id i) && is_sharded (in_policy i))
             (InstanceRuntimeError "adapter instances are single-node only");;
           mret (Some (is_sharded (in_policy i)))
  end.

(** One look of [_wait_for_fallback_teardown]. *)
Definition fallback_clear (id : string) (w : Cluster) : bool :=
  match List.find (λ p, same (in_fallback_instance_id p) (Some id)) (cl_instances w) with
  | None => true
  | Some parent =>
      match group_of (in_id parent) w with
      | None => true
      | Some g => is_in (sg_state g) [GStopped; GFailed]
      end
  end.

(** The first transaction of a launch: the decision that placement works on.
    [required] are the bytes of the variant and [adapter_bytes] those of its adapter. *)
Definition launch_begin (required : ModelVariant → Z) (adapter_bytes : Z) (new_id : string)
    (now : Z) (policy_text : Policy → string) (id : string) : IO (option string) :=
  w ← get;
  match instance_row id w with
  | None => mret None
  | Some i =>
      if is_in (in_state i) [Ready; Draining; Stopped; Failed] then mret None
      else match in_variant_id i ≫= (λ v, by_key va_id v (cl_variants w)) with
      | None =>
          move now id Failed (Some "validated variant disappeared") (Some "variant_missing");; mret None
      | Some v =>
          if negb (va_validated v)
          then move now id Failed (Some "validated variant disappeared") (Some "variant_missing");; mret None
          else
            (if same (in_state i) Requested
             then move now id Reserving (Some "placement requested") None else mret tt);;
            match decision_row (in_decision_id i) w with
            | Some d => mret (Some (pd_id d))
            | None =>
                throw_if (present (in_adapter_id i) && (adapter_bytes <=? 0))
                  (InstanceRuntimeError "verified adapter artifact copy is unavailable");;
                let bytes := (if present (in_adapter_id i) then adapter_bytes else 0) + required v in
                throw_if (present (by_key pd_id new_id (cl_decisions w))) IntegrityError;;
                modify (with_decisions (λ ds, ds ++
                  [mkDecision new_id (in_model_id i) (in_variant_id i) (policy_text (in_policy i)) bytes
                     PRequested None [] None None]));;
                update_instance id (set_decision new_id);;
                mret (Some new_id)
            end
      end
  end.

(** [reservation.state = FAILED; released_at = now] for what the instance still owns;
    an instance of an upgrade smoke test keeps its reservations. *)
Definition fail_owned (now : Z) (i : ModelInstance) : IO unit :=
  if in_smoke i then mret tt
  else modify (on_owned (in_id i) (set_closed FAILED (Some now))).

Inductive Polled := Gone | Again | PlacementReady.

(** One turn of the loop that follows the decision. *)
Definition launch_poll (now : Z) (id decision : string) : IO Polled :=
  w ← get;
  match instance_row id w with
  | None => mret Gone
  | Some i =>
      if is_in (in_state i) [Failed; Draining; Stopped] then mret Gone
      else
        d ← some_or (InstanceRuntimeError "instance placement decision disappeared")
              (by_key pd_id decision (cl_decisions w));
        if is_in (pd_state d) [PRefused; PFailed] then
          move now id Failed (Some (default "placement failed" (pd_refusal_detail d)))
            (Some (default "placement_failed" (pd_refusal_code d)));;
          fail_owned now i;;
          mret Gone
        else
          (if same (pd_state d) PLoading && same (in_state i) Reserving
           then move now id Launching (Some "engine command accepted") None else mret tt);;
          mret (if same (pd_state d) PReady then PlacementReady else Again)
  end.

(** The newest ready engine of the instance on the node. *)
Definition ready_engine (i : ModelInstance) (node : string) (w : Cluster) : option EngineProcess :=
  head (sorted_on (λ e, - en_started_at e)
    (filter (λ e, en_node_id e = node ∧ en_model_id e = Some (in_model_id i)
                  ∧ en_instance_id e = Some (in_id i) ∧ en_adapter_id e = in_adapter_id i
                  ∧ en_variant_id e = in_variant_id i ∧ en_state e = EReady) (cl_engines w))).
Definition held_reservation (i : ModelInstance) (node : string) (w : Cluster) : option MemoryReservation :=
  s ← studio_row node w;
  List.find (λ r, same (mr_holder_type r) MODEL && is_in (mr_holder_id r) [in_model_id i; in_id i]
                  && same (mr_state r) HELD) (nd_reservations (st_node s)).
Definition add_member (m : InstanceMember) : IO unit :=
  w ← get;
  throw_if (existsb (λ o, (mb_rank o =? mb_rank m) || String.eqb (mb_node_id o) (mb_node_id m))
              (members_of (mb_instance_id m) w)) IntegrityError;;
  modify (with_members (λ l, l ++ [m])).

(** The last transaction of a launch. *)
Definition launch_finish (now : Z) (id decision : string) : IO unit :=
  w ← get;
  let missing := InstanceRuntimeError "ready placement has no selected node" in
  i ← some_or missing (instance_row id w);
  d ← some_or missing (by_key pd_id decision (cl_decisions w));
  node ← some_or missing (pd_selected_node_id d);
  if is_in (in_state i) [Failed; Draining; Stopped] then mret tt
  else
    let incomplete := InstanceRuntimeError "ready placement is missing reservation, engine, or node" in
    r ← some_or incomplete (held_reservation i node w);
    e ← some_or incomplete (ready_engine i node w);
    s ← some_or incomplete (studio_row node w);
    throw_if (existsb (λ o, owned id o && negb (String.eqb (mr_id o) (mr_id r))) (nd_reservations (st_node s)))
      IntegrityError;;
    modify (on_reservation (mr_id r) (set_holder id));;
    (if existsb (λ m, mb_rank m =? 0) (members_of id w) then mret tt
     else add_member (mkMember id node 0 (Some (en_id e)) (Some (mr_id r))
                        (default (st_name s) (st_control_host s)) (Some (en_port e)) false None));;
    (if same (in_state i) Reserving then move now id Launching (Some "engine launched") None else mret tt);;
    move now id Warming (Some "engine health warming") None;;
    move now id Ready (Some "engine ready") None.

(** The handler of [execute_instance_launch]: a launch that may be replayed is left as
    it is. *)
Definition launch_failed (now : Z) (code id : string) : IO unit :=
  w ← get;
  match instance_row id w with
  | None => mret tt
  | Some i =>
      if is_in (in_state i) [Stopped; Failed; Reserving; Launching; Warming] then mret tt
      else
        move now id Failed (Some "instance launch failed; inspect correlated logs") (Some code);;
        fail_owned now i
  end.
(** A transaction of the launch under that handler, which runs in its own. *)
Definition launch_step {A} (now : Z) (code id : string) (m : IO A) : IO A :=
  on_error (transaction m) (λ _, transaction (launch_failed now code id)).

(** ** Draining one node *)

Definition release_leases (now : Z) (ids : list string) (w : Cluster) : Cluster :=
  with_studios (fmap (on_node (with_leases (fmap (λ l,
    if is_in (rl_reservation_id l) ids && absent (rl_released_at l)
    then mkLease (rl_id l) (rl_reservation_id l) (rl_request_id l) (rl_expires_at l) (Some now)
    else l))))) w.
(** The active leases of some reservations. *)
Definition lease_count (now : Z) (ids : list string) (w : Cluster) : Z :=
  Z.of_nat (length (filter (λ l, is_in (rl_reservation_id l) ids && absent (rl_released_at l)
                                 && (now <? rl_expires_at l) = true)
                      (s ← cl_studios w; nd_leases (st_node s)))).
Definition expired (now : Z) (i : ModelInstance) : bool :=
  match in_drain_deadline i with Some at_ => at_ <=? now | None => false end.

(** One turn of the first loop of [execute_instance_drain]: [Some command] once the
    unload is queued. *)
Inductive Drained := DrainOver | DrainAgain | DrainQueued (command : string).
Definition drain_poll (uuid5 : string → string) (now : Z) (id : string) : IO Drained :=
  w ← get;
  match instance_row id w with
  | None => mret DrainOver
  | Some i =>
      if is_in (in_state i) [Stopped; Failed] then mret DrainOver
      else match head (members_of id w) ≫= (λ m, r ← mb_reservation_id m; Some (m, r)) with
      | None => move now id Failed (Some "instance member disappeared") None;; mret DrainOver
      | Some (m, rid) =>
          if negb ((lease_count now [rid] w =? 0) || expired now i) then mret DrainAgain
          else match reservation_row rid w, mb_engine_id m ≫= (λ e, by_key en_id e (cl_engines w)) with
          | Some r, Some e =>
              (if expired now i then modify (release_leases now [rid]) else mret tt);;
              let d := uuid5 ("coire:instance-drain:" +:+ id) in
              (if present (by_key pd_id d (cl_decisions w)) then mret tt
               else modify (with_decisions (λ ds, ds ++
                      [mkDecision d (in_model_id i) (in_variant_id i) "instance-drain" (mr_bytes r)
                         PEvicting (Some (mb_node_id m)) [rid] None None])));;
              let c := uuid5 ("coire:instance-drain-command:" +:+ id) in
              (if present (by_key pc_id c (cl_placement_commands w)) then mret tt
               else modify (with_placement_commands (λ cs, cs ++
                      [mkPlacementCommand c d (mb_node_id m) (Some rid) (en_id e) CPending None None])));;
              modify (on_reservation rid (set_state RELEASING));;
              mret (DrainQueued c)
          | _, _ => move now id Failed (Some "drain target disappeared") None;; mret DrainOver
          end
      end
  end.

(** One turn of its second loop: [true] once the instance has ended. *)
Definition drain_finish (now : Z) (id command : string) : IO bool :=
  w ← get;
  c ← some_or (InstanceRuntimeError "instance drain command disappeared")
        (by_key pc_id command (cl_placement_commands w));
  match pc_state c with
  | CSucceeded => move now id Stopped (Some "drain completed") None;; mret true
  | CFailed =>
      move now id Failed (Some (default "drain failed" (pc_failure_detail c))) (pc_failure_code c);;
      mret true
  | _ => mret false
  end.

(** ** The executor confirms an unload *)

Definition set_engine_state (state : EngineState) (e : EngineProcess) : EngineProcess :=
  mkEngine (en_id e) (en_instance_id e) (en_model_id e) (en_variant_id e) (en_adapter_id e)
    (en_node_id e) (en_port e) state (en_started_at e).
Definition set_pd_state (state : PlacementState) (d : PlacementDecision) : PlacementDecision :=
  mkDecision (pd_id d) (pd_model_id d) (pd_variant_id d) (pd_policy d) (pd_required_bytes d) state
    (pd_selected_node_id d) (pd_evicted_reservation_ids d) (pd_refusal_code d) (pd_refusal_detail d).
Definition confirm_eviction (decision reservation : string) (e : EvictionEvent) : EvictionEvent :=
  if String.eqb (ev_decision_id e) decision && String.eqb (ev_reservation_id e) reservation
  then mkEviction (ev_decision_id e) (ev_node_id e) (ev_reservation_id e) (ev_lru_rank e) (ev_skipped e)
         "confirmed"
  else e.

(** The instance that the unloaded reservation belonged to, if any, stops. *)
Definition stop_holder (now : Z) (r : MemoryReservation) : IO unit :=
  w ← get;
  match instance_row (mr_holder_id r) w with
  | None => mret tt
  | Some i =>
      if is_in (in_state i) [Ready; Draining] then
        (if same (in_state i) Ready
         then move now (in_id i) Draining (Some "placement unload requested") None else mret tt);;
        move now (in_id i) Stopped (Some "engine unload confirmed") None
      else mret tt
  end.
Definition unload_confirmed (now : Z) (c : PlacementCommand) : IO unit :=
  w ← get;
  match pc_reservation_id c ≫= (λ id, reservation_row id w) with
  | None => mret tt
  | Some r => modify (on_reservation (mr_id r) (set_closed RELEASED (Some now)));; stop_holder now r
  end;;
  modify (with_engines (update_key en_id (pc_engine_id c) (set_engine_state EStopped)));;
  modify (with_decisions (update_key pd_id (pc_decision_id c) (λ d,
    if String.eqb (pd_policy d) "idle-ttl" then set_pd_state PReady d else d)));;
  match pc_reservation_id c with
  | None => mret tt
  | Some id => modify (with_evictions (fmap (confirm_eviction (pc_decision_id c) id)))
  end.
End service.
