(* ===== verification/InstanceWriters.v ===== *)
(** * The other writers of instances

    Image workers and the private instances of upgrade smoke tests are instances too, and
    some of their code writes the state of the row itself instead of calling [transition]:
    the placement of an image job (coire_scheduler/image_dispatch.py), the readiness of its
    worker (images.py), its idle unload (image_residency.py), its unload by an administrator
    (coire_api/routes/admin_images.py) and the cleanup of an upgrade smoke test
    (coire_api/upgrades/smoke_instance.py).  The tables of image jobs and their execution
    leases, the answers of the nodes and the new ids are arguments. *)
From S2P Require Import Prelude Effects Placement Instances.
Open Scope Z_scope.

(** The row of a node's reservation of an image worker. *)
Definition image_hold (node instance : string) (w : Cluster) : option MemoryReservation :=
  s ← studio_row node w; holder_row IMAGE instance (nd_reservations (st_node s)).
Definition member_on (instance node : string) (w : Cluster) : option InstanceMember :=
  List.find (λ m, String.eqb (mb_node_id m) node) (members_of instance w).

(** [instance.state = ...; updated_at = transitioned_at = now], without a transition row. *)
Definition write_state (now : Z) (state : InstanceState) (i : ModelInstance) : ModelInstance :=
  set_in_state now state (in_failure_code i) (in_failure_detail i) i.
Definition audited (action id : string) : IO unit :=
  modify (with_audit (λ l, l ++ [mkAudit action id None None])).

(** ** Placing an image job *)

Definition reusable_worker (s : InstanceState) : bool := is_in s [Launching; Warming; Ready].

Definition image_instance (now : Z) (id model node_name : string) : ModelInstance :=
  mkInstance id model None None None (Image node_name) false Launching None None now now None None None false.

(** [session.add(instance)], without a transition row. *)
Definition add_unlogged (i : ModelInstance) : IO unit :=
  w ← get;
  throw_if (present (instance_row (in_id i) w)) IntegrityError;;
  modify (with_instances (λ l, l ++ [i])).

(** The worker of the model on the chosen node, and the bytes that it holds there. *)
Definition place_image_worker (now : Z) (new_id new_hold model : string) (chosen : Studio) (bytes : Z)
    : IO (string * Z) :=
  w ← get;
  id ← match List.find (λ i, String.eqb (in_model_id i) model && same (in_policy i) (Image (st_name chosen))
                             && reusable_worker (in_state i)
                             && existsb (λ m, String.eqb (mb_node_id m) (st_id chosen)) (members_of (in_id i) w))
               (cl_instances w) with
       | Some i => mret (in_id i)
       | None =>
           add_unlogged (image_instance now new_id model (st_name chosen));;
           add_member (mkMember new_id (st_id chosen) 0 None None
                         (default (st_name chosen) (st_control_host chosen)) None false None);;
           mret new_id
       end;
  w ← get;
  match image_hold (st_id chosen) id w with
  | None =>
      modify (with_studios (update_key st_id (st_id chosen) (on_node (with_rows (λ rows,
        rows ++ [mkReservation new_hold IMAGE id bytes false HELD now None])))));;
      mret (id, bytes)
  | Some r =>
      throw_if (negb (same (mr_state r) HELD) || (mr_bytes r <? bytes))
        (ImageConflict "image worker memory reservation differs from placement");;
      modify (on_reservation (mr_id r) (set_used now));;
      mret (id, mr_bytes r)
  end.

(** [_record_image_worker_ready]: [job] is the instance and the node of the image job. *)
Definition record_image_worker_ready (now : Z) (job : option (string * option string)) (instance : string)
    (reserved : Z) : IO unit :=
  transaction (
  let changed := ImageConflict "image worker placement changed before readiness" in
  j ← some_or changed job;
  throw_if (negb (String.eqb j.1 instance)) changed;;
  node ← some_or changed j.2;
  w ← get;
  let differs := ImageConflict "image worker reservation changed before readiness" in
  i ← some_or differs (instance_row instance w);
  throw_if (negb (is_image (in_policy i)) || negb (reusable_worker (in_state i))) differs;;
  r ← some_or differs (image_hold node instance w);
  throw_if (negb (same (mr_state r) HELD) || negb (mr_bytes r =? reserved)) differs;;
  _ ← some_or differs (member_on instance node w);
  (if same (in_state i) Ready then mret tt else update_instance instance (write_state now Ready));;
  modify (with_members (fmap (λ m,
    if String.eqb (mb_instance_id m) instance && String.eqb (mb_node_id m) node
    then mkMember (mb_instance_id m) (mb_node_id m) (mb_rank m) (mb_engine_id m) (mb_reservation_id m)
           (mb_host m) (mb_port m) true (mb_last_rank_health_at m)
    else m)))).

(** ** Unloading an idle image worker *)

(** [image_idle_due] *)
Definition image_idle_due (last_used now ttl_seconds : Z) : bool :=
  last_used + ttl_seconds * 1_000_000 <=? now.
(** The node that a reservation is on. *)
Definition node_of_reservation (id : string) (w : Cluster) : option Studio :=
  List.find (λ s, present (row id (nd_reservations (st_node s)))) (cl_studios w).

(** [_prepare_idle_unload]: [busy] says whether the worker has an unfinished job or its node
    an unreleased execution lease, [latest] when a job of it was last updated, and [is_uuid]
    which holder ids are UUIDs. *)
Definition prepare_idle_unload (is_uuid : string → bool) (now ttl : Z) (busy : string → string → bool)
    (latest : string → option Z) (reservation : string) : IO (option (string * string * string)) :=
  transaction (
  w ← get;
  match reservation_row reservation w, node_of_reservation reservation w with
  | Some r, Some s =>
      if negb (same (mr_holder_type r) IMAGE) || negb (same (mr_state r) HELD) || mr_pinned r
         || negb (is_uuid (mr_holder_id r)) then mret None
      else match instance_row (mr_holder_id r) w with
      | None => mret None
      | Some i =>
          if negb (is_image (in_policy i)) || negb (is_in (in_state i) [Launching; Warming; Ready; Failed; Draining])
             || absent (member_on (in_id i) (st_id s) w) || negb (same (in_policy i) (Image (st_name s)))
             || busy (in_id i) (st_id s) then mret None
          else
            let unload := Some (st_name s, st_id s, in_id i) in
            if same (in_state i) Draining then mret unload
            else if image_idle_due (Z.max (Z.max (mr_last_used_at r) (in_updated_at i))
                                      (default (in_updated_at i) (latest (in_id i)))) now ttl
            then
              update_instance (in_id i) (write_state now Draining);;
              audited "image.worker.idle_unload_requested" (in_id i);;
              mret unload
            else mret None
      end
  | _, _ => mret None
  end).

(** [_confirm_idle_unload], once the node has proved that the worker is gone. *)
Definition confirm_idle_unload (now : Z) (reservation instance node : string) : IO bool :=
  transaction (
  w ← get;
  match reservation_row reservation w, node_of_reservation reservation w, instance_row instance w with
  | Some r, Some s, Some i =>
      if negb (String.eqb (st_id s) node) || negb (same (mr_holder_type r) IMAGE)
         || negb (String.eqb (mr_holder_id r) instance) || negb (same (mr_state r) HELD)
         || negb (same (in_state i) Draining) then mret false
      else
        modify (on_reservation reservation (set_closed RELEASED (Some now)));;
        update_instance instance (write_state now Stopped);;
        audited "image.worker.idle_unloaded" instance;;
        mret true
  | _, _, _ => mret false
  end).

(** ** Unloading by an administrator *)

(** [unload_admin_image_worker] until it calls the node. *)
Definition unload_admin_begin (now : Z) (active : bool) (lease : string → bool) (instance : string) : IO string :=
  transaction (
  w ← get;
  i ← some_or ImageNotFound (instance_row instance w);
  throw_if (negb (is_image (in_policy i))) ImageNotFound;;
  throw_if (same (in_state i) Stopped) (ImageConflict "image worker is already stopped");;
  throw_if active (ImageConflict "image worker still has an active job");;
  let unbound := ImageConflict "image worker node binding unavailable" in
  m ← some_or unbound (head (members_of instance w));
  s ← some_or unbound (studio_row (mb_node_id m) w);
  throw_if (negb (same (in_policy i) (Image (st_name s)))) unbound;;
  throw_if (lease (st_id s)) (ImageConflict "image worker still has an unreleased execution lease");;
  update_instance instance (write_state now Draining);;
  audited "image.worker.unload_requested" instance;;
  mret (st_id s)).

(** After the node's proof. *)
Definition unload_admin_finish (now : Z) (instance node : string) : IO unit :=
  transaction (
  w ← get;
  let changed := ImageConflict "image worker drain state changed" in
  i ← some_or changed (instance_row instance w);
  throw_if (negb (same (in_state i) Draining)) changed;;
  match image_hold node instance w with
  | Some r => modify (on_reservation (mr_id r) (set_closed RELEASED (Some now)))
  | None => mret tt
  end;;
  update_instance instance (write_state now Stopped);;
  audited "image.worker.unloaded" instance).

(** ** The cleanup of an upgrade smoke test *)

Section smoke.
Context (resolves : ModelInstance → Cluster → bool).

(** [cleanup_smoke_instance] until it calls the node: [exact] says whether the payload of the
    instance is the scope of this cleanup, [is_load] which commands are loads. *)
Definition cleanup_smoke_begin (now : Z) (exact : ModelInstance → bool) (is_load : PlacementCommand → bool)
    (instance node_name : string) : IO unit :=
  transaction (
  w ← get;
  let lost := UpgradeConflict "Core smoke cleanup lost its exact durable instance" in
  i ← some_or lost (instance_row instance w);
  throw_if (negb (in_smoke i && exact i)) lost;;
  throw_if (absent (by_key st_name node_name (cl_studios w)))
    (UpgradeUnavailable "Core smoke cleanup lost its Studio");;
  (if same (in_state i) Ready
   then move resolves now instance Draining (Some "owned upgrade smoke cleanup") None
   else if is_in (in_state i) [Draining; Failed; Stopped] then mret tt
   else move resolves now instance Failed (Some "owned upgrade smoke startup closed")
          (Some "upgrade_smoke_cleanup"));;
  match in_decision_id i with
  | None => mret tt
  | Some d =>
      modify (with_placement_commands (fmap (λ c,
        if String.eqb (pc_decision_id c) d && is_load c && same (pc_state c) CPending
        then mkPlacementCommand (pc_id c) (pc_decision_id c) (pc_node_id c) (pc_reservation_id c)
               (pc_engine_id c) CFailed (Some "upgrade_smoke_cleanup")
               (Some "owned Core smoke startup was closed")
        else c)))
  end).

(** The closing row of a failed smoke test, which [transition] would refuse. *)
Definition close_failed_smoke (now : Z) (instance : string) : IO unit :=
  w ← get;
  modify (with_transitions (λ ts, ts ++
    [mkTransition instance (last_sequence instance w + 1) (Some Failed) Stopped
       (Some "owned upgrade smoke native absence verified")]));;
  update_instance instance (write_state now Stopped);;
  modify (with_audit (λ l, l ++ [mkAudit "instance.transition" instance (Some Failed) (Some Stopped)])).

(** After the node has proved that nothing of the test runs; [engine_ok] is whether the
    engine row, if there is one, is the one of the scope. *)
Definition cleanup_smoke_finish (now : Z) (exact : ModelInstance → bool) (engine_ok : EngineProcess → bool)
    (instance engine node_name : string) : IO unit :=
  transaction (
  w ← get;
  s ← some_or (UpgradeUnavailable "Core smoke cleanup lost its Studio ledger") (by_key st_name node_name (cl_studios w));
  let changed := UpgradeConflict "Core smoke private instance changed during cleanup" in
  i ← some_or changed (instance_row instance w);
  throw_if (negb (in_smoke i && exact i)) changed;;
  match by_key en_id engine (cl_engines w) with
  | Some e =>
      throw_if (negb (engine_ok e)) (UpgradeConflict "Core smoke cleanup found another engine ledger owner");;
      modify (with_engines (update_key en_id engine (set_engine_state EStopped)))
  | None => mret tt
  end;;
  throw_if (existsb (λ o, negb (String.eqb (st_id o) (st_id s)) && existsb (owned instance) (nd_reservations (st_node o)))
              (cl_studios w)) (UpgradeConflict "Core smoke cleanup found another Studio reservation");;
  modify (on_rows (λ r, if owned instance r then set_closed RELEASED (Some now) r else r));;
  if same (in_state i) Draining
  then move resolves now instance Stopped (Some "owned upgrade smoke native absence verified") None
  else if same (in_state i) Failed then close_failed_smoke now instance
  else mret tt).
End smoke.
