(* ===== verification/ShardLink.v ===== *)
(** * The measured link between the Studios

    coire_scheduler/sharding.py and the observations of models/sharding.py: the damped
    verdict on the link, from the append-only record of probes.  Times are microseconds;
    a latency is only ever tested for being present. *)
From S2P Require Import Prelude.
Open Scope Z_scope.

Inductive ProbeTransport := JACCL | RING.
#[global] Instance ProbeTransport_eq : EqDecision ProbeTransport.
Proof. solve_decision. Defined.
Inductive ProbeOutcome := ProbeSucceeded | ProbeFailed.
#[global] Instance ProbeOutcome_eq : EqDecision ProbeOutcome.
Proof. solve_decision. Defined.
Inductive LinkState := LinkUnknown | LinkUp | LinkDown.
#[global] Instance LinkState_eq : EqDecision LinkState.
Proof. solve_decision. Defined.
Inductive RdmaState := RdmaUnknown | RdmaUp | RdmaDegraded | RdmaDown.
#[global] Instance RdmaState_eq : EqDecision RdmaState.
Proof. solve_decision. Defined.

Record LinkObservation := mkObservation {
  lo_node_a : string;
  lo_node_b : string;
  lo_transport : ProbeTransport;
  lo_outcome : ProbeOutcome;
  lo_bandwidth : option Z;
  lo_latency : option Z;
  lo_runtime_a : option string;
  lo_runtime_b : option string;
  lo_observed_at : Z;
}.

Definition canonical_pair_and_measurement (o : LinkObservation) : bool :=
  Bool.eqb (present (lo_runtime_a o)) (present (lo_runtime_b o))
  && String.ltb (lo_node_a o) (lo_node_b o)
  && negb (same (lo_outcome o) ProbeSucceeded && (absent (lo_bandwidth o) || absent (lo_latency o))).

Record StudioLinkProjection := mkProjection {
  lp_ip_state : LinkState;
  lp_rdma_state : RdmaState;
  lp_fallback_state : LinkState;
  lp_tp_eligible : bool;
  lp_required_after : Z;
  lp_latest : list LinkObservation;
  lp_consecutive_successes : Z;
  lp_consecutive_failures : Z;
  lp_flapping : bool;
  lp_reason : option string;
}.

Section projection.
(** The settings of a projection, and the runtimes it must have been measured with. *)
Context (now freshness failures_before_down successes_before_up : Z)
        (current_runtime_pair : option (option string * option string)).

Definition of_runtime (o : LinkObservation) : bool :=
  match current_runtime_pair with
  | None => true
  | Some (a, b) => present a && present b && same (lo_runtime_a o) a && same (lo_runtime_b o) b
  end.
Definition is_fresh (o : LinkObservation) : bool :=
  (0 <=? now - lo_observed_at o) && (now - lo_observed_at o <=? freshness) && of_runtime o.
(** [sorted(observations, key=observed_at, reverse=True)] keeps the order of equal times. *)
Definition newest_first (os : list LinkObservation) : list LinkObservation :=
  sorted_on (λ o, - lo_observed_at o) os.
Definition fresh_of (os : list LinkObservation) : list LinkObservation :=
  filter (λ o, is_fresh o = true) (newest_first os).
Definition latest_of (t : ProbeTransport) (fresh : list LinkObservation) : option LinkObservation :=
  List.find (λ o, same (lo_transport o) t) fresh.

(** The length of the leading run of [target]. *)
Fixpoint leading (target : ProbeOutcome) (outcomes : list ProbeOutcome) : Z :=
  match outcomes with
  | o :: outcomes => if same o target then 1 + leading target outcomes else 0
  | [] => 0
  end.
Definition jaccl_outcomes (fresh : list LinkObservation) : list ProbeOutcome :=
  lo_outcome <$> filter (λ o, lo_transport o = JACCL) fresh.
Definition counters (jaccl : option LinkObservation) (fresh : list LinkObservation) : Z * Z :=
  match jaccl with
  | None => (0, 0)
  | Some j =>
      let n := leading (lo_outcome j) (jaccl_outcomes fresh) in
      if same (lo_outcome j) ProbeSucceeded then (n, 0) else (0, n)
  end.

(** A failed qualification of these runtimes drops an older fallback measurement. *)
Definition qualified_ring (jaccl ring : option LinkObservation) : option LinkObservation :=
  match current_runtime_pair, jaccl, ring with
  | Some _, Some j, Some r =>
      if same (lo_outcome j) ProbeFailed && (lo_observed_at r <=? lo_observed_at j) then None else ring
  | _, _, _ => ring
  end.

Fixpoint changes (outcomes : list ProbeOutcome) : Z :=
  match outcomes with
  | a :: (b :: _) as rest => (if same a b then 0 else 1) + changes rest
  | _ => 0
  end.
Definition is_flapping (fresh : list LinkObservation) : bool := 2 <=? changes (jaccl_outcomes fresh).

Definition project_link (observations : list LinkObservation) : StudioLinkProjection :=
  let ordered := newest_first observations in
  let fresh := filter (λ o, is_fresh o = true) ordered in
  let jaccl := latest_of JACCL fresh in
  let ring := qualified_ring jaccl (latest_of RING fresh) in
  let '(successes, failures) := counters jaccl fresh in
  let rdma :=
    if failures_before_down <=? failures then RdmaDown
    else if successes_before_up <=? successes then RdmaUp
    else if present jaccl then RdmaDegraded else RdmaUnknown in
  let fallback :=
    match ring with
    | Some r => if same (lo_outcome r) ProbeSucceeded then LinkUp else LinkDown
    | None => LinkDown
    end in
  mkProjection (if nonempty fresh then LinkUp else LinkUnknown) rdma fallback (same rdma RdmaUp)
    (now - freshness) (take 10 ordered) successes failures (is_flapping fresh)
    (if nonempty fresh then None else Some "no current link measurement").

(** ** The verdict *)

(** The last [k] outcomes are all [target], and there are as many. *)
Definition last_all (target : ProbeOutcome) (k : Z) (outcomes : list ProbeOutcome) : Prop :=
  take (Z.to_nat k) outcomes = replicate (Z.to_nat k) target.

Lemma leading_nonneg target outcomes : 0 ≤ leading target outcomes.
Proof. induction outcomes; simpl; [lia|]. case_match; lia. Qed.

Lemma leading_last_all target k outcomes :
  0 ≤ k → k ≤ leading target outcomes ↔ last_all target k outcomes.
Proof.
  unfold last_all. intros Hk. remember (Z.to_nat k) as n eqn:En.
  replace k with (Z.of_nat n) by lia. clear Hk En k.
  revert outcomes. induction n as [|n IH]; intros outcomes.
  - split; [done|]. intros _. apply leading_nonneg.
  - destruct outcomes as [|o outcomes]; simpl; [split; [lia|done]|].
    destruct (decide (o = target)) as [->|Hne].
    + rewrite same_refl. specialize (IH outcomes). split; [|intros [= H%IH]; lia].
      intros H. f_equal. apply IH. lia.
    + replace (same o target) with false by (symmetry; by apply same_false).
      split; [lia|]. intros [= ? _]. done.
Qed.

Lemma latest_jaccl fresh :
  lo_outcome <$> latest_of JACCL fresh = head (jaccl_outcomes fresh).
Proof.
  unfold latest_of, jaccl_outcomes. induction fresh as [|o fresh IH]; [done|].
  rewrite filter_cons. simpl. destruct (decide (lo_transport o = JACCL)) as [E|E].
  - by rewrite (proj2 (same_true _ _) E).
  - by rewrite (proj2 (same_false _ _) E).
Qed.

Lemma counters_leading fresh :
  counters (latest_of JACCL fresh) fresh
  = (leading ProbeSucceeded (jaccl_outcomes fresh), leading ProbeFailed (jaccl_outcomes fresh)).
Proof.
  unfold counters. pose proof (latest_jaccl fresh) as Hl.
  destruct (latest_of JACCL fresh) as [j|]; simpl in Hl.
  - destruct (jaccl_outcomes fresh) as [|o os]; [done|]. injection Hl as ->. by destruct o.
  - by destruct (jaccl_outcomes fresh).
Qed.

Lemma newest_fresh_idem observations :
  newest_first (fresh_of observations) = fresh_of observations.
Proof.
  unfold newest_first at 1. apply sorted_on_id. unfold fresh_of, newest_first.
  apply StronglySorted_Sorted.
  pose proof (sorted_on_strongly_sorted (λ o, - lo_observed_at o) observations) as Hs.
  induction Hs as [|o l Hs IH Hall]; [constructor|]. rewrite filter_cons.
  case_decide; [|done]. constructor; [done|].
  rewrite Forall_forall in *. intros x [_ Hx]%list_elem_of_filter. auto.
Qed.

Lemma fresh_of_idem observations : fresh_of (fresh_of observations) = fresh_of observations.
Proof.
  unfold fresh_of at 1. rewrite newest_fresh_idem. apply filter_all.
  apply Forall_forall. intros o. unfold fresh_of. rewrite list_elem_of_filter. tauto.
Qed.
End projection.

(** C33. The verdict on the link is the damped one: with positive thresholds the RDMA link
    is up (and tensor parallelism eligible) exactly when the last probes over it, as many
    as the threshold asks, all succeeded; down exactly when as many as the other
    threshold all failed; unknown exactly without a probe; and the fallback is up exactly
    when the latest ring probe succeeded and no failed probe of the same runtimes came at
    or after it.  Only probes that are fresh and of the current runtimes count. *)
Theorem link_verdict_damped now freshness down up pair observations :
  0 < down → 0 < up →
  let fresh := fresh_of now freshness pair observations in
  let p := project_link now freshness down up pair observations in
  (lp_rdma_state p = RdmaUp ↔ last_all ProbeSucceeded up (jaccl_outcomes fresh))
  ∧ (lp_rdma_state p = RdmaDown ↔ last_all ProbeFailed down (jaccl_outcomes fresh))
  ∧ (lp_rdma_state p = RdmaUnknown ↔ jaccl_outcomes fresh = [])
  ∧ (lp_tp_eligible p = true ↔ lp_rdma_state p = RdmaUp)
  ∧ (lp_fallback_state p = LinkUp ↔
     ∃ r, latest_of RING fresh = Some r ∧ lo_outcome r = ProbeSucceeded
          ∧ ∀ j, is_Some pair → latest_of JACCL fresh = Some j → lo_outcome j = ProbeFailed →
                 lo_observed_at j < lo_observed_at r)
  ∧ lp_rdma_state p = lp_rdma_state (project_link now freshness down up pair fresh).
Proof.
  intros Hd Hu. cbv zeta. unfold project_link.
  fold (fresh_of now freshness pair observations).
  fold (fresh_of now freshness pair (fresh_of now freshness pair observations)).
  rewrite fresh_of_idem, counters_leading. set (fresh := fresh_of _ _ _ _).
  rewrite <- !leading_last_all by lia.
  pose proof (latest_jaccl fresh) as Hl. set (js := jaccl_outcomes fresh) in *.
  assert (Hx : leading ProbeSucceeded js = 0 ∨ leading ProbeFailed js = 0).
  { destruct js as [|[] ?]; simpl; auto. }
  assert (Hj : present (latest_of JACCL fresh) = nonempty js).
  { destruct (latest_of JACCL fresh), js; simpl in *; done. }
  cbn [lp_rdma_state lp_tp_eligible lp_fallback_state]. rewrite Hj. split_and!.
  - destruct (Z.leb_spec down (leading ProbeFailed js)), (Z.leb_spec up (leading ProbeSucceeded js));
      destruct js; simpl in *; split; intros; try done; lia.
  - destruct (Z.leb_spec down (leading ProbeFailed js)), (Z.leb_spec up (leading ProbeSucceeded js));
      destruct js; simpl in *; split; intros; try done; lia.
  - destruct js as [|o js']; simpl in *.
    + destruct (Z.leb_spec down 0), (Z.leb_spec up 0); simpl; split; intros; done || lia.
    + split; [|done]. repeat case_match; done.
  - apply same_true.
  - unfold qualified_ring. destruct (latest_of RING fresh) as [r|].
    2:{ split; [|by intros (? & ? & _)]. by destruct pair, (latest_of JACCL fresh). }
    split.
    + intros H. exists r. destruct pair as [pr|]; [destruct (latest_of JACCL fresh) as [j|]|].
      * destruct (lo_outcome j) eqn:Ej; simpl in H.
        -- destruct (lo_outcome r) eqn:Er; [|done]. split_and!; [done..|]. intros ? _ [= <-]. congruence.
        -- destruct (Z.leb_spec (lo_observed_at r) (lo_observed_at j)); simpl in H; [done|].
           destruct (lo_outcome r) eqn:Er; [|done]. split_and!; [done..|]. by intros ? _ [= <-].
      * destruct (lo_outcome r) eqn:Er; [|done]. by split_and!.
      * destruct (lo_outcome r) eqn:Er; [|by destruct (latest_of JACCL fresh)].
        split_and!; [done..|]. by intros ? [].
    + intros (? & [= <-] & Er & Hall). destruct pair as [pr|]; [destruct (latest_of JACCL fresh) as [j|]|].
      * destruct (lo_outcome j) eqn:Ej; simpl; [by rewrite Er|].
        specialize (Hall j ltac:(done) eq_refl Ej).
        destruct (Z.leb_spec (lo_observed_at r) (lo_observed_at j)); simpl; [lia|by rewrite Er].
      * by rewrite Er.
      * destruct (latest_of JACCL fresh); by rewrite Er.
  - done.
Qed.

Definition probe (t : ProbeTransport) (o : ProbeOutcome) (at_ : Z) : LinkObservation :=
  mkObservation "coire-edge-a" "coire-edge-b" t o (Some 1) (Some 1) (Some "ra") (Some "rb") at_.
(** One failure after a stale success, then three successes. *)
Definition probes : list LinkObservation :=
  [probe JACCL ProbeSucceeded 1; probe JACCL ProbeFailed 90; probe RING ProbeSucceeded 92;
   probe JACCL ProbeSucceeded 94; probe JACCL ProbeSucceeded 96; probe JACCL ProbeSucceeded 98].
Definition project_probes := project_link 100 50 2 3 (Some (Some "ra", Some "rb")).

Example probes_recover :
  (lp_rdma_state ∘ project_probes ∘ (λ n, take n probes)) <$> [1; 2; 5; 6]%nat
  = [RdmaUnknown; RdmaDegraded; RdmaDegraded; RdmaUp].
Proof. vm_compute. reflexivity. Qed.

Lemma link_verdict_damped_witness :
  lp_tp_eligible (project_probes probes) = true ∧ lp_rdma_state (project_probes (take 5 probes)) ≠ RdmaUp.
Proof.
  pose proof (link_verdict_damped 100 50 2 3 (Some (Some "ra", Some "rb")) probes
                ltac:(lia) ltac:(lia)) as (Hup & _ & _ & Htp & _).
  pose proof (link_verdict_damped 100 50 2 3 (Some (Some "ra", Some "rb")) (take 5 probes)
                ltac:(lia) ltac:(lia)) as (Hup' & _).
  split.
  - apply Htp, Hup. vm_compute. reflexivity.
  - intros H%Hup'. vm_compute in H. discriminate H.
Defined.
