(* ===== verification/Sharding.v ===== *)
(** * Sharded instances

    coire_scheduler/sharded_instances.py, coire_api/shard_executor.py and
    coire_api/shard_reconciler.py: the admission of one instance on both Studios, the
    commands to its ranks, their executor, the loss of a rank, teardown and drain.  The
    workflow's [await]s on commands separate the transactions; [wait_shard] and
    [wait_eviction] are one look at the command they wait for.  What the nodes answer, the
    digest of the host file and the ids of new rows are arguments. *)
From S2P Require Import Prelude Effects Placement Instances ShardLink.
Open Scope Z_scope.

Definition studio_names : list string := ["coire-edge-a"; "coire-edge-b"].

(** ** Row updates *)

Definition set_group (state : ShardGroupState) (reason : option string) (stopped : option Z)
    (g : ShardGroup) : ShardGroup :=
  mkGroup (sg_id g) (sg_instance_id g) (sg_mode g) state (sg_command_id g) (sg_hostfile_sha256 g)
    reason stopped.
(** [group.state = ...] *)
Definition set_group_state (state : ShardGroupState) (g : ShardGroup) : ShardGroup :=
  set_group state (sg_state_reason g) (sg_stopped_at g) g.
Definition update_group (id : string) (f : ShardGroup → ShardGroup) : IO unit :=
  modify (with_groups (update_key sg_id id f)).
Definition set_rank_health (healthy : bool) (at_ : option Z) (m : InstanceMember) : InstanceMember :=
  mkMember (mb_instance_id m) (mb_node_id m) (mb_rank m) (mb_engine_id m) (mb_reservation_id m)
    (mb_host m) (mb_port m) healthy at_.
Definition update_members (instance : string) (f : InstanceMember → InstanceMember) : IO unit :=
  modify (with_members (update_key mb_instance_id instance f)).
Definition set_command (state : CommandState) (answer : option ShardGroupState) (why : option string)
    (c : ShardCommand) : ShardCommand :=
  mkShardCommand (sc_id c) (sc_group_id c) (sc_node_id c) (sc_operation c) (sc_payload c) state answer why (sc_created_at c).
Definition update_command (id : string) (f : ShardCommand → ShardCommand) : IO unit :=
  modify (with_shard_commands (update_key sc_id id f)).
Definition set_reach (reach : Reachability) (s : Studio) : Studio :=
  mkStudio (st_id s) (st_name s) (st_control_host s) (st_data_host s) reach (st_has_ledger s)
    (st_health s) (st_health_reason s) (st_node s).
Definition set_health (health : Reachability) (reason : option string) (s : Studio) : Studio :=
  mkStudio (st_id s) (st_name s) (st_control_host s) (st_data_host s) (st_reachability s)
    (st_has_ledger s) health reason (st_node s).
Definition update_studio (id : string) (f : Studio → Studio) : IO unit :=
  modify (with_studios (update_key st_id id f)).

Definition add_command (c : ShardCommand) : IO unit :=
  w ← get;
  throw_if (present (by_key sc_id (sc_id c) (cl_shard_commands w))) IntegrityError;;
  modify (with_shard_commands (λ cs, cs ++ [c])).
(** [if await session.get(...) is None: session.add(...)] *)
Definition ensure_command (c : ShardCommand) : IO unit :=
  w ← get;
  if present (by_key sc_id (sc_id c) (cl_shard_commands w)) then mret tt
  else modify (with_shard_commands (λ cs, cs ++ [c])).

Section sharding.
Context (resolves : ModelInstance → Cluster → bool).
(** UUIDs derived from a name, the text form of an operation, and which holder ids are
    UUIDs. *)
Context (uuid5 : string → string) (is_uuid : string → bool).

Definition op_name (o : ShardOperation) : string :=
  match o with Prepare => "prepare" | MarkReady => "ready" | Stop => "stop" end.
Definition command_id (group node : string) (o : ShardOperation) : string :=
  uuid5 (group +:+ ":" +:+ node +:+ ":" +:+ op_name o).
Definition group_id (instance : string) : string := uuid5 ("coire:shard-group:" +:+ instance).
Definition shard_command (now : Z) (id group node : string) (o : ShardOperation)
    (payload : option ShardGroupCommand) : ShardCommand :=
  mkShardCommand id group node o payload CPending None None now.

(** ** The command to a group *)

(** [^[A-Za-z0-9_.-]+--[A-Za-z0-9_.-]+$] *)
Definition slug_char (c : Ascii.ascii) : bool :=
  let n := Z.of_nat (Ascii.nat_of_ascii c) in
  ((65 <=? n) && (n <=? 90)) || ((97 <=? n) && (n <=? 122)) || ((48 <=? n) && (n <=? 57))
  || is_in n [95; 46; 45].
Definition slug_ok (s : string) : bool :=
  forallb slug_char (String.list_ascii_of_string s)
  && existsb (λ i, String.eqb (String.substring i 2 s) "--") (List.seq 1 (String.length s - 3)).
Definition declared_rank (r : ShardRank) : bool :=
  ((rk_rank r =? 0) && String.eqb (rk_node_name r) "coire-edge-a" && String.eqb (rk_host r) "coire-edge-a.fabric")
  || ((rk_rank r =? 1) && String.eqb (rk_node_name r) "coire-edge-b" && String.eqb (rk_host r) "coire-edge-b.fabric").
Definition exactly_two_distinct_ranks (c : ShardGroupCommand) : bool :=
  forallb (λ k, existsb (λ r, rk_rank r =? k) (gc_ranks c)) [0; 1]
  && bool_decide (NoDup (rk_node_name <$> gc_ranks c))
  && forallb declared_rank (gc_ranks c).
Definition valid_group_command (c : ShardGroupCommand) : bool :=
  slug_ok (gc_slug c) && (length (gc_ranks c) =? 2)%nat && (0 <? gc_estimate_bytes_per_rank c)
  && forallb (λ r, (1024 <=? rk_port r) && (rk_port r <=? 65535)) (gc_ranks c)
  && exactly_two_distinct_ranks c.

(** ** Admission *)

Record ShardRequest := mkShardRequest {
  sq_now : Z;
  sq_instance : string;
  sq_projection : StudioLinkProjection;
  sq_capability : option bool;          (* the node's answer, if it answers *)
  sq_training_allows : bool;
  sq_hostfile : option string;          (* the digest of the host file, if it can be read *)
  sq_decision : string;                 (* new row ids *)
  sq_reservation : string → string;
}.

(** The healthy Studios with a verified copy, by name. *)
Definition shard_eligible (variant : string) (w : Cluster) (name : string) (s : Studio) : bool :=
  String.eqb (st_name s) name && same (st_reachability s) HEALTHY
  && existsb (λ c, String.eqb (vc_variant_id c) variant && String.eqb (vc_node_id c) (st_id s)
                   && vc_verified c) (cl_copies w).
Definition shard_nodes (variant : string) (w : Cluster) : list Studio :=
  name ← studio_names; List.filter (shard_eligible variant w name) (cl_studios w).

(** [max(1, math.ceil(estimate / 2))], exact for the sizes of models (below 2^53). *)
Definition rank_bytes (v : ModelVariant) : Z := Z.max 1 ((va_memory_estimate_bytes v + 1) / 2).

(** The plan of one node; a node without a ledger or with unmeasured work is refused. *)
Definition plan_rank (now required : Z) (s : Studio) : result PlacementError AdmissionPlan :=
  let rows := counted_rows (nd_reservations (st_node s)) in
  match (if st_has_ledger s then effective_occupied_bytes rows (nd_measured_resident_bytes (st_node s))
         else None) with
  | None => Err (CapacityRefused [])
  | Some occupied =>
      plan_admission (mkCapacity (nd_budget_bytes (st_node s)) occupied) required
        (candidates_of now (nd_leases (st_node s)) rows)
  end.
(** Every node is planned; [None] when one of them is refused. *)
Fixpoint plan_ranks (now required : Z) (nodes : list Studio) : IO (option (list (Studio * AdmissionPlan))) :=
  match nodes with
  | [] => mret (Some [])
  | s :: nodes =>
      p ← match plan_rank now required s with
          | Ok p => mret (Some (s, p))
          | Err (CapacityRefused _) => mret None
          | Err _ => throw (InstanceRuntimeError "placement plan")
          end;
      ps ← plan_ranks now required nodes;
      mret (p' ← p; ps' ← ps; Some (p' :: ps'))
  end.

Definition eviction_id (instance node reservation : string) : string :=
  uuid5 (instance +:+ ":" +:+ node +:+ ":evict:" +:+ reservation).
(** The running engine that a reservation's holder (an instance or a model) has on a node. *)
Definition holder_engine (node holder : string) (w : Cluster) : option EngineProcess :=
  List.find (λ e, String.eqb (en_node_id e) node
                  && (same (en_instance_id e) (Some holder) || same (en_model_id e) (Some holder))
                  && is_in (en_state e) [EReady; EStarting]) (cl_engines w).
(** One planned eviction: the victim drains, its reservation is released and its unload
    queued, all in the admission's transaction. *)
Definition evict_one (now : Z) (instance decision : string) (s : Studio) (plan : AdmissionPlan)
    (ranked : Z * string) : IO unit :=
  let '(rank, id) := ranked in
  w ← get;
  r ← some_or (InstanceRuntimeError "planned sharded eviction disappeared") (reservation_row id w);
  throw_if (negb (is_uuid (mr_holder_id r))) (InstanceRuntimeError "model reservation holder is not a UUID");;
  e ← some_or (InstanceRuntimeError "held eviction reservation has no running engine")
        (holder_engine (st_id s) (mr_holder_id r) w);
  match instance_row (mr_holder_id r) w with
  | Some victim =>
      if same (in_state victim) Ready
      then move resolves now (in_id victim) Draining (Some "coordinated sharded admission eviction") None
      else mret tt
  | None => mret tt
  end;;
  modify (on_reservation id (set_state RELEASING));;
  let command := eviction_id instance (st_id s) id in
  throw_if (present (by_key pc_id command (cl_placement_commands w))) IntegrityError;;
  modify (with_placement_commands (λ cs, cs ++
    [mkPlacementCommand command decision (st_id s) (Some id) (en_id e) CPending None None]));;
  modify (with_evictions (λ l, l ++
    [mkEviction decision (st_id s) id rank
       (filter (λ o, oc_reservation_id o ∉ ap_evictions plan) (ap_occupants plan)) "requested"])).
Definition evict_plan (now : Z) (instance decision : string) (p : Studio * AdmissionPlan) : IO unit :=
  for_each (evict_one now instance decision p.1 p.2)
    (zip (seqZ 1 (Z.of_nat (length (ap_evictions p.2)))) (ap_evictions p.2)).

(** The new reservation of a rank. *)
Definition pending_rank (q : ShardRequest) (required : Z) (node : string) : MemoryReservation :=
  mkReservation (sq_reservation q node) MODEL (sq_instance q) required false PENDING (sq_now q) None.
(** A node has one reservation per holder. *)
Definition holds_on (node instance : string) (w : Cluster) : bool :=
  existsb (λ s, String.eqb (st_id s) node && existsb (owned instance) (nd_reservations (st_node s)))
    (cl_studios w).
Definition reserve_rank (q : ShardRequest) (required : Z) (s : Studio) : IO unit :=
  w ← get;
  throw_if (present (reservation_row (sq_reservation q (st_id s)) w) || holds_on (st_id s) (sq_instance q) w)
    IntegrityError;;
  modify (with_studios (update_key st_id (st_id s)
    (on_node (with_rows (λ rows, rows ++ [pending_rank q required (st_id s)]))))).
Definition add_group (g : ShardGroup) : IO unit :=
  w ← get;
  throw_if (present (by_key sg_id (sg_id g) (cl_groups w)) || present (group_of (sg_instance_id g) w))
    IntegrityError;;
  modify (with_groups (λ gs, gs ++ [g])).
Definition member_of (q : ShardRequest) (ranked : Z * Studio) : InstanceMember :=
  mkMember (sq_instance q) (st_id ranked.2) ranked.1 None (Some (sq_reservation q (st_id ranked.2)))
    (default "" (st_data_host ranked.2)) (if ranked.1 =? 0 then Some 9600 else None) false None.

Definition group_command (q : ShardRequest) (mode : ShardingMode) (v : ModelVariant) (digest : string)
    (nodes : list Studio) : ShardGroupCommand :=
  mkGroupCommand (uuid5 ("coire:shard-command:" +:+ sq_instance q)) (group_id (sq_instance q))
    (sq_instance q) (va_id v) (va_slug v) mode
    ((λ r, mkRank r.1 (st_name r.2) (default "" (st_data_host r.2)) 9600) <$> zip [0; 1] nodes)
    (rank_bytes v) digest.

(** Everything the admission writes once both nodes have a plan; the ids of the unload
    commands to wait for. *)
Definition admit_ranks (q : ShardRequest) (mode : ShardingMode) (i : ModelInstance) (v : ModelVariant)
    (plans : list (Studio * AdmissionPlan)) : IO (list string) :=
  let required := rank_bytes v in
  let evictions := (p ← plans; (λ id, (st_id p.1, id)) <$> ap_evictions p.2) in
  w ← get;
  throw_if (present (by_key pd_id (sq_decision q) (cl_decisions w))) IntegrityError;;
  modify (with_decisions (λ ds, ds ++
    [mkDecision (sq_decision q) (in_model_id i) (in_variant_id i)
       (match mode with TENSOR_PARALLEL => "sharded:tp" | PIPELINE_PARALLEL => "sharded:pp" end)
       (required * 2) (if nonempty evictions then PEvicting else PReserving) None (snd <$> evictions)
       None None]));;
  update_instance (sq_instance q) (set_decision (sq_decision q));;
  for_each (evict_plan (sq_now q) (sq_instance q) (sq_decision q)) plans;;
  for_each (reserve_rank q required) (fst <$> plans);;
  digest ← some_or (InstanceRuntimeError "host file") (sq_hostfile q);
  let command := group_command q mode v digest (fst <$> plans) in
  throw_if (negb (valid_group_command command)) (InstanceRuntimeError "shard group command");;
  add_group (mkGroup (gc_group_id command) (sq_instance q) mode GPreparing (gc_command_id command) digest
               None None);;
  for_each (λ r, add_member (member_of q r)) (zip [0; 1] (fst <$> plans));;
  mret ((λ e, eviction_id (sq_instance q) e.1 e.2) <$> evictions).

Definition refuse (q : ShardRequest) (reason code : string) : IO (option (list string)) :=
  move resolves (sq_now q) (sq_instance q) Failed (Some reason) (Some code);; mret None.

(** The section under the locks of both nodes. *)
Definition admit_locked (q : ShardRequest) (mode : ShardingMode) (i : ModelInstance) (v : ModelVariant)
    (nodes : list Studio) : IO (option (list string)) :=
  throw_if (negb (sq_training_allows q))
    (InstanceRuntimeError "sharded placement is waiting for training ownership");;
  plans ← plan_ranks (sq_now q) (rank_bytes v) nodes;
  match plans with
  | None => refuse q "required, reserved and budget of each node" "sharded_capacity"
  | Some plans => ids ← admit_ranks q mode i v plans; mret (Some ids)
  end.

Definition shard_admission (q : ShardRequest) : IO (option (list string)) :=
  transaction (
  w ← get;
  let not_sharded := InstanceRuntimeError "not a sharded instance" in
  i ← some_or not_sharded (instance_row (sq_instance q) w);
  mode ← some_or not_sharded (match in_policy i with Sharded m => Some m | _ => None end);
  match in_variant_id i ≫= (λ v, by_key va_id v (cl_variants w)) with
  | None => refuse q "verified variant disappeared" "variant_missing"
  | Some v =>
      if negb (va_validated v) then refuse q "verified variant disappeared" "variant_missing"
      else if va_visual v then refuse q "visual models require a single Studio" "unsupported_visual_sharding"
      else if same mode TENSOR_PARALLEL && negb (same (lp_rdma_state (sq_projection q)) RdmaUp) then
        refuse q (default "current successful RDMA evidence is required" (lp_reason (sq_projection q)))
          "rdma_probe_required"
      else if same mode PIPELINE_PARALLEL && negb (same (lp_fallback_state (sq_projection q)) LinkUp) then
        refuse q "current successful ring evidence is required" "ring_probe_required"
      else
        let nodes := shard_nodes (va_id v) w in
        if negb (same (st_name <$> nodes) studio_names) then
          refuse q "both healthy Studios require a verified variant copy" "shard_nodes_ineligible"
        else
          supported ← some_or (InstanceRuntimeError "shard capability") (sq_capability q);
          if negb supported then refuse q "architecture does not support the mode" "unsupported_architecture"
          else
            move resolves (sq_now q) (sq_instance q) Reserving (Some "two-node admission") None;;
            admit_locked q mode i v nodes
  end).

(** ** The commands to the ranks *)

(** One look at a command: [true] once it has succeeded. *)
Definition wait_shard (id : string) : IO bool :=
  w ← get;
  c ← some_or (InstanceRuntimeError "shard command disappeared") (by_key sc_id id (cl_shard_commands w));
  match sc_state c with
  | CSucceeded => mret true
  | CFailed => throw (InstanceRuntimeError (default "shard command failed" (sc_failure_detail c)))
  | _ => mret false
  end.
Definition wait_eviction (id : string) : IO bool :=
  w ← get;
  c ← some_or (InstanceRuntimeError "sharded eviction command disappeared")
        (by_key pc_id id (cl_placement_commands w));
  match pc_state c with
  | CSucceeded => mret true
  | CFailed => throw (InstanceRuntimeError (default "sharded eviction failed" (pc_failure_detail c)))
  | _ => mret false
  end.

(** After the evictions: rank one's command before rank zero's. *)
Definition queue_prepare (now : Z) (instance : string) (nodes : list Studio) (command : ShardGroupCommand)
    : IO unit :=
  transaction (
  w ← get;
  i ← some_or (InstanceRuntimeError "sharded instance disappeared after eviction") (instance_row instance w);
  match in_decision_id i with
  | Some d => modify (with_decisions (update_key pd_id d (set_pd_state PReserving)))
  | None => mret tt
  end;;
  for_each (λ s, add_command (shard_command now (command_id (group_id instance) (st_name s) Prepare)
                                (group_id instance) (st_id s) Prepare (Some command))) (reverse nodes);;
  move resolves now instance Launching (Some "group commands queued") None).
(** After both ranks have prepared. *)
Definition queue_ready (now : Z) (instance : string) (nodes : list Studio) : IO unit :=
  transaction (
  w ← get;
  _ ← some_or (InstanceRuntimeError "shard group disappeared") (by_key sg_id (group_id instance) (cl_groups w));
  update_group (group_id instance) (set_group_state GStarting);;
  move resolves now instance Warming (Some "distributed first generation") None;;
  for_each (λ s, add_command (shard_command now (command_id (group_id instance) (st_name s) MarkReady)
                                (group_id instance) (st_id s) MarkReady None)) nodes).
(** A node or ledger that was degraded has recovered. *)
Definition recovered (s : Studio) : Studio :=
  let s := if same (st_reachability s) DEGRADED then set_reach HEALTHY s else s in
  if st_has_ledger s && same (st_health s) DEGRADED then set_health HEALTHY None s else s.
(** After both ranks are ready. *)
Definition finish_launch (now : Z) (instance : string) : IO unit :=
  transaction (
  w ← get;
  let gone := InstanceRuntimeError "sharded state disappeared" in
  g ← some_or gone (by_key sg_id (group_id instance) (cl_groups w));
  i ← some_or gone (instance_row instance w);
  let members := members_of instance w in
  for_each (λ m, match mb_reservation_id m with
                 | Some r => modify (on_reservation r (set_state HELD))
                 | None => mret tt
                 end) members;;
  update_members instance (set_rank_health true (Some now));;
  for_each (λ m, update_studio (mb_node_id m) recovered) members;;
  update_group (sg_id g) (set_group_state GReady);;
  match in_decision_id i with
  | Some d => modify (with_decisions (update_key pd_id d (set_pd_state PReady)))
  | None => mret tt
  end;;
  move resolves now instance Ready (Some "both ranks ready") None).

(** ** Teardown and drain *)

Definition release_failed_reservations (now : Z) (instance : string) : IO unit :=
  transaction (
  w ← get;
  match instance_row instance w with
  | Some i => if same (in_state i) Failed
              then modify (on_owned instance (set_closed FAILED (Some now))) else mret tt
  | None => mret tt
  end).

(** The first transaction: the stop commands to wait for, or [None] when there was no
    group to stop. *)
Definition teardown_begin (now : Z) (instance reason : string) : IO (option (list string)) :=
  transaction (
  w ← get;
  match group_of instance w with
  | None =>
      modify (on_owned instance (set_closed FAILED (Some now)));;
      match instance_row instance w with
      | Some i => if same (in_state i) Failed then mret None
                  else move resolves now instance Failed (Some reason) (Some "shard_group_failed");; mret None
      | None => mret None
      end
  | Some g =>
      update_group (sg_id g) (set_group_state GStopping);;
      let ids := (λ m, command_id (sg_id g) (mb_node_id m) Stop) <$> members_of instance w in
      for_each (λ m, ensure_command (shard_command now (command_id (sg_id g) (mb_node_id m) Stop)
                                       (sg_id g) (mb_node_id m) Stop None)) (members_of instance w);;
      mret (Some ids)
  end).
(** The last transaction, once every stop has succeeded or failed. *)
Definition closed_as (failed : bool) : MemoryReservationState := if failed then FAILED else RELEASED.
Definition release_members (failed : bool) (now : Z) (ms : list InstanceMember) : IO unit :=
  for_each (λ m, match mb_reservation_id m with
                 | Some r => modify (on_reservation r (set_closed (closed_as failed) (Some now)))
                 | None => mret tt
                 end) ms.
Definition teardown_finish (now : Z) (instance reason : string) (failed : bool) : IO unit :=
  transaction (
  w ← get;
  let members := members_of instance w in
  update_members instance (λ m, set_rank_health false (mb_last_rank_health_at m) m);;
  release_members failed now members;;
  modify (on_owned instance (set_closed (closed_as failed) (Some now)));;
  match group_of instance w with
  | Some g => update_group (sg_id g) (set_group (if failed then GFailed else GStopped) (Some reason) (Some now))
  | None => mret tt
  end;;
  if present (instance_row instance w)
  then move resolves now instance (if failed then Failed else Stopped) (Some reason)
         (if failed then Some "shard_group_failed" else None)
  else mret tt).
(** Whether every stop has ended, and whether one has failed; [None] while one has not. *)
Fixpoint stops_ended (ids : list string) (w : Cluster) : option bool :=
  match ids with
  | [] => Some false
  | id :: ids =>
      match (wait_shard id w).1 with
      | Ok true => stops_ended ids w
      | Ok false => None
      | Err _ => (λ _, true) <$> stops_ended ids w
      end
  end.

(** One turn of [drain_sharded]: [Some true] when the teardown may begin, [None] when the
    instance is gone. *)
Definition drain_shards (now : Z) (instance : string) : IO (option bool) :=
  transaction (
  w ← get;
  match instance_row instance w with
  | None => mret None
  | Some i =>
      let ids := omap mb_reservation_id (members_of instance w) in
      if (lease_count now ids w =? 0) || expired now i then
        (if expired now i then modify (release_leases now ids) else mret tt);;
        mret (Some true)
      else mret (Some false)
  end).

(** ** [ShardCommandExecutor] *)

(** The oldest command that has not ended. *)
Definition next_command (w : Cluster) : option string :=
  sc_id <$> head (sorted_on sc_created_at
    (filter (λ c, sc_state c = CPending ∨ sc_state c = CRunning) (cl_shard_commands w))).

(** What a node may answer to a command. *)
Inductive NodeAnswer := Answered (state : ShardGroupState) | RetryableError | NodeFailure (why : string).

(** The transaction before the call: the command is running. *)
Definition execute_begin (id : string) : IO unit :=
  transaction (
  w ← get;
  c ← some_or (InstanceRuntimeError "shard command disappeared") (by_key sc_id id (cl_shard_commands w));
  _ ← some_or (InstanceRuntimeError "shard command node disappeared") (studio_row (sc_node_id c) w);
  update_command id (set_command CRunning (sc_result c) (sc_failure_detail c))).

(** [_finalize_stop] *)
Definition release_unclosed (failed : bool) (now : Z) (instance : string) : IO unit :=
  modify (on_rows (λ r, if owned instance r && absent (mr_released_at r)
                        then set_closed (closed_as failed) (Some now) r else r)).
Definition finalize_stop (now : Z) (id : string) (failed : bool) : IO unit :=
  transaction (
  w ← get;
  match by_key sc_id id (cl_shard_commands w) with
  | None => mret tt
  | Some c =>
      if existsb (λ o, String.eqb (sc_group_id o) (sc_group_id c) && same (sc_operation o) Stop
                       && negb (same (sc_state o) CSucceeded)) (cl_shard_commands w) then mret tt
      else match by_key sg_id (sc_group_id c) (cl_groups w) with
      | None => mret tt
      | Some g =>
          let instance := sg_instance_id g in
          update_members instance (λ m, set_rank_health false (mb_last_rank_health_at m) m);;
          release_members failed now (members_of instance w);;
          release_unclosed failed now instance;;
          if same (sg_state g) GStopping then
            match instance_row instance w with
            | None => update_group (sg_id g) (set_group GStopped (sg_state_reason g) (Some now))
            | Some i =>
                let lost := same (in_state i) Failed in
                update_group (sg_id g)
                  (set_group (if lost then GFailed else GStopped) (sg_state_reason g) (Some now));;
                if negb lost && negb (same (in_state i) Stopped)
                then move resolves now instance Stopped (Some "both rank stops confirmed") None
                else mret tt
            end
          else mret tt
      end
  end).

(** [_failed]: a stop that failed closes what the members still hold. *)
Definition fail_members (now : Z) (ms : list InstanceMember) : IO unit :=
  for_each (λ m, match mb_reservation_id m with
                 | Some r => modify (on_reservation r (λ r, if absent (mr_released_at r)
                                                            then set_closed FAILED (Some now) r else r))
                 | None => mret tt
                 end) ms.
Definition command_failed (now : Z) (id : string) : IO unit :=
  transaction (
  w ← get;
  match by_key sc_id id (cl_shard_commands w) with
  | None => mret tt
  | Some c =>
      let detail := Some "shard operation failed; inspect correlated logs" in
      update_command id (set_command CFailed (sc_result c) detail);;
      match by_key sg_id (sc_group_id c) (cl_groups w) with
      | None => mret tt
      | Some g =>
          update_group (sg_id g) (set_group GFailed detail (sg_stopped_at g));;
          if same (sc_operation c) Stop then fail_members now (members_of (sg_instance_id g) w) else mret tt
      end
  end).

(** [_execute_safely]: only the call itself is guarded. *)
Definition execute_safely (now : Z) (id : string) (answer : NodeAnswer) : IO unit := λ w,
  match execute_begin id w with
  | (Err _, w) => command_failed now id w
  | (Ok _, w) =>
      match answer with
      | RetryableError => (Ok tt, w)
      | NodeFailure _ => command_failed now id w
      | Answered state =>
          (transaction (update_command id (λ c, set_command CSucceeded (Some state) (sc_failure_detail c) c));;
           if is_in state [GStopped; GFailed] then finalize_stop now id (same state GFailed) else mret tt) w
      end
  end.

(** [_run], one turn per time and answer; an exception ends the task. *)
Fixpoint executor_run (turns : list (Z * NodeAnswer)) : IO unit :=
  match turns with
  | [] => mret tt
  | (now, answer) :: turns =>
      w ← get;
      match next_command w with
      | None => mret tt
      | Some id => execute_safely now id answer
      end;;
      executor_run turns
  end.

(** ** [ShardReconciler] *)

Definition set_fallback (at_ : option Z) (id : option string) (no_fit : bool) (i : ModelInstance)
    : ModelInstance :=
  mkInstance (in_id i) (in_model_id i) (in_variant_id i) (in_adapter_id i) (in_decision_id i)
    (in_policy i) (in_smoke i) (in_state i) (in_failure_code i) (in_failure_detail i)
    (in_updated_at i) (in_transitioned_at i) (in_drain_deadline i) at_ id no_fit.

(** The largest other validated variant that fits the survivor. *)
Definition fallback_variant (failed : ModelInstance) (node : string) (available : Z) (w : Cluster)
    : option ModelVariant :=
  head (sorted_on (λ v, - va_memory_estimate_bytes v)
    (filter (λ v, String.eqb (va_model_id v) (in_model_id failed)
                  && present (in_variant_id failed)
                  && negb (same (Some (va_id v)) (in_variant_id failed)) && va_validated v
                  && (va_memory_estimate_bytes v <=? available)
                  && existsb (λ c, String.eqb (vc_variant_id c) (va_id v) && String.eqb (vc_node_id c) node
                                   && vc_verified c) (cl_copies w) = true) (cl_variants w))).
Definition available_bytes (s : Studio) : Z :=
  (if st_has_ledger s then nd_budget_bytes (st_node s) else 0)
  - sum_Z (mr_bytes <$> counted_rows (nd_reservations (st_node s))).
Definition create_fallback (now : Z) (new_id : string) (failed : ModelInstance)
    (members : list InstanceMember) (failed_node : string) : IO unit :=
  w ← get;
  let no_fit := update_instance (in_id failed) (set_fallback (Some now) (in_fallback_instance_id failed) true) in
  match List.find (λ m, negb (String.eqb (mb_node_id m) failed_node)) members with
  | None => no_fit
  | Some survivor =>
      match studio_row (mb_node_id survivor) w with
      | None => no_fit
      | Some s =>
          match fallback_variant failed (st_id s) (available_bytes s) w with
          | None => no_fit
          | Some v =>
              add_instance (new_instance now new_id (in_model_id failed) (Some (va_id v)) None
                              (Single ("single:" +:+ st_name s)));;
              update_instance (in_id failed)
                (set_fallback (Some now) (Some new_id) (in_fallback_no_fit failed))
          end
      end
  end.

(** [_fail_group] *)
Definition fail_group (now : Z) (new_id group failed_node : string) : IO unit :=
  transaction (
  w ← get;
  match by_key sg_id group (cl_groups w) with
  | None => mret tt
  | Some g =>
      if negb (same (sg_state g) GReady) then mret tt
      else
        let instance := sg_instance_id g in
        update_group group (set_group GStopping (Some "rank health conjunction failed") (sg_stopped_at g));;
        match instance_row instance w with
        | Some i => if same (in_state i) Failed then mret tt
                    else move resolves now instance Failed (Some "a sharded rank was lost") (Some "rank_lost")
        | None => mret tt
        end;;
        update_studio failed_node (set_reach DEGRADED);;
        update_studio failed_node (λ s,
          if st_has_ledger s then set_health DEGRADED (Some ("rank lost in shard group " +:+ group)) s else s);;
        update_members instance (λ m, set_rank_health false (mb_last_rank_health_at m) m);;
        for_each (λ m, ensure_command (shard_command now (command_id group (mb_node_id m) Stop)
                                         group (mb_node_id m) Stop None)) (members_of instance w);;
        match instance_row instance w with
        | Some i => if present (in_fallback_attempted_at i) then mret tt
                    else create_fallback now new_id i (members_of instance w) failed_node
        | None => mret tt
        end
  end).

(** [_check_group]: the first member whose node does not report a ready group. *)
Definition check_group (now : Z) (new_id group : string) (reports : string → option ShardGroupState)
    : IO unit :=
  w ← get;
  match by_key sg_id group (cl_groups w) with
  | None => mret tt
  | Some g =>
      match List.find (λ m, negb (same (reports (mb_node_id m)) (Some GReady)))
              (sorted_on mb_rank (members_of (sg_instance_id g) w)) with
      | None => transaction (update_members (sg_instance_id g) (set_rank_health true (Some now)))
      | Some m => fail_group now new_id group (mb_node_id m)
      end
  end.
End sharding.
