(* ===== verification/InstanceFacts.v ===== *)
(** * The log of an instance is its history *)
From S2P Require Import Prelude Effects Placement Instances InstanceWriters.
Open Scope Z_scope.

(** ** Histories *)

(** What may follow a state; a failed smoke test may still be closed. *)
Definition next_states (smoke : bool) (p : InstanceState) : list InstanceState :=
  if smoke && same p Failed then [Stopped] else allowed_transitions p.

(** The transitions lead from [prev] to [final], each a permitted one; the first is the
    request. *)
Fixpoint path (smoke : bool) (prev : option InstanceState) (l : list InstanceTransition)
    (final : InstanceState) : Prop :=
  match l with
  | [] => prev = Some final
  | t :: l =>
      tr_previous_state t = prev
      ∧ match prev with
        | None => tr_state t = Requested
        | Some p => tr_state t ∈ next_states smoke p
        end
      ∧ path smoke (Some (tr_state t)) l final
  end.
Definition log_ok (smoke : bool) (s : InstanceState) (l : list InstanceTransition) : Prop :=
  tr_sequence <$> l = seqZ 1 (Z.of_nat (length l)) ∧ path smoke None l s.

(** An instance is an image worker or not, and of a smoke test or not, for good. *)
Definition kind (i : ModelInstance) : bool * bool := (is_image (in_policy i), in_smoke i).
Definition kinds (w : Cluster) : list (string * (bool * bool)) :=
  (λ i, (in_id i, kind i)) <$> cl_instances w.
Definition states (w : Cluster) : list (string * (bool * bool * InstanceState)) :=
  (λ i, (in_id i, (kind i, in_state i))) <$> cl_instances w.
(** Image workers keep no log of their own. *)
Record history_ok (w : Cluster) : Prop := {
  ho_ids : NoDup (states w).*1;
  ho_known : ∀ t, t ∈ cl_transitions w → tr_instance_id t ∈ (states w).*1;
  ho_log : ∀ id smoke s, (id, (false, smoke, s)) ∈ states w → log_ok smoke s (transitions_of id w);
}.

Lemma kinds_states w : kinds w = (λ p, (p.1, p.2.1)) <$> states w.
Proof. unfold kinds, states. by rewrite <- list_fmap_compose. Qed.
Lemma allowed_next smoke p s : s ∈ allowed_transitions p → s ∈ next_states smoke p.
Proof. unfold next_states. destruct p, smoke; simpl; set_solver. Qed.

Lemma path_snoc smoke prev l s s' t :
  path smoke prev l s → tr_previous_state t = Some s → tr_state t = s' → s' ∈ next_states smoke s →
  path smoke prev (l ++ [t]) s'.
Proof.
  revert prev. induction l as [|u l IH]; intros prev; simpl.
  - intros -> Hp <- Hin. done.
  - intros (? & ? & ?) ???. split_and!; auto.
Qed.

Lemma path_terminal smoke p l s : next_states smoke p = [] → path smoke (Some p) l s → l = [] ∧ s = p.
Proof. destruct l as [|t l]; simpl; [intros _ [= ->]; done|]. intros -> (_ & H & _). set_solver. Qed.

(** From an ended state only ended states are reached. *)
Lemma path_ended smoke p l s :
  p ∈ [Stopped; Failed] → path smoke (Some p) l s → s ∈ [Stopped; Failed].
Proof.
  revert p. induction l as [|t l IH]; intros p Hp; simpl; [by intros [= ->]|]. intros (_ & Hin & Hl).
  apply (IH _) in Hl; [done|]. rewrite !elem_of_cons in Hp.
  destruct Hp as [->|[->|[]%elem_of_nil]], smoke; simpl in Hin; set_solver.
Qed.

Lemma path_app smoke prev l1 l2 s s1 :
  path smoke prev l1 s1 → path smoke prev (l1 ++ l2) s → path smoke (Some s1) l2 s.
Proof.
  revert prev. induction l1 as [|t l1 IH]; simpl; intros prev; [by intros ->|].
  intros (_ & _ & H1) (_ & _ & H2). by eapply IH.
Qed.

(** The only way to be ready. *)
Lemma path_ready smoke l :
  path smoke None l Ready → tr_state <$> l = [Requested; Reserving; Launching; Warming; Ready].
Proof.
  assert (Hend : ∀ p l', p ∈ [Stopped; Failed] → path smoke (Some p) l' Ready → False).
  { intros p l' Hp Hl'. apply (path_ended smoke p l' Ready Hp) in Hl'. set_solver. }
  assert (Hnext : ∀ p q l', next_states smoke p = [q; Failed] → p ≠ Ready → path smoke (Some p) l' Ready →
    ∃ t l2, l' = t :: l2 ∧ tr_state t = q ∧ path smoke (Some q) l2 Ready).
  { intros p q [|t l2] Hp Hne; simpl; [intros [= ->]; done|]. rewrite Hp. intros (_ & Hin & Hl2).
    exists t, l2. rewrite !elem_of_cons in Hin. destruct Hin as [E|[E|[]%elem_of_nil]]; rewrite E in Hl2.
    - done.
    - apply Hend in Hl2; [done|set_solver]. }
  assert (Hn : ∀ p, p ≠ Failed → next_states smoke p = allowed_transitions p).
  { intros p Hp. unfold next_states. rewrite (proj2 (same_false _ _) Hp). by rewrite andb_false_r. }
  destruct l as [|t l]; [done|]. simpl. intros (_ & -> & Hl).
  apply (Hnext _ Reserving) in Hl as (t1 & l1 & -> & E1 & Hl); [|by rewrite Hn|done].
  apply (Hnext _ Launching) in Hl as (t2 & l2 & -> & E2 & Hl); [|by rewrite Hn|done].
  apply (Hnext _ Warming) in Hl as (t3 & l3 & -> & E3 & Hl); [|by rewrite Hn|done].
  apply (Hnext _ Ready) in Hl as (t4 & l4 & -> & E4 & Hl); [|by rewrite Hn|done].
  destruct l4 as [|t5 l5]; [simpl; by rewrite E1, E2, E3, E4|].
  destruct Hl as (_ & Hin & Hl). rewrite Hn in Hin by done. simpl in Hin. rewrite !elem_of_cons in Hin.
  destruct Hin as [E|[E|[]%elem_of_nil]]; rewrite E in Hl; [|by apply Hend in Hl; [|set_solver]].
  destruct l5 as [|t6 l6]; [done|]. destruct Hl as (_ & Hin & Hl). rewrite Hn in Hin by done.
  simpl in Hin. rewrite !elem_of_cons in Hin.
  destruct Hin as [E'|[E'|[]%elem_of_nil]]; rewrite E' in Hl; apply Hend in Hl; set_solver.
Qed.

(** ** What every call does to the log *)

Definition logged (w w' : Cluster) : Prop :=
  (history_ok w → history_ok w') ∧ cl_transitions w `prefix_of` cl_transitions w'
  ∧ kinds w `prefix_of` kinds w'.
#[global] Instance logged_preorder : PreOrder logged.
Proof.
  split; [by intros w|]. intros a b c (H1 & P1 & K1) (H2 & P2 & K2).
  split_and!; [by auto|by trans (cl_transitions b)|by trans (kinds b)].
Qed.

Lemma logged_same w w' : states w' = states w → cl_transitions w' = cl_transitions w → logged w w'.
Proof.
  intros Hs Ht. split_and!; [|by rewrite Ht|by rewrite !kinds_states, Hs]. intros [H1 H2 H3].
  split; unfold transitions_of in *; rewrite ?Hs, ?Ht; done.
Qed.

Lemma states_update id f w :
  (∀ i, in_id (f i) = in_id i ∧ kind (f i) = kind i ∧ in_state (f i) = in_state i) →
  states (with_instances (update_key in_id id f) w) = states w.
Proof.
  intros Hf. unfold states, update_key. simpl. rewrite <- list_fmap_compose. apply fmap_ext_in.
  intros i _. simpl. case_match; [|done]. by destruct (Hf i) as (-> & -> & ->).
Qed.

Lemma logged_update_instance id f :
  (∀ i, in_id (f i) = in_id i ∧ kind (f i) = kind i ∧ in_state (f i) = in_state i) →
  steps logged (update_instance id f).
Proof. intros Hf w. apply logged_same; [by apply states_update|done]. Qed.

Lemma instance_row_states id w i :
  instance_row id w = Some i → (id, (kind i, in_state i)) ∈ states w.
Proof.
  intros [Hi E]%find_Some_elem. apply String.eqb_eq in E as <-.
  by apply (list_elem_of_fmap_2 (λ i, (in_id i, (kind i, in_state i)))).
Qed.

Lemma instance_row_none id w : instance_row id w = None → id ∉ (states w).*1.
Proof.
  intros Hn. unfold states. rewrite <- list_fmap_compose. intros (i & -> & Hi)%list_elem_of_fmap.
  unfold instance_row, by_key in Hn. apply (List.find_none _ _) with (x := i) in Hn; [|by apply list_elem_of_In].
  simpl in Hn. by rewrite String.eqb_refl in Hn.
Qed.

Lemma log_ok_last smoke s l : log_ok smoke s l → foldr Z.max 0 (tr_sequence <$> l) = Z.of_nat (length l).
Proof.
  intros [-> _]. apply Z.le_antisymm.
  - apply foldr_max_le. split; [lia|]. intros x [i Hi]%list_elem_of_lookup. apply lookup_seqZ in Hi. lia.
  - destruct (length l) as [|n]; [simpl; lia|].
    pose proof (proj1 (foldr_max_le 0 (seqZ 1 (Z.of_nat (S n))) _) (Z.le_refl _)) as [_ H].
    apply H. apply elem_of_seqZ. lia.
Qed.

(** Writing the state of one instance changes nothing else of [states]. *)
Lemma states_written id f w target :
  (∀ i, in_id (f i) = in_id i ∧ kind (f i) = kind i ∧ in_state (f i) = target) →
  states (with_instances (update_key in_id id f) w)
  = (λ p, if String.eqb p.1 id then (p.1, (p.2.1, target)) else p) <$> states w.
Proof.
  intros Hf. unfold states, update_key. simpl. rewrite <- !list_fmap_compose. apply fmap_ext_in. intros i _. simpl.
  case_match; [|done]. by destruct (Hf i) as (-> & -> & ->).
Qed.
Lemma states_written_ids id f w target :
  (∀ i, in_id (f i) = in_id i ∧ kind (f i) = kind i ∧ in_state (f i) = target) →
  (states (with_instances (update_key in_id id f) w)).*1 = (states w).*1.
Proof.
  intros Hf. rewrite (states_written id f w target Hf), <- list_fmap_compose. apply fmap_ext_in.
  intros p _. simpl. by case_match.
Qed.
Lemma kinds_written id f w target :
  (∀ i, in_id (f i) = in_id i ∧ kind (f i) = kind i ∧ in_state (f i) = target) →
  kinds (with_instances (update_key in_id id f) w) = kinds w.
Proof.
  intros Hf. rewrite !kinds_states, (states_written id f w target Hf), <- list_fmap_compose.
  apply fmap_ext_in. intros p _. simpl. by case_match.
Qed.

(** One more transition of an instance. *)
Lemma history_append w id k s target reason f :
  history_ok w → (id, (k, s)) ∈ states w → target ∈ next_states k.2 s →
  (∀ i, in_id (f i) = in_id i ∧ kind (f i) = kind i ∧ in_state (f i) = target) →
  history_ok (with_transitions
    (λ ts, ts ++ [mkTransition id (last_sequence id w + 1) (Some s) target reason])
    (with_instances (update_key in_id id f) w)).
Proof.
  intros [H1 H2 H3] Hs Hin Hf.
  pose proof (states_written id f w target Hf) as Hst. pose proof (states_written_ids id f w target Hf) as Hids.
  split.
  - change (NoDup (states (with_instances (update_key in_id id f) w)).*1). by rewrite Hids.
  - intros t Ht. change (tr_instance_id t ∈ (states (with_instances (update_key in_id id f) w)).*1).
    rewrite Hids. simpl in Ht. apply elem_of_app in Ht as [Ht|Ht%list_elem_of_singleton]; [auto|].
    subst t. simpl. by apply (list_elem_of_fmap_2 fst _ (id, (k, s))).
  - intros id' smoke s' Hs'.
    change ((id', (false, smoke, s')) ∈ states (with_instances (update_key in_id id f) w)) in Hs'.
    rewrite Hst in Hs'. apply list_elem_of_fmap in Hs' as ([id0 [k0 s0]] & E & H0). simpl in E.
    unfold transitions_of in *. simpl. rewrite filter_app, filter_cons. simpl.
    destruct (String.eqb_spec id0 id) as [->|Hne]; injection E as -> <- ->.
    + rewrite decide_True by done.
      injection (NoDup_fmap_inj fst (states w) _ _ H1 H0 Hs eq_refl) as <- ->.
      pose proof (H3 id smoke s Hs) as Hlog. unfold last_sequence, transitions_of.
      rewrite (log_ok_last _ _ _ Hlog). destruct Hlog as [Hseq Hp]. split.
      * rewrite fmap_app, Hseq, length_app. simpl.
        replace (Z.of_nat (length (filter (λ t, tr_instance_id t = id) (cl_transitions w)) + 1))
          with (Z.of_nat (length (filter (λ t, tr_instance_id t = id) (cl_transitions w))) + 1) by lia.
        rewrite seqZ_app by lia. f_equal. by rewrite Z.add_comm.
      * by eapply path_snoc.
    + rewrite decide_False by done. rewrite filter_nil, app_nil_r. by apply H3.
Qed.

(** An image worker's state is written without a transition. *)
Lemma history_image w id smoke s f target :
  history_ok w → (id, (true, smoke, s)) ∈ states w →
  (∀ i, in_id (f i) = in_id i ∧ kind (f i) = kind i ∧ in_state (f i) = target) →
  history_ok (with_instances (update_key in_id id f) w).
Proof.
  intros [H1 H2 H3] Hs Hf.
  pose proof (states_written id f w target Hf) as Hst. pose proof (states_written_ids id f w target Hf) as Hids.
  split; [by rewrite Hids|intros t Ht; rewrite Hids; by apply H2|].
  intros id' smoke' s' Hs'. rewrite Hst in Hs'. apply list_elem_of_fmap in Hs' as ([id0 [k0 s0]] & E & H0). simpl in E.
  destruct (String.eqb_spec id0 id) as [->|Hne]; injection E as -> <- ->; [|by apply (H3 id0 smoke' s0)].
  by pose proof (NoDup_fmap_inj fst (states w) _ _ H1 H0 Hs eq_refl).
Qed.

Lemma states_added i w :
  states (with_instances (λ l, l ++ [i]) w) = states w ++ [(in_id i, (kind i, in_state i))].
Proof. unfold states. simpl. by rewrite fmap_app. Qed.
Lemma kinds_added i w : kinds w `prefix_of` kinds (with_instances (λ l, l ++ [i]) w).
Proof. unfold kinds. simpl. rewrite fmap_app. by apply prefix_app_r. Qed.

(** A new instance with its first transition. *)
Lemma history_create w i :
  history_ok w → in_id i ∉ (states w).*1 → in_state i = Requested →
  history_ok (with_transitions
    (λ ts, ts ++ [mkTransition (in_id i) 1 None (in_state i) (Some "instance requested")])
    (with_instances (λ l, l ++ [i]) w)).
Proof.
  intros [H1 H2 H3] Hnew Hreq. pose proof (states_added i w) as Hst.
  split.
  - change (NoDup (states (with_instances (λ l, l ++ [i]) w)).*1). rewrite Hst, fmap_app. simpl.
    apply NoDup_app. split_and!; [done| |apply NoDup_singleton]. intros x Hx ->%list_elem_of_singleton. done.
  - intros t Ht. change (tr_instance_id t ∈ (states (with_instances (λ l, l ++ [i]) w)).*1).
    rewrite Hst, fmap_app. simpl in Ht. apply elem_of_app in Ht as [Ht|Ht%list_elem_of_singleton].
    + apply elem_of_app. left. auto.
    + subst t. simpl. apply elem_of_app. right. by left.
  - intros id smoke s Hs. change ((id, (false, smoke, s)) ∈ states (with_instances (λ l, l ++ [i]) w)) in Hs.
    rewrite Hst in Hs. unfold transitions_of. simpl. rewrite filter_app, filter_cons. simpl.
    apply elem_of_app in Hs as [Hs|Hs%list_elem_of_singleton].
    + rewrite decide_False; [rewrite filter_nil, app_nil_r; by apply H3|].
      intros <-. destruct Hnew. by apply (list_elem_of_fmap_2 fst _ (in_id i, (false, smoke, s))).
    + injection Hs as -> _ -> ->. rewrite decide_True by done. rewrite filter_none; [|intros t Ht E].
      * simpl. split; [done|]. by rewrite Hreq.
      * destruct Hnew. rewrite <- E. auto.
Qed.

(** A new image worker, without one. *)
Lemma history_add_image w i :
  history_ok w → in_id i ∉ (states w).*1 → is_image (in_policy i) = true →
  history_ok (with_instances (λ l, l ++ [i]) w).
Proof.
  intros [H1 H2 H3] Hnew Him. pose proof (states_added i w) as Hst. split.
  - rewrite Hst, fmap_app. simpl. apply NoDup_app. split_and!; [done| |apply NoDup_singleton]. intros x Hx ->%list_elem_of_singleton. done.
  - intros t Ht. rewrite Hst, fmap_app. apply elem_of_app. left. by apply H2.
  - intros id smoke s Hs. rewrite Hst in Hs. apply elem_of_app in Hs as [Hs|Hs%list_elem_of_singleton]; [by apply H3|].
    injection Hs as _ E _ _. congruence.
Qed.

(** ** Every operation keeps the log *)

Create HintDb cluster discriminated.

(** Take a call apart; [R] is the relation to keep. *)
Ltac cluster_calls := repeat first
  [ progress intros
  | solve [auto with cluster]
  | match goal with
    | |- steps _ (_ ≫= _) => apply steps_bind; [apply _| |]
    | |- steps _ (for_each _ _) => apply steps_for_each; [apply _|]
    | |- steps _ (transaction _) => apply steps_transaction; [apply _|]
    | |- steps _ (on_error _ _) => apply steps_on_error; [apply _| |]
    | |- steps _ (mret _) => apply steps_ret; apply _
    | |- steps _ get => apply steps_get; apply _
    | |- steps _ (throw _) => apply steps_throw; apply _
    | |- steps _ (throw_if _ _) => apply steps_throw_if; apply _
    | |- steps _ (some_or _ _) => apply steps_some_or; apply _
    | |- steps _ (match ?x with _ => _ end) => destruct x
    | |- steps _ (let '(_, _) := ?x in _) => destruct x
    | |- steps _ (let _ := _ in _) => cbv zeta
    end ].

(** A write to any other table. *)
Lemma logged_modify f :
  (∀ w, cl_instances (f w) = cl_instances w) → (∀ w, cl_transitions (f w) = cl_transitions w) →
  steps logged (modify f : IO unit).
Proof. intros Hi Ht w. apply logged_same; [unfold states; simpl; by rewrite Hi|apply Ht]. Qed.

Section operations.
Context (resolves : ModelInstance → Cluster → bool).

(** A transition changes nothing, or appends one allowed transition. *)
Definition after_transition (now : Z) (i : ModelInstance) (target : InstanceState)
    (reason code : option string) (w : Cluster) : Cluster :=
  let id := in_id i in
  with_audit (λ l, l ++ [mkAudit "instance.transition" id (Some (in_state i)) (Some target)])
    (with_transitions
       (λ ts, ts ++ [mkTransition id (last_sequence id w + 1) (Some (in_state i)) target reason])
       (with_instances (update_key in_id id (moved now target reason code)) w)).

Lemma instance_row_id id w i : instance_row id w = Some i → in_id i = id.
Proof. intros [_ E]%find_Some_elem. by apply String.eqb_eq in E. Qed.

Lemma transition_run now id target reason code w out w' :
  transition resolves now id target reason code w = (out, w') →
  (w' = w ∧ ∀ i, out = Ok i → instance_row id w = Some i ∧ in_state i = target)
  ∨ ∃ i, instance_row id w = Some i ∧ target ∈ allowed_transitions (in_state i)
         ∧ out = Ok (moved now target reason code i) ∧ w' = after_transition now i target reason code w.
Proof.
  unfold transition. intros H. walk H; [by left|].
  destruct (same (in_state x) target) eqn:Es.
  { injection H as <- <-. left. split; [done|]. intros i [= <-]. split; [done|]. by guards. }
  walk H; [by left| |].
  - left. destruct (same target Ready && present (in_adapter_id x)); [|done].
    unfold mbind, M_bind, throw_if, throw, mret, M_ret in Hm. destruct (resolves x w), (adapter_ready x w); by simplify_eq/=.
  - right. exists x.
    match type of Hm with _ = (_, ?w1) => assert (w1 = w) as -> end.
    { destruct (same target Ready && present (in_adapter_id x)); by inv_run. }
    match goal with Hn : negb (is_in _ _) = false |- _ => apply negb_false_iff, is_in_true in Hn end.
    unfold update_instance in H. inv_run.
    match goal with Hi : instance_row id w = Some _ |- _ => pose proof (instance_row_id _ _ _ Hi) as E end.
    unfold after_transition. rewrite E. by walk H; injection H as <- <-.
Qed.

Lemma moved_kind now target reason code i :
  in_id (moved now target reason code i) = in_id i ∧ kind (moved now target reason code i) = kind i
  ∧ in_state (moved now target reason code i) = target.
Proof. unfold moved, set_in_state. by destruct (same target Failed). Qed.

Lemma logged_transition now id target reason code :
  steps logged (transition resolves now id target reason code).
Proof.
  intros w. destruct (transition resolves now id target reason code w) as [out w'] eqn:H. simpl.
  apply transition_run in H as [[-> _]|(i & Hi & Hin & _ & ->)]; [done|].
  split_and!; [|by apply prefix_app_r|].
  2:{ change (kinds w `prefix_of` kinds (with_instances (update_key in_id (in_id i) (moved now target reason code)) w)).
      by rewrite (kinds_written _ _ _ target) by apply moved_kind. }
  intros Hw. pose proof (instance_row_states _ _ _ Hi) as Hs.
  rewrite <- (instance_row_id _ _ _ Hi) in Hs.
  destruct (history_append w (in_id i) _ _ target reason (moved now target reason code) Hw Hs
    (allowed_next _ _ _ Hin)) as [A1 A2 A3]; [apply moved_kind|by split].
Qed.
Lemma logged_move now id target reason code : steps logged (move resolves now id target reason code).
Proof. unfold move. pose proof logged_transition. cluster_calls. Qed.

Lemma logged_add_instance i : in_state i = Requested → steps logged (add_instance i).
Proof.
  intros Hreq w. destruct (instance_row (in_id i) w) as [j|] eqn:Hi.
  { assert (add_instance i w = (Err IntegrityError, w)) as ->; [|done].
    unfold add_instance, mbind, M_bind, throw_if. simpl. by rewrite Hi. }
  apply instance_row_none in Hi as Hnew.
  destruct (existsb (λ t, tr_sequence t =? 1) (transitions_of (in_id i) w)) eqn:Ht.
  - assert ((add_instance i w).2 = with_instances (λ l, l ++ [i]) w) as ->.
    { unfold add_instance, append_initial_transition, mbind, M_bind, throw_if. simpl. rewrite Hi. simpl.
      unfold transitions_of in *. simpl. by rewrite Ht. }
    split_and!; [|done|apply kinds_added].
    intros Hw. apply existsb_exists in Ht as (t & Hin%list_elem_of_In & _).
    apply list_elem_of_filter in Hin as [E Hin]. destruct Hnew. rewrite <- E. by apply (ho_known w Hw).
  - assert ((add_instance i w).2 = with_transitions
      (λ ts, ts ++ [mkTransition (in_id i) 1 None (in_state i) (Some "instance requested")])
      (with_instances (λ l, l ++ [i]) w)) as ->.
    { unfold add_instance, append_initial_transition, mbind, M_bind, throw_if. simpl. rewrite Hi. simpl.
      unfold transitions_of in *. simpl. by rewrite Ht. }
    split_and!; [|by apply prefix_app_r|apply (kinds_added i w)]. intros Hw. by apply history_create.
Qed.

Hint Resolve logged_transition logged_move : cluster.
Hint Extern 2 (steps logged (modify _)) => apply logged_modify; done : cluster.
Hint Extern 2 (steps logged (update_instance _ _)) => apply logged_update_instance; done : cluster.
Hint Extern 2 (steps logged (add_instance _)) => apply logged_add_instance; done : cluster.

Lemma logged_create known registry now new_id model variant adapter policy :
  steps logged (create_instance known registry now new_id model variant adapter policy).
Proof. unfold create_instance. cluster_calls. Qed.
Lemma logged_drain_instance now timeout id : steps logged (drain_instance resolves now timeout id).
Proof. unfold drain_instance. cluster_calls. Qed.
Lemma logged_launch_begin required adapter new_id now text id :
  steps logged (launch_begin resolves required adapter new_id now text id).
Proof. unfold launch_begin. cluster_calls. Qed.
Lemma logged_fail_owned now i : steps logged (fail_owned now i).
Proof. unfold fail_owned. cluster_calls. Qed.
Hint Resolve logged_fail_owned : cluster.
Lemma logged_launch_poll now id decision : steps logged (launch_poll resolves now id decision).
Proof. unfold launch_poll. cluster_calls. Qed.
Lemma logged_launch_finish now id decision : steps logged (launch_finish resolves now id decision).
Proof. unfold launch_finish, add_member. cluster_calls. Qed.
Lemma logged_launch_step {A} now code id (m : IO A) :
  steps logged m → steps logged (launch_step resolves now code id m).
Proof. intros Hm. unfold launch_step, launch_failed. cluster_calls. Qed.
Lemma logged_drain_poll uuid5 now id : steps logged (drain_poll resolves uuid5 now id).
Proof. unfold drain_poll. cluster_calls. Qed.
Lemma logged_drain_finish now id command : steps logged (drain_finish resolves now id command).
Proof. unfold drain_finish. cluster_calls. Qed.
Lemma logged_unload_confirmed now c : steps logged (unload_confirmed resolves now c).
Proof. unfold unload_confirmed, stop_holder. cluster_calls. Qed.

(** ** The writers that do not go through [transition] *)

Lemma write_state_kind now st i :
  in_id (write_state now st i) = in_id i ∧ kind (write_state now st i) = kind i
  ∧ in_state (write_state now st i) = st.
Proof. done. Qed.

(** An instance that is an image worker. *)
Definition image_worker (w : Cluster) (id : string) : Prop := ∃ smoke, (id, (true, smoke)) ∈ kinds w.

Lemma image_worker_row id i w :
  instance_row id w = Some i → is_image (in_policy i) = true → image_worker w id.
Proof.
  intros [Hi E]%find_Some_elem Him. apply String.eqb_eq in E as <-. exists (in_smoke i). rewrite <- Him.
  by apply (list_elem_of_fmap_2 (λ i, (in_id i, kind i))).
Qed.
Lemma image_worker_kept id w w' : logged w w' → image_worker w id → image_worker w' id.
Proof. intros (_ & _ & [l E]) [smoke Hin]. exists smoke. rewrite E. apply elem_of_app. by left. Qed.

(** The state of an image worker. *)
Lemma logged_image_state now st id w :
  image_worker w id → logged w (with_instances (update_key in_id id (write_state now st)) w).
Proof.
  intros [smoke Hin]. rewrite kinds_states in Hin.
  apply list_elem_of_fmap in Hin as ([id0 [k s]] & E & Hs). injection E as <- E; subst k.
  split_and!; [|done|by rewrite (kinds_written _ _ _ st)].
  intros Hw. by apply (history_image w id smoke s _ st).
Qed.
Lemma logged_image_write now st id i w :
  instance_row id w = Some i → is_image (in_policy i) = true →
  logged w (with_instances (update_key in_id id (write_state now st)) w).
Proof. intros Hi Him. apply logged_image_state. by eapply image_worker_row. Qed.

Lemma logged_audited action id : steps logged (audited action id).
Proof. unfold audited. cluster_calls. Qed.
Hint Resolve logged_audited : cluster.

Lemma logged_add_unlogged i : is_image (in_policy i) = true → steps logged (add_unlogged i).
Proof.
  intros Him w. unfold add_unlogged, mbind, M_bind. simpl.
  destruct (instance_row (in_id i) w) as [j|] eqn:Hi; simpl; [done|].
  split_and!; [|done|apply kinds_added]. intros Hw. apply history_add_image; [done| |done].
  by apply instance_row_none.
Qed.
Hint Extern 2 (steps logged (add_unlogged _)) => apply logged_add_unlogged; done : cluster.

Lemma logged_place_image now new_id new_hold model chosen bytes :
  steps logged (place_image_worker now new_id new_hold model chosen bytes).
Proof. unfold place_image_worker, add_member. cluster_calls. Qed.

(** Look at one run of a call. *)
Ltac run_at H :=
  match goal with |- logged ?w (?m ?w).2 => destruct (m w) as [? ?] eqn:H end; cbn [snd]; cbv zeta in H.

Lemma logged_image_ready now job instance reserved :
  steps logged (record_image_worker_ready now job instance reserved).
Proof.
  unfold record_image_worker_ready. apply steps_transaction; [apply _|]. intros w. run_at H.
  walk H; try done; destruct (same (in_state x2) Ready); try done; guards.
  - unfold mret, M_ret in Hm. injection Hm as _ <-. injection H as <- <-. by apply logged_same.
  - unfold update_instance, modify in Hm. injection Hm as _ <-. injection H as <- <-.
    etrans; [by apply (logged_image_write now Ready instance x2)|]. by apply logged_same.
Qed.

Lemma logged_prepare_idle is_uuid now ttl busy latest reservation :
  steps logged (prepare_idle_unload is_uuid now ttl busy latest reservation).
Proof.
  unfold prepare_idle_unload. apply steps_transaction; [apply _|]. apply steps_read. intros w.
  destruct (reservation_row reservation w) as [r|]; [|done].
  destruct (node_of_reservation reservation w) as [s|]; [|done]. case_match; [done|].
  destruct (instance_row (mr_holder_id r) w) as [i|] eqn:Hi; [|done].
  match goal with |- context [if ?c then _ else _] => destruct c eqn:Hc end; [done|]. cbv zeta.
  destruct (same (in_state i) Draining); [done|]. destruct (image_idle_due _ _ _); [|done].
  apply (steps_bind_at logged); [|cluster_calls]. guards.
  assert (in_id i = mr_holder_id r) as Eid by (by eapply instance_row_id).
  apply (logged_image_write now Draining (in_id i) i); [by rewrite Eid|done].
Qed.

(** The instance that is to be unloaded is an image worker. *)
Lemma prepare_idle_image is_uuid now ttl busy latest reservation w name node id w' :
  prepare_idle_unload is_uuid now ttl busy latest reservation w = (Ok (Some (name, node, id)), w') →
  image_worker w id.
Proof.
  unfold prepare_idle_unload. intros H. apply (proj1 (run_transaction_Ok _ _ _ _)) in H.
  apply run_bind_Ok in H as (w1 & w2 & [-> ->]%run_get_Ok & H).
  destruct (reservation_row reservation w) as [r|]; [|done].
  destruct (node_of_reservation reservation w) as [s|]; [|done].
  match type of H with (if ?c then _ else _) _ = _ => destruct c end; [done|].
  destruct (instance_row (mr_holder_id r) w) as [i|] eqn:Hi; [|done].
  match type of H with (if ?c then _ else _) _ = _ => destruct c eqn:Hc end; [done|]. cbv zeta in H. guards.
  assert (id = in_id i) as ->.
  { destruct (same (in_state i) Draining); [by injection H as _ _ <- _|].
    destruct (image_idle_due _ _ _); [|done]. by injection H as _ _ <- _. }
  rewrite (instance_row_id _ _ _ Hi). by eapply image_worker_row.
Qed.

Lemma logged_confirm_idle now reservation id node w :
  image_worker w id → logged w (confirm_idle_unload now reservation id node w).2.
Proof.
  intros Him. unfold confirm_idle_unload. apply steps_transaction_at; [apply _|].
  unfold mbind at 1, M_bind at 1. cbn [get].
  destruct (reservation_row reservation w) as [r|]; [|done].
  destruct (node_of_reservation reservation w) as [s|]; [|done].
  destruct (instance_row id w) as [i|]; [|done].
  match goal with |- context [if ?c then _ else _] => destruct c end; [done|].
  set (w1 := on_reservation reservation (set_closed RELEASED (Some now)) w).
  assert (logged w w1) as H1 by (by apply logged_same).
  trans w1; [done|]. apply (steps_bind_at logged (update_instance id (write_state now Stopped)) _ w1); [|cluster_calls].
  apply logged_image_state. by eapply image_worker_kept.
Qed.

(** Read what a call checks before it writes, in a state [w]. *)
Ltac checks_at := repeat first
  [ progress cbv zeta
  | match goal with
    | |- ?R ?w ((get ≫= ?f) ?w).2 => change (R w (f w w).2); cbv beta
    | |- _ _ ((some_or _ _ ≫= _) _).2 => apply (steps_some_or_at logged); intros ? ?
    | |- _ _ ((throw_if _ _ ≫= _) _).2 => apply (steps_throw_if_at logged); intros ?
    end ].

Lemma logged_admin_begin now active lease id : steps logged (unload_admin_begin now active lease id).
Proof.
  unfold unload_admin_begin. apply steps_transaction; [apply _|]. intros w. checks_at. guards.
  apply (steps_bind_at logged); [by eapply logged_image_write|cluster_calls].
Qed.
Lemma admin_begin_image now active lease id w node w' :
  unload_admin_begin now active lease id w = (Ok node, w') → image_worker w id.
Proof.
  unfold unload_admin_begin. intros H. inv_run. guards. by eapply image_worker_row.
Qed.

Lemma logged_admin_finish now id node w :
  image_worker w id → logged w (unload_admin_finish now id node w).2.
Proof.
  intros Him. unfold unload_admin_finish. apply steps_transaction_at; [apply _|]. checks_at.
  match goal with |- _ _ ((?m ≫= _) _).2 => assert (Hm : steps logged m) by cluster_calls; specialize (Hm w) end.
  unfold mbind at 1, M_bind at 1. destruct (match image_hold node id w with _ => _ end w) as [[u|e] w1]; [|done].
  simpl in Hm. etrans; [exact Hm|]. apply (steps_bind_at logged); [|cluster_calls].
  apply logged_image_state. by eapply image_worker_kept.
Qed.

Lemma logged_smoke_begin now exact is_load id node : steps logged (cleanup_smoke_begin resolves now exact is_load id node).
Proof. unfold cleanup_smoke_begin. cluster_calls. Qed.

(** The closing row of a failed smoke test. *)
Lemma logged_close_failed now id i w :
  instance_row id w = Some i → in_smoke i = true → in_state i = Failed →
  logged w (close_failed_smoke now id w).2.
Proof.
  intros Hi Hsm Hf. pose proof (instance_row_states _ _ _ Hi) as Hs. rewrite Hf in Hs.
  split_and!; [|by apply prefix_app_r|].
  2:{ change (kinds w `prefix_of` kinds (with_instances (update_key in_id id (write_state now Stopped)) w)).
      by rewrite (kinds_written _ _ _ Stopped). }
  intros Hw.
  destruct (history_append w id (kind i) Failed Stopped (Some "owned upgrade smoke native absence verified")
    (write_state now Stopped) Hw Hs) as [A1 A2 A3]; [by unfold kind; rewrite Hsm; set_solver|done|by split].
Qed.

Lemma logged_modify_at {A} f (k : unit → IO A) w :
  cl_instances (f w) = cl_instances w → cl_transitions (f w) = cl_transitions w →
  logged (f w) (k tt (f w)).2 → logged w ((modify f ≫= k) w).2.
Proof. intros Hi Ht Hk. trans (f w); [|done]. apply logged_same; [unfold states; by rewrite Hi|done]. Qed.

Lemma logged_smoke_finish now exact engine_ok id engine node :
  steps logged (cleanup_smoke_finish resolves now exact engine_ok id engine node).
Proof.
  unfold cleanup_smoke_finish. apply steps_transaction; [apply _|]. intros w. checks_at. guards.
  match goal with Hi : instance_row id w = Some ?x |- _ => rename Hi into Hrow; rename x into i end.
  match goal with |- logged w ((?m ≫= ?k) w).2 =>
    assert (Hk : ∀ w1, cl_instances w1 = cl_instances w → logged w1 (k tt w1).2) end.
  { intros w1 E. cbv beta. apply (steps_throw_if_at logged). intros _. apply logged_modify_at; [done..|].
    set (w2 := on_rows _ w1). assert (E2 : instance_row id w2 = Some i).
    { unfold instance_row in *. change (cl_instances w2) with (cl_instances w1). by rewrite E. }
    destruct (same (in_state i) Draining); [by apply logged_move|].
    destruct (same (in_state i) Failed) eqn:Ef; [|done]. guards. by eapply logged_close_failed. }
  unfold mbind at 1, M_bind at 1. destruct (by_key en_id engine (cl_engines w)) as [e|]; [|by apply Hk].
  unfold mbind at 1, M_bind at 1. destruct (engine_ok e); [|done]. simpl.
  etrans; [|by apply Hk]. by apply logged_same.
Qed.

End operations.

#[export] Hint Resolve logged_transition logged_move logged_fail_owned : cluster.
#[export] Hint Extern 2 (steps logged (modify _)) => apply logged_modify; done : cluster.
#[export] Hint Extern 2 (steps logged (update_instance _ _)) => apply logged_update_instance; done : cluster.
#[export] Hint Extern 2 (steps logged (add_instance _)) => apply logged_add_instance; done : cluster.
