(* ===== verification/ShardingFacts.v ===== *)
(** * Two Studios or none, and the history of every instance *)
From S2P Require Import Prelude Effects Placement PlacementFacts Instances InstanceWriters ShardLink Sharding InstanceFacts.
Open Scope Z_scope.

(** ** Tables an operation leaves alone *)

Definition same_studios (w w' : Cluster) : Prop := cl_studios w' = cl_studios w.
#[global] Instance same_studios_preorder : PreOrder same_studios.
Proof. split; [by intros w|]. intros a b c H1 H2. unfold same_studios in *. congruence. Qed.

Lemma same_studios_modify f : (∀ w, cl_studios (f w) = cl_studios w) → steps same_studios (modify f : IO unit).
Proof. intros H w. apply H. Qed.

Section facts.
Context (resolves : ModelInstance → Cluster → bool).
Context (uuid5 : string → string) (is_uuid : string → bool).

Lemma same_studios_transition now id target reason code :
  steps same_studios (transition resolves now id target reason code).
Proof.
  intros w. destruct (transition resolves now id target reason code w) as [out w'] eqn:H. simpl.
  apply transition_run in H as [[-> _]|(i & _ & _ & _ & ->)]; done.
Qed.
Lemma same_studios_move now id target reason code :
  steps same_studios (move resolves now id target reason code).
Proof. unfold move. pose proof same_studios_transition. cluster_calls. Qed.

Hint Extern 2 (steps same_studios (modify _)) => apply same_studios_modify; done : cluster.
Hint Resolve same_studios_move : cluster.

Lemma steps_run {A} (R : relation Cluster) (m : IO A) w out w' :
  steps R m → m w = (out, w') → R w w'.
Proof. intros Hs H. specialize (Hs w). by rewrite H in Hs. Qed.

(** ** Evictions *)

(** Marking reservations, on every node that has them. *)
Definition release_ids (ids : list string) (r : MemoryReservation) : MemoryReservation :=
  if bool_decide (mr_id r ∈ ids) then set_state RELEASING r else r.
Definition release_rows (ids : list string) : list Studio → list Studio :=
  fmap (on_node (with_rows (fmap (release_ids ids)))).

Lemma on_node_rows_compose f g s :
  on_node (with_rows (fmap f)) (on_node (with_rows (fmap g)) s) = on_node (with_rows (fmap (f ∘ g))) s.
Proof. unfold on_node, with_rows. simpl. by rewrite <- list_fmap_compose. Qed.

Lemma release_rows_nil ss : release_rows [] ss = ss.
Proof.
  unfold release_rows. rewrite <- (list_fmap_id ss) at 2. apply fmap_ext_in. intros s _.
  destruct s as [? ? ? ? ? ? ? ? [rows]]. unfold on_node, with_rows. simpl. do 2 f_equal.
  rewrite <- (list_fmap_id rows) at 2. by apply fmap_ext_in.
Qed.

Lemma release_rows_app ids1 ids2 ss :
  release_rows ids2 (release_rows ids1 ss) = release_rows (ids1 ++ ids2) ss.
Proof.
  unfold release_rows. rewrite <- list_fmap_compose. apply fmap_ext_in. intros s _. simpl.
  rewrite on_node_rows_compose. unfold on_node, with_rows. simpl. do 2 f_equal.
  apply fmap_ext_in. intros r _. simpl. unfold release_ids.
  destruct (decide (mr_id r ∈ ids1)) as [H1|H1].
  - rewrite (bool_decide_eq_true_2 (mr_id r ∈ ids1)) by done.
    rewrite (bool_decide_eq_true_2 (mr_id r ∈ ids1 ++ ids2)) by (apply elem_of_app; auto).
    case_bool_decide; done.
  - rewrite (bool_decide_eq_false_2 (mr_id r ∈ ids1)) by done. by rewrite (bool_decide_ext _ (mr_id r ∈ ids1 ++ ids2)) by set_solver.
Qed.

Lemma on_reservation_release id w :
  cl_studios (on_reservation id (set_state RELEASING) w) = release_rows [id] (cl_studios w).
Proof.
  unfold on_reservation, on_rows, release_rows. simpl. apply fmap_ext_in. intros s _.
  unfold on_node, with_rows. do 2 f_equal. apply fmap_ext_in. intros r _. unfold release_ids.
  destruct (String.eqb_spec (mr_id r) id) as [->|Hne].
  - by rewrite bool_decide_eq_true_2 by set_solver.
  - by rewrite bool_decide_eq_false_2 by set_solver.
Qed.

Lemma evict_one_run now instance decision s plan rank id w w' u :
  evict_one resolves uuid5 is_uuid now instance decision s plan (rank, id) w = (Ok u, w') →
  cl_studios w' = release_rows [id] (cl_studios w).
Proof.
  unfold evict_one. intros H. inv_run. simpl.
  match goal with Hm : match instance_row ?h w with _ => _ end w = (Ok _, ?w1) |- _ =>
    assert (cl_studios w1 = cl_studios w) as Hw1 end.
  { eapply (steps_run same_studios); [|eassumption]. cluster_calls. }
  match type of Hw1 with cl_studios ?w1 = _ =>
    change (cl_studios (on_reservation id (set_state RELEASING) w1) = release_rows [id] (cl_studios w)) end.
  rewrite on_reservation_release. congruence.
Qed.

Lemma evict_plan_run now instance decision p w w' u :
  evict_plan resolves uuid5 is_uuid now instance decision p w = (Ok u, w') →
  cl_studios w' = release_rows (ap_evictions p.2) (cl_studios w).
Proof.
  unfold evict_plan. generalize (ap_evictions p.2) as ids. intros ids. generalize 1.
  revert w. induction ids as [|id ids IH]; intros w k H.
  - simpl in H. inv_run. by rewrite release_rows_nil.
  - replace (Z.of_nat (length (id :: ids))) with (Z.succ (Z.of_nat (length ids))) in H by (simpl; lia).
    rewrite seqZ_cons, Z.pred_succ in H by lia. cbn [for_each zip_with] in H. inv_run.
    match goal with He : evict_one _ _ _ _ _ _ _ _ _ _ = _ |- _ => apply evict_one_run in He end.
    apply IH in H. rewrite H. etrans; [|apply (release_rows_app [id])]. congruence.
Qed.

Definition planned_ids (plans : list (Studio * AdmissionPlan)) : list string :=
  p ← plans; ap_evictions p.2.
Lemma evict_plans_run now instance decision plans w w' u :
  for_each (evict_plan resolves uuid5 is_uuid now instance decision) plans w = (Ok u, w') →
  cl_studios w' = release_rows (planned_ids plans) (cl_studios w).
Proof.
  revert w. induction plans as [|p plans IH]; intros w H; simpl in H; inv_run.
  - by rewrite release_rows_nil.
  - match goal with He : evict_plan _ _ _ _ _ _ _ _ = _ |- _ => apply evict_plan_run in He end.
    apply IH in H. rewrite H. simpl. rewrite <- release_rows_app. congruence.
Qed.

(** ** Reservations *)

Definition add_rank (q : ShardRequest) (required : Z) (node : string) (s : Studio) : Studio :=
  if String.eqb (st_id s) node
  then on_node (with_rows (λ rows, rows ++ [pending_rank q required node])) s else s.

Lemma reserve_ranks_run q required nodes w w' u :
  for_each (reserve_rank q required) nodes w = (Ok u, w') →
  cl_studios w' = foldl (λ ss n, add_rank q required (st_id n) <$> ss) (cl_studios w) nodes.
Proof.
  revert w. induction nodes as [|n nodes IH]; intros w H; simpl in H; inv_run; [done|].
  apply IH in H. rewrite H. simpl. f_equal.
  match goal with Hr : reserve_rank _ _ _ _ = _ |- _ => unfold reserve_rank in Hr; inv_run end.
  done.
Qed.

Lemma admit_ranks_run q mode i v plans w w' ids :
  admit_ranks resolves uuid5 is_uuid q mode i v plans w = (Ok ids, w') →
  cl_studios w' = foldl (λ ss n, add_rank q (rank_bytes v) (st_id n) <$> ss)
                    (release_rows (planned_ids plans) (cl_studios w)) (fst <$> plans).
Proof.
  unfold admit_ranks, update_instance, add_group. intros H. inv_run.
  repeat match goal with
  | He : for_each (evict_plan _ _ _ _ _ _) _ _ = _ |- _ => apply evict_plans_run in He
  | He : for_each (reserve_rank _ _) _ _ = _ |- _ => apply reserve_ranks_run in He
  | He : for_each (λ _, add_member _) _ _ = (_, ?w1) |- _ =>
      apply (steps_run same_studios) in He; [|unfold add_member; cluster_calls]
  end.
  unfold same_studios in *. simpl in *. congruence.
Qed.

(** ** One admission *)

(** Primary keys are unique and reservations positive. *)
Record cluster_ok (w : Cluster) : Prop := {
  co_studios : NoDup (st_id <$> cl_studios w);
  co_ids : NoDup (mr_id <$> reservations w);
  co_bytes : ∀ r, r ∈ reservations w → 0 < mr_bytes r;
}.

Lemma bind_key_disjoint {A B} (f : A → list B) (key : B → string) (l : list A) a1 a2 x y :
  NoDup (key <$> (l ≫= f)) → a1 ∈ l → a2 ∈ l → x ∈ f a1 → y ∈ f a2 → key x = key y → a1 = a2.
Proof.
  induction l as [|a l IH]; [set_solver|]. simpl. rewrite fmap_app, NoDup_app. intros (_ & Hd & Hnd) H1 H2 Hx Hy E.
  assert (Hin : ∀ b z, b ∈ l → z ∈ f b → key z ∈ key <$> (l ≫= f)).
  { intros b z Hb Hz. apply list_elem_of_fmap_2, list_elem_of_bind. eauto. }
  apply elem_of_cons in H1 as [->|H1], H2 as [->|H2]; [done| | |by apply IH].
  - destruct (Hd (key x)); [by apply list_elem_of_fmap_2|]. rewrite E. eauto.
  - destruct (Hd (key y)); [by apply list_elem_of_fmap_2|]. rewrite <- E. eauto.
Qed.

Lemma studio_rows_in w s r :
  s ∈ cl_studios w → r ∈ nd_reservations (st_node s) → r ∈ reservations w.
Proof. intros Hs Hr. apply list_elem_of_bind. eauto. Qed.

Lemma studio_rows_ok w s : cluster_ok w → s ∈ cl_studios w → rows_ok (nd_reservations (st_node s)).
Proof.
  intros [_ Hids Hb] Hs. split.
  - unfold reservations in Hids. apply list_elem_of_split in Hs as (l1 & l2 & E). rewrite E in Hids.
    rewrite bind_app, bind_cons, !fmap_app, !NoDup_app in Hids. tauto.
  - intros r Hr. apply Hb. by eapply studio_rows_in.
Qed.

Lemma plan_ranks_run now required nodes w w' plans :
  plan_ranks now required nodes w = (Ok (Some plans), w') →
  w' = w ∧ fst <$> plans = nodes ∧ Forall (λ p, plan_rank now required p.1 = Ok p.2) plans.
Proof.
  revert plans w'. induction nodes as [|s nodes IH]; intros plans w' H; simpl in H.
  { unfold mret, M_ret in H. by simplify_eq. }
  apply run_bind_Ok in H as (p & w1 & Hp & H). apply run_bind_Ok in H as (ps & w2 & Hps & H).
  unfold mret, M_ret in H. injection H as H <-.
  destruct p as [[s' p]|], ps as [ps|]; simpl in H; try done. injection H as <-.
  assert (w1 = w ∧ s' = s ∧ plan_rank now required s = Ok p) as (-> & -> & Ep).
  { destruct (plan_rank now required s) as [p'|[]]; cbv [mret M_ret throw] in Hp; by simplify_eq. }
  apply IH in Hps as (-> & E & Hall).
  split_and!; [done|by rewrite <- E|by constructor].
Qed.

(** What a plan evicts: models that are held, unpinned and idle. *)
Definition idle_model (now : Z) (n : Node) (id : string) : Prop :=
  ∃ r, r ∈ nd_reservations n ∧ mr_id r = id ∧ mr_holder_type r = MODEL ∧ mr_state r = HELD
       ∧ mr_pinned r = false ∧ active_leases now (nd_leases n) id = 0.

Lemma plan_rank_room now required s plan :
  rows_ok (nd_reservations (st_node s)) → plan_rank now required s = Ok plan →
  0 < required ∧ kept_bytes (ap_evictions plan) (nd_reservations (st_node s)) + required
                 ≤ nd_budget_bytes (st_node s)
  ∧ ∀ id, id ∈ ap_evictions plan → idle_model now (st_node s) id.
Proof.
  intros Hok. unfold plan_rank. destruct (st_has_ledger s); [|done].
  destruct (effective_occupied_bytes _ _) as [occupied|] eqn:Eo; [|done]. intros Hp.
  apply effective_occupied_ge in Eo.
  edestruct plan_leaves_room as [Hreq Hroom]; [exact Hok|apply candidates_weight|exact Eo|exact Hp|].
  split_and!; [done..|]. intros id Hid.
  assert (Hcb : ∀ c, c ∈ candidates_of now (nd_leases (st_node s)) (counted_rows (nd_reservations (st_node s))) →
    0 < ca_bytes c).
  { intros c (r & -> & [_ Hr]%list_elem_of_filter)%list_elem_of_fmap. simpl.
    apply list_elem_of_filter in Hr as [_ Hr]. by apply Hok. }
  pose proof (plan_run (mkCapacity (nd_budget_bytes (st_node s)) occupied) _ _ Hreq Hcb) as Hrun. cbv zeta in Hrun. rewrite Hp in Hrun.
  destruct Hrun as (_ & k & Ek & _). rewrite Ek in Hid.
  apply list_elem_of_fmap in Hid as (c & -> & Hc). apply elem_of_take in Hc as (j & Hc & _).
  apply list_elem_of_lookup_2 in Hc. unfold evictable in Hc. apply list_elem_of_filter in Hc as [He Hc].
  rewrite elem_of_sorted_on in Hc. apply list_elem_of_fmap in Hc as (r & -> & Hr).
  apply list_elem_of_filter in Hr as [[Ht Hs] Hr]. apply list_elem_of_filter in Hr as [_ Hr].
  unfold eligible in He. simpl in *. bool_prop. exists r. split_and!; try done. lia.
Qed.

(** The plans of some nodes, each evicting rows of its own node. *)
Record plans_of (w : Cluster) (plans : list (Studio * AdmissionPlan)) : Prop := {
  po_nodup : NoDup (fst <$> plans);
  po_in : ∀ p, p ∈ plans → p.1 ∈ cl_studios w;
  po_own : ∀ p id, p ∈ plans → id ∈ ap_evictions p.2 →
           ∃ r, r ∈ nd_reservations (st_node p.1) ∧ mr_id r = id;
}.

Lemma planned_on w plans s r :
  cluster_ok w → plans_of w plans → s ∈ cl_studios w → r ∈ nd_reservations (st_node s) →
  mr_id r ∈ planned_ids plans ↔ ∃ p, p ∈ plans ∧ p.1 = s ∧ mr_id r ∈ ap_evictions p.2.
Proof.
  intros Hw Hp Hs Hr. unfold planned_ids. rewrite list_elem_of_bind. split; [|naive_solver].
  intros (p & Hin & Hpp). exists p. split_and!; [done| |done].
  destruct (po_own _ _ Hp p _ Hpp Hin) as (r' & Hr' & E).
  apply (bind_key_disjoint (nd_reservations ∘ st_node) mr_id (cl_studios w) p.1 s r' r (co_ids w Hw));
    try done. by apply (po_in _ _ Hp).
Qed.

Lemma release_own w plans p r :
  cluster_ok w → plans_of w plans → p ∈ plans → r ∈ nd_reservations (st_node p.1) →
  release_ids (planned_ids plans) r = release_ids (ap_evictions p.2) r.
Proof.
  intros Hw Hp Hin Hr. unfold release_ids. rewrite (bool_decide_ext _ (mr_id r ∈ ap_evictions p.2)); [done|].
  rewrite (planned_on w plans p.1) by (try done; by apply (po_in _ _ Hp)). split; [|eauto].
  intros (p' & Hin' & E & Hid).
  by rewrite <- (NoDup_fmap_inj fst plans p' p (po_nodup _ _ Hp) Hin' Hin E).
Qed.

Lemma release_other w plans s :
  cluster_ok w → plans_of w plans → s ∈ cl_studios w → s ∉ (fst <$> plans) →
  on_node (with_rows (fmap (release_ids (planned_ids plans)))) s = s.
Proof.
  intros Hw Hp Hs Hno.
  assert (release_ids (planned_ids plans) <$> nd_reservations (st_node s) = nd_reservations (st_node s)) as E.
  { rewrite <- (list_fmap_id (nd_reservations (st_node s))) at 2. apply fmap_ext_in. intros r Hr.
    unfold release_ids. rewrite bool_decide_eq_false_2; [done|].
    rewrite (planned_on w plans s) by done. intros (p & Hin & <- & _). destruct Hno.
    by apply list_elem_of_fmap_2. }
  destruct s as [? ? ? ? ? ? ? ? [rows]]. unfold on_node, with_rows. simpl in *. by rewrite E.
Qed.

(** What the admission makes of a node with a plan. *)
Definition admitted_rows (q : ShardRequest) (required : Z) (p : Studio * AdmissionPlan)
    : list MemoryReservation :=
  (release_ids (ap_evictions p.2) <$> nd_reservations (st_node p.1)) ++ [pending_rank q required (st_id p.1)].

Lemma admitted_kept q required p now :
  rows_ok (nd_reservations (st_node p.1)) → plan_rank now required p.1 = Ok p.2 →
  kept_bytes (ap_evictions p.2) (admitted_rows q required p) ≤ nd_budget_bytes (st_node p.1).
Proof.
  intros Hok Hp. destruct (plan_rank_room _ _ _ _ Hok Hp) as (Hreq & Hroom & Hidle).
  unfold admitted_rows. rewrite kept_app, kept_cons. change (kept_bytes _ []) with 0.
  assert (kept_bytes (ap_evictions p.2) (release_ids (ap_evictions p.2) <$> nd_reservations (st_node p.1))
          ≤ kept_bytes (ap_evictions p.2) (nd_reservations (st_node p.1))).
  { apply kept_map. intros r Hr. split; [by apply Hok|]. unfold release_ids, shrinks.
    case_bool_decide as Hin; [|done]. split_and!; [done..|]. intros _.
    destruct (Hidle _ Hin) as (r' & Hr' & E & _ & Hs & _).
    rewrite (NoDup_fmap_inj mr_id (nd_reservations (st_node p.1)) r r'); [unfold counted; by rewrite Hs|..];
      try done. apply Hok. }
  simpl. case_match; lia.
Qed.

Lemma add_ranks_fmap q required nodes (ss : list Studio) :
  foldl (λ ss n, add_rank q required (st_id n) <$> ss) ss nodes
  = (λ s, foldl (λ s n, add_rank q required (st_id n) s) s nodes) <$> ss.
Proof.
  revert ss. induction nodes as [|n nodes IH]; intros ss; simpl; [by rewrite list_fmap_id|].
  rewrite IH, <- list_fmap_compose. done.
Qed.

Lemma add_rank_id q required n s : st_id (add_rank q required n s) = st_id s.
Proof. unfold add_rank. by case_match. Qed.

Lemma add_ranks_other q required nodes s :
  st_id s ∉ (st_id <$> nodes) → foldl (λ s n, add_rank q required (st_id n) s) s nodes = s.
Proof.
  induction nodes as [|n nodes IH]; [done|]. simpl. rewrite not_elem_of_cons. intros [Hne Hno].
  unfold add_rank at 2. destruct (String.eqb_spec (st_id s) (st_id n)); [done|]. auto.
Qed.

Lemma add_ranks_own q required nodes s :
  NoDup (st_id <$> nodes) → st_id s ∈ (st_id <$> nodes) →
  foldl (λ s n, add_rank q required (st_id n) s) s nodes
  = on_node (with_rows (λ rows, rows ++ [pending_rank q required (st_id s)])) s.
Proof.
  induction nodes as [|n nodes IH]; simpl; [set_solver|]. intros [Hn Hnd]%NoDup_cons Hs.
  unfold add_rank at 2. destruct (String.eqb_spec (st_id s) (st_id n)) as [E|E].
  - rewrite E. rewrite add_ranks_other; [done|]. simpl. by rewrite E.
  - apply IH; [done|]. set_solver.
Qed.

Lemma shard_nodes_in variant w s : s ∈ shard_nodes variant w → s ∈ cl_studios w.
Proof.
  unfold shard_nodes. intros (name & Hs & _)%list_elem_of_bind. apply list_elem_of_In, filter_In in Hs as [Hs _].
  by apply list_elem_of_In.
Qed.

(** Who gets a rank, and what is left of the rest. *)
Definition admitted (q : ShardRequest) (w w' : Cluster) : Prop :=
  ∃ v plans, fst <$> plans = shard_nodes (va_id v) w ∧ st_name <$> (fst <$> plans) = studio_names
    ∧ (∀ p, p ∈ plans →
         ∃ s', s' ∈ cl_studios w' ∧ st_id s' = st_id p.1
               ∧ nd_budget_bytes (st_node s') = nd_budget_bytes (st_node p.1)
               ∧ nd_reservations (st_node s') = admitted_rows q (rank_bytes v) p
               ∧ kept_bytes (ap_evictions p.2) (nd_reservations (st_node s')) ≤ nd_budget_bytes (st_node s')
               ∧ ∀ id, id ∈ ap_evictions p.2 → idle_model (sq_now q) (st_node p.1) id)
    ∧ ∀ s, s ∈ cl_studios w → s ∉ (fst <$> plans) → s ∈ cl_studios w'.

Lemma admit_ranks_admitted q mode i v plans w w1 w' ids :
  cluster_ok w → cl_studios w1 = cl_studios w →
  fst <$> plans = shard_nodes (va_id v) w → st_name <$> shard_nodes (va_id v) w = studio_names →
  Forall (λ p, plan_rank (sq_now q) (rank_bytes v) p.1 = Ok p.2) plans →
  admit_ranks resolves uuid5 is_uuid q mode i v plans w1 = (Ok ids, w') → admitted q w w'.
Proof.
  intros Hw E1 Hn Hnames Hall Hrun. apply admit_ranks_run in Hrun. rewrite add_ranks_fmap, E1 in Hrun.
  rewrite Forall_forall in Hall.
  assert (Hin : ∀ p, p ∈ plans → p.1 ∈ cl_studios w).
  { intros p Hp. apply (shard_nodes_in (va_id v)). rewrite <- Hn. by apply list_elem_of_fmap_2. }
  assert (Hidle : ∀ p id, p ∈ plans → id ∈ ap_evictions p.2 → idle_model (sq_now q) (st_node p.1) id).
  { intros p id Hp. apply (plan_rank_room _ (rank_bytes v)); [|by apply Hall].
    by apply (studio_rows_ok w), Hin. }
  assert (Hnd : NoDup (fst <$> plans)).
  { apply (NoDup_fmap_1 st_name). rewrite Hn, Hnames. apply (bool_decide_unpack _). by vm_compute. }
  assert (Hp : plans_of w plans).
  { split; [done..|]. intros p id Hpp Hid. destruct (Hidle p id Hpp Hid) as (r & Hr & Er & _). eauto. }
  assert (Hids : NoDup (st_id <$> (fst <$> plans))).
  { apply NoDup_fmap_2_strong; [|done]. intros s1 s2 (p1 & -> & H1)%list_elem_of_fmap (p2 & -> & H2)%list_elem_of_fmap E.
    apply (NoDup_fmap_inj st_id (cl_studios w)); auto. apply Hw. }
  exists v, plans. split_and!; [done|by rewrite Hn|..].
  - intros p Hpp. set (s0 := on_node (with_rows (fmap (release_ids (planned_ids plans)))) p.1).
    exists (on_node (with_rows (λ rows, rows ++ [pending_rank q (rank_bytes v) (st_id p.1)])) s0).
    assert (Er : nd_reservations (st_node (on_node (with_rows (λ rows,
               rows ++ [pending_rank q (rank_bytes v) (st_id p.1)])) s0)) = admitted_rows q (rank_bytes v) p).
    { simpl. unfold admitted_rows. f_equal. apply fmap_ext_in. intros r Hr. by apply (release_own w). }
    split_and!; [|done|done|done| |by intros; apply Hidle].
    + rewrite Hrun. apply list_elem_of_fmap. exists s0. split.
      * symmetry. apply (add_ranks_own q (rank_bytes v) (fst <$> plans) s0); [done|].
        change (st_id p.1 ∈ (st_id <$> (fst <$> plans))). by do 2 apply list_elem_of_fmap_2.
      * by apply list_elem_of_fmap_2, Hin.
    + rewrite Er. apply (admitted_kept _ _ _ (sq_now q)); [by apply (studio_rows_ok w), Hin|by apply Hall].
  - intros s Hs Hno. rewrite Hrun. apply list_elem_of_fmap. exists s. split.
    + symmetry. apply add_ranks_other. intros (s' & E & Hs')%list_elem_of_fmap. destruct Hno.
      assert (s' ∈ cl_studios w) by (apply list_elem_of_fmap in Hs' as (p & -> & Hpp); auto).
      by rewrite (NoDup_fmap_inj st_id (cl_studios w) s s' (co_studios w Hw) Hs ltac:(done) E).
    + apply list_elem_of_fmap. exists s. split; [|done]. symmetry. by apply (release_other w).
Qed.

Lemma same_studios_refuse q reason code : steps same_studios (refuse resolves q reason code).
Proof. unfold refuse. cluster_calls. Qed.
Hint Resolve same_studios_refuse : cluster.

Lemma refuse_none q reason code w ids w' : refuse resolves q reason code w = (Ok (Some ids), w') → False.
Proof. unfold refuse. intros H. apply run_bind_Ok in H as (? & ? & _ & H). by cbv [mret M_ret] in H. Qed.

Lemma plan_ranks_same now required nodes w : (plan_ranks now required nodes w).2 = w.
Proof.
  induction nodes as [|s nodes IH]; [done|]. cbn [plan_ranks]. unfold mbind, M_bind.
  destruct (plan_rank now required s) as [p|[]]; try done; simpl;
    destruct (plan_ranks now required nodes w) as [[]]; simpl in *; by subst.
Qed.

(** The locked section refuses without touching a node, or admits. *)
Lemma admit_locked_run q mode i v w w1 out w' :
  cluster_ok w → cl_studios w1 = cl_studios w →
  st_name <$> shard_nodes (va_id v) w = studio_names →
  admit_locked resolves uuid5 is_uuid q mode i v (shard_nodes (va_id v) w) w1 = (Ok out, w') →
  match out with Some _ => admitted q w w' | None => cl_studios w' = cl_studios w end.
Proof.
  intros Hw E Hn H. unfold admit_locked in H. apply run_bind_Ok in H as (u & w2 & Ht & H).
  apply run_throw_if_Ok in Ht as [_ ->]. apply run_bind_Ok in H as (plans & w3 & Hp & H).
  assert (w3 = w1) as ->.
  { pose proof (plan_ranks_same (sq_now q) (rank_bytes v) (shard_nodes (va_id v) w) w1) as Hs. by rewrite Hp in Hs. }
  destruct plans as [plans|].
  - apply plan_ranks_run in Hp as (_ & Hf & Hall). apply run_bind_Ok in H as (ids & w4 & Ha & H).
    unfold mret, M_ret in H. simplify_eq. by eapply admit_ranks_admitted.
  - destruct out as [ids|]; [by apply refuse_none in H|].
    apply (steps_run same_studios) in H; [|cluster_calls]. unfold same_studios in H. congruence.
Qed.
End facts.

(** C11. A sharded admission takes both Studios or none.  When it returns commands to wait
    for, each of the two Studios has exactly one new pending reservation of its half,
    the reservations it evicts (held, unpinned and without a current request) are
    releasing, and what stays counted without them fits the node's budget; no other node
    changes.  When it refuses or raises, no reservation of any node has changed. *)
Theorem sharded_admission_atomic resolves uuid5 is_uuid q w out w' :
  cluster_ok w → shard_admission resolves uuid5 is_uuid q w = (out, w') →
  match out with
  | Ok (Some _) => admitted q w w'
  | _ => cl_studios w' = cl_studios w
  end.
Proof.
  intros Hw H. destruct out as [out|e].
  2:{ unfold shard_admission in H. by apply run_transaction_Err in H as ->. }
  enough (match out with Some _ => admitted q w w' | None => cl_studios w' = cl_studios w end) by (by destruct out).
  unfold shard_admission in H. apply (proj1 (run_transaction_Ok _ _ _ _)) in H.
  do 3 (apply run_bind_Ok in H as (? & ? & ? & H)). inv_run. cbv zeta in H.
  assert (Hrefuse : ∀ reason code, refuse resolves q reason code w = (Ok out, w') →
    match out with Some _ => admitted q w w' | None => cl_studios w' = cl_studios w end).
  { intros reason code Hr. destruct out as [ids|]; [by apply refuse_none in Hr|].
    apply (steps_run same_studios) in Hr; [done|]. apply same_studios_refuse. }
  repeat match type of H with
  | match ?o with Some _ => _ | None => _ end _ = _ => destruct o as [v|]
  | (if ?b then _ else _) _ = _ => destruct b eqn:?
  end; try by eapply Hrefuse.
  apply run_bind_Ok in H as (supported & w1 & Hs & H). apply run_some_or_Ok in Hs as [_ ->].
  destruct (negb supported); [by eapply Hrefuse|].
  apply run_bind_Ok in H as (u & w2 & Hm & H).
  eapply (admit_locked_run _ _ _ _ _ _ _ w w2); [done| |by guards|exact H].
  apply (steps_run same_studios) in Hm; [done|]. apply same_studios_move.
Qed.

(** ** Everything that happens to instances *)

Section runs.
Context (resolves : ModelInstance → Cluster → bool).
Context (uuid5 : string → string) (is_uuid : string → bool).

(** The operations on instances, with any arguments and answers, in any order. *)
Inductive operation : ∀ {A}, IO A → Prop :=
| op_create known registry now new_id model variant adapter policy :
    operation (transaction (create_instance known registry now new_id model variant adapter policy))
| op_add i : in_state i = Requested → operation (transaction (add_instance i))
| op_transition now id target reason code :
    operation (transaction (transition resolves now id target reason code))
| op_drain now timeout id : operation (transaction (drain_instance resolves now timeout id))
| op_launch_begin required adapter new_id now text code id :
    operation (launch_step resolves now code id (launch_begin resolves required adapter new_id now text id))
| op_launch_poll now code id decision :
    operation (launch_step resolves now code id (launch_poll resolves now id decision))
| op_launch_finish now code id decision :
    operation (launch_step resolves now code id (launch_finish resolves now id decision))
| op_drain_poll now id : operation (transaction (drain_poll resolves uuid5 now id))
| op_drain_finish now id command : operation (transaction (drain_finish resolves now id command))
| op_unload now c : operation (transaction (unload_confirmed resolves now c))
| op_admission q : operation (shard_admission resolves uuid5 is_uuid q)
| op_queue_prepare now id nodes command : operation (queue_prepare resolves uuid5 now id nodes command)
| op_queue_ready now id nodes : operation (queue_ready resolves uuid5 now id nodes)
| op_finish_launch now id : operation (finish_launch resolves uuid5 now id)
| op_release_failed now id : operation (release_failed_reservations now id)
| op_teardown_begin now id reason : operation (teardown_begin resolves uuid5 now id reason)
| op_teardown_finish now id reason failed : operation (teardown_finish resolves now id reason failed)
| op_drain_shards now id : operation (drain_shards now id)
| op_execute now id answer : operation (execute_safely resolves now id answer)
| op_check now new_id group reports : operation (check_group resolves uuid5 now new_id group reports)
| op_place_image now new_id new_hold model chosen bytes :
    operation (transaction (place_image_worker now new_id new_hold model chosen bytes))
| op_image_ready now job instance reserved : operation (record_image_worker_ready now job instance reserved)
| op_smoke_begin now exact is_load instance node :
    operation (cleanup_smoke_begin resolves now exact is_load instance node)
| op_smoke_finish now exact engine_ok instance engine node :
    operation (cleanup_smoke_finish resolves now exact engine_ok instance engine node).

(** An operation, returning or raising, or a change of anything but the identity, the policy,
    the smoke payload and the state of instances and their transitions.  The second component
    is the image workers whose unload is under way: an unload is two transactions with a call
    of the node in between. *)
Inductive cluster_step : Cluster * list string → Cluster * list string → Prop :=
| step_operation w us {A} (m : IO A) : operation m → cluster_step (w, us) ((m w).2, us)
| step_elsewhere w us w' :
    states w' = states w → cl_transitions w' = cl_transitions w → cluster_step (w, us) (w', us)
| step_prepare_idle w us now ttl busy latest reservation out w' :
    prepare_idle_unload is_uuid now ttl busy latest reservation w = (out, w') →
    cluster_step (w, us) (w', match out with Ok (Some u) => u.2 :: us | _ => us end)
| step_confirm_idle w us now reservation instance node :
    instance ∈ us → cluster_step (w, us) ((confirm_idle_unload now reservation instance node w).2, us)
| step_admin_begin w us now active lease instance out w' :
    unload_admin_begin now active lease instance w = (out, w') →
    cluster_step (w, us) (w', match out with Ok _ => instance :: us | Err _ => us end)
| step_admin_finish w us now instance node :
    instance ∈ us → cluster_step (w, us) ((unload_admin_finish now instance node w).2, us).

Lemma logged_evict now instance decision p : steps logged (evict_plan resolves uuid5 is_uuid now instance decision p).
Proof. unfold evict_plan, evict_one. cluster_calls. Qed.
Lemma logged_refuse q reason code : steps logged (refuse resolves q reason code).
Proof. unfold refuse. cluster_calls. Qed.
Lemma logged_plan_ranks now required nodes : steps logged (plan_ranks now required nodes).
Proof. apply steps_same; [apply _|]. apply plan_ranks_same. Qed.
Hint Resolve logged_evict logged_refuse logged_plan_ranks : cluster.
Lemma logged_admit_ranks q mode i v plans : steps logged (admit_ranks resolves uuid5 is_uuid q mode i v plans).
Proof. unfold admit_ranks, reserve_rank, add_group, add_member. cluster_calls. Qed.
Hint Resolve logged_admit_ranks : cluster.
Lemma logged_admission q : steps logged (shard_admission resolves uuid5 is_uuid q).
Proof. unfold shard_admission, admit_locked. cluster_calls. Qed.

Lemma logged_finalize now id failed : steps logged (finalize_stop resolves now id failed).
Proof.
  unfold finalize_stop, update_members, release_members, release_unclosed, update_group. cluster_calls.
Qed.
Lemma logged_command_failed now id : steps logged (command_failed now id).
Proof. unfold command_failed, update_command, update_group, fail_members. cluster_calls. Qed.
Lemma logged_execute now id answer : steps logged (execute_safely resolves now id answer).
Proof.
  assert (Hb : steps logged (execute_begin id)) by (unfold execute_begin, update_command; cluster_calls).
  intros w. unfold execute_safely. specialize (Hb w). destruct (execute_begin id w) as [[u|e] w1]; simpl in Hb.
  - destruct answer as [state| |why]; [|done|etrans; [exact Hb|apply logged_command_failed]].
    etrans; [exact Hb|].
    match goal with |- logged w1 (?m w1).2 => enough (steps logged m) as Hm by apply Hm end.
    unfold update_command. pose proof logged_finalize. cluster_calls.
  - etrans; [exact Hb|apply logged_command_failed].
Qed.
Lemma logged_create_fallback now new_id failed members node :
  steps logged (create_fallback now new_id failed members node).
Proof. unfold create_fallback. cluster_calls. Qed.
Lemma logged_check now new_id group reports : steps logged (check_group resolves uuid5 now new_id group reports).
Proof.
  unfold check_group, fail_group, update_group, update_studio, update_members, ensure_command.
  pose proof logged_create_fallback. cluster_calls.
Qed.

Lemma operation_logged {A} (m : IO A) : operation m → steps logged m.
Proof.
  destruct 1; try lazymatch goal with |- steps _ (transaction _) => apply steps_transaction; [apply _|] end.
  all: try solve [apply logged_create|apply logged_drain_instance|apply logged_drain_poll|apply logged_drain_finish
    |apply logged_unload_confirmed|apply logged_admission|apply logged_execute|apply logged_check
    |by apply logged_add_instance|apply logged_transition|apply logged_place_image|apply logged_image_ready
    |apply logged_smoke_begin|apply logged_smoke_finish
    |apply logged_launch_step; first [apply logged_launch_begin|apply logged_launch_poll|apply logged_launch_finish]].
  - unfold queue_prepare, add_command. cluster_calls.
  - unfold queue_ready, add_command, update_group. cluster_calls.
  - unfold finish_launch, update_members, update_studio, update_group. cluster_calls.
  - unfold release_failed_reservations. cluster_calls.
  - unfold teardown_begin, update_group, ensure_command. cluster_calls.
  - unfold teardown_finish, update_members, release_members, update_group. cluster_calls.
  - unfold drain_shards. cluster_calls.
Qed.

Lemma step_logged w us w' us' :
  cluster_step (w, us) (w', us') → Forall (image_worker w) us → logged w w' ∧ Forall (image_worker w') us'.
Proof.
  intros Hs Hus. assert (Hkeep : logged w w' → Forall (image_worker w') us).
  { intros Hl. eapply Forall_impl; [exact Hus|]. intros id. by apply image_worker_kept. }
  inversion Hs as [? ? A m Hm|? ? ? Hi Ht|? ? now ttl busy latest reservation out ? H|? ? now reservation id node Hid
    |? ? now active lease id out ? H|? ? now id node Hid]; subst.
  - pose proof (operation_logged m Hm w) as Hl. split; [exact Hl|exact (Hkeep Hl)].
  - pose proof (logged_same _ _ Hi Ht) as Hl. split; [exact Hl|exact (Hkeep Hl)].
  - pose proof (logged_prepare_idle is_uuid now ttl busy latest reservation w) as Hl. rewrite H in Hl. simpl in Hl.
    split; [done|]. destruct out as [[[[name node] id]|]|e]; try exact (Hkeep Hl).
    constructor; [|exact (Hkeep Hl)]. apply prepare_idle_image in H. by eapply image_worker_kept.
  - rewrite Forall_forall in Hus. pose proof (logged_confirm_idle now reservation id node w (Hus id Hid)) as Hl.
    split; [exact Hl|exact (Hkeep Hl)].
  - pose proof (logged_admin_begin now active lease id w) as Hl. rewrite H in Hl. simpl in Hl.
    split; [done|]. destruct out as [node|e]; [|exact (Hkeep Hl)].
    constructor; [|exact (Hkeep Hl)]. apply admin_begin_image in H. by eapply image_worker_kept.
  - rewrite Forall_forall in Hus. pose proof (logged_admin_finish now id node w (Hus id Hid)) as Hl.
    split; [exact Hl|exact (Hkeep Hl)].
Qed.

Lemma run_logged s s' :
  rtc cluster_step s s' → Forall (image_worker s.1) s.2 → logged s.1 s'.1 ∧ Forall (image_worker s'.1) s'.2.
Proof.
  induction 1 as [s|[w1 us1] [w2 us2] s3 Hs _ IH]; [done|]. intros Hus.
  apply step_logged in Hs as [H1 H2]; [|done]. destruct (IH H2) as [H3 H4]. split; [by etrans|done].
Qed.

(** The turns of the executor are such steps. *)
Lemma executor_run_steps turns w us : rtc cluster_step (w, us) ((executor_run resolves turns w).2, us).
Proof.
  revert w. induction turns as [|[now answer] turns IH]; intros w; [done|].
  cbn [executor_run]. unfold mbind at 1, M_bind at 1. simpl. unfold mbind, M_bind.
  destruct (next_command w) as [id|]; [|apply IH].
  eapply rtc_l; [by apply (step_operation w us _ (op_execute now id answer))|].
  destruct (execute_safely resolves now id answer w) as [[u|e] w1]; simpl; [apply IH|done].
Qed.

End runs.
