(* ===== verification/ShardingScenario.v ===== *)
(** * Concrete runs of sharded instances *)
From S2P Require Import Prelude Effects Placement PlacementFacts Instances InstanceWriters ShardLink Sharding InstanceFacts ShardingFacts.
Open Scope Z_scope.

(** Two Studios with a sandbox and a resident model each, and a model of 100 bytes. *)
Definition studio (name : string) (rows : list MemoryReservation) : Studio :=
  mkStudio name name None (Some (name +:+ ".fabric")) HEALTHY true HEALTHY None (mkNode rows [] 100 10 None).
Definition rows_a : list MemoryReservation :=
  [standing "sa" "agent-sandbox" 10 0; mkReservation "ra" MODEL "other" 50 false HELD 5 None].
Definition rows_b : list MemoryReservation := [standing "sb" "agent-sandbox" 10 0].
Definition engine_a : EngineProcess :=
  mkEngine "ea" None (Some "other") (Some "vo") None "coire-edge-a" 9000 EReady 1.
Definition start : Cluster :=
  mkCluster [] [] [] [] [studio "coire-edge-a" rows_a; studio "coire-edge-b" rows_b] [engine_a]
    [mkVariant "v" "m" "org--m" true false 100; mkVariant "small" "m" "org--s" true false 40]
    [mkCopy "v" "coire-edge-a" true; mkCopy "v" "coire-edge-b" true; mkCopy "small" "coire-edge-b" true]
    [] [] [] [] [].

Definition always (_ : ModelInstance) (_ : Cluster) : bool := true.
Definition name5 (s : string) : string := s.
Definition any_id (_ : string) : bool := true.
Definition after {A} (m : IO A) (w : Cluster) : Cluster := (m w).2.

Definition request : ShardRequest :=
  mkShardRequest 10 "i" (project_probes probes) (Some true) true (Some "hosts") "d" (λ n, "new-" +:+ n).
Definition waiting : ShardRequest :=
  mkShardRequest 10 "i" (project_probes probes) (Some true) false (Some "hosts") "d" (λ n, "new-" +:+ n).

Definition created : Cluster :=
  after (transaction (create_instance true None 1 "i" "m" "v" None (Sharded TENSOR_PARALLEL))) start.
Definition admitted_world : Cluster := after (shard_admission always name5 any_id request) created.
Definition eviction : PlacementCommand :=
  mkPlacementCommand "i:coire-edge-a:evict:ra" "d" "coire-edge-a" (Some "ra") "ea" CPending None None.
Definition unloaded : Cluster := after (transaction (unload_confirmed always 11 eviction)) admitted_world.
Definition queued : Cluster := after (queue_prepare always name5 12 "i" (cl_studios start)
    (group_command name5 request TENSOR_PARALLEL (mkVariant "v" "m" "org--m" true false 100) "hosts"
       (cl_studios start))) unloaded.
Definition prepared : Cluster :=
  after (executor_run always [(13, Answered GStarting); (14, Answered GStarting)]) queued.
Definition readying : Cluster := after (queue_ready always name5 15 "i" (cl_studios start)) prepared.
Definition marked : Cluster :=
  after (executor_run always [(16, Answered GReady); (17, Answered GReady)]) readying.
Definition serving : Cluster := after (finish_launch always name5 18 "i") marked.

Example launch_reserves :
  (λ s, (λ r, (mr_id r, mr_bytes r, mr_state r)) <$> nd_reservations (st_node s)) <$> cl_studios admitted_world
  = [[("sa", 10, HELD); ("ra", 50, RELEASING); ("new-coire-edge-a", 50, PENDING)];
     [("sb", 10, HELD); ("new-coire-edge-b", 50, PENDING)]].
Proof. vm_compute. reflexivity. Qed.
Example launch_serves :
  in_state <$> cl_instances serving = [Ready] ∧ sg_state <$> cl_groups serving = [GReady].
Proof. vm_compute. done. Qed.

(** ** Witnesses *)

Lemma created_ok : cluster_ok created.
Proof.
  split; [apply (bool_decide_unpack _); by vm_compute..|].
  intros r. apply (proj1 (Forall_forall (λ r, 0 < mr_bytes r) _)). vm_compute. repeat constructor.
Qed.

Lemma sharded_admission_atomic_witness :
  ∃ ids, (shard_admission always name5 any_id request created).1 = Ok (Some ids)
         ∧ admitted request created admitted_world.
Proof.
  eexists. split; [vm_compute; reflexivity|].
  apply (sharded_admission_atomic always name5 any_id request created
           (Ok (Some ["i:coire-edge-a:evict:ra"])) admitted_world created_ok).
  vm_compute. reflexivity.
Defined.

Lemma history_start : history_ok start.
Proof. split; [constructor|..]; intros; set_solver. Qed.

Abbreviation runs := (rtc (cluster_step always name5 any_id)).

Lemma launch_run : runs (start, []) (serving, []).
Proof.
  eapply (rtc_l _ _ (created, [])); [apply step_operation, op_create|].
  eapply (rtc_l _ _ (admitted_world, [])); [apply step_operation, op_admission|].
  eapply (rtc_l _ _ (unloaded, [])); [apply step_operation, op_unload|].
  eapply (rtc_l _ _ (queued, [])); [apply step_operation, op_queue_prepare|].
  apply (transitivity (y := (prepared, []))); [apply executor_run_steps|].
  eapply (rtc_l _ _ (readying, [])); [apply step_operation, op_queue_ready|].
  apply (transitivity (y := (marked, []))); [apply executor_run_steps|].
  apply rtc_once, step_operation, op_finish_launch.
Qed.

(** Besides the served model, an image worker is placed, becomes ready and is unloaded by an
    administrator, and a smoke test fails and is closed. *)
Definition edge_a : Studio := studio "coire-edge-a" [].
Definition imaging : Cluster := after (transaction (place_image_worker 19 "w" "rw" "diffusion" edge_a 5)) serving.
Definition imaged : Cluster :=
  after (record_image_worker_ready 20 (Some ("w", Some "coire-edge-a")) "w" 5) imaging.
Definition no_lease (_ : string) : bool := false.
Definition unloading : Cluster := after (unload_admin_begin 21 false no_lease "w") imaged.
Definition smoke_test : ModelInstance :=
  mkInstance "s" "m" (Some "small") None None (Single "pinned:coire-edge-b") true Requested None None 22 22 None None None false.
Definition tested : Cluster := after (transaction (add_instance smoke_test)) unloading.
Definition smoke_failed : Cluster :=
  after (cleanup_smoke_begin always 23 (λ _, true) (λ _, true) "s" "coire-edge-b") tested.
Definition smoke_closed : Cluster :=
  after (cleanup_smoke_finish always 24 (λ _, true) (λ _, true) "s" "es" "coire-edge-b") smoke_failed.
Definition settled : Cluster := after (unload_admin_finish 25 "w" "coire-edge-a") smoke_closed.

Lemma failing_run : runs (start, []) (smoke_failed, ["w"]).
Proof.
  apply (transitivity (y := (serving, []))); [exact launch_run|].
  eapply (rtc_l _ _ (imaging, [])); [apply step_operation, op_place_image|].
  eapply (rtc_l _ _ (imaged, [])); [apply step_operation, op_image_ready|].
  eapply (rtc_l _ _ (unloading, ["w"])).
  { apply (step_admin_begin always name5 any_id imaged [] 21 false no_lease "w" (Ok "coire-edge-a") unloading).
    vm_compute. reflexivity. }
  eapply (rtc_l _ _ (tested, ["w"])); [by apply step_operation, op_add|].
  apply rtc_once, step_operation, op_smoke_begin.
Qed.
Lemma closing_run : runs (smoke_failed, ["w"]) (settled, ["w"]).
Proof.
  eapply (rtc_l _ _ (smoke_closed, ["w"])); [apply step_operation, op_smoke_finish|].
  apply rtc_once, step_admin_finish. set_solver.
Qed.


(** ** A failed launch ends the executor *)

Lemma update_key_twice {A} (key : A → string) id f g rows :
  (∀ r, key (g r) = key r) → update_key key id f (update_key key id g rows) = update_key key id (λ r, f (g r)) rows.
Proof.
  intros Hg. unfold update_key. rewrite <- list_fmap_compose. apply fmap_ext_in. intros r _. simpl.
  destruct (String.eqb (key r) id) eqn:E; rewrite ?Hg, E; done.
Qed.

Lemma by_key_update {A} (key : A → string) id f rows r :
  (∀ r, key (f r) = key r) → by_key key id rows = Some r → by_key key id (update_key key id f rows) = Some (f r).
Proof.
  intros Hf. unfold by_key, update_key. induction rows as [|x rows IH]; [done|]. simpl.
  destruct (String.eqb (key x) id) eqn:E; rewrite ?Hf, E; [by intros [= ->]|done].
Qed.

(** The row of a command after it has been confirmed. *)
Definition confirmed (id : string) (state : ShardGroupState) (c : ShardCommand) : Cluster → Cluster :=
  with_shard_commands (update_key sc_id id (set_command CSucceeded (Some state) (sc_failure_detail c))).

(** Closing a group whose instance can not stop yet raises, and changes nothing. *)
Lemma finalize_refused resolves now id failed w c g i :
  by_key sc_id id (cl_shard_commands w) = Some c →
  existsb (λ o, String.eqb (sc_group_id o) (sc_group_id c) && same (sc_operation o) Stop
                && negb (same (sc_state o) CSucceeded)) (cl_shard_commands w) = false →
  by_key sg_id (sc_group_id c) (cl_groups w) = Some g → sg_state g = GStopping →
  instance_row (sg_instance_id g) w = Some i →
  in_state i ∈ [Requested; Reserving; Launching; Warming; Ready] →
  finalize_stop resolves now id failed w = (Err InvalidInstanceTransition, w).
Proof.
  intros Hc Hstops Hg Hst Hi Hin. unfold finalize_stop. apply run_transaction_raises.
  unfold mbind at 1, M_bind at 1. simpl. rewrite Hc, Hstops, Hg.
  assert (Hrel : ∀ ms w1, ∃ w2, release_members failed now ms w1 = (Ok tt, w2)
    ∧ cl_instances w2 = cl_instances w1).
  { intros ms. induction ms as [|m ms IH]; intros w1; [by exists w1|]. unfold release_members. cbn [for_each].
    unfold mbind, M_bind. destruct (mb_reservation_id m) as [r|]; simpl; [|apply IH].
    destruct (IH (on_reservation r (set_closed (closed_as failed) (Some now)) w1)) as (w2 & E & Ei).
    by exists w2. }
  unfold mbind at 1, M_bind at 1. simpl. unfold mbind at 1, M_bind at 1.
  match goal with |- context [release_members failed now ?ms ?w1] =>
    destruct (Hrel ms w1) as (w2 & -> & Ei) end.
  unfold mbind at 1, M_bind at 1. simpl. rewrite (proj2 (same_true _ _) Hst), Hi.
  unfold mbind at 1, M_bind at 1. simpl.
  assert (same (in_state i) Failed = false ∧ same (in_state i) Stopped = false
          ∧ is_in Stopped (allowed_transitions (in_state i)) = false) as (-> & Ns & Na).
  { rewrite !elem_of_cons in Hin. destruct Hin as [->|[->|[->|[->|[->|[]%elem_of_nil]]]]]; done. }
  rewrite Ns. simpl. unfold move, transition, mbind, M_bind. simpl.
  match goal with |- context [instance_row _ ?w3] =>
    assert (instance_row (sg_instance_id g) w3 = Some i) as -> end.
  { unfold instance_row. simpl. rewrite Ei. exact Hi. }
  simpl. by rewrite Ns, Na.
Qed.

(** C34. The last confirmed stop of a launch that was torn down before it was ready ends the
    executor.  Let the next command be a stop whose node exists, the other stops of its
    group have succeeded, and the group be stopping while its instance is not draining (so it
    is still requested, reserving, launching, warming, or ready).  When the node confirms the
    stop, the executor records it and then moves the instance to stopped, which the state
    machine refuses outside of the code that guards the command: its task ends with the
    error, whatever commands follow.  All that has changed is the row of this command: the
    instance, its group, its reservations and every other command are left as they were. *)
Theorem failed_launch_ends_executor resolves now state rest w id c g i :
  next_command w = Some id → by_key sc_id id (cl_shard_commands w) = Some c →
  is_Some (studio_row (sc_node_id c) w) →
  (∀ o, o ∈ cl_shard_commands w → sc_group_id o = sc_group_id c → sc_operation o = Stop →
        sc_id o ≠ id → sc_state o = CSucceeded) →
  by_key sg_id (sc_group_id c) (cl_groups w) = Some g → sg_state g = GStopping →
  instance_row (sg_instance_id g) w = Some i →
  in_state i ∈ [Requested; Reserving; Launching; Warming; Ready] → state ∈ [GStopped; GFailed] →
  executor_run resolves ((now, Answered state) :: rest) w
  = (Err InvalidInstanceTransition, confirmed id state c w).
Proof.
  intros Hnext Hc [node Hnode] Hstops Hg Hst Hi Hin Hstate. cbn [executor_run].
  unfold mbind at 1, M_bind at 1. simpl. unfold mbind at 1, M_bind at 1. rewrite Hnext.
  enough (execute_safely resolves now id (Answered state) w
          = (Err InvalidInstanceTransition, confirmed id state c w)) as -> by done.
  unfold execute_safely.
  assert (execute_begin id w
    = (Ok tt, with_shard_commands (update_key sc_id id (set_command CRunning (sc_result c) (sc_failure_detail c))) w)) as ->.
  { unfold execute_begin, transaction, mbind, M_bind. simpl. rewrite Hc. simpl. by rewrite Hnode. }
  unfold mbind at 1, M_bind at 1. simpl.
  assert (Hw : with_shard_commands (update_key sc_id id (λ c0, set_command CSucceeded (Some state) (sc_failure_detail c0) c0))
      (with_shard_commands (update_key sc_id id (set_command CRunning (sc_result c) (sc_failure_detail c))) w)
    = confirmed id state c w).
  { unfold confirmed, with_shard_commands. simpl. f_equal. by rewrite update_key_twice. }
  rewrite (proj2 (is_in_true _ _) Hstate). rewrite Hw.
  apply (finalize_refused _ _ _ _ _ (set_command CSucceeded (Some state) (sc_failure_detail c) c) g i); [|..|exact Hg|exact Hst|exact Hi|exact Hin].
  - simpl. by apply by_key_update.
  - apply not_true_iff_false. rewrite existsb_exists. intros (o' & Ho' & E). simpl in Ho'.
    apply list_elem_of_In in Ho'. unfold update_key in Ho'. apply list_elem_of_fmap in Ho' as (o & -> & Ho).
    destruct (String.eqb_spec (sc_id o) id) as [_|Hne]; guards; simpl in *; [done|].
    by destruct (Hstops o).
Qed.

(** A command of another instance is waiting, one rank does not become ready, and the
    launch is torn down; the first stop has been confirmed. *)
Definition other_command : ShardCommand := mkShardCommand "c" "g" "coire-edge-a" Prepare None CPending None None 100.
Definition waiting_other : Cluster := with_shard_commands (λ cs, cs ++ [other_command]) readying.
Definition not_ready : Cluster :=
  after (executor_run always [(16, NodeFailure "409"); (17, Answered GReady)]) waiting_other.
Definition stopping : Cluster := after (teardown_begin always name5 19 "i" "sharded launch failed") not_ready.
Definition first_stopped : Cluster := after (executor_run always [(20, Answered GStopped)]) stopping.

Lemma stopping_run : runs (start, []) (first_stopped, []).
Proof.
  apply (transitivity (y := (prepared, []))).
  { eapply (rtc_l _ _ (created, [])); [apply step_operation, op_create|].
    eapply (rtc_l _ _ (admitted_world, [])); [apply step_operation, op_admission|].
    eapply (rtc_l _ _ (unloaded, [])); [apply step_operation, op_unload|].
    eapply (rtc_l _ _ (queued, [])); [apply step_operation, op_queue_prepare|]. apply executor_run_steps. }
  eapply (rtc_l _ _ (readying, [])); [apply step_operation, op_queue_ready|].
  eapply (rtc_l _ _ (waiting_other, [])); [by apply step_elsewhere|].
  apply (transitivity (y := (not_ready, []))); [apply executor_run_steps|].
  eapply (rtc_l _ _ (stopping, [])); [apply step_operation, op_teardown_begin|]. apply executor_run_steps.
Qed.

Definition second_stop : ShardCommand :=
  default other_command (by_key sc_id (default "" (next_command first_stopped)) (cl_shard_commands first_stopped)).

Lemma failed_launch_ends_executor_witness :
  runs (start, []) (first_stopped, [])
  ∧ (in_state <$> cl_instances first_stopped) = [Warming]
  ∧ (λ n, mr_state <$> row ("new-" +:+ n) (reservations first_stopped)) <$> studio_names = [Some PENDING; Some PENDING]
  ∧ executor_run always ((21, Answered GStopped) :: [(22, Answered GReady)]) first_stopped
    = (Err InvalidInstanceTransition, confirmed (sc_id second_stop) GStopped second_stop first_stopped).
Proof.
  split; [exact stopping_run|]. split; [vm_compute; reflexivity|]. split; [vm_compute; reflexivity|].
  eapply (failed_launch_ends_executor always 21 GStopped [(22, Answered GReady)] first_stopped (sc_id second_stop) second_stop).
  - vm_compute. reflexivity.
  - vm_compute. reflexivity.
  - vm_compute. eexists. reflexivity.
  - apply (Forall_forall (λ o, sc_group_id o = sc_group_id second_stop → sc_operation o = Stop →
      sc_id o ≠ sc_id second_stop → sc_state o = CSucceeded)).
    apply (bool_decide_unpack _). vm_compute. exact I.
  - vm_compute. reflexivity.
  - vm_compute. reflexivity.
  - vm_compute. reflexivity.
  - apply (bool_decide_unpack _). vm_compute. exact I.
  - by left.
Defined.

(** ** Where teardown gives capacity back too early *)

(** An admission that should wait for training raises; the teardown of the launch fails
    the instance, and the retry is refused by the state machine. *)
Definition waited : Cluster := after (shard_admission always name5 any_id waiting) created.
Definition torn : Cluster := after (teardown_begin always name5 11 "i" "sharded launch failed") waited.
Example training_wait_fails_instance :
  (shard_admission always name5 any_id waiting created).1
    = Err (InstanceRuntimeError "sharded placement is waiting for training ownership")
  ∧ in_state <$> cl_instances torn = [Failed]
  ∧ (shard_admission always name5 any_id request torn).1 = Err InvalidInstanceTransition.
Proof. vm_compute. done. Qed.

(** A node does not confirm a stop; the reservations of both ranks are closed all the
    same, so that an admission no longer counts the engine that may still run. *)
Definition draining : Cluster := after (transaction (drain_instance always 20 0 "i")) serving.
Definition unstopped : Cluster :=
  after (executor_run always [(22, NodeFailure "timeout")])
    (after (teardown_begin always name5 21 "i" "coordinated drain completed") draining).
Example unconfirmed_stop_frees :
  stops_ended ["coire:shard-group:i:coire-edge-a:stop"] unstopped = Some true
  ∧ (λ s, sum_Z (mr_bytes <$> counted_rows (nd_reservations (st_node s)))) <$> cl_studios serving = [60; 60]
  ∧ (λ s, sum_Z (mr_bytes <$> counted_rows (nd_reservations (st_node s)))) <$> cl_studios unstopped = [10; 10].
Proof. vm_compute. done. Qed.

(** ** A lost rank *)

(** The survivor gets the largest variant that fits it, in a new instance, and its launch
    waits until the stops of the lost group are confirmed. *)
Definition lost : Cluster :=
  after (check_group always name5 30 "f" (group_id name5 "i")
           (λ n, if String.eqb n "coire-edge-a" then None else Some GReady)) serving.
Definition cleared : Cluster := after (executor_run always [(20, Answered GStopped); (21, Answered GStopped)]) lost.
Example lost_rank_falls_back :
  (λ i, (in_id i, in_variant_id i, in_state i)) <$> cl_instances lost
    = [("i", Some "v", Failed); ("f", Some "small", Requested)]
  ∧ fallback_clear "f" lost = false
  ∧ fallback_clear "f" cleared = true
  ∧ sg_state <$> cl_groups cleared = [GFailed]
  ∧ (λ n, mr_state <$> row ("new-" +:+ n) (reservations cleared)) <$> studio_names = [Some RELEASED; Some RELEASED].
Proof. vm_compute. done. Qed.
