(* ===== verification/ShardGroups.v ===== *)
(** * Shard groups on the node

    coire_node/sharding.py: [ShardGroupManager], which owns the launcher of a group on
    the Studio with rank zero and records every group in a file that survives a restart
    of the agent.  The lock makes each method one call.  A launcher is known by its
    identity (its pid with its creation time).  What the file system, the store, the
    launcher and the engine answer is an argument; a write of the file may fail, as the
    oracle [ag_faults] says. *)
From S2P Require Import Prelude Effects Placement Instances.
Open Scope Z_scope.

Record GroupStatus := mkStatus {
  gs_group_id : string;
  gs_instance_id : string;
  gs_mode : ShardingMode;
  gs_state : ShardGroupState;
  gs_ranks : list ShardRank;
  gs_pid : option Z;                  (* of the local rank, once it is known *)
  gs_reason : option string;
  gs_stopped_at : option Z;
}.

Record Agent := mkAgent {
  ag_groups : gmap string GroupStatus;
  ag_processes : gmap string Z;
  ag_commands : gmap string string;
  ag_model_paths : gmap string string;
  ag_file : option (gmap string GroupStatus);
  ag_faults : list bool;
  ag_live : list Z;                   (* launchers that run *)
  ag_spawned : list (string * Z);     (* every launcher ever started, newest last *)
}.

Inductive GroupError :=
| GValueError (why : string) | GFileNotFound | GOSError | GRuntimeError (why : string)
| StopIteration | GAdmissionRefused | UpgradeUnavailable.
Definition GIO := M Agent GroupError.

Definition with_groups_of f (s : Agent) : Agent :=
  mkAgent (f (ag_groups s)) (ag_processes s) (ag_commands s) (ag_model_paths s) (ag_file s) (ag_faults s)
    (ag_live s) (ag_spawned s).
Definition set_status (state : ShardGroupState) (reason : option string) (stopped : option Z)
    (g : GroupStatus) : GroupStatus :=
  mkStatus (gs_group_id g) (gs_instance_id g) (gs_mode g) state (gs_ranks g) (gs_pid g) reason stopped.
Definition set_pid (pid : Z) (g : GroupStatus) : GroupStatus :=
  mkStatus (gs_group_id g) (gs_instance_id g) (gs_mode g) (gs_state g) (gs_ranks g) (Some pid)
    (gs_reason g) (gs_stopped_at g).
Definition store (g : GroupStatus) : GIO unit := modify (with_groups_of (insert (gs_group_id g) g)).

(** [_persist]: the file is replaced as a whole, or the write raises. *)
Definition persist : GIO unit := λ s,
  let next fs file := mkAgent (ag_groups s) (ag_processes s) (ag_commands s) (ag_model_paths s) file fs
                        (ag_live s) (ag_spawned s) in
  match ag_faults s with
  | true :: fs => (Err GOSError, next fs (ag_file s))
  | fs => (Ok tt, next (tail fs) (Some (ag_groups s)))
  end.

(** ** [prepare] *)

Record PrepareAnswers := mkPrepare {
  pa_admitted : bool;
  pa_model_path : option string;      (* the model's directory, if it exists *)
  pa_hostfile : option string;        (* the digest of the host file, if it can be read *)
  pa_launcher : option Z;             (* the identity of the launcher, if it starts *)
  pa_identified : bool;               (* whether its creation time can be read *)
}.

Definition remember (c : ShardGroupCommand) (path : string) (g : GroupStatus) (s : Agent) : Agent :=
  mkAgent (<[gc_group_id c := g]> (ag_groups s)) (ag_processes s)
    (<[gc_command_id c := gc_group_id c]> (ag_commands s)) (<[gc_group_id c := path]> (ag_model_paths s))
    (ag_file s) (ag_faults s) (ag_live s) (ag_spawned s).
Definition launched (group : string) (pid : Z) (s : Agent) : Agent :=
  mkAgent (ag_groups s) (<[group := pid]> (ag_processes s)) (ag_commands s) (ag_model_paths s) (ag_file s)
    (ag_faults s) (ag_live s ++ [pid]) (ag_spawned s ++ [(group, pid)]).

(** Only rank zero owns the launcher. *)
Definition launch (a : PrepareAnswers) (g : GroupStatus) : GIO GroupStatus :=
  pid ← some_or GOSError (pa_launcher a);
  modify (launched (gs_group_id g) pid);;
  store (set_pid pid g);;
  throw_if (negb (pa_identified a)) GOSError;;
  mret (set_pid pid g).

Section manager.
Context (node : string).

Definition prepare (a : PrepareAnswers) (c : ShardGroupCommand) : GIO GroupStatus :=
  s ← get;
  match ag_commands s !! gc_command_id c with
  | Some id => some_or (GValueError "group") (ag_groups s !! id)
  | None =>
      throw_if (present (ag_groups s !! gc_group_id c))
        (GValueError "group exists with a different command identity");;
      throw_if (negb (pa_admitted a)) GAdmissionRefused;;
      path ← some_or GFileNotFound (pa_model_path a);
      digest ← some_or GOSError (pa_hostfile a);
      throw_if (negb (String.eqb digest (gc_hostfile_sha256 c)))
        (GValueError "hostfile digest does not match scheduler command");;
      let g := mkStatus (gc_group_id c) (gc_instance_id c) (gc_mode c) GPreparing (gc_ranks c) None None None in
      modify (remember c path g);;
      persist;;
      r ← some_or StopIteration (List.find (λ r, String.eqb (rk_node_name r) node) (gc_ranks c));
      g ← (if rk_rank r =? 0 then launch a g else mret g);
      let g := set_status GStarting (gs_reason g) (gs_stopped_at g) g in
      store g;;
      persist;;
      mret g
  end.

(** ** [get], [stop] and [mark_ready] *)

(** A launcher that has exited fails a group that had not ended. *)
Definition exited (id : string) (s : Agent) : bool :=
  match ag_processes s !! id with Some pid => negb (is_in pid (ag_live s)) | None => false end.
Definition get_group (now : Z) (id : string) : GIO (option GroupStatus) :=
  s ← get;
  match ag_groups s !! id with
  | None => mret None
  | Some g =>
      if exited id s && negb (is_in (gs_state g) [GStopped; GFailed]) then
        let g := set_status GFailed (Some "rank process exited") (Some now) g in
        store g;; persist;; mret (Some g)
      else mret (Some g)
  end.

(** How a launcher ends: on the first signal, on the second, or not in time. *)
Inductive StopAnswer := OnTerm | OnKill | NotStopped.
Definition dies (pid : Z) (s : Agent) : Agent :=
  mkAgent (ag_groups s) (ag_processes s) (ag_commands s) (ag_model_paths s) (ag_file s) (ag_faults s)
    (filter (.≠ pid) (ag_live s)) (ag_spawned s).
Definition stop_launcher (a : StopAnswer) (pid : Z) (g : GroupStatus) : GIO unit :=
  let g := set_status GStopping (gs_reason g) (gs_stopped_at g) g in
  store g;; persist;;
  match a with
  | NotStopped =>
      store (set_status GFailed (Some "rank process group did not stop") (gs_stopped_at g) g);;
      persist;;
      throw (GRuntimeError "rank process group did not stop")
  | _ => modify (dies pid)
  end.
Definition stop (a : StopAnswer) (now : Z) (id : string) : GIO (option GroupStatus) :=
  s ← get;
  match ag_groups s !! id with
  | None => mret None
  | Some g =>
      match ag_processes s !! id with
      | Some pid => if is_in pid (ag_live s) then stop_launcher a pid g else mret tt
      | None => mret tt
      end;;
      let g := set_status GStopped (gs_reason g) (Some now) g in
      store g;; persist;; mret (Some g)
  end.

(** [generated]: the first generation succeeds before the deadline. *)
Definition mark_ready (generated : bool) (now : Z) (id : string) : GIO (option GroupStatus) :=
  o ← get_group now id;
  match o with
  | None => mret None
  | Some g =>
      throw_if (negb (is_in (gs_state g) [GStarting; GReady]))
        (GValueError "group cannot become ready from its current state");;
      throw_if (String.eqb node "coire-edge-a" && negb (same (gs_state g) GReady) && negb generated)
        (GValueError "distributed first generation did not become ready");;
      let g := set_status GReady (gs_reason g) (gs_stopped_at g) g in
      store g;; persist;; mret (Some g)
  end.
End manager.

(** [_adopt] in a new agent: launchers outlive the old one, but are no longer known.  A file
    that is missing, cannot be read or is not JSON ([readable] is false) leaves the new agent
    without any group; the file itself stays. *)
Definition adopted (now : Z) (g : GroupStatus) : GroupStatus :=
  if is_in (gs_state g) [GPreparing; GStarting; GReady]
  then set_status GFailed (Some "agent restarted without a verifiable rank process identity") (Some now) g
  else g.
Definition adopt (readable : bool) (now : Z) (s : Agent) : Agent :=
  mkAgent (match ag_file s with
           | Some file => if readable then adopted now <$> file else ∅
           | None => ∅
           end) ∅ ∅ ∅ (ag_file s) (ag_faults s) (ag_live s) (ag_spawned s).

(** [upgrade_inventory]: the groups that are not stopped; [alive] says whether a process
    with a recorded pid exists. *)
Definition upgrade_inventory (alive : Z → bool) : GIO (list string) :=
  s ← get;
  match ag_file s with
  | Some file => throw_if (negb (same (dom file : gset string) (dom (ag_groups s)))) UpgradeUnavailable
  | None => mret tt
  end;;
  throw_if (existsb (λ p, same (gs_state p.2) GStopped
                          && match gs_pid p.2 with Some pid => alive pid | None => false end)
              (map_to_list (ag_groups s))) UpgradeUnavailable;;
  mret ((map_to_list (filter (λ p, gs_state p.2 ≠ GStopped) (ag_groups s))).*1).

(** ** One launcher per group *)

(** What holds of the launchers started after the first [base] ones. *)
Definition recent (base : nat) (s : Agent) : list string := (drop base (ag_spawned s)).*1.

Record owned_ok (base : nat) (s : Agent) : Prop := {
  oo_base : (base ≤ length (ag_spawned s))%nat;
  oo_nodup : NoDup (recent base s);
  oo_groups : ∀ id, id ∈ recent base s → is_Some (ag_groups s !! id);
  oo_file : ∀ id, id ∈ recent base s → is_Some (ag_file s ≫= lookup id);
  oo_file_ids : ∀ f id g, ag_file s = Some f → f !! id = Some g → gs_group_id g = id;
  oo_ids : ∀ id g, ag_groups s !! id = Some g → gs_group_id g = id;
  oo_procs : ∀ id pid, ag_processes s !! id = Some pid → (id, pid) ∈ ag_spawned s;
  oo_dead : ∀ id g pid, ag_groups s !! id = Some g → gs_state g = GStopped →
            ag_processes s !! id = Some pid → pid ∉ ag_live s;
}.

Section kept.
Context {base : nat}.

Lemma persist_group_run s out s' :
  persist s = (out, s') →
  ag_groups s' = ag_groups s ∧ ag_processes s' = ag_processes s ∧ ag_live s' = ag_live s
  ∧ ag_spawned s' = ag_spawned s ∧ ag_commands s' = ag_commands s
  ∧ match out with Ok _ => ag_file s' = Some (ag_groups s) | Err _ => ag_file s' = ag_file s end.
Proof. unfold persist. destruct (ag_faults s) as [|[] fs]; intros [= <- <-]; done. Qed.

Lemma persist_ok : preserved (owned_ok base) persist.
Proof.
  intros s [H0 H1 H2 H3 H7 H4 H5 H6]. destruct (persist s) as [out s'] eqn:E. simpl.
  apply persist_group_run in E as (Eg & Ep & El & Es & _ & Ef).
  unfold recent in *. split; unfold recent; rewrite ?Eg, ?Ep, ?El, ?Es; try done.
  - intros id Hid. destruct out; rewrite Ef; simpl; auto.
  - intros f id g. destruct out; rewrite Ef; [intros [= <-]; auto|apply H7].
Qed.

(** Recording a status of a group, stopped only when its launcher is gone. *)
Lemma store_run g s : (store g s).2 = with_groups_of (insert (gs_group_id g) g) s.
Proof. done. Qed.
Lemma store_ok g s :
  (owned_ok base) s →
  (gs_state g = GStopped → ∀ pid, ag_processes s !! gs_group_id g = Some pid → pid ∉ ag_live s) →
  (owned_ok base) (with_groups_of (insert (gs_group_id g) g) s).
Proof.
  intros [H0 H1 H2 H3 H7 H4 H5 H6] Hg. split; simpl; try done.
  - intros id Hid. rewrite lookup_insert_is_Some'. auto.
  - intros id g'. rewrite lookup_insert_Some. intros [[<- <-]|[_ ?]]; auto.
  - intros id g' pid. rewrite lookup_insert_Some. intros [[<- <-]|[_ ?]] Hs Hp; [by apply Hg|by eapply H6].
Qed.

Lemma dies_ok pid s : (owned_ok base) s → (owned_ok base) (dies pid s).
Proof.
  intros [H0 H1 H2 H3 H7 H4 H5 H6]. split; simpl; try done.
  intros id g pid' Hg Hs Hp. rewrite list_elem_of_filter. intros [_ Hin]. by apply (H6 id g pid').
Qed.

Lemma remember_ok c path g s :
  (owned_ok base) s → ag_groups s !! gc_group_id c = None → gs_group_id g = gc_group_id c →
  gs_state g ≠ GStopped → (owned_ok base) (remember c path g s).
Proof.
  intros [H0 H1 H2 H3 H7 H4 H5 H6] Hn Eg Hs. split; simpl; try done.
  - intros id Hid. rewrite lookup_insert_is_Some'. auto.
  - intros id g'. rewrite lookup_insert_Some. intros [[<- <-]|[_ ?]]; auto.
  - intros id g' pid. rewrite lookup_insert_Some. intros [[<- <-]|[_ ?]] Hst Hp; [done|by eapply H6].
Qed.

Lemma launched_ok id g pid s :
  (owned_ok base) s → id ∉ recent base s → ag_file s = Some (ag_groups s) →
  ag_groups s !! id = Some g → gs_state g ≠ GStopped → pid ∉ (ag_spawned s).*2 →
  (owned_ok base) (launched id pid s).
Proof.
  intros [H0 H1 H2 H3 H7 H4 H5 H6] Hid Hf Hg Hst Hpid.
  assert (Hrec : recent base (launched id pid s) = recent base s ++ [id]).
  { unfold recent. simpl. by rewrite drop_app_le, fmap_app by done. }
  split; rewrite ?Hrec; simpl.
  - rewrite length_app. lia.
  - apply NoDup_app. split_and!; [done| |apply NoDup_singleton]. set_solver.
  - intros x. rewrite elem_of_app. intros [Hx|Hx%list_elem_of_singleton]; [auto|]. subst. eauto.
  - intros x. rewrite elem_of_app, Hf. simpl.
    intros [Hx|Hx%list_elem_of_singleton]; [auto|]. subst. eauto.
  - done.
  - done.
  - intros x p. rewrite lookup_insert_Some, elem_of_app. intros [[<- <-]|[_ Hx]]; [right; set_solver|left; auto].
  - intros x gx p Hx Hs. rewrite lookup_insert_Some. intros [[<- <-]|[Hne Hp]]; [congruence|].
    rewrite elem_of_app, list_elem_of_singleton. intros [Hin| ->]; [by apply (H6 x gx p)|].
    destruct Hpid. apply (list_elem_of_fmap_2 snd _ (x, pid)). auto.
Qed.

(** A status other than stopped can always be recorded. *)
Lemma store_other g : gs_state g ≠ GStopped → preserved (owned_ok base) (store g).
Proof. intros Hg s Hs. rewrite store_run. by apply store_ok. Qed.
Hint Resolve persist_ok store_other : effects.

Ltac owned := repeat first
  [ progress intros | solve [auto with effects] | done
  | apply preserved_bind | apply preserved_ret
  | match goal with |- preserved _ (match ?x with _ => _ end) => destruct x end ].

Lemma get_group_ok now id : preserved (owned_ok base) (get_group now id).
Proof. unfold get_group. owned. Qed.
Hint Resolve get_group_ok : effects.
Lemma mark_ready_ok node generated now id : preserved (owned_ok base) (mark_ready node generated now id).
Proof. unfold mark_ready. owned. Qed.
Lemma adopted_id now g : gs_group_id (adopted now g) = gs_group_id g.
Proof. unfold adopted. by case_match. Qed.
Lemma adopt_ok now s : owned_ok base s → owned_ok base (adopt true now s).
Proof.
  intros [H0 H1 H2 H3 H7 H4 H5 H6]. split; simpl; try done.
  - intros id Hid. destruct (H3 id Hid) as [g Hg]. destruct (ag_file s) as [f|]; [|done]. simpl in Hg.
    rewrite lookup_fmap, Hg. eauto.
  - intros id g. destruct (ag_file s) as [f|] eqn:Ef; [|done]. rewrite lookup_fmap_Some.
    intros (g' & <- & Hg'). rewrite adopted_id. by apply (H7 f).
Qed.

Lemma stop_launcher_run a pid g s out s' :
  (owned_ok base) s → stop_launcher a pid g s = (out, s') →
  (owned_ok base) s' ∧ ∀ u, out = Ok u → ag_processes s' = ag_processes s ∧ pid ∉ ag_live s'.
Proof.
  intros Hs H. split.
  - assert (preserved (owned_ok base) (stop_launcher a pid g)) as Hp.
    { unfold stop_launcher. owned; intros t; apply dies_ok. }
    specialize (Hp s Hs). by rewrite H in Hp.
  - intros u ->. unfold stop_launcher, store in H. inv_run.
    match goal with Hq : persist _ = _ |- _ => apply persist_group_run in Hq as (_ & Ep & _) end.
    destruct a; inv_run; (split; [done|]); simpl; rewrite list_elem_of_filter; naive_solver.
Qed.

Lemma stop_ok a now id : preserved (owned_ok base) (stop a now id).
Proof.
  intros s Hs. destruct (stop a now id s) as [out s'] eqn:H. simpl. unfold stop in H. walk H.
  destruct (ag_groups s !! id) as [g|] eqn:Eg; [|by injection H as <- <-].
  set (k := set_status GStopped (gs_reason g) (Some now) g) in H.
  assert (Hk : ∀ t, (owned_ok base) t → (∀ pid, ag_processes t !! id = Some pid → pid ∉ ag_live t) →
    (owned_ok base) ((store k;; persist;; mret (Some k)) t).2).
  { intros t Ht Hd. unfold mbind at 1, M_bind at 1. rewrite (surjective_pairing (store k t)). simpl.
    apply (preserved_bind (owned_ok base)); [apply persist_ok|intros; apply preserved_ret|].
    apply (store_ok k t); [done|]. intros _. by rewrite (oo_ids base s Hs id g Eg : gs_group_id k = id). }
  apply run_bind_cases in H as [(e & Hm & ->)|(u & s1 & Hm & H)].
  - destruct (ag_processes s !! id) as [pid|] eqn:Ep; [|done].
    destruct (is_in pid (ag_live s)); [|done]. by apply stop_launcher_run in Hm as [? _].
  - pose proof (f_equal snd H) as E. simpl in E. rewrite <- E. destruct (ag_processes s !! id) as [pid|] eqn:Ep.
    + destruct (is_in pid (ag_live s)) eqn:El.
      * apply stop_launcher_run in Hm as [Hs1 Hd]; [|done]. destruct (Hd u eq_refl) as [Ep1 Hdead].
        apply Hk; [done|]. intros pid'. rewrite Ep1, Ep. by intros [= <-].
      * inv_run. apply Hk; [done|]. intros pid'. rewrite Ep. intros [= <-].
        rewrite <- is_in_true. congruence.
    + inv_run. apply Hk; [done|]. intros pid'. by rewrite Ep.
Qed.

Definition fresh_launcher (a : PrepareAnswers) (s : Agent) : Prop :=
  ∀ pid, pa_launcher a = Some pid → pid ∉ (ag_spawned s).*2.

Lemma launch_ok a g s :
  (owned_ok base) s → fresh_launcher a s → gs_group_id g ∉ recent base s →
  ag_file s = Some (ag_groups s) → ag_groups s !! gs_group_id g = Some g → gs_state g = GPreparing →
  (owned_ok base) (launch a g s).2.
Proof.
  intros Hs Hf Hno Hfile Hg Hst. unfold launch, mbind, M_bind. destruct (pa_launcher a) as [pid|] eqn:Ep; [|done].
  simpl. assert ((owned_ok base) (launched (gs_group_id g) pid s)) as Hl.
  { apply (launched_ok _ g); try done; [by rewrite Hst|by apply Hf]. }
  assert ((owned_ok base) (with_groups_of (insert (gs_group_id g) (set_pid pid g)) (launched (gs_group_id g) pid s))).
  { apply (store_ok (set_pid pid g)); [done|]. simpl. by rewrite Hst. }
  by destruct (pa_identified a).
Qed.

Lemma prepare_ok node a c s : (owned_ok base) s → fresh_launcher a s → (owned_ok base) (prepare node a c s).2.
Proof.
  intros Hs Hf. unfold prepare. unfold mbind at 1, M_bind at 1. simpl.
  destruct (ag_commands s !! gc_command_id c).
  { apply (preserved_some_or (owned_ok base)); done. }
  destruct (ag_groups s !! gc_group_id c) as [g0|] eqn:Hno; [done|]. simpl present.
  destruct (pa_admitted a); [|done]. destruct (pa_model_path a) as [path|]; [|done].
  destruct (pa_hostfile a) as [digest|]; [|done].
  destruct (String.eqb digest (gc_hostfile_sha256 c)) eqn:Ed;
    unfold mbind, M_bind; simpl; rewrite ?Ed; simpl; [|done].
  set (g := mkStatus _ _ _ _ _ _ _ _).
  assert (Hr : (owned_ok base) (remember c path g s)) by (by apply remember_ok).
  pose proof (persist_ok _ Hr) as Hp. destruct (persist (remember c path g s)) as [[u|e] t] eqn:E; [|done].
  simpl in Hp. apply persist_group_run in E as (Eg & _ & _ & Es & _ & Ef). simpl in Eg, Es.
  destruct (List.find _ _) as [r|]; simpl; [|done].
  assert (Hl : (owned_ok base) ((if rk_rank r =? 0 then launch a g else mret g) t).2).
  { destruct (rk_rank r =? 0); [|done]. apply launch_ok; try done.
    - intros pid Hpid. rewrite Es. by apply Hf.
    - unfold recent. rewrite Es. simpl. intros Hin. destruct (oo_groups base s Hs _ Hin). congruence.
    - by rewrite Ef, Eg.
    - rewrite Eg. simpl. by rewrite lookup_insert_eq. }
  destruct ((if rk_rank r =? 0 then launch a g else mret g) t) as [[g'|e] t']; [|done]. simpl in Hl |- *.
  set (k := set_status GStarting _ _ _).
  pose proof (persist_ok _ (store_other k ltac:(done) t' Hl)) as Hend. simpl in Hend.
  destruct (persist _) as [[] ?]; done.
Qed.

End kept.

(** An agent that cannot read the file starts anew. *)
Lemma forgotten_ok base now s : owned_ok base s → owned_ok (length (ag_spawned s)) (adopt false now s).
Proof.
  intros [H0 H1 H2 H3 H7 H4 H5 H6]. split; unfold recent; simpl; rewrite ?drop_all; try done.
  - constructor.
  - set_solver.
  - set_solver.
  - intros id g. by destruct (ag_file s).
Qed.

(** ** Runs *)

Section runs.
Context (node : string).

(** The methods of the manager, with any answers and failed writes, launchers that exit,
    and restarts of the agent; with the number of launchers that had been started when an
    agent last failed to read the file. *)
Inductive group_step : Agent * nat → Agent * nat → Prop :=
| step_prepare s base a c : fresh_launcher a s → group_step (s, base) ((prepare node a c s).2, base)
| step_get s base now id : group_step (s, base) ((get_group now id s).2, base)
| step_stop s base a now id : group_step (s, base) ((stop a now id s).2, base)
| step_ready s base generated now id : group_step (s, base) ((mark_ready node generated now id s).2, base)
| step_exit s base pid : group_step (s, base) (dies pid s, base)
| step_restart s base now : group_step (s, base) (adopt true now s, base)
| step_forget s base now : group_step (s, base) (adopt false now s, length (ag_spawned s))
| step_faults s base fs :
    group_step (s, base)
      (mkAgent (ag_groups s) (ag_processes s) (ag_commands s) (ag_model_paths s) (ag_file s) fs
         (ag_live s) (ag_spawned s), base).

Definition new_agent : Agent := mkAgent ∅ ∅ ∅ ∅ None [] [] [].

Lemma new_agent_ok : owned_ok 0 new_agent.
Proof. split; simpl; try done; [constructor|set_solver..]. Qed.

Lemma step_owned st st' : group_step st st' → owned_ok st.2 st.1 → owned_ok st'.2 st'.1.
Proof.
  destruct 1; simpl; intros Hs.
  - by apply prepare_ok.
  - by apply get_group_ok.
  - by apply stop_ok.
  - by apply mark_ready_ok.
  - by apply dies_ok.
  - by apply adopt_ok.
  - by eapply forgotten_ok.
  - destruct Hs. by split.
Qed.

(** C35. However prepare commands are repeated, writes fail, launchers exit and the agent
    restarts, a group gets at most one launcher for as long as every restarted agent can
    read the file of groups: among the launchers started since an agent last failed to read
    it (none has failed at first) no two are of one group.  And a group that is recorded as
    stopped has no running launcher, as long as the agent that started it runs. *)
Theorem one_launcher s base :
  rtc group_step (new_agent, 0%nat) (s, base) →
  NoDup (drop base (ag_spawned s)).*1
  ∧ ∀ id g pid, ag_groups s !! id = Some g → gs_state g = GStopped →
      ag_processes s !! id = Some pid → pid ∉ ag_live s.
Proof.
  intros Hrun. assert (owned_ok base s) as Hs.
  { change (owned_ok (s, base).2 (s, base).1). revert Hrun. generalize (s, base).
    pose proof new_agent_ok as H0. change (owned_ok (new_agent, 0%nat).2 (new_agent, 0%nat).1) in H0.
    revert H0. generalize (new_agent, 0%nat). intros st0 H0 st Hrun. induction Hrun; eauto using step_owned. }
  split; [apply Hs|]. apply (oo_dead base s Hs).
Qed.
End runs.

(** ** A small node *)

Definition demo_command : ShardGroupCommand :=
  mkGroupCommand "c" "g" "i" "v" "org--m" TENSOR_PARALLEL
    [mkRank 0 "coire-edge-a" "coire-edge-a.fabric" 9600; mkRank 1 "coire-edge-b" "coire-edge-b.fabric" 9600] 50 "h".
Definition answers (pid : Z) : PrepareAnswers := mkPrepare true (Some "/m") (Some "h") (Some pid) true.
Definition ready_agent : Agent :=
  (mark_ready "coire-edge-a" true 2 "g" (prepare "coire-edge-a" (answers 7) demo_command new_agent).2).2.
Definition stopped_agent : Agent := (stop OnKill 3 "g" ready_agent).2.

(** After a restart that reads the file, preparing the group again starts nothing. *)
Definition restarted_agent : Agent :=
  (prepare "coire-edge-a" (answers 8) demo_command (adopt true 4 stopped_agent)).2.

Lemma one_launcher_witness :
  (gs_state <$> ag_groups restarted_agent !! "g") = Some GStopped
  ∧ ag_spawned restarted_agent = [("g", 7)] ∧ NoDup (drop 0 (ag_spawned restarted_agent)).*1.
Proof.
  split; [vm_compute; reflexivity|]. split; [vm_compute; reflexivity|].
  apply (one_launcher "coire-edge-a" restarted_agent 0).
  eapply rtc_l; [apply (step_prepare _ _ _ (answers 7) demo_command); intros pid [= <-]; set_solver|].
  eapply rtc_l; [apply (step_ready _ _ _ true 2 "g")|].
  eapply rtc_l; [apply (step_stop _ _ _ OnKill 3 "g")|].
  eapply rtc_l; [apply (step_restart _ _ _ 4)|].
  apply rtc_once, (step_prepare _ _ _ (answers 8) demo_command).
  intros pid [= <-]. apply (bool_decide_eq_true_1 _). vm_compute. reflexivity.
Defined.

(** An agent that cannot read the file prepares the same group with a second launcher, next
    to the first one, which still runs. *)
Example unreadable_file_second_launcher :
  let s := (prepare "coire-edge-a" (answers 8) demo_command (adopt false 4 ready_agent)).2 in
  ag_spawned s = [("g", 7); ("g", 8)] ∧ ag_live s = [7; 8].
Proof. vm_compute. done. Qed.

(** After a restart of the agent the launcher still runs but is no longer known: a stop
    signals nothing and reports the group as stopped all the same. *)
Example restarted_stop_reports_stopped :
  let s := adopt true 3 ready_agent in
  let r := stop NotStopped 4 "g" s in
  (gs_state <$> ag_groups s !! "g") = Some GFailed
  ∧ match r.1 with Ok (Some g) => gs_state g = GStopped | _ => False end ∧ ag_live r.2 = [7].
Proof. vm_compute. done. Qed.
