(* ===== verification/Engines.v ===== *)
(** * The engines of a Studio

    coire_node/engines.py: [EngineManager], which spawns, probes, adopts, reconciles and
    stops the model servers of a node, with the store names of coire_core/models/registry.py
    and coire_node/store.py and the measure of coire_node/footprint.py.

    An [_Engine] is an object: the dictionary [_engines] and the background threads hold
    references to it, so the objects live in a heap.  What runs under the manager's lock is
    one call; a background thread is a value of [Thread], advanced by [thread_step] from one
    lock or blocking call to the next, so that any interleaving is a sequence of calls.  The
    operating system's process table is part of the state and also changes by itself.
    Times are integers.  CPU samples, telemetry and the contents of stderr files are left
    out; a file's existence is kept. *)
From Stdlib Require Import Ascii.
From stdpp Require Export pretty.
From S2P Require Import Prelude Effects Instances.
Open Scope Z_scope.

(** ** Strings, as Python's *)

Abbreviation chars := String.list_ascii_of_string.
Abbreviation text := String.string_of_list_ascii.

(** [needle in s] *)
Fixpoint contains (needle s : string) : bool :=
  String.prefix needle s || match s with
                            | EmptyString => false
                            | String _ s => contains needle s
                            end.
(** [sep.join(parts)] *)
Definition join (sep : string) (parts : list string) : string := String.concat sep parts.

(** [s.split()]: the maximal runs without white space. *)
Definition is_space (c : Ascii.ascii) : bool :=
  let n := Ascii.nat_of_ascii c in ((9 <=? n) && (n <=? 13) || (28 <=? n) && (n <=? 32))%nat.
Fixpoint split_on (sep : Ascii.ascii → bool) (word : list Ascii.ascii) (s : list Ascii.ascii)
    : list (list Ascii.ascii) :=
  match s with
  | [] => [rev word]
  | c :: s => if sep c then rev word :: split_on sep [] s else split_on sep (c :: word) s
  end.
Definition split (s : string) : list string :=
  text <$> filter (λ w, w ≠ []) (split_on is_space [] (chars s)).
(** [Path(s).name]: the last component that is neither empty nor [.]. *)
Definition path_name (s : string) : string :=
  default ""%string (last (text <$> filter (λ w, w ≠ [] ∧ w ≠ ["."%char])
                               (split_on (Ascii.eqb "/") [] (chars s)))).

(** [int(s)] of a token: an optional sign and digits, single underscores between them. *)
Definition digit (c : Ascii.ascii) : option Z :=
  let n := Z.of_nat (Ascii.nat_of_ascii c) in
  if (48 <=? n) && (n <=? 57) then Some (n - 48) else None.
Fixpoint digits (acc : Z) (after_digit : bool) (s : list Ascii.ascii) : option Z :=
  match s with
  | [] => if after_digit then Some acc else None
  | c :: s =>
      match digit c with
      | Some d => digits (acc * 10 + d) true s
      | None => if after_digit && Ascii.eqb c "_" then digits acc false s else None
      end
  end.
Definition py_int (s : string) : option Z :=
  match chars s with
  | [] => None
  | c :: rest =>
      if Ascii.eqb c "-" then Z.opp <$> digits 0 false rest
      else if Ascii.eqb c "+" then digits 0 false rest
      else digits 0 false (c :: rest)
  end.
(** [parts[parts.index(flag) + 1]], with its [ValueError] and [IndexError] *)
Fixpoint after (flag : string) (parts : list string) : option string :=
  match parts with
  | [] => None
  | x :: rest => if same x flag then head rest else after flag rest
  end.

(** ** Store names *)

Definition slug_char (c : Ascii.ascii) : bool :=
  let n := Ascii.nat_of_ascii c in
  ((48 <=? n) && (n <=? 57) || (65 <=? n) && (n <=? 90) || (97 <=? n) && (n <=? 122)
   || (n =? 95) || (n =? 46) || (n =? 45))%nat.
(** [SLUG_PATTERN]: two nonempty runs of such characters, with two dashes between them. *)
Definition slug_pattern (s : list Ascii.ascii) : bool :=
  existsb (λ i, forallb slug_char (take i s) && same (take 2 (drop i s)) ["-"%char; "-"%char]
                && nonempty (drop (i + 2) s) && forallb slug_char (drop (i + 2) s))
          (seq 1 (length s)).
(** [re.match] with a final [$], which also matches before a trailing newline. *)
Definition is_valid_slug (slug : string) : bool :=
  let s := chars slug in
  slug_pattern s
  || match rev s with
     | c :: front => Ascii.eqb c "010" && slug_pattern (rev front)
     | [] => false
     end.

(** ** Data *)

Inductive EngineBackend := MLX_LM | MLX_VLM | MFLUX | AUXILIARY.
#[global] Instance EngineBackend_eq : EqDecision EngineBackend.
Proof. solve_decision. Defined.

Record InferenceTarget := mkTarget {
  tg_model_id : string;
  tg_variant_id : string;
  tg_adapter_id : option string;
  tg_base_manifest : string;
  tg_adapter_manifest : option string;
}.
#[global] Instance InferenceTarget_eq : EqDecision InferenceTarget.
Proof. solve_decision. Defined.
Definition exact_artifacts (t : InferenceTarget) : bool :=
  Bool.eqb (absent (tg_adapter_id t)) (absent (tg_adapter_manifest t)).

Definition LIVE_ENGINE_STATES : list EngineState := [EStarting; EReady; EStopping].

Record BudgetRefused := mkRefused {
  br_required : Z;
  br_committed : Z;
  br_budget : Z;
}.

Inductive Exn :=
| BudgetExceeded (r : BudgetRefused)
| CopyMissing (why : string)
| BackendMismatch (why : string)
| NoFreePort
| StoreError
| ValueError (why : string)
| OSError
| Refused (why : string).   (** what [admission_check] raises *)

(** A [subprocess.Popen]: the child it waits for. *)
Record Popen := mkPopen { po_pid : Z; po_born : Z }.
#[global] Instance Popen_eq : EqDecision Popen.
Proof. solve_decision. Defined.

Record _Engine := mkEngine {
  e_engine_id : option string;
  e_target : option InferenceTarget;
  e_engine_version : option string;
  e_rendering_identity : option string;
  e_slug : option string;
  e_port : Z;
  e_estimate_bytes : Z;
  e_pid : option Z;
  e_create_time : option Z;
  e_state : EngineState;
  e_state_reason : option string;
  e_exit_code : option Z;
  e_exit_output : option string;
  e_resident_bytes : option Z;
  e_load_seconds : option Z;
  e_chat_template : option string;
  e_backend : EngineBackend;
  e_stderr_path : option string;
  e_last_health_at : option Z;
  e_started_at : Z;
  e_stopped_at : option Z;
  e_proc : option Popen;
}.

Definition with_state (st : EngineState) (e : _Engine) : _Engine :=
  mkEngine (e_engine_id e) (e_target e) (e_engine_version e) (e_rendering_identity e) (e_slug e)
    (e_port e) (e_estimate_bytes e) (e_pid e) (e_create_time e) st (e_state_reason e) (e_exit_code e)
    (e_exit_output e) (e_resident_bytes e) (e_load_seconds e) (e_chat_template e) (e_backend e)
    (e_stderr_path e) (e_last_health_at e) (e_started_at e) (e_stopped_at e) (e_proc e).
Definition with_reason (why : string) (e : _Engine) : _Engine :=
  mkEngine (e_engine_id e) (e_target e) (e_engine_version e) (e_rendering_identity e) (e_slug e)
    (e_port e) (e_estimate_bytes e) (e_pid e) (e_create_time e) (e_state e) (Some why) (e_exit_code e)
    (e_exit_output e) (e_resident_bytes e) (e_load_seconds e) (e_chat_template e) (e_backend e)
    (e_stderr_path e) (e_last_health_at e) (e_started_at e) (e_stopped_at e) (e_proc e).
Definition with_exit (code : option Z) (output : option string) (e : _Engine) : _Engine :=
  mkEngine (e_engine_id e) (e_target e) (e_engine_version e) (e_rendering_identity e) (e_slug e)
    (e_port e) (e_estimate_bytes e) (e_pid e) (e_create_time e) (e_state e) (e_state_reason e) code
    output (e_resident_bytes e) (e_load_seconds e) (e_chat_template e) (e_backend e)
    (e_stderr_path e) (e_last_health_at e) (e_started_at e) (e_stopped_at e) (e_proc e).
Definition with_resident (n : option Z) (e : _Engine) : _Engine :=
  mkEngine (e_engine_id e) (e_target e) (e_engine_version e) (e_rendering_identity e) (e_slug e)
    (e_port e) (e_estimate_bytes e) (e_pid e) (e_create_time e) (e_state e) (e_state_reason e)
    (e_exit_code e) (e_exit_output e) n (e_load_seconds e) (e_chat_template e) (e_backend e)
    (e_stderr_path e) (e_last_health_at e) (e_started_at e) (e_stopped_at e) (e_proc e).
Definition with_load (n : option Z) (e : _Engine) : _Engine :=
  mkEngine (e_engine_id e) (e_target e) (e_engine_version e) (e_rendering_identity e) (e_slug e)
    (e_port e) (e_estimate_bytes e) (e_pid e) (e_create_time e) (e_state e) (e_state_reason e)
    (e_exit_code e) (e_exit_output e) (e_resident_bytes e) n (e_chat_template e) (e_backend e)
    (e_stderr_path e) (e_last_health_at e) (e_started_at e) (e_stopped_at e) (e_proc e).
Definition with_health (n : option Z) (e : _Engine) : _Engine :=
  mkEngine (e_engine_id e) (e_target e) (e_engine_version e) (e_rendering_identity e) (e_slug e)
    (e_port e) (e_estimate_bytes e) (e_pid e) (e_create_time e) (e_state e) (e_state_reason e)
    (e_exit_code e) (e_exit_output e) (e_resident_bytes e) (e_load_seconds e) (e_chat_template e)
    (e_backend e) (e_stderr_path e) n (e_started_at e) (e_stopped_at e) (e_proc e).
Definition with_stopped_at (n : option Z) (e : _Engine) : _Engine :=
  mkEngine (e_engine_id e) (e_target e) (e_engine_version e) (e_rendering_identity e) (e_slug e)
    (e_port e) (e_estimate_bytes e) (e_pid e) (e_create_time e) (e_state e) (e_state_reason e)
    (e_exit_code e) (e_exit_output e) (e_resident_bytes e) (e_load_seconds e) (e_chat_template e)
    (e_backend e) (e_stderr_path e) (e_last_health_at e) (e_started_at e) n (e_proc e).

(** [EngineStatus]: the view of an engine that leaves the manager. *)
Record EngineStatus := mkStatus {
  es_engine_id : option string;
  es_target : option InferenceTarget;
  es_slug : option string;
  es_backend : EngineBackend;
  es_port : Z;
  es_pid : option Z;
  es_process_create_time : option Z;
  es_state : EngineState;
  es_state_reason : option string;
  es_exit_code : option Z;
  es_exit_output : option string;
  es_estimate_bytes : Z;
  es_resident_bytes : option Z;
  es_resident_delta_bytes : option Z;
  es_chat_template : option string;
  es_rendering_identity : option string;
  es_load_seconds : option Z;
  es_last_health_at : option Z;
  es_started_at : Z;
  es_stopped_at : option Z;
}.
Definition status (e : _Engine) : EngineStatus :=
  mkStatus (e_engine_id e) (e_target e) (e_slug e) (e_backend e) (e_port e) (e_pid e)
    (e_create_time e) (e_state e) (e_state_reason e) (e_exit_code e) (e_exit_output e)
    (e_estimate_bytes e) (e_resident_bytes e)
    (match e_resident_bytes e with
     | Some r => if e_estimate_bytes e =? 0 then None else Some (r - e_estimate_bytes e)
     | None => None
     end)
    (e_chat_template e) (e_rendering_identity e) (e_load_seconds e) (e_last_health_at e)
    (e_started_at e) (e_stopped_at e).

(** [_Engine.record()]: one element of engines.json.  The state is not part of it. *)
Record JournalRecord := mkRecord {
  jr_engine_id : option string;
  jr_target : option InferenceTarget;
  jr_engine_version : option string;
  jr_slug : option string;
  jr_port : Z;
  jr_pid : option Z;
  jr_create_time : option Z;
  jr_estimate_bytes : Z;
  jr_backend : EngineBackend;
  jr_started_at : Z;
  jr_chat_template : option string;
  jr_rendering_identity : option string;
  jr_stderr_file : option string;
}.
#[global] Instance JournalRecord_eq : EqDecision JournalRecord.
Proof. solve_decision. Defined.
Definition record (e : _Engine) : JournalRecord :=
  mkRecord (e_engine_id e) (e_target e) (e_engine_version e) (e_slug e) (e_port e) (e_pid e)
    (e_create_time e) (e_estimate_bytes e) (e_backend e) (e_started_at e) (e_chat_template e)
    (e_rendering_identity e) (e_stderr_path e).

(** ** Processes *)

(** One row of the process table.  Each read of it may be denied; [pr_exit] is set on a
    zombie.  [pr_reserved] is what the manager reserved for a process it spawned; no code
    reads it. *)
Record Proc := mkProc {
  pr_born : Z;
  pr_argv : list string;
  pr_exit : option Z;
  pr_created_readable : bool;
  pr_argv_readable : bool;
  pr_status_readable : bool;
  pr_footprint : option Z;
  pr_rss : option Z;
  pr_reserved : option Z;
}.
Abbreviation Table := (gmap Z Proc).

Definition CREATE_TIME_TOLERANCE : Z := 1000000.

(** [_alive(pid, create_time, needle=...)] *)
Definition _alive (ps : Table) (pid create_time : option Z) (needle : option string) : bool :=
  match pid with
  | None => false
  | Some pid =>
      match ps !! pid with
      | None => false   (* NoSuchProcess *)
      | Some p =>
          match create_time with
          | None => true
          | Some t => pr_created_readable p && (Z.abs (pr_born p - t) <=? CREATE_TIME_TOLERANCE)
          end
          && match needle with
             | None => true
             | Some n => pr_argv_readable p && contains n (join " " (pr_argv p))
             end
          && pr_status_readable p && absent (pr_exit p)
      end
  end.

(** [Popen.poll()]: a child that is not ours any more has been collected (status 0). *)
Definition poll (ps : Table) (c : Popen) : option Z :=
  match ps !! po_pid c with
  | Some p => if pr_born p =? po_born c then pr_exit p else Some 0
  | None => Some 0
  end.

(** footprint.py's [resident_bytes]; [phys_footprint] is a reading of the kernel's. *)
Definition resident_bytes (ps : Table) (pid : Z) : option Z :=
  match ps !! pid with
  | None => None
  | Some p =>
      match pr_footprint p with
      | Some n => if 0 <? n then Some n else pr_rss p
      | None => pr_rss p
      end
  end.

(** ** Command lines *)

Definition DEFAULT_ENGINE_COMMAND (executable : string) : list string :=
  [executable; "-m"; "mlx_lm.server"]%string.
Definition VISION_ENGINE_COMMAND (executable : string) : list string :=
  [executable; "-m"; "mlx_vlm.server"]%string.

Definition build_engine_argv (command : list string) (model_path host : string) (port : Z)
    (chat_template adapter_path : option string) : result Exn (list string) :=
  let argv := command ++ ["--model"; model_path; "--host"; host; "--port"; pretty port;
                          "--log-level"; "INFO"]%string in
  argv ← match chat_template with
         | Some t =>
             if same t ""%string then Ok argv
             else raise_if (64 * 1024 <? Z.of_nat (String.length t)) (ValueError "template bound") ;;
                  Ok (argv ++ ["--chat-template"%string; t])
         | None => Ok argv
         end;
  Ok (match adapter_path with
      | Some p => argv ++ ["--adapter-path"%string; p]
      | None => argv
      end).

Definition build_vision_argv (executable model_path host : string)
    (port vision_cache_size max_num_seqs : Z) (max_kv_size : option Z) : list string :=
  VISION_ENGINE_COMMAND executable
    ++ ["--model"; model_path; "--host"; host; "--port"; pretty port;
        "--vision-cache-size"; pretty vision_cache_size; "--max-num-seqs"; pretty max_num_seqs;
        "--log-level"; "INFO"]%string
    ++ match max_kv_size with
       | Some n => ["--max-kv-size"%string; pretty n]
       | None => []
       end.

Definition build_engine_env (base : gmap string string) : gmap string string :=
  let env := <["TRANSFORMERS_OFFLINE" := "1"]> (<["HF_HUB_OFFLINE" := "1"]> base) in
  delete "MLX_TRUST_REMOTE_CODE"
    (foldr delete env ["HF_TOKEN"; "HF_API_TOKEN"; "HUGGING_FACE_HUB_TOKEN"])%string.

(** What a scan of command lines recovers. *)
Definition _port_from (cmdline : string) : Z :=
  default 0 (after "--port" (split cmdline) ≫= py_int).
Definition _slug_from (cmdline store_root : string) : option string :=
  model ← after "--model" (split cmdline);
  if String.prefix store_root model then Some (path_name model) else None.

(** ** Verified artifacts on the node's disk *)

Record ArtifactFile := mkArtifactFile { af_name : string; af_bytes : Z; af_sha256 : string }.
Record FileOnDisk := mkFile { fd_symlink : bool; fd_regular : bool; fd_size : Z; fd_sha256 : string }.
(** The directory of one adapter: a link on the way to it, its manifest's link and size, the
    manifest if it parses, and its files. *)
Record ArtifactView := mkArtifact {
  av_linked : bool;
  av_manifest_linked : bool;
  av_manifest_size : option Z;
  av_manifest : option (string * string * string * list ArtifactFile);
    (** kind, artifact id, canonical SHA-256, files *)
  av_files : gmap string FileOnDisk;
}.
Record Disk := mkDisk {
  dk_exists : string → bool;
  dk_manifest : string → option string;   (** the SHA-256 of a slug's manifest *)
  dk_artifact : string → ArtifactView;
}.

Definition adapter_file_ok (verify : bool) (files : gmap string FileOnDisk) (f : ArtifactFile) : bool :=
  match files !! af_name f with
  | None => false
  | Some d => negb (fd_symlink d) && fd_regular d && (fd_size d =? af_bytes f)
              && (negb verify || same (fd_sha256 d) (af_sha256 f))
  end.
Definition serving_files : gset string := {["adapters.safetensors"; "adapter_config.json"]}%string.

Definition artifact_ok (verify : bool) (a : ArtifactView) (adapter : string) (sha : option string) : bool :=
  negb (av_linked a) && negb (av_manifest_linked a)
  && match av_manifest_size a with Some n => n <=? 1024 * 1024 | None => false end
  && match av_manifest a with
     | None => false
     | Some (kind, id, digest, files) =>
         same kind "adapter"%string && same id adapter && same (Some digest) sha
         && bool_decide (list_to_set (af_name <$> files) = serving_files)
         && forallb (adapter_file_ok verify (av_files a)) files
     end.

(** ** The manager *)

Inductive Thread :=
| Await (key : string)                    (* [_await_ready] looks its engine up *)
| ProbeTop (r : nat) (started : Z)        (* about to test the deadline *)
| ProbePoll (r : nat) (started : Z)       (* found starting under the lock *)
| ProbeDied (r : nat) (code : Z)          (* [_mark_start_failure] *)
| ProbeGone (r : nat)                     (* an adopted process is gone *)
| ProbeAnswered (r : nat) (started : Z)   (* the generation answered 200 *)
| ProbeExpired (r : nat)                  (* the deadline passed *)
| TermBegin (r : nat)                     (* [_terminate] *)
| TermSignal (r : nat) (signal : Z)
| TermWait (r : nat) (signal until : Z)
| TermCheck (r : nat)                     (* before SIGKILL *)
| TermLast (r : nat)                      (* the last look *)
| TermDone (r : nat)                      (* proven dead *)
| Finished.
#[global] Instance Thread_eq : EqDecision Thread.
Proof. solve_decision. Defined.

Record Manager := mkManager {
  objects : gmap nat _Engine;
  next_ref : nat;
  engines : list (string * nat);          (** the dictionary [_engines], in insertion order *)
  journal : option (list JournalRecord);  (** engines.json *)
  stderr_files : gset string;
  processes : Table;
  signals : list (Z * Z);                 (** process groups signalled, newest first *)
  stop_set : bool;
}.

(** [d[key]], [d[key] = v] *)
Definition dict_get {A} (k : string) (d : list (string * A)) : option A :=
  snd <$> List.find (λ kv, same kv.1 k) d.
Fixpoint dict_set {A} (k : string) (v : A) (d : list (string * A)) : list (string * A) :=
  match d with
  | [] => [(k, v)]
  | (k', v') :: d => if same k' k then (k, v) :: d else (k', v') :: dict_set k v d
  end.

Definition set_objects (f : gmap nat _Engine → gmap nat _Engine) (m : Manager) : Manager :=
  mkManager (f (objects m)) (next_ref m) (engines m) (journal m) (stderr_files m) (processes m)
    (signals m) (stop_set m).
Definition set_journal (j : option (list JournalRecord)) (m : Manager) : Manager :=
  mkManager (objects m) (next_ref m) (engines m) j (stderr_files m) (processes m)
    (signals m) (stop_set m).
Definition set_files (f : gset string → gset string) (m : Manager) : Manager :=
  mkManager (objects m) (next_ref m) (engines m) (journal m) (f (stderr_files m)) (processes m)
    (signals m) (stop_set m).
Definition set_processes (f : Table → Table) (m : Manager) : Manager :=
  mkManager (objects m) (next_ref m) (engines m) (journal m) (stderr_files m) (f (processes m))
    (signals m) (stop_set m).
Definition add_signal (x : Z * Z) (m : Manager) : Manager :=
  mkManager (objects m) (next_ref m) (engines m) (journal m) (stderr_files m) (processes m)
    (x :: signals m) (stop_set m).
Definition set_stop (b : bool) (m : Manager) : Manager :=
  mkManager (objects m) (next_ref m) (engines m) (journal m) (stderr_files m) (processes m)
    (signals m) b.
(** A new object, under a key of the dictionary. *)
Definition add_engine (k : string) (e : _Engine) (m : Manager) : Manager :=
  mkManager (<[next_ref m := e]> (objects m)) (S (next_ref m)) (dict_set k (next_ref m) (engines m))
    (journal m) (stderr_files m) (processes m) (signals m) (stop_set m).

(** [self._engines.values()] *)
Definition values (m : Manager) : list _Engine := omap (λ kr, objects m !! kr.2) (engines m).

Definition live (e : _Engine) : bool := is_in (e_state e) LIVE_ENGINE_STATES.
Definition counted (e : _Engine) : bool := live e || same (e_state e) EOrphan.
(** [estimate_bytes or (resident_bytes or 0)] *)
Definition charge (e : _Engine) : Z :=
  if e_estimate_bytes e =? 0 then default 0 (e_resident_bytes e) else e_estimate_bytes e.
Definition committed_bytes (m : Manager) : Z :=
  sum_Z (charge <$> List.filter counted (values m)).

(** [{e.pid for e in self._engines.values() if e.pid}] *)
Definition known_pids (m : Manager) : list Z := filter (λ p, p ≠ 0) (omap e_pid (values m)).

(** ** Settings and requests *)

Record Settings := mkSettings {
  cf_budget_bytes : Z;        (** [int(memory_total * node_memory_budget_fraction)] *)
  cf_port_low : Z;
  cf_port_high : Z;
  cf_start_timeout : Z;
  cf_strict_persistence : bool;
  cf_address : string;
  cf_executable : string;
  cf_engine_command : option (list string);   (** COIRE_ENGINE_COMMAND, split *)
  cf_store_root : string;
  cf_state_dir : string;
}.
Definition engine_command (cf : Settings) : list string :=
  default (DEFAULT_ENGINE_COMMAND (cf_executable cf)) (cf_engine_command cf).
(** [Store.path_for]; the root is a resolved path, and a store directory is no link. *)
Definition path_for (cf : Settings) (slug : string) : result Exn string :=
  raise_if (negb (is_valid_slug slug)) StoreError ;;
  Ok (cf_store_root cf +:+ "/" +:+ slug)%string.

Record EngineStartRequest := mkStart {
  rq_engine_id : string;
  rq_slug : string;
  rq_target : option InferenceTarget;
  rq_backend : EngineBackend;
  rq_estimate_bytes : Z;
  rq_vision_cache_size : option Z;
  rq_max_num_seqs : option Z;
  rq_max_kv_size : option Z;
  rq_chat_template : option string;
}.
Definition backend_options_match (q : EngineStartRequest) : bool :=
  let vision := [rq_vision_cache_size q; rq_max_num_seqs q; rq_max_kv_size q] in
  (1 <=? rq_estimate_bytes q)
  && negb (same (rq_backend q) AUXILIARY) && negb (same (rq_backend q) MFLUX)
  && negb (same (rq_backend q) MLX_LM && existsb present vision)
  && negb (same (rq_backend q) MLX_VLM && present (rq_chat_template q)).

(** What the preflight outside the lock reads: the rendering identity it computes, and for a
    visual copy whether it is incomplete and whether it differs from its manifest. *)
Record Inspection := mkInspection {
  ins_rendering : result Exn string;
  ins_incomplete : bool;
  ins_differs : bool;
}.

(** What a call under the lock meets outside the manager. *)
Record Env := mkEnv {
  ev_now : Z;
  ev_written : bool;                    (** engines.json could be written *)
  ev_disk : Disk;
  ev_admission : result Exn unit;       (** [admission_check] *)
  ev_additional : Z;                    (** [additional_committed_bytes()] *)
  ev_free : Z → bool;                   (** the probe could bind the port *)
  ev_stderr : option string;            (** the new stderr file *)
  ev_spawn : option (Z * Proc);         (** the spawned process, before its argv *)
  ev_created_readable : bool;
  ev_version : option string;           (** the installed package's version *)
  ev_template_sha256 : string → string;
}.

Section manager.
Context (cf : Settings).
Abbreviation M := (M Manager Exn).

Definition find_ref (k : string) (m : Manager) : option nat := dict_get k (engines m).
Definition find_engine (k : string) (m : Manager) : option _Engine :=
  find_ref k m ≫= λ r, objects m !! r.
Definition update (r : nat) (f : _Engine → _Engine) : M unit := modify (set_objects (alter f r)).

Definition records (m : Manager) : list JournalRecord := record <$> List.filter counted (values m).
Definition _persist (written : bool) : M unit :=
  m ← get;
  if written then put (set_journal (Some (records m)) m)
  else if cf_strict_persistence cf then throw OSError
  else mret tt.

(** [_sample]; the CPU figures are left out. *)
Definition sampled (ps : Table) (e : _Engine) : _Engine :=
  match e_pid e with
  | None => e
  | Some pid => with_resident (resident_bytes ps pid) e
  end.
Definition _sample (r : nat) : M unit :=
  m ← get;
  update r (sampled (processes m)).

Definition budget_bytes : Z := cf_budget_bytes cf.

(** ** Starting *)

(** The part of [start] before the lock: the digest of the manifest it verified, and the
    rendering identity. *)
Definition preflight (q : EngineStartRequest) (d : Disk) (i : Inspection)
    : result Exn (option string * option string) :=
  match rq_backend q with
  | MLX_LM =>
      path_for cf (rq_slug q) ;;
      match dk_manifest d (rq_slug q) with
      | None => Ok (None, None)
      | Some sha =>
          rendering ← match cf_engine_command cf with
                      | Some _ => Ok None
                      | None => Some <$> ins_rendering i
                      end;
          Ok (Some sha, rendering)
      end
  | MLX_VLM =>
      path_for cf (rq_slug q) ;;
      raise_if (negb (dk_exists d (rq_slug q)) || absent (dk_manifest d (rq_slug q)))
               (CopyMissing "no verified copy") ;;
      raise_if (ins_incomplete i) (CopyMissing "incomplete or linked") ;;
      raise_if (ins_differs i) (CopyMissing "differs from its manifest") ;;
      Ok (dk_manifest d (rq_slug q), None)
  | _ => Ok (None, None)
  end.

Definition adapter_path (verify : bool) (d : Disk) (t : InferenceTarget) (slug : string)
    : result Exn (option string) :=
  path_for cf slug ;;
  raise_if (negb (same (dk_manifest d slug) (Some (tg_base_manifest t))))
           (CopyMissing "exact base manifest differs") ;;
  match tg_adapter_id t with
  | None => Ok None
  | Some a =>
      raise_if (negb (artifact_ok verify (dk_artifact d a) a (tg_adapter_manifest t)))
               (CopyMissing "exact adapter artifact differs") ;;
      Ok (Some (cf_state_dir cf +:+ "/training/artifacts/" +:+ a)%string)
  end.

Definition serves (slug : string) (target : option InferenceTarget) (engine_id : option string)
    (e : _Engine) : bool :=
  same (e_slug e) (Some slug) && same (e_target e) target
  && match engine_id with None => true | Some i => same (e_engine_id e) (Some i) end
  && is_in (e_state e) [EStarting; EReady].
Definition _serving (slug : string) (target : option InferenceTarget) (engine_id : option string)
    (m : Manager) : option _Engine :=
  List.find (serves slug target engine_id) (values m).

Definition taken (m : Manager) : list Z := e_port <$> List.filter live (values m).
Definition _allocate_port (free : Z → bool) (m : Manager) : option Z :=
  List.find (λ p, negb (is_in p (taken m)) && free p)
            (seqZ (cf_port_low cf) (cf_port_high cf - cf_port_low cf + 1)).

(** [vision_cache_size or 1] *)
Definition or_one (n : option Z) : Z :=
  match n with Some n => if n =? 0 then 1 else n | None => 1 end.
Definition engine_argv (q : EngineStartRequest) (model_path : string) (port : Z)
    (adapter : option string) : result Exn (list string) :=
  match rq_backend q with
  | MLX_VLM =>
      Ok (build_vision_argv (cf_executable cf) model_path (cf_address cf) port
            (or_one (rq_vision_cache_size q)) (or_one (rq_max_num_seqs q)) (rq_max_kv_size q))
  | _ => build_engine_argv (engine_command cf) model_path (cf_address cf) port
           (rq_chat_template q) adapter
  end.
Definition spawn_version (q : EngineStartRequest) (v : option string) : option string :=
  match rq_backend q with
  | MLX_VLM => v
  | MLX_LM => if same (engine_command cf) (DEFAULT_ENGINE_COMMAND (cf_executable cf)) then v else None
  | _ => None
  end.
(** [Popen(argv, stderr=..., start_new_session=True)]: the stderr file is removed again when
    it fails. *)
Definition spawn (q : EngineStartRequest) (argv : list string) (ev : Env) : M (Z * Proc) :=
  file ← some_or OSError (ev_stderr ev);
  match ev_spawn ev with
  | None => throw OSError
  | Some (pid, p) =>
      let p := mkProc (pr_born p) argv None (pr_created_readable p) (pr_argv_readable p)
                 (pr_status_readable p) (pr_footprint p) (pr_rss p) (Some (rq_estimate_bytes q)) in
      modify (set_files (union {[file]})) ;;
      modify (set_processes (insert pid p)) ;;
      mret (pid, p)
  end.
Definition template_digest (q : EngineStartRequest) (ev : Env) : option string :=
  match rq_chat_template q with
  | Some t => if same t ""%string then None else Some (ev_template_sha256 ev t)
  | None => None
  end.

Definition new_engine (q : EngineStartRequest) (ev : Env) (rendering : option string) (port pid : Z)
    (p : Proc) : _Engine :=
  mkEngine (Some (rq_engine_id q)) (rq_target q) (spawn_version q (ev_version ev)) rendering
    (Some (rq_slug q)) port (rq_estimate_bytes q) (Some pid)
    (if ev_created_readable ev then Some (pr_born p) else None)
    EStarting None None None None None (template_digest q ev) (rq_backend q) (ev_stderr ev) None
    (ev_now ev) None (Some (mkPopen pid (pr_born p))).

(** The part of [start] under the lock: whether an engine already serves, the status, and
    the thread that awaits readiness. *)
Definition start_locked (q : EngineStartRequest) (verified rendering : option string) (ev : Env)
    : M (bool * EngineStatus * option Thread) :=
  let d := ev_disk ev in
  let slug := rq_slug q in
  lift (ev_admission ev) ;;
  m ← get;
  throw_if (match find_engine (rq_engine_id q) m with
            | Some e => negb (same (e_slug e) (Some slug)) || negb (same (e_target e) (rq_target q))
            | None => false
            end) (BackendMismatch "engine identity binds another target") ;;
  match _serving slug (rq_target q) (if present (rq_target q) then Some (rq_engine_id q) else None) m with
  | Some e =>
      throw_if (negb (same (e_backend e) (rq_backend q))) (BackendMismatch "another backend") ;;
      mret (true, status e, None)
  | None =>
      model_path ← lift (path_for cf slug);
      throw_if (negb (dk_exists d slug) || absent (dk_manifest d slug)) (CopyMissing "no verified copy") ;;
      throw_if (present verified && negb (same (dk_manifest d slug) verified))
               (CopyMissing "changed during verification") ;;
      adapter ← lift (match rq_target q with
                      | Some t => adapter_path true d t slug
                      | None => Ok None
                      end);
      throw_if (present adapter && negb (same (rq_backend q) MLX_LM))
               (BackendMismatch "adapter serving requires the text backend") ;;
      let committed := committed_bytes m + ev_additional ev in
      throw_if (budget_bytes <? committed + rq_estimate_bytes q)
               (BudgetExceeded (mkRefused (rq_estimate_bytes q) committed budget_bytes)) ;;
      port ← some_or NoFreePort (_allocate_port (ev_free ev) m);
      argv ← lift (engine_argv q model_path port adapter);
      child ← spawn q argv ev;
      let e := new_engine q ev rendering port child.1 child.2 in
      m ← get;
      let e := sampled (processes m) e in
      modify (add_engine (rq_engine_id q) e) ;;
      _persist (ev_written ev) ;;
      mret (false, status e, Some (Await (rq_engine_id q)))
  end.

(** [start]: the disk may change between the preflight and the lock. *)
Definition start (q : EngineStartRequest) (before : Disk) (i : Inspection) (ev : Env)
    : M (bool * EngineStatus * option Thread) :=
  '(verified, rendering) ← lift (preflight q before i);
  start_locked q verified rendering ev.

(** ** Background threads *)

(** What one iteration of a probe hears: no listener, no adapter any more (only looked for
    when the target has one), no answer, or a response. *)
Inductive Reply := NoListener | NoAdapter | NoAnswer | Response (status_code : Z).

Record Input := mkInput {
  in_now : Z;
  in_written : bool;
  in_reply : Reply;
  in_stderr : string;   (** what [_read_stderr] returns *)
}.

Definition obj (r : nat) : M (option _Engine) := m ← get; mret (objects m !! r).
Definition _still_starting (e : _Engine) : bool := same (e_state e) EStarting.
Definition is_alive (m : Manager) (e : _Engine) : bool :=
  _alive (processes m) (e_pid e) (e_create_time e) None.
Definition unlink_stderr (e : _Engine) : M unit :=
  match e_stderr_path e with
  | Some f => modify (set_files (λ fs, fs ∖ {[f]}))
  | None => mret tt
  end.

Definition has_adapter (e : _Engine) : bool := present (e_target e ≫= tg_adapter_id).

(** [_mark_start_failure] *)
Definition _mark_start_failure (r : nat) (code : Z) (i : Input) : M unit :=
  e ← obj r;
  match e with
  | None => mret tt
  | Some e =>
      update r (with_stopped_at (Some (in_now i))
                ∘ with_exit (Some code) (if same (in_stderr i) ""%string then None else Some (in_stderr i))
                ∘ with_reason "exited during startup" ∘ with_state EFailed) ;;
      _persist (in_written i) ;;
      unlink_stderr e
  end.

(** [_probe_until_ready], from one lock or blocking call to the next. *)
Definition STOP_GRACE : Z := 10000000.
Definition KILL_GRACE : Z := 2000000.

Definition probe_poll (m : Manager) (r : nat) (started : Z) (e : _Engine) (i : Input) : Thread :=
  let asked :=
    if stop_set m then Finished
    else match in_reply i with
         | NoListener | NoAnswer => ProbeTop r started
         | NoAdapter => if has_adapter e then Finished else ProbeTop r started
         | Response code => if code =? 200 then ProbeAnswered r started else ProbeTop r started
         end in
  match e_proc e with
  | Some c => match poll (processes m) c with Some code => ProbeDied r code | None => asked end
  | None => if present (e_pid e) && negb (is_alive m e) then ProbeGone r else asked
  end.

(** [_terminate], with [STOP_GRACE] after SIGTERM and [KILL_GRACE] after SIGKILL. *)
Definition grace (signal : Z) : Z := if signal =? 15 then STOP_GRACE else KILL_GRACE.
Definition terminated (r : nat) (e : _Engine) (i : Input) : M unit :=
  unlink_stderr e ;;
  update r (with_resident None ∘ with_stopped_at (Some (in_now i)) ∘ with_state EStopped) ;;
  _persist (in_written i).

Definition term_step (t : Thread) (i : Input) : M Thread :=
  let on (r : nat) (k : Manager → _Engine → M Thread) : M Thread :=
    m ← get;
    match objects m !! r with Some e => k m e | None => mret Finished end in
  match t with
  | TermBegin r => on r (λ m e, mret (if is_alive m e then TermSignal r 15 else TermDone r))
  | TermSignal r signal => on r (λ m e,
      match e_pid e with
      | Some pid => modify (add_signal (pid, signal))
      | None => mret tt
      end ;;
      mret (TermWait r signal (in_now i + grace signal)))
  | TermWait r signal until => on r (λ m e,
      if (in_now i <? until) && is_alive m e then mret t
      else mret (if signal =? 15 then TermCheck r else TermLast r))
  | TermCheck r => on r (λ m e, mret (if is_alive m e then TermSignal r 9 else TermLast r))
  | TermLast r => on r (λ m e, mret (if is_alive m e then Finished else TermDone r))
  | TermDone r => on r (λ m e, terminated r e i ;; mret Finished)
  | _ => mret Finished
  end.

(** [_await_ready] and [_probe_until_ready], and the termination they may end in. *)
Definition thread_step (t : Thread) (i : Input) : M Thread :=
  let on (r : nat) (k : Manager → _Engine → M Thread) : M Thread :=
    m ← get;
    match objects m !! r with Some e => k m e | None => mret Finished end in
  match t with
  | Await key =>
      m ← get;
      mret (match find_ref key m with Some r => ProbeTop r (in_now i) | None => Finished end)
  | ProbeTop r started => on r (λ m e,
      if started + cf_start_timeout cf <=? in_now i then mret (ProbeExpired r)
      else mret (if _still_starting e then ProbePoll r started else Finished))
  | ProbePoll r started => on r (λ m e, mret (probe_poll m r started e i))
  | ProbeDied r code => on r (λ m e, _mark_start_failure r code i ;; mret Finished)
  | ProbeGone r => on r (λ m e,
      update r (with_resident None ∘ with_stopped_at (Some (in_now i))
                ∘ with_reason "the re-adopted engine process exited" ∘ with_state EFailed) ;;
      _persist (in_written i) ;;
      mret Finished)
  | ProbeAnswered r started => on r (λ m e,
      if _still_starting e then
        update r (with_health (Some (in_now i)) ∘ with_load (Some (in_now i - started)) ∘ with_state EReady) ;;
        _sample r ;;
        _persist (in_written i) ;;
        mret Finished
      else mret Finished)
  | ProbeExpired r => on r (λ m e,
      if _still_starting e then
        update r (with_stopped_at (Some (in_now i)) ∘ with_reason "did not answer a generation request"
                  ∘ with_state EFailed) ;;
        _persist (in_written i) ;;
        mret (TermBegin r)
      else mret Finished)
  | _ => term_step t i
  end.

(** ** Stopping *)

Definition stop (engine_id : string) (written : bool) : M (option (EngineStatus * Thread)) :=
  m ← get;
  match find_ref engine_id m with
  | None => mret None
  | Some r =>
      update r (with_state EStopping) ;;
      _persist written ;;
      e ← obj r;
      mret ((λ e, (status e, TermBegin r)) <$> e)
  end.

(** ** Observation *)

(** One engine of a health pass. *)
Definition check_engine (now : Z) (r : nat) : M unit :=
  m ← get;
  match objects m !! r with
  | None => mret tt
  | Some e =>
      if negb (is_in (e_state e) [EReady; EStarting; EOrphan]) then mret tt
      else if negb (is_alive m e) then
        if same (e_state e) EStarting then mret tt
        else update r (with_resident None ∘ with_stopped_at (Some now)
                       ∘ with_reason "the engine process exited" ∘ with_state EFailed)
      else
        _sample r ;;
        update r (with_health (Some now))
  end.
Definition check_once (now : Z) (written : bool) : M unit :=
  m ← get;
  for_each (check_engine now) (snd <$> engines m) ;;
  _persist written.

Definition statuses (m : Manager) : list EngineStatus := status <$> values m.
Definition get_engine (engine_id : string) (m : Manager) : option EngineStatus :=
  status <$> find_engine engine_id m.

Definition attested_engine_version (engine_id : string) (target : InferenceTarget)
    (template : option string) (backend : option EngineBackend) (sha256 : string → string)
    (m : Manager) : option string :=
  e ← find_engine engine_id m;
  let wanted := match template with
                | Some t => if same t ""%string then None else Some (sha256 t)
                | None => None
                end in
  if negb (same (e_state e) EReady) || negb (same (e_target e) (Some target))
     || match backend with Some b => negb (same (e_backend e) b) | None => false end
     || negb (same (e_chat_template e) wanted)
     || negb (is_alive m e)
  then None else e_engine_version e.

(** ** Adoption *)

Definition hex_char (c : ascii) : bool :=
  let n := nat_of_ascii c in ((48 <=? n) && (n <=? 57) || (97 <=? n) && (n <=? 102))%nat.
(** The name a journal may give to a stderr file: 32 hexadecimal digits and [.log]. *)
Definition stderr_name (f : string) : bool :=
  (String.length f =? 36)%nat && same (drop 32 (chars f)) (chars ".log")
  && forallb hex_char (take 32 (chars f)).

Definition adopted_engine (j : JournalRecord) : _Engine :=
  mkEngine (jr_engine_id j) (jr_target j) (jr_engine_version j) (jr_rendering_identity j) (jr_slug j)
    (jr_port j) (jr_estimate_bytes j) (jr_pid j) (jr_create_time j) EStarting
    (Some "rechecking generation after an agent restart"%string) None None None None
    (jr_chat_template j) (jr_backend j)
    (match jr_stderr_file j with Some f => if stderr_name f then Some f else None | None => None end)
    None (jr_started_at j) None None.

(** The command line of the recorded process names the store path and the adapter. *)
Definition argv_matches (argv : list string) (needle adapter : option string) : bool :=
  match needle with
  | Some n => same (after "--model" argv) (Some n)
  | None => true
  end
  && match adapter with
     | Some a => same (after "--adapter-path" argv) (Some a)
     | None => negb (is_in "--adapter-path"%string argv)
     end.

Definition named (j : JournalRecord) : option string :=
  match jr_slug j with
  | Some slug => if same slug ""%string then None else Some slug
  | None => None
  end.
(** The adapter directory of a record, its files verified again. *)
Definition recorded_adapter (d : Disk) (j : JournalRecord) : result Exn (option string) :=
  match jr_target j with
  | None => Ok None
  | Some t =>
      raise_if (negb (exact_artifacts t)) (ValueError "target") ;;
      match named j with
      | Some slug => adapter_path true d t slug
      | None => Ok None
      end
  end.
(** Whether one record of the journal is adopted; a slug that is no slug raises. *)
Definition adoptable (ps : Table) (d : Disk) (j : JournalRecord) : result Exn bool :=
  match recorded_adapter d j with
  | Err (ValueError _) | Err (CopyMissing _) => Ok false
  | Err e => Err e
  | Ok adapter =>
      needle ← match named j with
               | Some slug => Some <$> path_for cf slug
               | None => Ok None
               end;
      Ok (_alive ps (jr_pid j) (jr_create_time j) needle
          && match jr_pid j ≫= λ pid, ps !! pid with
             | Some p => pr_argv_readable p && argv_matches (pr_argv p) needle adapter
             | None => false
             end)
  end.

Definition adoption_key (e : _Engine) : string :=
  match e_engine_id e with
  | Some i => i
  | None => "orphan-" +:+ pretty (e_port e)
  end.

Fixpoint adopt_records (d : Disk) (now : Z) (js : list JournalRecord) : M (list Thread) :=
  match js with
  | [] => mret []
  | j :: js =>
      m ← get;
      ok ← lift (adoptable (processes m) d j);
      if negb ok then adopt_records d now js
      else
        let e := sampled (processes m) (adopted_engine j) in
        modify (add_engine (adoption_key e) e) ;;
        threads ← adopt_records d now js;
        mret (ProbeTop (next_ref m) now :: threads)
  end.
(** [adopt_from_state]: the probes of the engines it adopted.  [journal m = None] stands for a
    missing or an unreadable file: in both cases the code returns without adopting or writing. *)
Definition adopt_from_state (d : Disk) (now : Z) (written : bool) : M (list Thread) :=
  m ← get;
  match journal m with
  | None => mret []
  | Some js =>
      threads ← adopt_records d now js;
      _persist written ;;
      mret threads
  end.

(** The agent dies: only the journal, the files and the processes are left.  References of
    the old agent are not used again. *)
Definition restarted (m : Manager) : Manager :=
  mkManager ∅ (next_ref m) [] (journal m) (stderr_files m) (processes m) (signals m) false.

(** [adopt_owned_smoke]: rehydrate the one engine of a strict journal, for its termination
    only; [verified] is what the caller's proof of the process returns or raises. *)
Definition smoke_engine (j : JournalRecord) : _Engine :=
  mkEngine (jr_engine_id j) None (jr_engine_version j) None (jr_slug j) (jr_port j) (jr_estimate_bytes j)
    (jr_pid j) (jr_create_time j) EStarting None None None None None None MLX_LM (jr_stderr_file j) None
    (jr_started_at j) None None.
Definition adopt_owned_smoke (j : JournalRecord) (verified : result Exn bool) : M EngineStatus :=
  m ← get;
  throw_if (negb (cf_strict_persistence cf) || nonempty (engines m)) (Refused "exclusive strict owner") ;;
  throw_if (negb (same (journal m) (Some [j]))) (Refused "journal changed") ;;
  lift verified ;;
  let e := smoke_engine j in
  modify (add_engine (default ""%string (jr_engine_id j)) e) ;;
  mret (status e).

(** ** Orphans and reconciliation *)

Definition ENGINE_MARKERS : list string := ["mlx_lm.server"; "mlx_vlm.server"; "fake_engine"]%string.

Definition orphan_engine (id cmdline : string) (pid : Z) (created : option Z) (now : Z) : _Engine :=
  mkEngine (Some id) None None None (_slug_from cmdline (cf_store_root cf)) (_port_from cmdline) 0
    (Some pid) created EOrphan (Some "running but not owned by this agent"%string) None None None None
    None (if contains "mlx_vlm.server" cmdline then MLX_VLM else MLX_LM) None None now None None.

(** One process of [find_orphans]: [known] was read before the scan began, and [id] is the
    identity given to it. *)
Definition consider (known : list Z) (now : Z) (candidate : Z * string) : M (option EngineStatus) :=
  let '(pid, id) := candidate in
  m ← get;
  if is_in pid known then mret None
  else match processes m !! pid with
       | None => mret None
       | Some p =>
           let cmdline := join " " (pr_argv p) in
           if negb (pr_argv_readable p) || negb (existsb (λ k, contains k cmdline) ENGINE_MARKERS)
              || negb (contains (cf_store_root cf) cmdline)
           then mret None
           else
             let created := if pr_created_readable p then Some (pr_born p) else None in
             let e := sampled (processes m) (orphan_engine id cmdline pid created now) in
             if existsb (λ x, same (e_pid x) (Some pid)) (values m)
                || negb (_alive (processes m) (Some pid) created (Some (cf_store_root cf)))
             then mret None
             else
               modify (λ m, if present (find_ref id m) then m else add_engine id e m) ;;
               mret (Some (status e))
       end.
Fixpoint consider_all (known : list Z) (now : Z) (candidates : list (Z * string))
    : M (list EngineStatus) :=
  match candidates with
  | [] => mret []
  | c :: candidates =>
      found ← consider known now c;
      rest ← consider_all known now candidates;
      mret (match found with Some s => s :: rest | None => rest end)
  end.
Definition find_orphans (now : Z) (candidates : list (Z * string)) : M (list EngineStatus) :=
  m ← get;
  consider_all (known_pids m) now candidates.

Record ReconcileExpectation := mkExpectation {
  re_engine_id : string;
  re_slug : string;
  re_backend : EngineBackend;
  re_port : Z;
  re_target : option InferenceTarget;
}.
Record ReconcileResult := mkReconciled {
  rr_adopted : list EngineStatus;
  rr_dead : list string;
  rr_orphans : list EngineStatus;
}.

Definition expects (x : ReconcileExpectation) (e : _Engine) : bool :=
  same (e_target e) (re_target x) && same (e_slug e) (Some (re_slug x)) && same (e_backend e) (re_backend x).

Inductive Judged := Adopted (s : EngineStatus) | Dead (id : string) | Differs.

(** One expectation. *)
Definition judge (now : Z) (x : ReconcileExpectation) : M Judged :=
  m ← get;
  match find_ref (re_engine_id x) m ≫= λ r, pair r <$> objects m !! r with
  | None => mret (Dead (re_engine_id x))
  | Some (r, e) =>
      if is_alive m e && negb (expects x e) then
        update r (with_reason "registry expectation differs from the owned exact target"
                  ∘ with_state EOrphan) ;;
        mret Differs
      else if expects x e && is_alive m e then mret (Adopted (status e))
      else if is_in (e_state e) [EStopped; EFailed] then mret (Dead (re_engine_id x))
      else
        update r (with_stopped_at (Some now) ∘ with_reason "process gone during agent restart"
                  ∘ with_state EFailed) ;;
        mret (Dead (re_engine_id x))
  end.
Fixpoint judge_all (now : Z) (expected : list ReconcileExpectation)
    : M (list EngineStatus * list string) :=
  match expected with
  | [] => mret ([], [])
  | x :: expected =>
      j ← judge now x;
      rest ← judge_all now expected;
      mret (match j with
            | Adopted s => (s :: rest.1, rest.2)
            | Dead id => (rest.1, id :: rest.2)
            | Differs => rest
            end)
  end.
Definition unexpected (expected : list ReconcileExpectation) (e : _Engine) : bool :=
  same (e_state e) EOrphan
  || match e_engine_id e with
     | Some i => negb (is_in i (re_engine_id <$> expected)) && live e
     | None => false
     end.
(** The part of [reconcile] under the lock, after the scan for orphans. *)
Definition reconcile_locked (expected : list ReconcileExpectation) (discovered : list EngineStatus)
    (now : Z) (written : bool) : M ReconcileResult :=
  judged ← judge_all now expected;
  m ← get;
  let orphans := status <$> List.filter (unexpected expected) (values m) in
  let orphans := orphans ++ List.filter (λ o, negb (is_in (es_pid o) (es_pid <$> orphans))) discovered in
  _persist written ;;
  mret (mkReconciled judged.1 judged.2 orphans).
Definition reconcile (expected : list ReconcileExpectation) (candidates : list (Z * string)) (now : Z)
    (written : bool) : M ReconcileResult :=
  discovered ← find_orphans now candidates;
  reconcile_locked expected discovered now written.

Definition shutdown (written : bool) : M unit :=
  modify (set_stop true) ;;
  _persist written.
Definition start_health_loop : M unit := modify (set_stop false).

(** ** Upgrade inventory *)

Inductive EntryKind := KEngine | KNativeProcess | KUnreconciled | KSmoke.
#[global] Instance EntryKind_eq : EqDecision EntryKind.
Proof. solve_decision. Defined.
Record InventoryEntry := mkEntry {
  ie_kind : EntryKind;
  ie_unknown : bool;
  ie_pid : option Z;
  ie_created : option Z;
}.

Definition engine_entries (m : Manager) : list InventoryEntry :=
  (λ e, mkEntry KEngine (same (e_state e) EOrphan) (e_pid e) (e_create_time e))
    <$> List.filter counted (values m).
(** A record whose process the manager does not own has not been reconciled. *)
Definition unreconciled (m : Manager) (js : list JournalRecord) : list InventoryEntry :=
  (λ _, mkEntry KUnreconciled true None None)
    <$> List.filter (λ j, match jr_pid j with
                          | None => true
                          | Some p => (p =? 0) || negb (is_in p (known_pids m))
                          end) js.
(** [native]: the engine processes found by the inventory's own scan, and the entries of
    the smoke journals. *)
Definition upgrade_inventory (native smoke : list InventoryEntry) (m : Manager)
    : result Exn (list InventoryEntry) :=
  js ← match journal m with
       | Some js => Ok js
       | None => raise_if (existsb live (values m)) (Refused "live engine journal is absent") ;; Ok []
       end;
  Ok (native ++ smoke ++ engine_entries m ++ unreconciled m js).

Definition verify_no_unowned_native_processes (native : list InventoryEntry) (m : Manager)
    : result Exn unit :=
  let known := (λ e, (e_pid e, e_create_time e))
                 <$> List.filter (λ e, present (e_engine_id e) && live e) (values m) in
  raise_if (existsb (λ n, negb (is_in (ie_pid n, ie_created n) known)) native)
           (Refused "an unowned process").

(** The engines that may be stopped for maintenance: all of them ready, nothing unknown. *)
Definition _idle_resident_identities (native smoke : list InventoryEntry) (m : Manager)
    : result Exn (option (list string)) :=
  inventory ← upgrade_inventory native smoke m;
  let residents := List.filter live (values m) in
  let known := (λ e, (e_pid e, e_create_time e)) <$> List.filter (λ e, present (e_pid e)) residents in
  Ok (if existsb (λ e, negb (same (e_state e) EReady)) residents then None
      else if existsb (λ x, ie_unknown x || negb (is_in (ie_kind x) [KEngine; KNativeProcess])
                            || negb (is_in (ie_pid x, ie_created x) known)) inventory
      then None
      else Some (omap e_engine_id residents)).
End manager.

(** ** The system: the manager, its threads and the operating system *)

Record System := mkSystem { mgr : Manager; pool : list Thread }.

Inductive OsEvent :=
| Exits (pid code : Z)                     (* a process ends and stays a zombie *)
| Collected (pid : Z)                      (* a zombie leaves the table *)
| Appears (pid : Z) (p : Proc)             (* some other process starts *)
| Measures (pid : Z) (footprint rss : option Z).

Definition exited (code : Z) (p : Proc) : Proc :=
  mkProc (pr_born p) (pr_argv p) (Some (default code (pr_exit p))) (pr_created_readable p)
    (pr_argv_readable p) (pr_status_readable p) (pr_footprint p) (pr_rss p) (pr_reserved p).
Definition measured (footprint rss : option Z) (p : Proc) : Proc :=
  mkProc (pr_born p) (pr_argv p) (pr_exit p) (pr_created_readable p) (pr_argv_readable p)
    (pr_status_readable p) footprint rss (pr_reserved p).
Definition os_event (o : OsEvent) (ps : Table) : Table :=
  match o with
  | Exits pid code => alter (exited code) pid ps
  | Collected pid =>
      match ps !! pid with
      | Some p => if present (pr_exit p) then delete pid ps else ps
      | None => ps
      end
  | Appears pid p =>
      match ps !! pid with
      | Some _ => ps
      | None => <[pid := mkProc (pr_born p) (pr_argv p) None (pr_created_readable p)
                           (pr_argv_readable p) (pr_status_readable p) (pr_footprint p) (pr_rss p) None]> ps
      end
  | Measures pid fp rss => alter (measured fp rss) pid ps
  end.

Inductive Label :=
| LStart (q : EngineStartRequest) (before : Disk) (i : Inspection) (ev : Env)
| LStop (engine_id : string) (written : bool)
| LThread (n : nat) (i : Input)
| LCheck (now : Z) (written : bool)
| LConsider (known : list Z) (now : Z) (candidate : Z * string)
| LReconcile (expected : list ReconcileExpectation) (discovered : list EngineStatus) (now : Z) (written : bool)
| LShutdown (written : bool)
| LHealthLoop
| LRestart (d : Disk) (now : Z) (written : bool)
| LOs (o : OsEvent).

Section system.
Context (cf : Settings).

(** A call by some thread: what it raises is its own affair. *)
Definition call {A} (m : M Manager Exn A) (threads : A → list Thread) (s : System) : System :=
  match m (mgr s) with
  | (Ok a, m') => mkSystem m' (pool s ++ threads a)
  | (Err _, m') => mkSystem m' (pool s)
  end.

Definition exec (l : Label) (s : System) : System :=
  match l with
  | LStart q before i ev => call (start cf q before i ev) (λ a, option_list a.2) s
  | LStop id w => call (stop cf id w) (λ a, option_list (snd <$> a)) s
  | LThread n i =>
      match pool s !! n with
      | None => s
      | Some t =>
          match thread_step cf t i (mgr s) with
          | (Ok t', m') => mkSystem m' (<[n := t']> (pool s))
          | (Err _, m') => mkSystem m' (<[n := Finished]> (pool s))
          end
      end
  | LCheck now w => call (check_once cf now w) (λ _, []) s
  | LConsider known now c => call (consider cf known now c) (λ _, []) s
  | LReconcile xs disc now w => call (reconcile_locked cf xs disc now w) (λ _, []) s
  | LShutdown w => call (shutdown cf w) (λ _, []) s
  | LHealthLoop => call start_health_loop (λ _, []) s
  | LRestart d now w => call (adopt_from_state cf d now w) id (mkSystem (restarted (mgr s)) [])
  | LOs o => mkSystem (set_processes (os_event o) (mgr s)) (pool s)
  end.
Definition exec_all (ls : list Label) (s : System) : System := fold_left (λ s l, exec l s) ls s.
End system.

Definition empty_manager : Manager := mkManager ∅ 0 [] None ∅ ∅ [] false.
Definition booted : System := mkSystem empty_manager [].

(** What the processes the manager spawned, and that have not ended, were admitted for. *)
Definition held_by (p : Proc) : Z := if absent (pr_exit p) then default 0 (pr_reserved p) else 0.
Definition held_bytes (ps : Table) : Z := sum_Z (held_by <$> (map_to_list ps).*2).
