(* ===== verification/EngineFacts.v ===== *)
(** * Memory and ownership of the engines

    A live process the manager spawned is owned by an engine it counts, so what the
    processes hold is within what the manager thinks is committed, and an admission keeps
    both within the budget.  The proof is over every interleaving of calls, threads and
    events of the operating system. *)
From S2P Require Import Prelude Effects Instances Engines.
Open Scope Z_scope.

(** ** Sums *)

(** A sum is bounded by another over a list that has its own element for each of ours. *)
Lemma sum_Z_injection {A B} (f : A → Z) (g : B → Z) (R : A → B → Prop) (la : list A) (lb : list B) :
  NoDup la →
  (∀ a, a ∈ la → ∃ b, b ∈ lb ∧ R a b ∧ f a ≤ g b) →
  (∀ a a' b, a ∈ la → a' ∈ la → R a b → R a' b → a = a') →
  (∀ b, b ∈ lb → 0 ≤ g b) →
  sum_Z (f <$> la) ≤ sum_Z (g <$> lb).
Proof.
  revert lb. induction la as [|a la IH]; intros lb Hnd Hex Hinj Hg.
  - apply sum_Z_nonneg. intros x (b & -> & Hb)%list_elem_of_fmap. by apply Hg.
  - apply NoDup_cons in Hnd as [Ha Hnd].
    destruct (Hex a) as (b & Hb & HR & Hle); [by left|].
    apply list_elem_of_split in Hb as (l1 & l2 & ->).
    assert (Hrest : sum_Z (f <$> la) ≤ sum_Z (g <$> (l1 ++ l2))).
    { apply IH; [done| | |].
      - intros a' Ha'. destruct (Hex a') as (b' & Hb' & HR' & ?); [by right|].
        exists b'. split_and!; [|done..]. apply elem_of_app in Hb' as [?|[->|?]%elem_of_cons]; try set_solver.
        destruct Ha. replace a with a'; [done|]. eapply Hinj; [by right|by left|done..].
      - intros ? ? ? ? ?. apply Hinj; by right.
      - intros ? ?. apply Hg. set_solver. }
    rewrite !fmap_app, !sum_Z_app in Hrest |- *. rewrite !fmap_cons. cbn [sum_Z]. lia.
Qed.

Lemma held_bytes_insert ps pid p :
  ps !! pid = None → held_bytes (<[pid := p]> ps) = held_by p + held_bytes ps.
Proof. intros Hn. unfold held_bytes. by rewrite map_to_list_insert. Qed.

Lemma held_bytes_split ps pid p :
  ps !! pid = Some p → held_bytes ps = held_by p + held_bytes (delete pid ps).
Proof.
  intros Hp. rewrite <- (held_bytes_insert (delete pid ps) pid p) by apply lookup_delete_eq.
  by rewrite insert_delete_id.
Qed.

Lemma held_bytes_alter (f : Proc → Proc) ps pid :
  (∀ p, held_by (f p) ≤ held_by p) → held_bytes (alter f pid ps) ≤ held_bytes ps.
Proof.
  intros Hf. destruct (ps !! pid) as [p|] eqn:Hp.
  - rewrite (held_bytes_split (alter f pid ps) pid (f p)) by (by rewrite lookup_alter_eq, Hp).
    rewrite (held_bytes_split ps pid p) by done. rewrite delete_alter_eq. specialize (Hf p). lia.
  - by rewrite alter_id by (intros; congruence).
Qed.

(** ** Processes and engines *)

(** The very process a [Popen] waits for still runs. *)
Definition running (ps : Table) (c : Popen) : Prop :=
  ∃ p, ps !! po_pid c = Some p ∧ pr_born p = po_born c ∧ pr_exit p = None.
Definition spent (ps : Table) (e : _Engine) : Prop := ∀ c, e_proc e = Some c → ¬ running ps c.
Definition readable (p : Proc) : bool :=
  pr_created_readable p && pr_argv_readable p && pr_status_readable p.

(** An engine with a child records the child's identity, which can be read. *)
Definition tied_engine (ps : Table) (e : _Engine) : Prop :=
  ∀ c, e_proc e = Some c →
    e_pid e = Some (po_pid c) ∧ (e_create_time e = None ∨ e_create_time e = Some (po_born c))
    ∧ 0 < e_estimate_bytes e
    ∧ ∀ p, ps !! po_pid c = Some p → pr_born p = po_born c → readable p = true.
Definition tied (m : Manager) : Prop := map_Forall (λ _ e, tied_engine (processes m) e) (objects m).

Lemma not_alive_spent m e :
  tied_engine (processes m) e → is_alive m e = false → spent (processes m) e.
Proof.
  intros Ht Ha c Hc (p & Hp & Hb & Hx). destruct (Ht c Hc) as (Hpid & Hct & _ & Hr).
  specialize (Hr p Hp Hb). unfold readable in Hr. guards.
  unfold is_alive, _alive in Ha. rewrite Hpid, Hp, Hx in Ha.
  destruct Hct as [Hct|Hct]; rewrite Hct in Ha; simpl in Ha;
    repeat match goal with H : _ = true |- _ => rewrite H in Ha end; simpl in Ha; [done|].
  rewrite Hb, Z.sub_diag in Ha. done.
Qed.

Lemma poll_spent ps c code : poll ps c = Some code → ¬ running ps c.
Proof.
  unfold poll. intros Hp (p & Hl & Hb & Hx). rewrite Hl, Hb, Z.eqb_refl, Hx in Hp. done.
Qed.

(** ** Calls that only update engines *)

Definition ident (e : _Engine) := (e_proc e, e_pid e, e_create_time e, e_estimate_bytes e).
Definition sane (p : Proc) : Prop := ∀ n, pr_rss p = Some n → 0 ≤ n.
Definition nonneg (e : _Engine) : Prop := 0 ≤ e_estimate_bytes e ∧ ∀ n, e_resident_bytes e = Some n → 0 ≤ n.

(** An engine is still counted afterwards unless its process has ended. *)
Record kept (ps : Table) (e e' : _Engine) : Prop := {
  kept_ident : ident e' = ident e;
  kept_counted : counted e = true → counted e' = true ∨ spent ps e;
  kept_nonneg : map_Forall (λ _, sane) ps → nonneg e → nonneg e';
}.
Definition kept_opt (ps : Table) (o o' : option _Engine) : Prop :=
  match o, o' with Some e, Some e' => kept ps e e' | None, None => True | _, _ => False end.
Record evolved (m m' : Manager) : Prop := {
  evo_engines : engines m' = engines m;
  evo_next : next_ref m' = next_ref m;
  evo_processes : processes m' = processes m;
  evo_objects : ∀ r, kept_opt (processes m) (objects m !! r) (objects m' !! r);
}.
Definition evolves (m m' : Manager) : Prop := tied m → evolved m m'.

Lemma ident_spent ps e e' : ident e' = ident e → spent ps e' → spent ps e.
Proof. intros [= Hp _ _ _] Hs c Hc. apply Hs. congruence. Qed.
Lemma ident_tied ps e e' : ident e' = ident e → tied_engine ps e → tied_engine ps e'.
Proof.
  intros [= H1 H2 H3 H4] Ht c Hc. rewrite H1 in Hc. destruct (Ht c Hc) as (? & ? & ? & ?).
  by rewrite H2, H3, H4.
Qed.

Lemma kept_refl ps e : kept ps e e.
Proof. by split; auto. Qed.
Lemma kept_trans ps e1 e2 e3 : kept ps e1 e2 → kept ps e2 e3 → kept ps e1 e3.
Proof.
  intros [Hi1 Hc1 Hn1] [Hi2 Hc2 Hn2]. split; [congruence| |auto].
  intros Hc. destruct (Hc1 Hc) as [Hc'|]; [|by right]. destruct (Hc2 Hc') as [|Hs]; [by left|right].
  by eapply ident_spent.
Qed.
Lemma evolved_tied m m' : evolved m m' → tied m → tied m'.
Proof.
  intros [_ _ Hp Ho] Ht r e' He'. specialize (Ho r). rewrite He' in Ho.
  destruct (objects m !! r) as [e|] eqn:He; [|done]. rewrite Hp.
  eapply ident_tied; [apply Ho|by apply (Ht r)].
Qed.

#[global] Instance evolves_preorder : PreOrder evolves.
Proof.
  split.
  - intros m _. split; try done. intros r. destruct (objects m !! r); [apply kept_refl|done].
  - intros m1 m2 m3 H12 H23 Ht. specialize (H12 Ht). specialize (H23 (evolved_tied _ _ H12 Ht)).
    destruct H12 as [? ? Hp1 Ho1], H23 as [? ? Hp2 Ho2]. split; [congruence..|].
    intros r. specialize (Ho1 r). specialize (Ho2 r). rewrite Hp1 in Ho2.
    destruct (objects m1 !! r), (objects m2 !! r), (objects m3 !! r); simpl in *; try done.
    by eapply kept_trans.
Qed.

Lemma evolves_update m r f :
  (∀ e, objects m !! r = Some e → tied_engine (processes m) e → kept (processes m) e (f e)) →
  evolves m (set_objects (alter f r) m).
Proof.
  intros Hf Ht. split; try done. intros r'. simpl. destruct (decide (r' = r)) as [->|Hne].
  - rewrite lookup_alter_eq. destruct (objects m !! r) as [e|] eqn:He; [|done]. simpl.
    apply Hf; [done|]. by apply (Ht r).
  - rewrite lookup_alter_ne by done. destruct (objects m !! r'); [apply kept_refl|done].
Qed.

(** A call that changes no object, no entry and no process. *)
Lemma evolves_same m m' :
  engines m' = engines m → next_ref m' = next_ref m → processes m' = processes m →
  objects m' = objects m → evolves m m'.
Proof.
  intros ? ? ? Ho _. split; try done. intros r. rewrite Ho.
  destruct (objects m !! r); [apply kept_refl|done].
Qed.

Section calls.
Context (cf : Settings).
Abbreviation Call := (M Manager Exn).

Lemma evolves_persist w : steps evolves (_persist cf w).
Proof.
  intros m. unfold _persist. simpl. destruct w; [by apply evolves_same|].
  destruct (cf_strict_persistence cf); by apply evolves_same.
Qed.
Lemma evolves_unlink e : steps evolves (unlink_stderr e).
Proof. intros m. unfold unlink_stderr. destruct (e_stderr_path e); by apply evolves_same. Qed.

Lemma kept_quiet ps e e' :
  ident e' = ident e → e_state e' = e_state e → e_resident_bytes e' = e_resident_bytes e → kept ps e e'.
Proof.
  intros Hi Hs Hr. split; [done| |].
  - unfold counted, live. rewrite Hs. by left.
  - intros _ [? ?]. split; [by injection Hi as _ _ _ ->|by rewrite Hr].
Qed.

Lemma resident_nonneg ps pid n : map_Forall (λ _, sane) ps → resident_bytes ps pid = Some n → 0 ≤ n.
Proof.
  intros Hs. unfold resident_bytes. destruct (ps !! pid) as [p|] eqn:Hp; [|done].
  destruct (pr_footprint p) as [k|]; [|by apply (Hs pid)].
  destruct (Z.ltb_spec 0 k); [|by apply (Hs pid)]. intros [= <-]. lia.
Qed.
Lemma kept_sampled ps e : kept ps e (sampled ps e).
Proof.
  unfold sampled. destruct (e_pid e) as [pid|]; [|apply kept_refl]. split; [done|by left|].
  intros Hs [? _]. split; [done|]. simpl. intros n. by apply resident_nonneg.
Qed.
Lemma evolves_sample r : steps evolves (_sample r).
Proof. intros m. apply evolves_update. intros e _ _. apply kept_sampled. Qed.

Lemma nonneg_same_resident e e' :
  e_estimate_bytes e' = e_estimate_bytes e →
  (e_resident_bytes e' = e_resident_bytes e ∨ e_resident_bytes e' = None) → nonneg e → nonneg e'.
Proof. intros He Hr [? ?]. split; [by rewrite He|]. destruct Hr as [->| ->]; by auto. Qed.

(** A new state that is counted, or of an engine whose process has ended. *)
Lemma kept_state ps e e' :
  ident e' = ident e → (counted e' = true ∨ spent ps e) →
  (e_resident_bytes e' = e_resident_bytes e ∨ e_resident_bytes e' = None) → kept ps e e'.
Proof.
  intros Hi Hc Hr. split; [done|by auto|]. intros _. apply nonneg_same_resident; [|done].
  by injection Hi.
Qed.

Lemma check_engine_evolves now r : steps evolves (check_engine now r).
Proof.
  apply steps_read. intros m. destruct (objects m !! r) as [e|] eqn:He; [|reflexivity].
  destruct (negb (is_in _ _)); [reflexivity|]. destruct (is_alive m e) eqn:Ha; cbn [negb andb].
  - apply (steps_bind_at evolves); [apply evolves_sample|]. intros _ m'. apply evolves_update.
    intros e' _ _. by apply kept_quiet.
  - destruct (same _ _); [reflexivity|]. apply evolves_update. intros e' He' Ht.
    replace e' with e in * by congruence. apply kept_state; [done|right|by right].
    by eapply not_alive_spent.
Qed.
Lemma check_once_evolves now w : steps evolves (check_once cf now w).
Proof.
  apply (steps_bind evolves); [apply (steps_get evolves)|]. intros m.
  apply (steps_bind evolves); [apply (steps_for_each evolves), check_engine_evolves|].
  intros _. apply evolves_persist.
Qed.

Lemma judge_evolves now x : steps evolves (judge now x).
Proof.
  apply steps_read. intros m.
  destruct (find_ref _ m) as [r|]; simpl; [|reflexivity].
  destruct (objects m !! r) as [e|] eqn:He; simpl; [|reflexivity].
  destruct (is_alive m e) eqn:Ha; cbn [negb andb].
  - destruct (expects x e); cbn [negb andb]; [reflexivity|]. apply (steps_bind_at evolves); [ |by intros _ ?].
    apply evolves_update. intros e' _ _. apply kept_state; [done|by left|by left].
  - rewrite andb_false_r. destruct (is_in _ _); [reflexivity|].
    apply (steps_bind_at evolves); [ |by intros _ ?]. apply evolves_update. intros e' He' Ht.
    replace e' with e in * by congruence. apply kept_state; [done|right|by left].
    by eapply not_alive_spent.
Qed.
Lemma judge_all_evolves now xs : steps evolves (judge_all now xs).
Proof.
  induction xs as [|x xs IH]; simpl; [by apply (steps_ret evolves)|].
  apply (steps_bind evolves); [apply judge_evolves|]. intros j.
  apply (steps_bind evolves); [apply IH|]. intros rest. by apply (steps_ret evolves).
Qed.
Lemma reconcile_evolves xs disc now w : steps evolves (reconcile_locked cf xs disc now w).
Proof.
  apply (steps_bind evolves); [apply judge_all_evolves|]. intros j.
  apply (steps_bind evolves); [apply (steps_get evolves)|]. intros m.
  apply (steps_bind evolves); [apply evolves_persist|]. intros _. by apply (steps_ret evolves).
Qed.
Lemma stop_evolves id w : steps evolves (stop cf id w).
Proof.
  apply steps_read. intros m. destruct (find_ref id m) as [r|]; [|reflexivity].
  apply (steps_bind_at evolves); [ |].
  { apply evolves_update. intros e _ _. apply kept_state; [done|by left|by left]. }
  intros _. apply (steps_bind evolves); [apply evolves_persist|]. intros _. intros m'. change (evolves m' m'). reflexivity.
Qed.
Lemma shutdown_evolves w : steps evolves (shutdown cf w).
Proof. apply (steps_bind evolves); [by intros m; apply evolves_same|]. intros _. apply evolves_persist. Qed.
End calls.

(** ** Starting an engine *)

Definition spawned (q : EngineStartRequest) (argv : list string) (p : Proc) : Proc :=
  mkProc (pr_born p) argv None (pr_created_readable p) (pr_argv_readable p) (pr_status_readable p)
    (pr_footprint p) (pr_rss p) (Some (rq_estimate_bytes q)).

(** A start that spawns: what it found, and what it left. *)
Record admitted (cf : Settings) (q : EngineStartRequest) (ev : Env) (m m' : Manager) : Prop := {
  ad_fits : committed_bytes m + ev_additional ev + rq_estimate_bytes q ≤ cf_budget_bytes cf;
  ad_idle : _serving (rq_slug q) (rq_target q)
              (if present (rq_target q) then Some (rq_engine_id q) else None) m = None;
  ad_same_target : ∀ e, find_engine (rq_engine_id q) m = Some e →
                     e_slug e = Some (rq_slug q) ∧ e_target e = rq_target q;
  ad_copy : dk_exists (ev_disk ev) (rq_slug q) = true ∧ is_Some (dk_manifest (ev_disk ev) (rq_slug q));
  ad_backend : ∀ adapter,
    match rq_target q with
    | Some t => adapter_path cf true (ev_disk ev) t (rq_slug q)
    | None => Ok None
    end = Ok adapter → present adapter && negb (same (rq_backend q) MLX_LM) = false;
  ad_journal : ev_written ev = true → journal m' = Some (records m');
  ad_state : ∃ path port adapter argv pid p rendering,
    path_for cf (rq_slug q) = Ok path
    ∧ _allocate_port cf (ev_free ev) m = Some port
    ∧ match rq_target q with
      | Some t => adapter_path cf true (ev_disk ev) t (rq_slug q)
      | None => Ok None
      end = Ok adapter
    ∧ engine_argv cf q path port adapter = Ok argv
    ∧ ev_spawn ev = Some (pid, p)
    ∧ processes m' = <[pid := spawned q argv p]> (processes m)
    ∧ objects m' = <[next_ref m := sampled (processes m') (new_engine cf q ev rendering port pid p)]> (objects m)
    ∧ engines m' = dict_set (rq_engine_id q) (next_ref m) (engines m)
    ∧ next_ref m' = S (next_ref m);
}.
(** The managers agree on everything but files. *)
Record same_engines (m m' : Manager) : Prop := {
  se_engines : engines m' = engines m;
  se_objects : objects m' = objects m;
  se_next : next_ref m' = next_ref m;
  se_processes : processes m' = processes m;
}.
Lemma same_engines_refl m : same_engines m m.
Proof. done. Qed.

Lemma persist_same cf w m r m' : _persist cf w m = (r, m') → same_engines m m'.
Proof.
  unfold _persist. cbv [mbind M_bind get put throw mret M_ret]. destruct w; [by intros [= <- <-]|].
  destruct (cf_strict_persistence cf); by intros [= <- <-].
Qed.

Lemma persist_journal cf w m r m' : _persist cf w m = (r, m') → w = true → journal m' = Some (records m').
Proof. intros H ->. unfold _persist in H. cbv [mbind M_bind get put] in H. by injection H as <- <-. Qed.

Lemma spawn_cases q argv ev m r m' :
  spawn q argv ev m = (r, m') →
  (m' = m ∧ ∃ x, r = Err x)
  ∨ ∃ pid p f, ev_spawn ev = Some (pid, p) ∧ r = Ok (pid, spawned q argv p)
             ∧ m' = set_processes (insert pid (spawned q argv p)) (set_files (union {[f]}) m).
Proof.
  unfold spawn. intros H. walk H; [by eauto|]. destruct (ev_spawn ev) as [[pid p]|].
  - cbv [mbind M_bind modify mret M_ret] in H. injection H as <- <-. right. by eauto 10.
  - injection H as <- <-. by eauto.
Qed.

Ltac lifts := repeat match goal with Hl : lift _ _ = _ |- _ => unfold lift in Hl; simplify_eq end.

Lemma start_cases cf q before i ev m r m' :
  start cf q before i ev m = (r, m') →
  (same_engines m m' ∧ ∀ st t, r ≠ Ok (false, st, t)) ∨ admitted cf q ev m m'.
Proof.
  unfold start. intros H. walk H; lifts; [by left; split|].
  destruct x as [verified rendering]. unfold start_locked in H. walk H; lifts; [by left; split..|].
  destruct (_serving _ _ _ _) as [e|] eqn:Hserv.
  { walk H; [by left; split|]. unfold mret, M_ret in H. left. by simplify_eq. }
  walk H; lifts; try (by left; split).
  all: match goal with Hs : spawn _ _ _ _ = _ |- _ =>
      apply spawn_cases in Hs as [(-> & ? & ?)|(pid & p & f & Hsp & ? & ->)]; simplify_eq end; try (by left; split).
  all: match goal with Hp : _persist _ _ _ = _ |- _ =>
      pose proof (persist_journal _ _ _ _ _ Hp); apply persist_same in Hp; destruct Hp end.
  all: unfold mret, M_ret in *; simplify_eq; simpl in *; right;
    match goal with Ha : present _ && negb _ = false |- _ => rename Ha into Hback end.
  all: guards; split; [unfold budget_bytes in *; lia|done|..].
  all: try (intros ? Hx; congruence).
  all: try done.
  all: try (intros e He; rewrite He in *; guards; done).
  all: try (split; [done|]; by destruct (dk_manifest _ _)).
  all: exists x0, x10, x6, x11, pid, p, rendering; split_and!; try done.
  all: match goal with Hp : processes _ = _, Ho : objects _ = _ |- _ => rewrite Hp; exact Ho end.
Qed.

(** ** The dictionary *)

Section dict.
Context {A : Type}.
Implicit Types (d : list (string * A)) (k : string) (v : A).

Lemma dict_get_elem k d v : dict_get k d = Some v → (k, v) ∈ d.
Proof.
  unfold dict_get. intros Hg. apply fmap_Some in Hg as ([k' v'] & Hf & ->).
  apply find_Some_elem in Hf as [Hin Hk]. simpl in *. by guards; subst.
Qed.
Lemma dict_get_None k d : dict_get k d = None → k ∉ d.*1.
Proof.
  unfold dict_get. intros Hn Hk. apply fmap_None in Hn.
  apply list_elem_of_fmap in Hk as ([k' v] & -> & Hin).
  destruct (find_is_Some (λ kv, same kv.1 k') d (k', v)) as [y Hy]; [done|by apply same_true|].
  simpl in *. congruence.
Qed.
Lemma dict_get_Some k d v : NoDup d.*1 → (k, v) ∈ d → dict_get k d = Some v.
Proof.
  intros Hnd Hin. destruct (dict_get k d) as [v'|] eqn:Hg.
  - apply dict_get_elem in Hg. f_equal.
    by injection (NoDup_fmap_inj fst d (k, v') (k, v) Hnd Hg Hin eq_refl).
  - apply dict_get_None in Hg. destruct Hg. by apply (list_elem_of_fmap_2 fst _ (k, v)).
Qed.
Lemma dict_get_set k v d : dict_get k (dict_set k v d) = Some v.
Proof.
  induction d as [|[k1 v1] d IH]; unfold dict_get in *; simpl; [by rewrite same_refl|].
  destruct (same k1 k) eqn:Hs; simpl; [by rewrite same_refl|by rewrite Hs].
Qed.
Lemma dict_set_keys k v d : ∀ k', k' ∈ (dict_set k v d).*1 ↔ k' = k ∨ k' ∈ d.*1.
Proof.
  induction d as [|[k1 v1] d IH]; intros k'; simpl; [set_solver|].
  destruct (same k1 k) eqn:Hs; guards; subst; simpl; rewrite ?elem_of_cons, ?IH; tauto.
Qed.
Lemma dict_set_NoDup k v d : NoDup d.*1 → NoDup (dict_set k v d).*1.
Proof.
  induction d as [|[k1 v1] d IH]; simpl; intros Hnd; [repeat constructor; set_solver|].
  apply NoDup_cons in Hnd as [Hk Hnd]. destruct (same k1 k) eqn:Hs; guards; subst; simpl; constructor; auto.
  rewrite dict_set_keys. by intros [|].
Qed.
Lemma elem_of_dict_set k v d k' v' :
  NoDup d.*1 → (k', v') ∈ dict_set k v d ↔ (k' = k ∧ v' = v) ∨ (k' ≠ k ∧ (k', v') ∈ d).
Proof.
  induction d as [|[k1 v1] d IH]; simpl; intros Hnd.
  { rewrite list_elem_of_singleton. set_solver. }
  apply NoDup_cons in Hnd as [Hk Hnd]. simpl in *. destruct (same k1 k) eqn:Hs; guards.
  - subst. rewrite !elem_of_cons. split.
    + intros [[= -> ->]|Hin]; [by left|right]. split; [|by right]. intros ->.
      destruct Hk. by apply (list_elem_of_fmap_2 fst _ (k, v')).
    + intros [[-> ->]|[Hne [[= -> ->]|?]]]; [by left|done|by right].
  - rewrite !elem_of_cons, IH by done. split; [intros [[= -> ->]|[|]]; naive_solver|].
    intros [|[? [|]]]; naive_solver.
Qed.
Lemma sum_dict_set (w : string * A → Z) k v d :
  (∀ kv, 0 ≤ w kv) → sum_Z (w <$> dict_set k v d) ≤ sum_Z (w <$> d) + w (k, v).
Proof.
  intros Hw. induction d as [|[k1 v1] d IH].
  - simpl. lia.
  - cbn [dict_set]. destruct (same k1 k); rewrite !fmap_cons; cbn [sum_Z]; [|lia].
    specialize (Hw (k1, v1)). lia.
Qed.
End dict.

Lemma elem_of_values m e : e ∈ values m ↔ ∃ k r, (k, r) ∈ engines m ∧ objects m !! r = Some e.
Proof.
  unfold values. rewrite list_elem_of_omap. split.
  - intros ([k r] & ? & ?). by eauto.
  - intros (k & r & ? & ?). by exists (k, r).
Qed.

(** What an entry of the dictionary contributes to the committed bytes. *)
Definition weight (os : gmap nat _Engine) (kr : string * nat) : Z :=
  match os !! kr.2 with
  | Some e => if counted e then charge e else 0
  | None => 0
  end.
Lemma committed_weight m : committed_bytes m = sum_Z (weight (objects m) <$> engines m).
Proof.
  unfold committed_bytes, values. induction (engines m) as [|[k r] d IH]; [done|].
  rewrite fmap_cons. cbn [omap list_omap sum_Z]. unfold weight at 1. simpl.
  destruct (objects m !! r) as [e|]; [|done]. simpl. destruct (counted e); [|done].
  rewrite fmap_cons. cbn [sum_Z]. lia.
Qed.
Lemma charge_nonneg e : nonneg e → 0 ≤ charge e.
Proof.
  intros [He Hr]. unfold charge. destruct (_ =? _); [|done].
  destruct (e_resident_bytes e); simpl; [auto|lia].
Qed.
Lemma weight_nonneg os kr : map_Forall (λ _, nonneg) os → 0 ≤ weight os kr.
Proof.
  intros Hn. unfold weight. destruct (os !! kr.2) as [e|] eqn:He; [|done].
  destruct (counted e); [|done]. by apply charge_nonneg, (Hn kr.2).
Qed.
