(* ===== verification/EngineSafety.v ===== *)
(** * What the engines hold stays within the budget

    The invariant that ties the process table to the manager, over every interleaving of
    starts, stops, probes, health passes, reconciliations and events of the operating
    system, and what follows for the memory of the node. *)
From S2P Require Import Prelude Effects Instances Engines EngineFacts.
Open Scope Z_scope.

(** ** The invariant *)

(** A live process the manager spawned belongs to an engine it counts. *)
Definition owned (m : Manager) : Prop :=
  ∀ pid p n, processes m !! pid = Some p → pr_exit p = None → pr_reserved p = Some n →
    ∃ k r e, (k, r) ∈ engines m ∧ objects m !! r = Some e
             ∧ e_proc e = Some (mkPopen pid (pr_born p)) ∧ e_estimate_bytes e = n ∧ counted e = true.
(** A thread about to mark an engine ended has seen its process ended. *)
Definition settled (m : Manager) (t : Thread) : Prop :=
  match t with
  | ProbeDied r _ | ProbeGone r | TermDone r => ∃ e, objects m !! r = Some e ∧ spent (processes m) e
  | _ => True
  end.

Record Inv (m : Manager) : Prop := {
  inv_refs : ∀ r e, objects m !! r = Some e → (r < next_ref m)%nat;
  inv_dict : ∀ k r, (k, r) ∈ engines m → is_Some (objects m !! r);
  inv_keys : NoDup (engines m).*1;
  inv_tied : tied m;
  inv_owned : owned m;
  inv_nonneg : map_Forall (λ _, nonneg) (objects m);
  inv_sane : map_Forall (λ _, sane) (processes m);
}.

Lemma Inv_empty : Inv empty_manager.
Proof.
  split; try done; simpl.
  - set_solver.
  - constructor.
Qed.

(** Updates of engines that keep counting what runs. *)
Lemma Inv_evolved m m' : evolved m m' → Inv m → Inv m'.
Proof.
  intros Hev [Hr Hd Hk Ht Ho Hn Hs]. pose proof (evolved_tied _ _ Hev Ht) as Ht'.
  destruct Hev as [He Hnx Hp Hob]. split; rewrite ?He, ?Hnx, ?Hp; try done.
  - intros r e' He'. specialize (Hob r). rewrite He' in Hob.
    destruct (objects m !! r) as [e|] eqn:E; [by eapply Hr|done].
  - intros k r Hin. specialize (Hob r). destruct (Hd k r Hin) as [e E]. rewrite E in Hob.
    destruct (objects m' !! r); [by eexists|done].
  - intros pid p n Hpp Hx Hres. rewrite Hp in Hpp. rewrite He.
    destruct (Ho pid p n Hpp Hx Hres) as (k & r & e & Hin & E & Hpr & Hest & Hc).
    specialize (Hob r). rewrite E in Hob. destruct (objects m' !! r) as [e'|] eqn:E'; [|done].
    destruct Hob as [Hi Hct _]. pose proof Hi as [= H1 _ _ H4].
    exists k, r, e'. split_and!; [done..|congruence|congruence|].
    destruct (Hct Hc) as [|Hsp]; [done|]. by destruct (Hsp _ Hpr); exists p.
  - intros r e' E'. specialize (Hob r). rewrite E' in Hob.
    destruct (objects m !! r) as [e|] eqn:E; [|done]. apply Hob; [done|]. by apply (Hn r).
Qed.
Lemma settled_evolved m m' t : evolved m m' → settled m t → settled m' t.
Proof.
  intros [_ _ Hp Hob] Hs. assert (Hgen : ∀ r, (∃ e, objects m !! r = Some e ∧ spent (processes m) e) →
    ∃ e, objects m' !! r = Some e ∧ spent (processes m') e).
  { intros r (e & E & Hsp). specialize (Hob r). rewrite E in Hob.
    destruct (objects m' !! r) as [e'|]; [|done]. exists e'. split; [done|]. rewrite Hp.
    eapply ident_spent; [symmetry; apply Hob|done]. }
  destruct t; simpl in *; auto.
Qed.

(** Two managers with the same engines. *)
Lemma same_engines_evolved m m' : same_engines m m' → evolved m m'.
Proof.
  intros [He Ho Hn Hp]. split; [done..|]. intros r. rewrite Ho.
  destruct (objects m !! r); [apply kept_refl|done].
Qed.

(** ** What the operating system guarantees *)

(** A new process is not one that an engine ever had: [(pid, create_time)] is unique. *)
Definition fresh_birth (m : Manager) (pid born : Z) : Prop :=
  map_Forall (λ _ e, e_proc e ≠ Some (mkPopen pid born)) (objects m).

Lemma running_insert ps pid p c :
  running (<[pid := p]> ps) c → c = mkPopen pid (pr_born p) ∨ running ps c.
Proof.
  intros (p' & Hp & Hb & Hx). destruct (decide (po_pid c = pid)) as [Heq|Hne].
  - left. rewrite Heq, lookup_insert_eq in Hp. destruct c. simpl in *. congruence.
  - right. rewrite lookup_insert_ne in Hp by done. by exists p'.
Qed.
Lemma spent_insert m pid p r e :
  fresh_birth m pid (pr_born p) → objects m !! r = Some e →
  spent (processes m) e → spent (<[pid := p]> (processes m)) e.
Proof.
  intros Hf He Hs c Hc [->|Hr]%running_insert; [by apply (Hf r e)|by apply (Hs c)].
Qed.
Lemma tied_insert m pid p :
  fresh_birth m pid (pr_born p) → tied m →
  map_Forall (λ _ e, tied_engine (<[pid := p]> (processes m)) e) (objects m).
Proof.
  intros Hf Ht r e He c Hc. destruct (Ht r e He c Hc) as (? & ? & ? & Hr). split_and!; try done.
  intros p' Hp' Hb. destruct (decide (po_pid c = pid)) as [Heq|Hne].
  - rewrite Heq, lookup_insert_eq in Hp'. simplify_eq. destruct (Hf r e He). by destruct c; simpl in *; subst.
  - rewrite lookup_insert_ne in Hp' by done. by apply Hr.
Qed.
Lemma settled_insert m m' pid p t :
  fresh_birth m pid (pr_born p) → processes m' = <[pid := p]> (processes m) →
  (∀ r e, objects m !! r = Some e → objects m' !! r = Some e) →
  settled m t → settled m' t.
Proof.
  intros Hf Hp Ho Hs. destruct t; simpl in *; try done;
    destruct Hs as (e & He & Hsp); exists e; (split; [by apply Ho|]); rewrite Hp; by eapply spent_insert.
Qed.

(** ** Starting *)

Lemma counted_new cf q ev rendering port pid p ps :
  counted (sampled ps (new_engine cf q ev rendering port pid p)) = true.
Proof. done. Qed.

Section start.
Context (cf : Settings) (q : EngineStartRequest) (ev : Env) (m m' : Manager).
Context (Hinv : Inv m) (Had : admitted cf q ev m m').
Context (Hest : 1 ≤ rq_estimate_bytes q).
(** The spawned process is new and readable, and an engine the new one replaces has ended. *)
Context (Hspawn : ∀ pid p, ev_spawn ev = Some (pid, p) →
                    processes m !! pid = None ∧ fresh_birth m pid (pr_born p)
                    ∧ readable p = true ∧ sane p).
Context (Hreplaced : ∀ e, find_engine (rq_engine_id q) m = Some e → spent (processes m) e).

Lemma admitted_Inv : Inv m'.
Proof using Hinv Had Hest Hspawn Hreplaced.
  destruct Hinv as [Hr Hd Hk Ht Ho Hn Hs], Had as [_ _ _ _ _ _ Hst].
  destruct Hst as (path & port & adapter & argv & pid & p & rendering & _ & _ & _ & _ & Hsp & Hp & Hob & He & Hnx).
  destruct (Hspawn _ _ Hsp) as (Hpid & Hfb & Hrd & Hsn).
  assert (Hold : ∀ r e, objects m !! r = Some e → objects m' !! r = Some e).
  { intros r e E. rewrite Hob, lookup_insert_ne; [done|]. specialize (Hr r e E). lia. }
  assert (Hsane : map_Forall (λ _, sane) (processes m')) by (rewrite Hp; by apply map_Forall_insert_2).
  split; [..|done].
  - intros r e E. rewrite Hnx. rewrite Hob in E. destruct (decide (r = next_ref m)) as [->|Hne]; [lia|].
    rewrite lookup_insert_ne in E by done. specialize (Hr r e E). lia.
  - intros k r Hin. rewrite He in Hin. apply (elem_of_dict_set _ _ _ _ _ Hk) in Hin as [[-> ->]|[_ Hin]].
    + rewrite Hob, lookup_insert_eq. by eexists.
    + destruct (Hd k r Hin) as [e E]. exists e. by apply Hold.
  - rewrite He. by apply dict_set_NoDup.
  - intros r e E. rewrite Hob in E. destruct (decide (r = next_ref m)) as [->|Hne].
    + rewrite lookup_insert_eq in E. simplify_eq. eapply (ident_tied _ (new_engine cf q ev rendering port pid p)).
      { unfold sampled. done. }
      intros c [= <-]. simpl. split_and!; [done| |lia|].
      * destruct (ev_created_readable ev); auto.
      * intros p'. rewrite Hp, lookup_insert_eq. by intros [= <-] _.
    + rewrite lookup_insert_ne in E by done. rewrite Hp. by apply (tied_insert m pid (spawned q argv p)) with r.
  - intros pid' p' n Hp' Hx Hres. rewrite Hp in Hp'. rewrite He.
    destruct (decide (pid' = pid)) as [->|Hne].
    + rewrite lookup_insert_eq in Hp'. injection Hp' as <-. injection Hres as <-. exists (rq_engine_id q), (next_ref m).
      eexists. rewrite Hob, lookup_insert_eq. split_and!; [|done..]. by apply elem_of_dict_set; [|left].
    + rewrite lookup_insert_ne in Hp' by done.
      destruct (Ho pid' p' n Hp' Hx Hres) as (k & r & e & Hin & E & Hpr & Hes & Hc).
      exists k, r, e. split_and!; [|by auto..]. apply elem_of_dict_set; [done|]. right. split; [|done].
      intros ->. apply (Hreplaced e) with (mkPopen pid' (pr_born p')); [|done|by exists p'].
      unfold find_engine, find_ref. rewrite (dict_get_Some _ _ r) by done. done.
  - rewrite Hob. apply map_Forall_insert_2; [|done].
    split; [simpl; lia|]. simpl. intros n. by apply resident_nonneg.
Qed.

Lemma admitted_committed : committed_bytes m' ≤ committed_bytes m + rq_estimate_bytes q.
Proof using Hinv Had Hest Hspawn Hreplaced.
  pose proof admitted_Inv as Hinv'. destruct Hinv as [Hr Hd Hk _ _ Hn _], Had as [_ _ _ _ _ _ Hst].
  destruct Hst as (path & port & adapter & argv & pid & p & rendering & _ & _ & _ & _ & _ & _ & Hob & He & _).
  rewrite !committed_weight, He.
  etrans; [apply sum_dict_set; intros; apply weight_nonneg, Hinv'|].
  replace (weight (objects m') <$> engines m) with (weight (objects m) <$> engines m).
  - unfold weight at 2. simpl. rewrite Hob, lookup_insert_eq. rewrite counted_new. unfold charge. simpl.
    destruct (Z.eqb_spec (rq_estimate_bytes q) 0); lia.
  - apply fmap_ext_in. intros [k r] Hin. unfold weight. simpl. rewrite Hob.
    destruct (Hd k r Hin) as [e E]. specialize (Hr r e E). by rewrite lookup_insert_ne by lia.
Qed.
End start.

(** ** Orphans *)

(** A new engine without a child, under a key that was free. *)
Lemma Inv_add_orphan m k e :
  Inv m → find_ref k m = None → e_proc e = None → nonneg e → Inv (add_engine k e m).
Proof.
  intros [Hr Hd Hk Ht Ho Hn Hs] Hfree Hproc Hne. apply dict_get_None in Hfree.
  assert (Hold : ∀ r x, objects m !! r = Some x → objects (add_engine k e m) !! r = Some x).
  { intros r x E. simpl. rewrite lookup_insert_ne; [done|]. specialize (Hr r x E). lia. }
  split; simpl; [..|done].
  - intros r x E. destruct (decide (r = next_ref m)) as [->|Hn']; [lia|].
    rewrite lookup_insert_ne in E by done. specialize (Hr r x E). lia.
  - intros k' r Hin. apply (elem_of_dict_set _ _ _ _ _ Hk) in Hin as [[-> ->]|[_ Hin]].
    + rewrite lookup_insert_eq. by eexists.
    + destruct (Hd k' r Hin) as [x E]. exists x. by apply Hold.
  - by apply dict_set_NoDup.
  - apply map_Forall_insert_2; [|done]. intros c Hc. congruence.
  - intros pid p n Hp Hx Hres. destruct (Ho pid p n Hp Hx Hres) as (k' & r & x & Hin & E & ? & ? & ?).
    exists k', r, x. split_and!; [|by auto..]. apply elem_of_dict_set; [done|]. right. split; [|done].
    intros ->. destruct Hfree. by apply (list_elem_of_fmap_2 fst _ (k, r)).
  - by apply map_Forall_insert_2.
Qed.

Lemma consider_cases cf known now c m r m' :
  consider cf known now c m = (r, m') →
  m' = m ∨ ∃ k e, find_ref k m = None ∧ e_proc e = None ∧ e_estimate_bytes e = 0
                  ∧ (∃ e0, e_resident_bytes e0 = None ∧ e_state e0 = EOrphan ∧ e = sampled (processes m) e0)
                  ∧ m' = add_engine k e m.
Proof.
  unfold consider. destruct c as [pid id]. intros H. walk H.
  destruct (is_in pid known); [by injection H as <- <-; left|].
  destruct (processes _ !! pid) as [p|]; [|by injection H as <- <-; left].
  case_match; [by injection H as <- <-; left|]. case_match; [by injection H as <- <-; left|].
  cbv [mbind M_bind modify mret M_ret] in H. injection H as <- <-.
  match goal with |- context [present ?o] => destruct o eqn:Hf end; simpl; [by left|right].
  eexists id, (sampled (processes m) (orphan_engine cf id _ pid _ now)).
  split_and!; [done|done|done| |reflexivity]. eexists. by split_and!; [| |reflexivity].
Qed.
Lemma consider_Inv cf known now c m r m' :
  consider cf known now c m = (r, m') → Inv m →
  Inv m' ∧ processes m' = processes m ∧ (∀ i e, objects m !! i = Some e → objects m' !! i = Some e).
Proof.
  intros [->|(k & e & Hf & Hp & He & (e0 & Hr0 & _ & Hsam) & ->)]%consider_cases Hi; [done|].
  split_and!; [|done|].
  - apply Inv_add_orphan; [done..|]. split; [lia|]. rewrite Hsam. unfold sampled.
    destruct (e_pid e0); simpl; [|congruence]. intros n. apply resident_nonneg, Hi.
  - intros i x E. simpl. rewrite lookup_insert_ne; [done|]. pose proof (inv_refs m Hi i x E). lia.
Qed.

(** ** Threads *)

Lemma obj_update_evolved m r e f :
  Inv m → objects m !! r = Some e → kept (processes m) e (f e) → evolved m (set_objects (alter f r) m).
Proof.
  intros Hi E Hk. apply evolves_update; [|apply Hi]. intros e' E' _. by replace e' with e by congruence.
Qed.

(** One step of a thread updates engines, and leaves the thread settled. *)
Definition sound (m : Manager) (r : result Exn Thread) (m' : Manager) : Prop :=
  evolved m m' ∧ ∀ t, r = Ok t → settled m' t.

Lemma sound_stay m t : settled m t → sound m (Ok t) m.
Proof. intros Ht. split; [by apply same_engines_evolved|]. by intros ? [= <-]. Qed.

Lemma sound_call (c : M Manager Exn Thread) m :
  Inv m → evolves m (c m).2 → (∀ t m', c m = (Ok t, m') → settled m' t) → sound m (c m).1 (c m).2.
Proof.
  intros Hi Hev Hs. split; [by apply Hev, Hi|]. intros t Ht. apply Hs. destruct (c m). simpl in *. congruence.
Qed.

(** An update of one engine, then calls that only record. *)
Lemma evolves_update_then {A} r e f (rest : M Manager Exn A) m :
  objects m !! r = Some e → (tied_engine (processes m) e → kept (processes m) e (f e)) →
  steps evolves rest → evolves m ((update r f ≫= λ _, rest) m).2.
Proof.
  intros E Hk Hr. apply (steps_bind_at evolves); [|by intros _].
  apply evolves_update. intros e' E' Ht. replace e' with e in * by congruence. auto.
Qed.
Lemma persist_then cf w (t : Thread) : steps evolves (_persist cf w ≫= λ _, mret t).
Proof. apply (steps_bind evolves); [apply evolves_persist|]. intros _. by apply (steps_ret evolves). Qed.

Lemma run_obj {A} r (k : option _Engine → M Manager Exn A) m : (obj r ≫= k) m = k (objects m !! r) m.
Proof. done. Qed.
Lemma run_get {A} (k : Manager → M Manager Exn A) m : (get ≫= k) m = k m m.
Proof. done. Qed.

Lemma mark_start_failure_evolves cf r code i e m :
  objects m !! r = Some e → spent (processes m) e → evolves m (_mark_start_failure cf r code i m).2.
Proof.
  intros E Hs. unfold _mark_start_failure. rewrite run_obj, E.
  apply (evolves_update_then r e _ (_persist cf (in_written i) ≫= λ _, unlink_stderr e) m); [done| |].
  - intros _. apply kept_state; [done|by right|by left].
  - apply (steps_bind evolves); [apply evolves_persist|]. intros _. apply evolves_unlink.
Qed.
Lemma terminated_evolves cf r i e m :
  objects m !! r = Some e → spent (processes m) e → evolves m (terminated cf r e i m).2.
Proof.
  intros E Hs. unfold terminated.
  set (f := with_resident None ∘ with_stopped_at (Some (in_now i)) ∘ with_state EStopped).
  assert (Hu : ∃ m1, unlink_stderr e m = (Ok tt, m1) ∧ same_engines m m1).
  { unfold unlink_stderr. destruct (e_stderr_path e); by eexists. }
  destruct Hu as (m1 & Hu & Hsame). unfold mbind at 1, M_bind at 1. rewrite Hu.
  etrans; [intros _; by apply same_engines_evolved|].
  apply (evolves_update_then r e f (_persist cf (in_written i)) m1);
    rewrite ?(se_objects _ _ Hsame), ?(se_processes _ _ Hsame); [done| |apply evolves_persist].
  intros _. apply kept_state; [done|by right|by right].
Qed.

(** What one step of a thread may do: mark a starting engine failed at the deadline only
    when its process has ended. *)
Definition timely (m : Manager) (t : Thread) : Prop :=
  match t with
  | ProbeExpired r => ∀ e, objects m !! r = Some e → e_state e = EStarting → spent (processes m) e
  | _ => True
  end.

Lemma probe_poll_settled m r started e i :
  Inv m → objects m !! r = Some e → settled m (probe_poll m r started e i).
Proof.
  intros Hi E. unfold probe_poll.
  set (asked := if stop_set m then _ else _). assert (Ha : settled m asked).
  { unfold asked. repeat case_match; done. }
  destruct (e_proc e) as [c|] eqn:Hc.
  - destruct (poll (processes m) c) as [code|] eqn:Hp; [|done]. exists e. split; [done|].
    intros c' Hc'. replace c' with c by congruence. by eapply poll_spent.
  - case_match; [|done]. exists e. split; [done|]. intros c' Hc'. congruence.
Qed.

(** A call that ends in a thread with nothing to prove. *)
Lemma sound_end {A} (c : M Manager Exn A) t m :
  Inv m → evolves m (c m).2 → (∀ m1, settled m1 t) →
  sound m ((c ≫= λ _, mret t) m).1 ((c ≫= λ _, mret t) m).2.
Proof.
  intros Hi Hev Ht. apply (sound_call (c ≫= λ _, mret t)); [done| |].
  - apply (steps_bind_at evolves); [done|]. intros _. by apply (steps_ret evolves).
  - intros t' m' H. by inv_run.
Qed.
Lemma sound_end2 {A B} (c : M Manager Exn A) (d : M Manager Exn B) t m :
  Inv m → evolves m (c m).2 → steps evolves d → (∀ m1, settled m1 t) →
  sound m ((c ≫= λ _, d ≫= λ _, mret t) m).1 ((c ≫= λ _, d ≫= λ _, mret t) m).2.
Proof.
  intros Hi Hev Hd Ht. apply (sound_call (c ≫= λ _, d ≫= λ _, mret t)); [done| |].
  - apply (steps_bind_at evolves); [done|]. intros _. apply (steps_bind evolves); [done|].
    intros _. by apply (steps_ret evolves).
  - intros t' m' H. by inv_run.
Qed.
Lemma sound_dead m r e t :
  Inv m → objects m !! r = Some e → (∀ m1, settled m1 t) →
  sound m (Ok (if is_alive m e then t else TermDone r)) m.
Proof.
  intros Hi E Ht. apply sound_stay. destruct (is_alive m e) eqn:Ha; [done|].
  exists e. split; [done|]. eapply not_alive_spent; [by apply (inv_tied m Hi r)|done].
Qed.

Lemma thread_step_sound cf t i m :
  Inv m → settled m t → timely m t → sound m (thread_step cf t i m).1 (thread_step cf t i m).2.
Proof.
  intros Hi Hs Ht.
  destruct t; cbn [thread_step term_step];
    try (rewrite run_get;
         match goal with |- context [objects m !! ?r] => destruct (objects m !! r) as [e|] eqn:E end;
         [|by apply sound_stay]);
    try (destruct Hs as (e' & E' & Hs); replace e' with e in * by congruence).
  - apply (sound_stay m). by destruct (find_ref key m).
  - case_match; [by apply sound_stay|]. apply (sound_stay m). by case_match.
  - apply (sound_stay m). by apply probe_poll_settled.
  - apply sound_end; [done| |done]. by eapply mark_start_failure_evolves.
  - apply sound_end2; [done| |apply evolves_persist|done]. apply evolves_update.
    intros x Hx _. replace x with e by congruence. apply kept_state; [done|by right|by right].
  - case_match; [|by apply sound_stay].
    apply (sound_call (update r _ ≫= λ _, _sample r ≫= λ _, _persist cf _ ≫= λ _, mret Finished)); [done| |].
    + apply (evolves_update_then r e); [done| |].
      * intros _. apply kept_state; [done|by left|by left].
      * apply (steps_bind evolves); [apply evolves_sample|]. intros _. apply persist_then.
    + intros t m' H'. by inv_run.
  - case_match; [|by apply sound_stay]. unfold _still_starting in *. guards.
    apply sound_end2; [done| |apply evolves_persist|done]. apply evolves_update.
    intros x Hx _. replace x with e by congruence.
    apply kept_state; [done|right; by apply Ht|by left].
  - by apply (sound_dead m r e).
  - apply sound_end; [done| |done]. by destruct (e_pid e); [apply evolves_same|].
  - case_match; [by apply sound_stay|]. apply (sound_stay m). by case_match.
  - apply (sound_stay m). by destruct (is_alive m e).
  - by apply (sound_dead m r e).
  - apply sound_end; [done| |done]. by apply terminated_evolves.
  - by apply sound_stay.
Qed.

(** ** The operating system *)

(** Every row is one that was there, with the same identity, or one of a new process that
    the manager did not spawn. *)
Definition successor (m : Manager) (ps' : Table) : Prop :=
  ∀ pid p', ps' !! pid = Some p' → sane p' ∧
    ((∃ p, processes m !! pid = Some p ∧ pr_born p' = pr_born p ∧ readable p' = readable p
           ∧ pr_reserved p' = pr_reserved p ∧ (pr_exit p' = None → pr_exit p = None))
     ∨ (pr_reserved p' = None ∧ fresh_birth m pid (pr_born p'))).

Lemma successor_spent m ps' r e :
  successor m ps' → objects m !! r = Some e → spent (processes m) e → spent ps' e.
Proof.
  intros Hsu E Hs c Hc (p' & Hp' & Hb & Hx).
  destruct (Hsu _ _ Hp') as [_ [(p & Hp & Hb' & _ & _ & Hx')|[_ Hf]]].
  - apply (Hs c Hc). exists p. split_and!; [done|congruence|auto].
  - apply (Hf r e E). rewrite Hc. by destruct c; simpl in *; subst.
Qed.
Lemma Inv_successor m ps' : Inv m → successor m ps' → Inv (set_processes (λ _, ps') m).
Proof.
  intros [Hr Hd Hk Ht Ho Hn Hs] Hsu. split; simpl; try done.
  - intros r e E c Hc. destruct (Ht r e E c Hc) as (? & ? & ? & Hrd). split_and!; try done.
    simpl. intros p' Hp' Hb. destruct (Hsu _ _ Hp') as [_ [(p & Hp & Hb' & Hr' & _)|[_ Hf]]].
    + rewrite Hr'. apply Hrd; [done|congruence].
    + destruct (Hf r e E). rewrite Hc. by destruct c; simpl in *; subst.
  - intros pid p' n Hp' Hx Hres. simpl in Hp'.
    destruct (Hsu _ _ Hp') as [_ [(p & Hp & Hb' & _ & Hrs & Hx')|[Hnone _]]]; [|congruence].
    rewrite Hb'. apply (Ho pid p n); [done|auto|congruence].
  - intros pid p' Hp'. by destruct (Hsu _ _ Hp').
Qed.
Lemma settled_successor m ps' t :
  successor m ps' → settled m t → settled (set_processes (λ _, ps') m) t.
Proof.
  intros Hsu Hs. destruct t; simpl in *; try done;
    destruct Hs as (e & He & Hsp); exists e; (split; [done|]); by eapply successor_spent.
Qed.

(** What the operating system may do: no identity is used twice, and sizes are not negative. *)
Definition possible (m : Manager) (o : OsEvent) : Prop :=
  match o with
  | Appears pid p => fresh_birth m pid (pr_born p) ∧ sane p
  | Measures pid _ rss => ∀ n, rss = Some n → 0 ≤ n
  | _ => True
  end.
Lemma os_event_successor m o : Inv m → possible m o → successor m (os_event o (processes m)).
Proof.
  intros Hi Hp pid p' Hl. pose proof (inv_sane m Hi) as Hs.
  assert (Hsame : ∀ p, processes m !! pid = Some p → p' = p → sane p' ∧ (
    (∃ p, processes m !! pid = Some p ∧ pr_born p' = pr_born p ∧ readable p' = readable p
          ∧ pr_reserved p' = pr_reserved p ∧ (pr_exit p' = None → pr_exit p = None))
    ∨ (pr_reserved p' = None ∧ fresh_birth m pid (pr_born p')))).
  { intros p E ->. split; [by apply (Hs pid)|left; by eauto 10]. }
  destruct o as [pid0 code|pid0|pid0 p0|pid0 fp rss]; simpl in *.
  - rewrite lookup_alter in Hl. case_decide; [subst|by eapply Hsame].
    apply fmap_Some in Hl as (p & E & ->). split; [exact (Hs pid p E)|]. left. exists p. by split_and!.
  - destruct (processes m !! pid0) as [z|]; [|by eapply Hsame]. destruct (present _); [|by eapply Hsame].
    apply lookup_delete_Some in Hl as [_ Hl]. by eapply Hsame.
  - destruct Hp as [Hf Hsn]. destruct (processes m !! pid0) as [z|] eqn:E; [by eapply Hsame|].
    apply lookup_insert_Some in Hl as [[-> <-]|[_ Hl]]; [|by eapply Hsame]. split; [done|by right].
  - rewrite lookup_alter in Hl. case_decide; [subst|by eapply Hsame].
    apply fmap_Some in Hl as (p & E & ->). split; [done|]. left. exists p. by split_and!.
Qed.
Lemma os_event_held o ps :
  (∀ pid p n, ps !! pid = Some p → pr_reserved p = Some n → 0 ≤ n) →
  held_bytes (os_event o ps) ≤ held_bytes ps.
Proof.
  intros Hres. destruct o as [pid code|pid|pid p|pid fp rss]; simpl.
  - destruct (ps !! pid) as [p|] eqn:Hp; [|by rewrite alter_id by (intros; congruence)].
    rewrite (held_bytes_split (alter _ _ _) pid (exited code p)) by (by rewrite lookup_alter_eq, Hp).
    rewrite (held_bytes_split ps pid p) by done. rewrite delete_alter_eq.
    assert (0 ≤ held_by p); [|unfold held_by at 1; simpl; lia].
    unfold held_by. destruct (absent _); [|done]. destruct (pr_reserved p) as [n|] eqn:Hn; [|done].
    by eapply Hres.
  - destruct (ps !! pid) as [p|] eqn:Hp; [|done]. destruct (present (pr_exit p)) eqn:Hx; [|done].
    rewrite (held_bytes_split ps pid p) by done. unfold held_by, absent. rewrite Hx. simpl. lia.
  - destruct (ps !! pid) as [|] eqn:Hp; [done|]. rewrite held_bytes_insert by done. unfold held_by at 1. simpl. lia.
  - by apply held_bytes_alter.
Qed.

(** ** Runs *)

(** The reserved sizes of the table are those of requests. *)
Definition reserved_positive (ps : Table) : Prop :=
  ∀ pid p n, ps !! pid = Some p → pr_reserved p = Some n → 0 ≤ n.

Definition allowed (l : Label) (s : System) : Prop :=
  let m := mgr s in
  match l with
  | LStart q _ _ ev =>
      1 ≤ rq_estimate_bytes q ∧ 0 ≤ ev_additional ev
      ∧ (∀ pid p, ev_spawn ev = Some (pid, p) →
           processes m !! pid = None ∧ fresh_birth m pid (pr_born p) ∧ readable p = true ∧ sane p)
      ∧ (∀ e, find_engine (rq_engine_id q) m = Some e → spent (processes m) e)
  | LThread n _ => ∀ t, pool s !! n = Some t → timely m t
  | LRestart _ _ _ => False
  | LOs o => possible m o
  | _ => True
  end.

Record Safe (cf : Settings) (s : System) : Prop := {
  safe_inv : Inv (mgr s);
  safe_threads : Forall (settled (mgr s)) (pool s);
  safe_reserved : reserved_positive (processes (mgr s));
  safe_held : held_bytes (processes (mgr s)) ≤ cf_budget_bytes cf;
}.

(** The live processes of the manager are charged for. *)
Lemma Inv_held m : Inv m → held_bytes (processes m) ≤ committed_bytes m.
Proof.
  intros [Hr Hd Hk Ht Ho Hn Hs]. unfold held_bytes, committed_bytes.
  set (l := filter (λ x : Z * Proc, pr_exit x.2 = None ∧ is_Some (pr_reserved x.2)) (map_to_list (processes m))).
  replace (sum_Z (held_by <$> (map_to_list (processes m)).*2)) with (sum_Z (held_by <$> l.*2)).
  - rewrite <- list_fmap_compose.
    apply (sum_Z_injection _ _ (λ x e, e_proc e = Some (mkPopen x.1 (pr_born x.2)))).
    + apply NoDup_filter, NoDup_map_to_list.
    + intros [pid p] [[Hx [n Hres]] Hp%elem_of_map_to_list]%list_elem_of_filter. simpl in *.
      destruct (Ho pid p n Hp Hx Hres) as (k & r & e & Hin & E & Hpr & Hes & Hc). exists e.
      split_and!; [|done|].
      * apply list_elem_of_In, List.filter_In. split; [|done]. apply list_elem_of_In, elem_of_values. by eauto.
      * unfold held_by, charge, absent. rewrite Hx, Hres. simpl. rewrite Hes.
        destruct (Ht r e E _ Hpr) as (_ & _ & ? & _). destruct (Z.eqb_spec n 0); lia.
    + intros [pid p] [pid' p'] e [_ Hp%elem_of_map_to_list]%list_elem_of_filter
        [_ Hp'%elem_of_map_to_list]%list_elem_of_filter. simpl. intros. simplify_eq. done.
    + intros e He%list_elem_of_In. apply List.filter_In in He as [He _].
      apply list_elem_of_In, elem_of_values in He as (k & r & _ & E). by apply charge_nonneg, (Hn r).
  - unfold l. induction (map_to_list (processes m)) as [|[pid p] ps IH]; [done|].
    rewrite filter_cons. rewrite fmap_cons, fmap_cons. cbn [sum_Z]. rewrite <- IH. simpl.
    case_decide as Hd'; [done|]. unfold held_by at 2. simpl.
    destruct (pr_exit p), (pr_reserved p); simpl; try done. by destruct Hd'.
Qed.

Section runs.
Context (cf : Settings).

Lemma Safe_booted : 0 ≤ cf_budget_bytes cf → Safe cf booted.
Proof. intros Hb. split; [apply Inv_empty|constructor|done|done]. Qed.

(** A call that only updates engines, with threads that have nothing to prove. *)
Lemma Safe_call {A} (c : M Manager Exn A) threads s :
  Safe cf s → steps evolves c →
  (∀ a m', c (mgr s) = (Ok a, m') → Forall (settled m') (threads a)) → Safe cf (call c threads s).
Proof.
  intros [Hi Ht Hr Hh] Hc Hth. unfold call. specialize (Hc (mgr s)). destruct (c (mgr s)) as [res m'] eqn:Hrun.
  specialize (Hc (inv_tied _ Hi)). simpl in Hc.
  assert (Hset : Forall (settled m') (pool s)) by (eapply Forall_impl; [done|]; intros; by eapply settled_evolved).
  pose proof (Inv_evolved _ _ Hc Hi). destruct res; split; simpl; rewrite ?(evo_processes _ _ Hc); try done.
  apply Forall_app. split; [done|]. by apply Hth.
Qed.

Lemma start_thread q before i ev m b st t m' :
  start cf q before i ev m = (Ok (b, st, t), m') → t = None ∨ t = Some (Await (rq_engine_id q)).
Proof.
  unfold start. intros H. inv_run. case_match. unfold start_locked in H. inv_run.
  destruct (_serving _ _ _ _); inv_run; unfold mret, M_ret in H; simplify_eq; auto.
Qed.

Lemma Safe_start q before i ev s :
  Safe cf s → allowed (LStart q before i ev) s → Safe cf (exec cf (LStart q before i ev) s).
Proof.
  intros [Hi Ht Hr Hh] (Hest & Hadd & Hsp & Hrep). simpl. unfold call.
  destruct (start cf q before i ev (mgr s)) as [res m'] eqn:Hrun.
  assert (Hgoal : Inv m' ∧ Forall (settled m') (pool s) ∧ reserved_positive (processes m')
                  ∧ held_bytes (processes m') ≤ cf_budget_bytes cf).
  { apply start_cases in Hrun as [[Hsame _]|Had].
    - pose proof (same_engines_evolved _ _ Hsame) as Hev. rewrite (se_processes _ _ Hsame). split_and!; try done.
      + by eapply Inv_evolved.
      + eapply Forall_impl; [done|]. intros. by eapply settled_evolved.
    - pose proof (admitted_Inv cf q ev _ _ Hi Had Hest Hsp Hrep) as Hi'.
      pose proof (admitted_committed cf q ev _ _ Hi Had Hest Hsp Hrep) as Hc.
      pose proof (Inv_held _ Hi') as Hheld. destruct Had as [Hfit _ _ _ _ _ Hst].
      destruct Hst as (? & ? & ? & argv & pid & p & ? & _ & _ & _ & _ & Hspawn & Hp & Hob & _ & _).
      destruct (Hsp _ _ Hspawn) as (Hpid & Hfb & _ & _). split_and!; [done| | |lia].
      + eapply Forall_impl; [done|]. intros t Hset.
        eapply (settled_insert (mgr s) m' pid (spawned q argv p)); [done..| |done].
        intros r e E. rewrite Hob, lookup_insert_ne; [done|]. pose proof (inv_refs _ Hi r e E). lia.
      + intros pid' p' n. rewrite Hp. intros [[<- <-]|[_ E]]%lookup_insert_Some; [|by apply (Hr pid')].
        simpl. intros [= <-]. lia. }
  destruct Hgoal as (? & ? & ? & ?). destruct res as [[[b st] t]|e]; split; simpl; try done.
  apply Forall_app. split; [done|]. apply start_thread in Hrun as [->| ->]; repeat constructor.
Qed.

Lemma Safe_thread n i s :
  Safe cf s → allowed (LThread n i) s → Safe cf (exec cf (LThread n i) s).
Proof.
  intros [Hi Ht Hr Hh] Ha. simpl in *. destruct (pool s !! n) as [t|] eqn:En; [|done].
  pose proof (proj1 (Forall_lookup _ _) Ht n t En) as Hset.
  pose proof (thread_step_sound cf t i (mgr s) Hi Hset (Ha t eq_refl)) as [Hev Hnext].
  destruct (thread_step cf t i (mgr s)) as [res m']. simpl in *.
  assert (Hpool : Forall (settled m') (pool s)) by (eapply Forall_impl; [done|]; intros; by eapply settled_evolved).
  pose proof (Inv_evolved _ _ Hev Hi).
  destruct res; split; simpl; rewrite ?(evo_processes _ _ Hev); try done;
    apply Forall_insert; [done|by apply Hnext|done|done].
Qed.

Lemma stop_thread id w m a m' : stop cf id w m = (Ok a, m') → ∀ x t, a = Some (x, t) → ∃ r, t = TermBegin r.
Proof.
  unfold stop. intros H x t ->. inv_run. destruct (find_ref _ _) as [r|]; inv_run; [|done].
  unfold mret, M_ret in H. injection H as H _.
  apply fmap_Some in H as (e & _ & [= _ ->]). by eexists.
Qed.

Lemma Safe_consider known now c s : Safe cf s → Safe cf (exec cf (LConsider known now c) s).
Proof.
  intros [Hi Ht Hr Hh]. simpl. unfold call. destruct (consider cf known now c (mgr s)) as [res m'] eqn:Hrun.
  apply consider_Inv in Hrun as (Hi' & Hp & Ho); [|done].
  assert (Hpool : Forall (settled m') (pool s)).
  { eapply Forall_impl; [done|]. intros t Hset. destruct t; simpl in *; try done;
      destruct Hset as (e & E & Hsp); exists e; rewrite Hp; auto. }
  destruct res; split; simpl; rewrite ?Hp; try done. by rewrite app_nil_r.
Qed.
Lemma Safe_os o s : Safe cf s → possible (mgr s) o → Safe cf (exec cf (LOs o) s).
Proof.
  intros [Hi Ht Hr Hh] Hp. pose proof (os_event_successor _ _ Hi Hp) as Hsu. split; simpl.
  - by apply (Inv_successor _ _ Hi) in Hsu.
  - eapply Forall_impl; [done|]. intros t Hset. by apply (settled_successor _ _ _ Hsu) in Hset.
  - intros pid p' n E Hres. destruct (Hsu _ _ E) as [_ [(p & Ep & _ & _ & Hrs & _)|[Hn _]]]; [|congruence].
    apply (Hr pid p); congruence.
  - etrans; [by apply os_event_held|done].
Qed.

Lemma Safe_exec l s : Safe cf s → allowed l s → Safe cf (exec cf l s).
Proof.
  intros Hs Ha. destruct l as [q before i ev|id w|n i|now w|known now c|xs disc now w|w| |d now w|o].
  - by apply Safe_start.
  - apply Safe_call; [done|apply stop_evolves|]. intros [[x t]|] m' Hrun; [|constructor].
    by destruct (stop_thread _ _ _ _ _ Hrun _ _ eq_refl) as [r ->]; repeat constructor.
  - by apply Safe_thread.
  - apply Safe_call; [done|apply check_once_evolves|constructor].
  - by apply Safe_consider.
  - apply Safe_call; [done|apply reconcile_evolves|constructor].
  - apply Safe_call; [done|apply shutdown_evolves|constructor].
  - apply Safe_call; [done|by intros m; apply evolves_same|constructor].
  - done.
  - by apply Safe_os.
Qed.
End runs.

(** A run that the operating system and the requests allow. *)
Fixpoint allowed_all (cf : Settings) (ls : list Label) (s : System) : Prop :=
  match ls with
  | [] => True
  | l :: ls => allowed l s ∧ allowed_all cf ls (exec cf l s)
  end.

Lemma Safe_run cf ls s : Safe cf s → allowed_all cf ls s → Safe cf (exec_all cf ls s).
Proof.
  revert s. induction ls as [|l ls IH]; intros s Hs; [done|]. intros [Hl Hls].
  apply IH; [by apply Safe_exec|done].
Qed.

(** C6. The memory of the engines.  In every run of starts, stops, probes, health passes,
    reconciliations and events of the operating system, in any order, in which no engine is
    replaced and no start deadline strikes while its process still runs: what the live
    processes of the manager were admitted for is covered by what it counts as committed,
    and never exceeds the budget. *)
Theorem engines_fit cf ls (Hb : 0 ≤ cf_budget_bytes cf) (Hok : allowed_all cf ls booted) :
  let m := mgr (exec_all cf ls booted) in
  held_bytes (processes m) ≤ committed_bytes m ∧ held_bytes (processes m) ≤ cf_budget_bytes cf.
Proof.
  destruct (Safe_run cf ls booted (Safe_booted cf Hb) Hok) as [Hi _ _ Hh]. split; [by apply Inv_held|done].
Qed.
