(* ===== verification/EngineLife.v ===== *)
(** * The life of an engine

    An engine is ready only after a generation its own probe asked for, and an engine that
    has left service never returns to it: the order of states along every run. *)
From S2P Require Import Prelude Effects Instances Engines EngineFacts EngineSafety.
Open Scope Z_scope.

(** Starting comes before ready, and both before the states out of service. *)
Definition phase (st : EngineState) : Z :=
  match st with EStarting => 0 | EReady => 1 | _ => 2 end.

(** ** How one call may change the engines *)

Section calm.
(** The engines that may become ready. *)
Context (may : nat → Prop).

Record calm_engine (r : nat) (e e' : _Engine) : Prop := {
  ce_phase : phase (e_state e) ≤ phase (e_state e');
  ce_ready : e_state e' = EReady → e_state e = EReady ∨ may r;
}.
Definition calm_opt (r : nat) (o o' : option _Engine) : Prop :=
  match o, o' with
  | Some e, Some e' => calm_engine r e e'
  | None, Some e' => e_state e' = EReady → may r
  | None, None => True
  | Some _, None => False
  end.
Definition bounded (m : Manager) : Prop := ∀ r e, objects m !! r = Some e → (r < next_ref m)%nat.
Record calmed (m m' : Manager) : Prop := {
  ca_bounded : bounded m';
  ca_objects : ∀ r, calm_opt r (objects m !! r) (objects m' !! r);
}.
Definition calm (m m' : Manager) : Prop := bounded m → calmed m m'.

Lemma calm_engine_refl r e : calm_engine r e e.
Proof. split; [done|by left]. Qed.
Lemma calm_engine_trans r e1 e2 e3 : calm_engine r e1 e2 → calm_engine r e2 e3 → calm_engine r e1 e3.
Proof. intros [? H1] [? H2]. split; [lia|]. intros [H|]%H2; [by apply H1|by right]. Qed.
Lemma calm_opt_refl r o : calm_opt r o o.
Proof. destruct o; [apply calm_engine_refl|done]. Qed.

#[global] Instance calm_preorder : PreOrder calm.
Proof.
  split.
  - intros m Hb. split; [done|]. intros r. apply calm_opt_refl.
  - intros m1 m2 m3 H12 H23 Hb. destruct (H12 Hb) as [Hb2 Ho1]. destruct (H23 Hb2) as [Hb3 Ho2].
    split; [done|]. intros r. specialize (Ho1 r). specialize (Ho2 r).
    destruct (objects m1 !! r), (objects m2 !! r) as [e2|], (objects m3 !! r); simpl in *; try done.
    + by eapply calm_engine_trans.
    + intros Hr. by destruct (ce_ready _ _ _ Ho2 Hr); auto.
Qed.

(** A change of one engine's state to one out of service, or of other fields. *)
Definition quiet (f : _Engine → _Engine) : Prop :=
  ∀ e, e_state (f e) = e_state e ∨ phase (e_state (f e)) = 2.
Lemma quiet_calm f r e : quiet f → calm_engine r e (f e).
Proof.
  intros Hq. destruct (Hq e) as [H|H]; split; rewrite ?H; try done.
  - by left.
  - by destruct (e_state e).
  - intros He. by rewrite He in H.
Qed.
Lemma calm_update r f m :
  (∀ e, objects m !! r = Some e → calm_engine r e (f e)) → calm m (set_objects (alter f r) m).
Proof.
  intros Hf Hb. split.
  - intros r' e'. simpl. rewrite lookup_alter_Some. intros [(-> & e & E & _)|[_ E]]; by eapply Hb.
  - intros r'. simpl. destruct (decide (r' = r)) as [->|Hne].
    + rewrite lookup_alter_eq. destruct (objects m !! r) as [e|] eqn:E; simpl; auto.
    + rewrite lookup_alter_ne by done. apply calm_opt_refl.
Qed.
Lemma calm_quiet r f : quiet f → steps calm (update r f : M Manager Exn unit).
Proof. intros Hq m. apply calm_update. intros e _. by apply quiet_calm. Qed.
Lemma calm_same m m' : objects m' = objects m → next_ref m' = next_ref m → calm m m'.
Proof.
  intros Ho Hn Hb. split; [intros r e; rewrite Ho, Hn; apply Hb|]. intros r. rewrite Ho. apply calm_opt_refl.
Qed.
Lemma calm_add m k e : e_state e ≠ EReady → calm m (add_engine k e m).
Proof.
  intros He Hb. split; simpl.
  - intros r x. simpl. intros [[<- _]|[_ E]]%lookup_insert_Some; [lia|]. specialize (Hb r x E). lia.
  - intros r. destruct (decide (r = next_ref m)) as [->|Hne].
    + rewrite lookup_insert_eq. destruct (objects m !! next_ref m) as [x|] eqn:E; simpl; [|done].
      specialize (Hb _ _ E). lia.
    + rewrite lookup_insert_ne by done. apply calm_opt_refl.
Qed.

Lemma calm_get_bind {A} (k : Manager → M Manager Exn A) :
  (∀ m, calm m (k m m).2) → steps calm (get ≫= k).
Proof. intros Hk m. apply Hk. Qed.
Lemma calm_bind {A B} (c : M Manager Exn A) (k : A → M Manager Exn B) :
  steps calm c → (∀ a, steps calm (k a)) → steps calm (c ≫= k).
Proof. apply steps_bind, _. Qed.
Lemma calm_ret {A} (a : A) : steps calm (mret a : M Manager Exn A).
Proof. by apply steps_ret, _. Qed.
Lemma calm_persist cf w : steps calm (_persist cf w).
Proof.
  apply calm_get_bind. intros m. destruct w; [by apply calm_same|].
  destruct (cf_strict_persistence cf); by apply calm_same.
Qed.
Lemma calm_unlink e : steps calm (unlink_stderr e).
Proof. intros m. unfold unlink_stderr. by destruct (e_stderr_path e); apply calm_same. Qed.
Lemma sampled_state ps e : e_state (sampled ps e) = e_state e.
Proof. unfold sampled. by destruct (e_pid e). Qed.
Lemma calm_sample r : steps calm (_sample r).
Proof. apply calm_get_bind. intros m. apply calm_quiet. intros e. left. apply sampled_state. Qed.
End calm.

(** ** Every call but the one that hears the generation *)

Section calls.
Context (may : nat → Prop) (cf : Settings).

(** Walk through a call, splitting its tests. *)
Ltac calmly :=
  repeat match goal with
  | |- ∀ _, _ => intro
  | |- steps _ (get ≫= _) => apply calm_get_bind
  | |- steps _ (_ ≫= _) => apply calm_bind
  | |- steps _ (mret _) => apply calm_ret
  | |- steps _ (_persist _ _) => apply calm_persist
  | |- steps _ (unlink_stderr _) => apply calm_unlink
  | |- steps _ (_sample _) => apply calm_sample
  | |- steps _ (update _ _) => apply calm_quiet; intros ?; by (left + right)
  | |- steps _ (if ?b then _ else _) => destruct b
  | |- steps _ (match ?o with Some _ => _ | None => _ end) => destruct o
  | |- calm _ _ ((if ?b then _ else _) _).2 => destruct b
  | |- calm _ _ ((match ?o with Some _ => _ | None => _ end) _).2 => destruct o
  | |- calm _ _ ((_ ≫= _) ?m).2 => refine ((_ : steps (calm _) _) m)
  | |- calm _ _ (mret _ _).2 => reflexivity
  | |- calm _ _ (update ?r ?f ?m).2 => refine ((_ : steps (calm _) (update r f)) m)
  end.

Lemma calm_check_engine now r : steps (calm may) (check_engine now r).
Proof. unfold check_engine. calmly. Qed.
Lemma calm_check_once now w : steps (calm may) (check_once cf now w).
Proof. unfold check_once. calmly. apply (steps_for_each (calm may)), calm_check_engine. Qed.
Lemma calm_judge now x : steps (calm may) (judge now x).
Proof. unfold judge. calmly. destruct p. calmly. Qed.
Lemma calm_judge_all now xs : steps (calm may) (judge_all now xs).
Proof. induction xs; simpl; calmly; [apply calm_judge|done]. Qed.
Lemma calm_reconcile xs disc now w : steps (calm may) (reconcile_locked cf xs disc now w).
Proof. unfold reconcile_locked. calmly. apply calm_judge_all. Qed.
Lemma calm_stop id w : steps (calm may) (stop cf id w).
Proof. unfold stop, obj. calmly. Qed.
Lemma calm_shutdown w : steps (calm may) (shutdown cf w).
Proof. unfold shutdown. calmly. intros m. by apply calm_same. Qed.

Lemma calm_consider known now c : steps (calm may) (consider cf known now c).
Proof.
  intros m. destruct (consider cf known now c m) as [r m'] eqn:H. simpl.
  apply consider_cases in H as [->|(k & e & _ & _ & _ & (e0 & _ & Hst & ->) & ->)]; [reflexivity|].
  apply calm_add. by rewrite sampled_state, Hst.
Qed.

Lemma calm_start q before i ev : steps (calm may) (start cf q before i ev).
Proof.
  intros m. destruct (start cf q before i ev m) as [r m'] eqn:H. simpl.
  apply start_cases in H as [[[? ? ? ?] _]|[_ _ _ _ _ _ Hst]]; [by apply calm_same|].
  destruct Hst as (? & ? & ? & ? & pid & p & rendering & _ & _ & _ & _ & _ & Hp & Ho & He & Hn).
  etrans; [apply (calm_add may m (rq_engine_id q))|].
  2: { apply calm_same; simpl; [by rewrite Ho|by rewrite Hn]. }
  by rewrite sampled_state.
Qed.

Lemma calm_adopt_records d now js : steps (calm may) (adopt_records cf d now js).
Proof.
  induction js as [|j js IH]; simpl; calmly.
  - intros m1. reflexivity.
  - apply IH.
  - intros m1. apply calm_add. by rewrite sampled_state.
  - apply IH.
Qed.
Lemma calm_adopt d now w : steps (calm may) (adopt_from_state cf d now w).
Proof. unfold adopt_from_state. calmly. apply calm_adopt_records. Qed.

(** A thread makes an engine ready only where it has heard the generation. *)
Lemma calm_answered r started i :
  may r → steps (calm may) (thread_step cf (ProbeAnswered r started) i).
Proof.
  intros Hr. apply calm_get_bind. intros m. destruct (objects m !! r) as [e|] eqn:E; [|reflexivity].
  destruct (_still_starting e) eqn:Hs; [|reflexivity]. unfold _still_starting in Hs. guards.
  apply (steps_bind_at (calm may)); [|calmly].
  apply calm_update. intros e' E'. replace e' with e by congruence. split; [simpl; by rewrite Hs|by right].
Qed.
Lemma calm_thread t i :
  (∀ r started, t = ProbeAnswered r started → may r) → steps (calm may) (thread_step cf t i).
Proof.
  intros Hmay. destruct t;
    lazymatch goal with
    | |- steps _ (thread_step _ (ProbeAnswered _ _) _) => by apply calm_answered, (Hmay _ started)
    | _ => cbn [thread_step term_step]; unfold _mark_start_failure, terminated, obj; calmly
    end.
  all: try (intros m1; by apply calm_same).
Qed.

(** The answered generation itself. *)
Lemma probe_poll_answered m r0 started0 e i r started :
  probe_poll m r0 started0 e i = ProbeAnswered r started →
  r0 = r ∧ started0 = started ∧ in_reply i = Response 200
  ∧ ∀ c, e_proc e = Some c → poll (processes m) c = None.
Proof.
  unfold probe_poll. intros H. destruct (e_proc e) as [c|].
  - destruct (poll (processes m) c) eqn:Hp; [done|]. repeat case_match; simplify_eq. guards.
    split_and!; [done..|by subst|]. by intros c' [= <-].
  - repeat case_match; simplify_eq; guards; by subst.
Qed.
Lemma thread_answered t i m r started m' :
  thread_step cf t i m = (Ok (ProbeAnswered r started), m') →
  t = ProbePoll r started ∧ in_reply i = Response 200
  ∧ ∃ e, objects m !! r = Some e ∧ (∀ c, e_proc e = Some c → poll (processes m) c = None).
Proof.
  destruct t; cbn [thread_step term_step]; intros H; rewrite ?run_get in H; repeat case_match; inv_run;
    unfold mret, M_ret in *; simplify_eq.
  match goal with Hp : probe_poll _ _ _ _ _ = _ |- _ => apply probe_poll_answered in Hp as (-> & -> & ? & ?) end.
  by eauto.
Qed.
End calls.

(** ** Along a run *)

Section run.
Context (cf : Settings).

Lemma exec_all_snoc ls l s : exec_all cf (ls ++ [l]) s = exec cf l (exec_all cf ls s).
Proof. unfold exec_all. by rewrite fold_left_app. Qed.
Lemma exec_all_app ls1 ls2 s : exec_all cf (ls1 ++ ls2) s = exec_all cf ls2 (exec_all cf ls1 s).
Proof. unfold exec_all. by rewrite fold_left_app. Qed.

(** The thread of a step that has just heard a generation, if it is one. *)
Definition answering (l : Label) (s : System) (r : nat) : Prop :=
  ∃ n i started, l = LThread n i ∧ pool s !! n = Some (ProbeAnswered r started).
Definition is_restart (l : Label) : bool := match l with LRestart _ _ _ => true | _ => false end.

Lemma call_mgr {A} (c : M Manager Exn A) threads s : mgr (call c threads s) = (c (mgr s)).2.
Proof. unfold call. by destruct (c (mgr s)) as [[] ?]. Qed.

Lemma exec_calm l s :
  is_restart l = false → calm (answering l s) (mgr s) (mgr (exec cf l s)).
Proof.
  destruct l as [q before i ev|id w|n i|now w|known now c|xs disc now w|w| |d now w|o]; intros Hr;
    try (simpl; rewrite call_mgr).
  - apply calm_start.
  - apply calm_stop.
  - simpl. destruct (pool s !! n) as [t|] eqn:En; [|reflexivity].
    pose proof (calm_thread (answering (LThread n i) s) cf t i) as Hc.
    assert (Hm : ∀ r started, t = ProbeAnswered r started → answering (LThread n i) s r).
    { intros r started ->. by exists n, i, started. }
    specialize (Hc Hm (mgr s)). by destruct (thread_step cf t i (mgr s)) as [[] ?].
  - apply calm_check_once.
  - apply calm_consider.
  - apply calm_reconcile.
  - apply calm_shutdown.
  - by apply calm_same.
  - done.
  - by apply calm_same.
Qed.
Lemma restart_calm d now w s may :
  calm may (restarted (mgr s)) (mgr (exec cf (LRestart d now w) s)).
Proof. simpl. rewrite call_mgr. apply calm_adopt. Qed.

Lemma exec_bounded l s : bounded (mgr s) → bounded (mgr (exec cf l s)).
Proof.
  intros Hb. destruct (is_restart l) eqn:Hr.
  - destruct l; try done. apply (restart_calm d now written s (λ _, True)). intros r e. simpl. by rewrite lookup_empty.
  - by apply exec_calm.
Qed.
Lemma run_bounded ls : bounded (mgr (exec_all cf ls booted)).
Proof.
  induction ls as [|l ls IH] using rev_ind; [by intros r e; simpl; rewrite lookup_empty|].
  rewrite exec_all_snoc. by apply exec_bounded.
Qed.

(** The run contains an answered generation of this engine, asked for by its own probe while
    its child had not exited. *)
Definition heard (ls : list Label) (r : nat) : Prop :=
  ∃ ls1 n i ls2 started, ls = ls1 ++ LThread n i :: ls2 ∧ in_reply i = Response 200
    ∧ pool (exec_all cf ls1 booted) !! n = Some (ProbePoll r started)
    ∧ ∃ e, objects (mgr (exec_all cf ls1 booted)) !! r = Some e
           ∧ ∀ c, e_proc e = Some c → poll (processes (mgr (exec_all cf ls1 booted))) c = None.
Lemma heard_snoc ls l r : heard ls r → heard (ls ++ [l]) r.
Proof.
  intros (ls1 & n & i & ls2 & st & -> & H). exists ls1, n, i, (ls2 ++ [l]), st. by rewrite <- app_assoc.
Qed.

Lemma adopt_records_threads d now js m ts m' :
  adopt_records cf d now js m = (Ok ts, m') → Forall (λ t, ∃ r, t = ProbeTop r now) ts.
Proof.
  revert m ts m'. induction js as [|j js IH]; intros m ts m' H; simpl in H; inv_run; [constructor|].
  destruct (negb _); [by eapply IH|]. inv_run.
  constructor; [by eexists|]. by eapply IH.
Qed.

(** A probe that has heard a generation is not in a pool by any other way. *)
Lemma exec_answered l s n r started :
  pool (exec cf l s) !! n = Some (ProbeAnswered r started) →
  (∃ n', pool s !! n' = Some (ProbeAnswered r started))
  ∨ ∃ n' i, l = LThread n' i ∧ in_reply i = Response 200 ∧ pool s !! n' = Some (ProbePoll r started)
      ∧ ∃ e, objects (mgr s) !! r = Some e ∧ ∀ c, e_proc e = Some c → poll (processes (mgr s)) c = None.
Proof.
  assert (Hcall : ∀ A (c : M Manager Exn A) threads s0,
    (∀ a m', c (mgr s0) = (Ok a, m') → Forall (λ t, ∀ r st, t ≠ ProbeAnswered r st) (threads a)) →
    pool (call c threads s0) !! n = Some (ProbeAnswered r started) →
    pool s0 !! n = Some (ProbeAnswered r started)).
  { intros A c threads s0 Hth. unfold call. destruct (c (mgr s0)) as [[a|e] m'] eqn:Hc; simpl; [|done].
    rewrite lookup_app_Some. intros [|[_ H]]; [done|]. specialize (Hth a m' eq_refl).
    destruct (proj1 (Forall_lookup _ _) Hth _ _ H r started). done. }
  destruct l as [q before i ev|id w|k i|now w|known now c|xs disc now w|w| |d now w|o]; simpl.
  - intros H. left. exists n. revert H. apply Hcall. intros [[b st] t] m' Hrun.
    apply start_thread in Hrun as [->| ->]; repeat constructor. done.
  - intros H. left. exists n. revert H. apply Hcall. intros [[x t]|] m' Hrun; [|constructor].
    destruct (stop_thread _ _ _ _ _ _ Hrun _ _ eq_refl) as [r' ->]. by repeat constructor.
  - destruct (pool s !! k) as [t|] eqn:Ek; [|by eauto].
    destruct (thread_step cf t i (mgr s)) as [[t'|e] m'] eqn:Hstep; simpl.
    + intros [(-> & -> & _)|[_ H]]%list_lookup_insert_Some; [|by eauto].
      apply thread_answered in Hstep as (-> & Hr & He). right. by eauto 10.
    + intros [(_ & [=] & _)|[_ H]]%list_lookup_insert_Some. by eauto.
  - intros H. left. exists n. revert H. apply Hcall. constructor.
  - intros H. left. exists n. revert H. apply Hcall. constructor.
  - intros H. left. exists n. revert H. apply Hcall. constructor.
  - intros H. left. exists n. revert H. apply Hcall. constructor.
  - rewrite app_nil_r. by eauto.
  - intros H. exfalso. apply Hcall in H; [by simpl in H; rewrite ?lookup_nil in H|].
    intros ts m' Hrun. unfold adopt_from_state in Hrun. inv_run. destruct (journal _); inv_run; [|constructor].
    match goal with Ha : adopt_records _ _ _ _ _ = _ |- _ => apply adopt_records_threads in Ha end.
    eapply Forall_impl; [done|]. by intros t [r' ->].
  - by eauto.
Qed.

Lemma run_heard ls :
  (∀ r e, objects (mgr (exec_all cf ls booted)) !! r = Some e → e_state e = EReady → heard ls r)
  ∧ (∀ n r st, pool (exec_all cf ls booted) !! n = Some (ProbeAnswered r st) → heard ls r).
Proof.
  induction ls as [|l ls [IHo IHp]] using rev_ind; [split; simpl; intros ? ?; by rewrite ?lookup_empty|].
  rewrite exec_all_snoc. set (s := exec_all cf ls booted) in *. split.
  - intros r e E Hready. apply heard_snoc. destruct (is_restart l) eqn:Hr.
    + destruct l; try done. exfalso.
      destruct (restart_calm d now written s (λ _, False)) as [_ Ho].
      { intros r' e'. simpl. by rewrite lookup_empty. }
      specialize (Ho r). rewrite E in Ho. simpl in Ho. rewrite lookup_empty in Ho. by apply Ho.
    + destruct (exec_calm l s Hr (run_bounded ls)) as [_ Ho]. specialize (Ho r). rewrite E in Ho.
      assert (Hans : answering l s r → heard ls r) by (intros (n & i & st & _ & Hp); by eapply IHp).
      destruct (objects (mgr s) !! r) as [e0|] eqn:E0; simpl in Ho; [|by auto].
      destruct (ce_ready _ _ _ _ Ho Hready) as [H0|H0]; [by eapply IHo|by auto].
  - intros n r st Hp. apply exec_answered in Hp as [(n' & Hp)|(n' & i & -> & Hrep & Hp & He)].
    + apply heard_snoc. by eapply IHp.
    + exists ls, n', i, [], st. by split_and!.
Qed.
End run.

(** C7. Readiness is a generation.  If an engine is ready at the end of any run (agent
    restarts included), then at some step of the run its own probe, on an engine whose child
    had not exited, was answered with status 200 to a generation. *)
Theorem ready_after_generation cf ls r e
    (He : objects (mgr (exec_all cf ls booted)) !! r = Some e) (Hr : e_state e = EReady) :
  heard cf ls r.
Proof. exact (proj1 (run_heard cf ls) r e He Hr). Qed.

(** C36. No engine returns to service.  Between two restarts of the agent, whatever is
    interleaved, an engine's state only moves forward: a ready engine was starting before,
    and one that is stopping, stopped, failed or an orphan is never ready or starting again. *)
Theorem engines_move_forward cf ls1 ls2 r e
    (He : objects (mgr (exec_all cf ls1 booted)) !! r = Some e)
    (Hno : forallb (negb ∘ is_restart) ls2 = true) :
  ∃ e', objects (mgr (exec_all cf (ls1 ++ ls2) booted)) !! r = Some e'
        ∧ phase (e_state e) ≤ phase (e_state e').
Proof.
  induction ls2 as [|l ls2 IH] using rev_ind; [rewrite app_nil_r; exists e; split; [done|lia]|].
  rewrite forallb_app in Hno. apply andb_true_iff in Hno as [Hno Hl]. simpl in Hl.
  destruct (IH Hno) as (e1 & E1 & Hp1).
  rewrite app_assoc, exec_all_snoc. set (s := exec_all cf (ls1 ++ ls2) booted) in *.
  assert (Hr : is_restart l = false) by (by destruct (is_restart l)).
  destruct (exec_calm cf l s Hr (run_bounded cf _)) as [_ Ho]. specialize (Ho r). rewrite E1 in Ho.
  destruct (objects (mgr (exec cf l s)) !! r) as [e2|]; [|done]. exists e2. split; [done|].
  destruct Ho as [Hp _]. lia.
Qed.
