(* ===== verification/CommandLines.v ===== *)
(** * Command lines written and read back

    What [build_engine_argv] and [build_vision_argv] write and [_port_from], [_slug_from] and
    the adoption check read: numbers, words and paths, through the text of a command line. *)
From Stdlib Require Import Ascii.
From S2P Require Import Prelude Effects Instances Engines.
Open Scope Z_scope.

(** ** Text as characters *)

Lemma chars_app a b : chars (a +:+ b) = chars a ++ chars b.
Proof. induction a as [|c a IH]; simpl; [done|]. by rewrite IH. Qed.
Lemma text_chars s : text (chars s) = s.
Proof. apply String.string_of_list_ascii_of_string. Qed.
Lemma chars_inj a b : chars a = chars b → a = b.
Proof. intros H. by rewrite <- (text_chars a), <- (text_chars b), H. Qed.
Lemma chars_text l : chars (text l) = l.
Proof. apply String.list_ascii_of_string_of_list_ascii. Qed.

(** ** Substrings *)

Lemma prefix_app a b : String.prefix a (a +:+ b) = true.
Proof. induction a as [|c a IH]; simpl; [by destruct b|]. destruct (ascii_dec c c); [done|congruence]. Qed.
Lemma contains_here x b : contains x (x +:+ b) = true.
Proof. pose proof (prefix_app x b) as H. destruct (x +:+ b); cbn [contains]; by rewrite H. Qed.
Lemma contains_later x a b : contains x b = true → contains x (a +:+ b) = true.
Proof. intros H. induction a as [|c a IH]; simpl; [done|]. by rewrite IH, orb_true_r. Qed.
Lemma prefix_grows x y b : String.prefix x y = true → String.prefix x (y +:+ b) = true.
Proof.
  revert y. induction x as [|c x IH]; intros y H; [by destruct (y +:+ b)|].
  destruct y as [|c' y]; [done|]. simpl in *. destruct (ascii_dec c c'); [by apply IH|done].
Qed.
Lemma contains_grows x y b : contains x y = true → contains x (y +:+ b) = true.
Proof.
  induction y as [|c y IH]; intros H.
  - simpl in H. rewrite orb_false_r in H. destruct x; [by destruct b|done].
  - cbn [contains] in H. apply orb_true_iff in H as [H|H].
    + apply (prefix_grows x (String c y) b) in H. simpl in *. by rewrite H.
    + simpl. by rewrite IH, orb_true_r.
Qed.
Lemma contains_join x y parts : y ∈ parts → contains x y = true → contains x (join " " parts) = true.
Proof.
  unfold join. intros Hin Hxy. induction parts as [|z parts IH]; [by apply elem_of_nil in Hin|].
  apply elem_of_cons in Hin as [<-|Hin].
  - destruct parts as [|w parts]; simpl; [done|by apply contains_grows].
  - destruct parts as [|w parts]; [by apply elem_of_nil in Hin|].
    change (contains x (z +:+ (" " +:+ String.concat " " (w :: parts))) = true).
    by apply contains_later, contains_later, IH.
Qed.
Lemma contains_refl x : contains x x = true.
Proof.
  replace x with (x +:+ "")%string at 2; [apply contains_here|].
  apply chars_inj. by rewrite chars_app, app_nil_r.
Qed.

(** ** Splitting *)

Lemma split_on_app sep w a c b :
  forallb (negb ∘ sep) a = true → sep c = true →
  split_on sep w (a ++ c :: b) = (rev w ++ a) :: split_on sep [] b.
Proof.
  revert w. induction a as [|x a IH]; intros w Ha Hc; simpl in *.
  - by rewrite Hc, app_nil_r.
  - apply andb_true_iff in Ha as [Hx Ha]. apply negb_true_iff in Hx. rewrite Hx, IH by done.
    simpl. by rewrite <- app_assoc.
Qed.
Lemma split_on_end sep w a : forallb (negb ∘ sep) a = true → split_on sep w a = [rev w ++ a].
Proof.
  revert w. induction a as [|x a IH]; intros w Ha; simpl in *; [by rewrite app_nil_r|].
  apply andb_true_iff in Ha as [Hx Ha]. apply negb_true_iff in Hx. rewrite Hx, IH by done.
  simpl. by rewrite <- app_assoc.
Qed.
Lemma split_on_last sep w a c b :
  sep c = true → ∃ l, split_on sep w (a ++ c :: b) = l ++ split_on sep [] b.
Proof.
  intros Hc. revert w. induction a as [|x a IH]; intros w; simpl.
  - rewrite Hc. by exists [rev w].
  - destruct (sep x); [|apply IH]. destruct (IH []) as [l ->]. by exists (rev w :: l).
Qed.

(** A word of a command line: not empty, no white space. *)
Definition word (s : string) : bool := nonempty (chars s) && forallb (negb ∘ is_space) (chars s).

Lemma split_join parts : forallb word parts = true → split (join " " parts) = parts.
Proof.
  unfold split, join. induction parts as [|x parts IH]; [done|]. simpl forallb.
  intros [Hx Hp]%andb_true_iff. unfold word in Hx. apply andb_true_iff in Hx as [Hne Hx].
  assert (Hx' : chars x ≠ []) by (by destruct (chars x)).
  destruct parts as [|y parts].
  - simpl. rewrite split_on_end by done. simpl. rewrite filter_cons_True by done. simpl.
    by rewrite text_chars.
  - change (String.concat " " (x :: y :: parts)) with (x +:+ (" " +:+ String.concat " " (y :: parts)))%string.
    rewrite !chars_app. simpl (chars " "). cbn [app].
    rewrite (split_on_app is_space [] (chars x) " "%char) by done.
    rewrite filter_cons_True by done. rewrite fmap_cons, IH by done. simpl. by rewrite text_chars.
Qed.

Lemma path_name_child root name :
  forallb (negb ∘ Ascii.eqb "/") (chars name) = true → name ≠ ""%string → name ≠ "."%string →
  path_name (root +:+ "/" +:+ name) = name.
Proof.
  intros Hs Hne Hdot. unfold path_name. rewrite !chars_app. simpl (chars "/"). cbn [app].
  destruct (split_on_last (Ascii.eqb "/") [] (chars root) "/"%char (chars name)) as [l ->]; [done|].
  rewrite split_on_end by done. rewrite filter_app, filter_cons_True.
  - simpl. rewrite filter_nil, fmap_app. simpl. rewrite last_snoc. simpl. apply text_chars.
  - split; intros H.
    + apply Hne, chars_inj. simpl in *. done.
    + apply Hdot, chars_inj. simpl in *. done.
Qed.

(** ** Numbers *)

Lemma digit_pretty x : (x < 10)%N → digit (pretty_N_char x) = Some (Z.of_N x).
Proof.
  intros Hx. assert (x = 0 ∨ x = 1 ∨ x = 2 ∨ x = 3 ∨ x = 4 ∨ x = 5 ∨ x = 6 ∨ x = 7 ∨ x = 8 ∨ x = 9)%N
    as Hc by lia. by destruct Hc as [->|[->|[->|[->|[->|[->|[->|[->|[->| ->]]]]]]]]].
Qed.
(** The digits of [x] before [s] read as [x] and then [s]. *)
Lemma digits_pretty_go x s b :
  (0 < x)%N → digits 0 b (chars (pretty_N_go x s)) = digits (Z.of_N x) true (chars s).
Proof.
  revert s b. induction (N.lt_wf_0 x) as [x _ IH]; intros s b Hx.
  rewrite pretty_N_go_step by done.
  assert (Hmod : (x mod 10 < 10)%N) by (by apply N.mod_lt).
  pose proof (N.div_mod x 10 ltac:(done)) as Hdm.
  destruct (decide (0 < x / 10)%N) as [Hq|Hq].
  - rewrite IH; [|by apply N.div_lt|done]. cbn [chars digits]. rewrite digit_pretty by done. f_equal. lia.
  - replace (x / 10)%N with 0%N by lia. rewrite pretty_N_go_0. cbn [chars digits].
    rewrite digit_pretty by done. f_equal. lia.
Qed.
Lemma digits_pretty x : digits 0 false (chars (pretty x)) = Some (Z.of_N x).
Proof.
  unfold pretty, pretty_N. case_decide as Hx; [by subst|]. rewrite digits_pretty_go by lia. done.
Qed.
(** [int(str(n)) == n] *)
Lemma py_int_pretty (z : Z) : py_int (pretty z) = Some z.
Proof.
  unfold pretty, pretty_Z. destruct z as [|p|p]; [done| |].
  - pose proof (digits_pretty (Npos p)) as Hd. unfold py_int. change (pretty p) with (pretty (Npos p)).
    destruct (chars (pretty (Npos p))) as [|c l] eqn:E; [done|].
    destruct (Ascii.eqb_spec c "-") as [->|]; [done|]. destruct (Ascii.eqb_spec c "+") as [->|]; [done|].
    by rewrite Hd.
  - unfold py_int. rewrite chars_app. simpl (chars "-"). cbn [app].
    change (Ascii.eqb "-" "-") with true. cbv iota. change (pretty p) with (pretty (Npos p)).
    by rewrite (digits_pretty (Npos p)).
Qed.

Lemma digits_word acc b l n : digits acc b l = Some n → forallb (negb ∘ is_space) l = true.
Proof.
  revert acc b. induction l as [|c l IH]; intros acc b H; [done|]. simpl in *. apply andb_true_iff.
  destruct (digit c) eqn:Hd.
  - split; [|by eapply IH]. unfold digit in Hd. case_match; [|done]. guards.
    unfold compose, is_space. apply negb_true_iff. apply orb_false_iff. split; apply andb_false_iff; right; apply Nat.leb_gt; lia.
  - destruct (b && Ascii.eqb c "_") eqn:Hc; [|done]. apply andb_true_iff in Hc as [_ ->%Ascii.eqb_eq].
    split; [done|by eapply IH].
Qed.
Lemma py_int_word s n : py_int s = Some n → word s = true.
Proof.
  unfold py_int, word. destruct (chars s) as [|c l] eqn:E; [done|]. intros H. cbn [nonempty andb].
  destruct (Ascii.eqb_spec c "-") as [->|].
  { apply fmap_Some in H as (k & H & _). simpl. by eapply digits_word. }
  destruct (Ascii.eqb_spec c "+") as [->|]; [simpl; by eapply digits_word|]. by eapply digits_word.
Qed.
Lemma pretty_word (z : Z) : word (pretty z) = true.
Proof. eapply py_int_word, py_int_pretty. Qed.

(** ** Slugs *)

Lemma slug_pattern_chars s : slug_pattern s = true → forallb slug_char s = true.
Proof.
  unfold slug_pattern. intros H. apply existsb_exists in H as (i & _ & H). guards.
  rewrite <- (take_drop i s), forallb_app. apply andb_true_iff. split; [done|].
  rewrite <- (take_drop 2 (drop i s)), forallb_app, drop_drop.
  match goal with H : take 2 _ = _ |- _ => rewrite H end. by apply andb_true_iff.
Qed.
Lemma valid_slug_chars slug :
  is_valid_slug slug = true → forallb (λ c, slug_char c || Ascii.eqb c "010") (chars slug) = true.
Proof.
  assert (Hw : ∀ l, forallb slug_char l = true → forallb (λ c, slug_char c || Ascii.eqb c "010") l = true).
  { intros l. rewrite !forallb_forall. intros H x Hx. by rewrite H. }
  unfold is_valid_slug. intros [H|H]%orb_true_iff; [by apply Hw, slug_pattern_chars|].
  destruct (rev (chars slug)) as [|c front] eqn:E; [done|]. guards.
  replace (chars slug) with (rev front ++ [c]).
  - rewrite forallb_app. apply andb_true_iff. split; [by apply Hw, slug_pattern_chars|]. simpl.
    match goal with H : Ascii.eqb _ _ = true |- _ => rewrite H end. by rewrite orb_true_r.
  - change (rev (c :: front) = chars slug). by rewrite <- E, rev_involutive.
Qed.
(** A slug names a direct child: it has no separator and is not the directory itself. *)
Lemma valid_slug_child slug :
  is_valid_slug slug = true →
  forallb (negb ∘ Ascii.eqb "/") (chars slug) = true ∧ slug ≠ ""%string ∧ slug ≠ "."%string.
Proof.
  intros H. split_and!; [|by intros ->..].
  apply valid_slug_chars in H. rewrite forallb_forall in H |- *. intros x Hx. specialize (H x Hx).
  unfold compose. apply negb_true_iff. destruct (Ascii.eqb_spec "/" x) as [<-|]; done.
Qed.

(** What a scan reads of a command line: from any command line in which the flags
    stand before their values for the first time, and no word has white space, the port and
    the slug that were written are read back. *)
Lemma port_read argv port :
  forallb word argv = true → after "--port" argv = Some (pretty port) → _port_from (join " " argv) = port.
Proof. intros Hw Ha. unfold _port_from. rewrite split_join by done. rewrite Ha. simpl. by rewrite py_int_pretty. Qed.
Lemma slug_read cf argv slug path :
  forallb word argv = true → path_for cf slug = Ok path → after "--model" argv = Some path →
  _slug_from (join " " argv) (cf_store_root cf) = Some slug.
Proof.
  intros Hw Hp Ha. unfold _slug_from. rewrite split_join by done. rewrite Ha. simpl.
  unfold path_for in Hp. inv_ok. guards. rewrite prefix_app.
  destruct (valid_slug_child slug) as (? & ? & ?); [done|]. by rewrite path_name_child.
Qed.
