(* ===== verification/EngineAdoption.v ===== *)
(** * Engines outlive the agent

    After a restart of the agent: an engine it spawned is found again under the same
    identity, and nothing else is; what is not in the journal is found as an orphan, with
    its port and model read back from its command line; a reconciliation accounts for every
    expected engine. *)
From Stdlib Require Import Ascii.
From S2P Require Import Prelude Effects Instances Engines EngineFacts EngineSafety CommandLines.
Open Scope Z_scope.

(** ** The command line an engine is started with *)

Definition FLAGS : list string := ["--model"; "--adapter-path"; "--port"]%string.
Definition plain (s : string) : bool := negb (is_in s FLAGS).

(** The settings and the request name no flag where they give a value. *)
Record plain_start (cf : Settings) (q : EngineStartRequest) : Prop := {
  pl_command : forallb plain (engine_command cf) = true;
  pl_executable : plain (cf_executable cf) = true;
  pl_address : plain (cf_address cf) = true;
  pl_template : ∀ t, rq_chat_template q = Some t → plain t = true;
}.

Lemma plain_ne s f : plain s = true → f ∈ FLAGS → s ≠ f.
Proof. unfold plain. intros Hs Hf ->. apply negb_true_iff in Hs. by rewrite (proj2 (is_in_true _ _) Hf) in Hs. Qed.
Lemma plain_pretty (z : Z) : plain (pretty z) = true.
Proof.
  unfold plain. apply negb_true_iff. destruct (is_in _ _) eqn:H; [|done]. guards.
  pose proof (py_int_pretty z) as Hz. unfold FLAGS in H. rewrite !elem_of_cons in H.
  destruct H as [H|[H|[H|H]]]; [rewrite H in Hz; discriminate Hz..|by apply elem_of_nil in H].
Qed.
Lemma path_plain cf slug path : path_for cf slug = Ok path → plain path = true.
Proof.
  unfold path_for. intros H. inv_ok. unfold plain. apply negb_true_iff.
  destruct (is_in _ _) eqn:H; [|done]. guards. exfalso.
  assert (Hin : "/"%char ∈ chars (cf_store_root cf +:+ "/" +:+ slug)%string).
  { rewrite !chars_app. set_solver. }
  unfold FLAGS in H. rewrite !elem_of_cons in H.
  destruct H as [H|[H|[H|H]]]; [rewrite H in Hin; by vm_compute in Hin; set_solver..|by apply elem_of_nil in H].
Qed.

Lemma after_found f l x rest : f ∉ l → after f (l ++ f :: x :: rest) = Some x.
Proof.
  induction l as [|y l IH]; simpl; intros Hl; [by rewrite same_refl|].
  destruct (same y f) eqn:Hs; guards; [set_solver|]. apply IH. set_solver.
Qed.

(** The parts every command line has. *)
Lemma engine_argv_shape cf q path port adapter argv :
  engine_argv cf q path port adapter = Ok argv →
  ∃ command options template,
    argv = command ++ ["--model"; path; "--host"; cf_address cf; "--port"; pretty port]%string
           ++ options ++ template ++ match adapter with
                                     | Some a => if same (rq_backend q) MLX_VLM then [] else ["--adapter-path"%string; a]
                                     | None => []
                                     end
    ∧ (command = engine_command cf ∨ command = VISION_ENGINE_COMMAND (cf_executable cf))
    ∧ (rq_backend q = MLX_LM → command = engine_command cf)
    ∧ (rq_backend q = MLX_VLM → command = VISION_ENGINE_COMMAND (cf_executable cf))
    ∧ forallb plain options = true ∧ forallb word options = true
    ∧ (template = [] ∨ ∃ t, rq_chat_template q = Some t ∧ template = ["--chat-template"%string; t]).
Proof.
  unfold engine_argv. intros H.
  assert (Hlm : build_engine_argv (engine_command cf) path (cf_address cf) port (rq_chat_template q) adapter = Ok argv →
    ∃ template, argv = engine_command cf ++ ["--model"; path; "--host"; cf_address cf; "--port"; pretty port]%string
      ++ ["--log-level"; "INFO"]%string ++ template ++ match adapter with Some a => ["--adapter-path"%string; a] | None => [] end
      ∧ (template = [] ∨ ∃ t, rq_chat_template q = Some t ∧ template = ["--chat-template"%string; t])).
  { clear H. unfold build_engine_argv. intros H. inv_ok.
    destruct (rq_chat_template q) as [t|]; [destruct (same t ""); inv_ok|inv_ok].
    - exists []. split; [|by left]. destruct adapter; simpl; by rewrite <- ?app_assoc.
    - exists ["--chat-template"%string; t]. split; [|by eauto]. destruct adapter; by rewrite <- ?app_assoc.
    - exists []. split; [|by left]. destruct adapter; simpl; by rewrite <- ?app_assoc. }
  destruct (rq_backend q) eqn:Hb.
  1,3,4: destruct (Hlm H) as (template & -> & Ht);
    exists (engine_command cf), ["--log-level"; "INFO"]%string, template; split_and!; try done; by left.
  inv_ok. exists (VISION_ENGINE_COMMAND (cf_executable cf)),
    (["--vision-cache-size"; pretty (or_one (rq_vision_cache_size q)); "--max-num-seqs";
      pretty (or_one (rq_max_num_seqs q)); "--log-level"; "INFO"]%string
     ++ match rq_max_kv_size q with Some n => ["--max-kv-size"%string; pretty n] | None => [] end), [].
  split_and!; try done; [|by right| | |by left].
  - unfold build_vision_argv. rewrite <- app_assoc. simpl. by destruct adapter, (rq_max_kv_size q).
  - simpl. rewrite !plain_pretty. by destruct (rq_max_kv_size q); simpl; rewrite ?plain_pretty.
  - simpl. rewrite !pretty_word. by destruct (rq_max_kv_size q); simpl; rewrite ?pretty_word.
Qed.

Lemma plain_not_in l f : forallb plain l = true → f ∈ FLAGS → f ∉ l.
Proof.
  intros Hl Hf Hin. rewrite forallb_forall in Hl. specialize (Hl f (proj1 (list_elem_of_In _ _) Hin)).
  by apply (plain_ne f f).
Qed.

Section argv.
Context (cf : Settings) (q : EngineStartRequest) (path : string) (port : Z) (adapter : option string)
        (argv : list string).
Context (Hplain : plain_start cf q) (Hpath : path_for cf (rq_slug q) = Ok path)
        (Hargv : engine_argv cf q path port adapter = Ok argv).

Lemma command_plain command :
  command = engine_command cf ∨ command = VISION_ENGINE_COMMAND (cf_executable cf) →
  forallb plain command = true.
Proof using Hplain.
  intros [->| ->]; [apply Hplain|]. simpl. by rewrite (pl_executable _ _ Hplain).
Qed.

Lemma argv_model : after "--model" argv = Some path.
Proof using Hplain Hpath Hargv.
  destruct (engine_argv_shape _ _ _ _ _ _ Hargv) as (command & options & template & -> & Hc & _).
  apply after_found. apply plain_not_in; [by apply command_plain|]. by unfold FLAGS; set_solver.
Qed.
Lemma argv_port : after "--port" argv = Some (pretty port).
Proof using Hplain Hpath Hargv.
  destruct (engine_argv_shape _ _ _ _ _ _ Hargv) as (command & options & template & -> & Hc & _).
  replace (command ++ ["--model"; path; "--host"; cf_address cf; "--port"; pretty port]%string
             ++ options ++ template ++ _)
    with ((command ++ ["--model"; path; "--host"; cf_address cf]%string) ++ "--port"%string :: pretty port
             :: (options ++ template ++ match adapter with
                  | Some a => if same (rq_backend q) MLX_VLM then [] else ["--adapter-path"%string; a]
                  | None => [] end)) by by rewrite <- app_assoc.
  apply after_found. rewrite elem_of_app, !elem_of_cons.
  assert (Hf : "--port"%string ∈ FLAGS) by (unfold FLAGS; set_solver).
  pose proof (plain_not_in _ _ (command_plain _ Hc) Hf).
  pose proof (plain_ne _ _ (path_plain _ _ _ Hpath) Hf). pose proof (plain_ne _ _ (pl_address _ _ Hplain) Hf).
  intros [?|[?|[?|[?|[?|?%elem_of_nil]]]]]; congruence.
Qed.

Lemma argv_adopted :
  present adapter && negb (same (rq_backend q) MLX_LM) = false → argv_matches argv (Some path) adapter = true.
Proof using Hplain Hpath Hargv.
  intros Hadapter. unfold argv_matches. rewrite argv_model, same_refl. simpl.
  destruct (engine_argv_shape _ _ _ _ _ _ Hargv) as (command & options & template & -> & Hc & _ & _ & Ho & _ & Ht).
  set (pre := command ++ ["--model"; path; "--host"; cf_address cf; "--port"; pretty port]%string
                ++ options ++ template).
  assert (Hf : "--adapter-path"%string ∈ FLAGS) by (unfold FLAGS; set_solver).
  assert (Hpre : "--adapter-path"%string ∉ pre).
  { unfold pre. rewrite !elem_of_app, !elem_of_cons.
    pose proof (plain_not_in _ _ (command_plain _ Hc) Hf). pose proof (plain_not_in _ _ Ho Hf).
    pose proof (plain_ne _ _ (path_plain _ _ _ Hpath) Hf). pose proof (plain_ne _ _ (pl_address _ _ Hplain) Hf).
    pose proof (plain_ne _ _ (plain_pretty port) Hf).
    assert ("--adapter-path"%string ∉ template).
    { destruct Ht as [->|(t & Ht & ->)]; [by apply not_elem_of_nil|].
      pose proof (plain_ne _ _ (pl_template _ _ Hplain t Ht) Hf).
      rewrite !elem_of_cons. intros [?|[?|?%elem_of_nil]]; congruence. }
    intros [?|[[?|[?|[?|[?|[?|[?|?%elem_of_nil]]]]]]|[?|?]]]; congruence. }
  destruct adapter as [a|].
  - simpl in Hadapter. guards. rewrite Hadapter. change (same MLX_LM MLX_VLM) with false. cbv iota.
    match goal with |- same (after _ ?l) _ = _ =>
      replace l with (pre ++ ["--adapter-path"%string; a]) by (unfold pre; by rewrite <- !app_assoc) end.
    rewrite after_found by done. apply same_refl.
  - rewrite app_nil_r. apply negb_true_iff. by apply bool_decide_eq_false.
Qed.
End argv.

(** ** Adoption *)

(** The process of a journal record, as the adoption check wants it: it runs, was born when
    the record says, was started on the recorded store path, and with the recorded adapter,
    whose files match their manifest now, or with none. *)
Record exact_process (cf : Settings) (ps : Table) (d : Disk) (j : JournalRecord) (pid : Z) (p : Proc) : Prop := {
  xp_pid : jr_pid j = Some pid;
  xp_row : ps !! pid = Some p;
  xp_runs : pr_exit p = None;
  xp_born : ∀ t, jr_create_time j = Some t → Z.abs (pr_born p - t) ≤ CREATE_TIME_TOLERANCE;
  xp_model : ∀ slug, named j = Some slug →
    ∃ path, path_for cf slug = Ok path ∧ after "--model" (pr_argv p) = Some path;
  xp_adapter : "--adapter-path"%string ∉ pr_argv p
    ∨ ∃ t a, jr_target j = Some t ∧ tg_adapter_id t = Some a
        ∧ artifact_ok true (dk_artifact d a) a (tg_adapter_manifest t) = true
        ∧ after "--adapter-path" (pr_argv p) = Some (cf_state_dir cf +:+ "/training/artifacts/" +:+ a)%string;
  xp_base : ∀ slug t, named j = Some slug → jr_target j = Some t →
    dk_manifest d slug = Some (tg_base_manifest t);
}.

Lemma alive_spec ps pid created needle :
  _alive ps pid created needle = true →
  ∃ i p, pid = Some i ∧ ps !! i = Some p ∧ pr_exit p = None
    ∧ (∀ t, created = Some t → Z.abs (pr_born p - t) ≤ CREATE_TIME_TOLERANCE).
Proof.
  unfold _alive. destruct pid as [i|]; [|done]. destruct (ps !! i) as [p|] eqn:E; [|done]. intros H. guards.
  exists i, p. split_and!; try done.
  - by destruct (pr_exit p).
  - intros t ->. guards. by apply Z.leb_le.
Qed.

Lemma adapter_path_Ok cf d t slug o :
  adapter_path cf true d t slug = Ok o →
  dk_manifest d slug = Some (tg_base_manifest t)
  ∧ match tg_adapter_id t with
    | None => o = None
    | Some a => artifact_ok true (dk_artifact d a) a (tg_adapter_manifest t) = true
                ∧ o = Some (cf_state_dir cf +:+ "/training/artifacts/" +:+ a)%string
    end.
Proof.
  unfold adapter_path. intros H. inv_ok. guards. split; [done|].
  destruct (tg_adapter_id t); inv_ok; guards; done.
Qed.

Lemma recorded_adapter_Ok cf d j adapter :
  recorded_adapter cf d j = Ok adapter →
  (∀ slug t, named j = Some slug → jr_target j = Some t → dk_manifest d slug = Some (tg_base_manifest t))
  ∧ match adapter with
    | None => True
    | Some x => ∃ t a, jr_target j = Some t ∧ tg_adapter_id t = Some a
        ∧ artifact_ok true (dk_artifact d a) a (tg_adapter_manifest t) = true
        ∧ x = (cf_state_dir cf +:+ "/training/artifacts/" +:+ a)%string
    end.
Proof.
  unfold recorded_adapter. destruct (jr_target j) as [t|]; intros H; [|by inv_ok].
  inv_ok. destruct (named j) as [slug|]; [|by inv_ok].
  apply adapter_path_Ok in H as [Hm Ha]. split; [by intros ? ? [= <-] [= <-]|].
  destruct (tg_adapter_id t) as [a|] eqn:Et; [|by subst]. destruct Ha as [? ->]. by eauto 10.
Qed.

Lemma adoptable_exact cf ps d j : adoptable cf ps d j = Ok true → ∃ pid p, exact_process cf ps d j pid p.
Proof.
  unfold adoptable. intros H. destruct (recorded_adapter cf d j) as [adapter|x] eqn:Ha; [|by destruct x].
  apply recorded_adapter_Ok in Ha as [Hbase Had]. inv_ok. rename x into needle.
  apply andb_true_iff in H as [Hal Hrow].
  destruct (alive_spec _ _ _ _ Hal) as (pid & p & Hpid & Hp & Hx & Hborn). rewrite Hpid in Hrow. simpl in Hrow.
  rewrite Hp in Hrow. apply andb_true_iff in Hrow as [_ Hm]. unfold argv_matches in Hm.
  apply andb_true_iff in Hm as [Hmod Hadp]. exists pid, p. split; try done.
  - intros slug Hn. rewrite Hn in *. destruct (path_for cf slug) as [path|]; [|done]. simpl in *. inv_ok. guards. by eauto.
  - destruct adapter as [a|]; guards.
    + right. destruct Had as (t & a' & ? & ? & ? & ->). by eauto 10.
    + left. by apply bool_decide_eq_false in Hadp.
Qed.

Definition record_key (j : JournalRecord) : string :=
  match jr_engine_id j with Some i => i | None => "orphan-" +:+ pretty (jr_port j) end.
Definition adopted (ps : Table) (j : JournalRecord) : _Engine := sampled ps (adopted_engine j).
Lemma adopted_key ps j : adoption_key (adopted ps j) = record_key j.
Proof. unfold adopted, sampled. by destruct (e_pid _). Qed.

(** What a pass over the records leaves: entries there before, entries of adopted records,
    and an entry with a probe for each record that could be adopted. *)
Record adopts (cf : Settings) (d : Disk) (now : Z) (js : list JournalRecord) (m : Manager)
    (ts : list Thread) (m' : Manager) : Prop := {
  as_processes : processes m' = processes m;
  as_keys : NoDup (engines m').*1;
  as_refs : ∀ r e, objects m' !! r = Some e → (r < next_ref m')%nat;
  as_kept : ∀ r e, objects m !! r = Some e → objects m' !! r = Some e;
  as_old : ∀ k r, (k, r) ∈ engines m → k ∉ record_key <$> js → (k, r) ∈ engines m';
  as_sound : ∀ k r, (k, r) ∈ engines m' →
    (k, r) ∈ engines m
    ∨ ∃ j, j ∈ js ∧ k = record_key j ∧ adoptable cf (processes m) d j = Ok true
           ∧ objects m' !! r = Some (adopted (processes m) j);
  as_complete : NoDup (record_key <$> js) → ∀ j, j ∈ js → adoptable cf (processes m) d j = Ok true →
    ∃ r, (record_key j, r) ∈ engines m' ∧ objects m' !! r = Some (adopted (processes m) j)
         ∧ ProbeTop r now ∈ ts;
}.

Lemma adopt_records_spec cf d now js m ts m' :
  adopt_records cf d now js m = (Ok ts, m') → NoDup (engines m).*1 →
  (∀ r e, objects m !! r = Some e → (r < next_ref m)%nat) → adopts cf d now js m ts m'.
Proof.
  revert m ts m'. induction js as [|j js IH]; intros m ts m' H Hk Hb; simpl in H.
  { inv_run. split; try done; [by left|]. intros _ j Hj. by apply elem_of_nil in Hj. }
  inv_run. match goal with Ha : adoptable _ _ _ _ = Ok ?b |- _ => destruct b; simpl in H end.
  - inv_run. set (e := sampled (processes m) (adopted_engine j)) in *.
    set (m1 := add_engine (adoption_key e) e m) in *.
    match goal with Hr : adopt_records _ _ _ js _ = _ |- _ => apply IH in Hr as Hspec end.
    2: { by apply dict_set_NoDup. }
    2: { intros r y. simpl. intros [[<- _]|[_ E]]%lookup_insert_Some; [lia|]. specialize (Hb r y E). lia. }
    assert (Hkey : adoption_key e = record_key j) by apply (adopted_key (processes m) j).
    destruct Hspec as [Hp Hkeys Hrefs Hkept Hold Hs Hc]. simpl in Hp. unfold m1 in Hs, Hc, Hold. simpl in Hs, Hc, Hold.
    rewrite Hkey in *.
    match goal with Hr : adopt_records _ _ _ js _ = (Ok ?l, ?x) |- _ => rename x into m', l into ts end.
    assert (Hnew : objects m' !! next_ref m = Some e) by (apply Hkept; simpl; apply lookup_insert_eq).
    split; try done.
    + intros r y E. apply Hkept. simpl. rewrite lookup_insert_ne; [done|]. specialize (Hb r y E). lia.
    + intros k r Hin Hnk. rewrite fmap_cons, not_elem_of_cons in Hnk. destruct Hnk as [Hn1 Hn2].
      apply Hold; [|done]. apply elem_of_dict_set; [done|]. by right.
    + intros k r Hin. destruct (Hs k r Hin) as [Hin'|(j' & Hj' & Hrest)].
      * apply (elem_of_dict_set _ _ _ _ _ Hk) in Hin' as [[-> ->]|[_ Hin']]; [|by left].
        right. exists j. split_and!; [by left|done|done|done].
      * right. exists j'. split; [by right|done].
    + rewrite fmap_cons. intros [Hjk Hnd]%NoDup_cons j' [->|Hj']%elem_of_cons Hok.
      * exists (next_ref m). split_and!; [|done|by left]. apply Hold; [|done].
        apply elem_of_dict_set; [done|by left].
      * destruct (Hc Hnd j' Hj' Hok) as (r & ? & ? & ?). exists r. split_and!; [done..|by right].
  - apply IH in H as [Hp Hkeys Hrefs Hkept Hold Hs Hc]; [|done..]. split; try done.
    + intros k r Hin Hn. apply Hold; [done|]. set_solver.
    + intros k r Hin. destruct (Hs k r Hin) as [|(j' & ? & ?)]; [by left|right]. exists j'. split; [by right|done].
    + rewrite fmap_cons. intros [_ Hnd]%NoDup_cons j' [->|Hj']%elem_of_cons Hok; [congruence|by apply Hc].
Qed.

Definition valid_name (j : JournalRecord) : Prop := ∀ slug, named j = Some slug → is_valid_slug slug = true.

Lemma path_for_valid cf slug :
  is_valid_slug slug = true → path_for cf slug = Ok (cf_store_root cf +:+ "/" +:+ slug)%string.
Proof. intros H. unfold path_for. by rewrite H. Qed.
Lemma adoptable_total cf ps d j : valid_name j → ∃ b, adoptable cf ps d j = Ok b.
Proof.
  intros Hv. unfold adoptable.
  assert (Hn : ∃ needle, match named j with Some slug => Some <$> path_for cf slug | None => Ok None end = Ok needle).
  { destruct (named j) as [slug|] eqn:E; [|by eexists]. rewrite path_for_valid by (by apply Hv). by eexists. }
  destruct Hn as [needle ->]. unfold recorded_adapter.
  destruct (jr_target j) as [t|]; [|by eexists]. destruct (exact_artifacts t); [|by eexists]. simpl.
  destruct (named j) as [slug|] eqn:E; [|by eexists]. unfold adapter_path.
  rewrite path_for_valid by (by apply Hv). simpl. destruct (same _ _); [|by eexists]. simpl.
  destruct (tg_adapter_id t) as [a|]; [|by eexists]. destruct (artifact_ok _ _ _ _); by eexists.
Qed.
Lemma adopt_records_total cf d now js m :
  Forall valid_name js → ∃ ts m', adopt_records cf d now js m = (Ok ts, m').
Proof.
  intros Hv. revert m. induction Hv as [|j js Hj _ IH]; intros m; simpl; [by do 2 eexists|].
  rewrite run_get. destruct (adoptable_total cf (processes m) d j Hj) as [b Hb]. unfold lift.
  unfold mbind at 1, M_bind at 1. rewrite Hb. destruct b; simpl; [|apply IH].
  unfold mbind, M_bind, modify.
  destruct (IH (add_engine (adoption_key (sampled (processes m) (adopted_engine j)))
                  (sampled (processes m) (adopted_engine j)) m)) as (ts & m' & ->). by do 2 eexists.
Qed.


(** ** An engine just started *)

Lemma persist_written cf m r m' : _persist cf true m = (r, m') → journal m' = Some (records m).
Proof. unfold _persist. rewrite run_get. by intros [= <- <-]. Qed.

Lemma sampled_record ps e : record (sampled ps e) = record e.
Proof. unfold sampled. case_match; reflexivity. Qed.

Lemma valid_slug_nonempty slug : is_valid_slug slug = true → slug ≠ ""%string.
Proof. by intros H ->. Qed.

(** What is written of a new engine can be read back. *)
Lemma admitted_adoptable cf q ev m m' e :
  admitted cf q ev m m' → plain_start cf q →
  (∀ t, rq_target q = Some t → exact_artifacts t = true) →
  (∀ pid p, ev_spawn ev = Some (pid, p) → readable p = true) →
  find_engine (rq_engine_id q) m' = Some e →
  adoptable cf (processes m') (ev_disk ev) (record e) = Ok true.
Proof.
  intros [_ _ _ _ Hback _ Hst] Hplain Hexact Hread Hf.
  destruct Hst as (path & port & adapter & argv & pid & p & rendering & Hpath & _ & Had & Hargv & Hsp & Hp & Hob & He & _).
  unfold find_engine, find_ref in Hf. rewrite He, dict_get_set in Hf. simpl in Hf.
  rewrite Hob, lookup_insert_eq in Hf. injection Hf as <-. rewrite sampled_record.
  specialize (Hread _ _ Hsp). unfold readable in Hread. guards.
  assert (Hv : is_valid_slug (rq_slug q) = true).
  { unfold path_for in Hpath. by destruct (is_valid_slug (rq_slug q)). }
  assert (Hname : named (record (new_engine cf q ev rendering port pid p)) = Some (rq_slug q)).
  { unfold named. change (jr_slug _) with (Some (rq_slug q)). cbv beta iota. destruct (same (rq_slug q) "") eqn:Hs; [|done]. guards. by apply valid_slug_nonempty in Hv. }
  assert (Hrec : recorded_adapter cf (ev_disk ev) (record (new_engine cf q ev rendering port pid p)) = Ok adapter).
  { unfold recorded_adapter. rewrite Hname. simpl. destruct (rq_target q) as [t|]; [|done].
    by rewrite (Hexact t eq_refl). }
  unfold adoptable. rewrite Hrec, Hname, Hpath. cbn [fmap result_fmap mbind result_bind]. f_equal.
  rewrite Hp. apply andb_true_iff. split.
  - unfold _alive. simpl. rewrite lookup_insert_eq. simpl.
    assert (Hc : contains path (join " " argv) = true).
    { apply (contains_join _ path); [|apply contains_refl]. destruct (engine_argv_shape _ _ _ _ _ _ Hargv) as (? & ? & ? & -> & _).
      rewrite elem_of_app. right. by right; left. }
    repeat match goal with H : _ = true |- _ => rewrite H end. simpl.
    destruct (ev_created_readable ev); [|done]. by rewrite Z.sub_diag.
  - simpl. rewrite lookup_insert_eq. simpl.
    repeat match goal with H : pr_argv_readable _ = true |- _ => rewrite H end. simpl.
    by apply (argv_adopted cf q path port adapter argv Hplain Hpath Hargv), Hback.
Qed.

(** A started engine can be taken over.  When a start has spawned an engine and its
    record could be written, the journal holds it, and a restarted agent would adopt that
    very process: with any settings and request whose values are not themselves flags. *)
Theorem started_engine_adoptable cf q before i ev m st t m'
    (Hrun : start cf q before i ev m = (Ok (false, st, t), m'))
    (Hplain : plain_start cf q) (Hw : ev_written ev = true)
    (Hexact : ∀ tg, rq_target q = Some tg → exact_artifacts tg = true)
    (Hread : ∀ pid p, ev_spawn ev = Some (pid, p) → readable p = true) :
  ∃ e js, find_engine (rq_engine_id q) m' = Some e ∧ e_state e = EStarting
    ∧ journal m' = Some js ∧ record e ∈ js
    ∧ adoptable cf (processes m') (ev_disk ev) (record e) = Ok true.
Proof.
  apply start_cases in Hrun as [[_ Hno]|Had]; [by destruct (Hno st t)|].
  pose proof (ad_journal _ _ _ _ _ Had Hw) as Hj. pose proof (ad_state _ _ _ _ _ Had) as Hst.
  destruct Hst as (_ & port & _ & _ & pid & p & rendering & _ & _ & _ & _ & _ & _ & Hob & He & _).
  set (e := sampled (processes m') (new_engine cf q ev rendering port pid p)) in *.
  assert (Hf : find_engine (rq_engine_id q) m' = Some e).
  { unfold find_engine, find_ref. rewrite He, dict_get_set. simpl. by rewrite Hob, lookup_insert_eq. }
  exists e, (records m'). split_and!; [done|done|done| |by eapply admitted_adoptable].
  unfold records. apply list_elem_of_fmap_2. apply list_elem_of_In, List.filter_In. split; [|done].
  apply list_elem_of_In, elem_of_values. exists (rq_engine_id q), (next_ref m). split.
  - apply dict_get_elem. by rewrite He, dict_get_set.
  - by rewrite Hob, lookup_insert_eq.
Qed.

(** ** Engines no journal remembers *)

(** C38. A forgotten engine is found.  Take the running process of an engine of one of the
    two MLX servers that was started with the default engine command, by settings and a
    request whose values are not themselves flags ([plain_start]), with no white space in any
    word of its command line (so not in the store's root, nor in a chat template), and whose
    command line, creation time and status can be read.  If the manager does not own it (its
    journal was lost), a scan recognises it as an orphan, which is counted, with the port and
    the slug it was started with. *)
Theorem forgotten_engine_found cf q path port adapter argv m known now pid p id
    (Hpath : path_for cf (rq_slug q) = Ok path) (Hargv : engine_argv cf q path port adapter = Ok argv)
    (Hplain : plain_start cf q) (Hcmd : cf_engine_command cf = None) (Hback : rq_backend q ∈ [MLX_LM; MLX_VLM])
    (Hwords : forallb word argv = true)
    (Hp : processes m !! pid = Some p) (Ha : pr_argv p = argv) (Hx : pr_exit p = None)
    (Hread : readable p = true)
    (Hknown : pid ∉ known) (Hfree : ∀ e, e ∈ values m → e_pid e ≠ Some pid) (Hid : find_ref id m = None) :
  ∃ m' e, consider cf known now (pid, id) m = (Ok (Some (status e)), m')
    ∧ find_engine id m' = Some e ∧ e_state e = EOrphan ∧ counted e = true
    ∧ e_pid e = Some pid ∧ e_port e = port ∧ e_slug e = Some (rq_slug q).
Proof.
  pose proof (argv_port cf q path port adapter argv Hplain Hpath Hargv) as Hport.
  pose proof (argv_model cf q path port adapter argv Hplain Hpath Hargv) as Hmodel.
  destruct (engine_argv_shape _ _ _ _ _ _ Hargv) as (command & options & template & Heq & _ & Hlm & Hvlm & _).
  assert (Hpin : path ∈ argv) by (rewrite Heq, elem_of_app; right; by right; left).
  assert (Hroot : contains (cf_store_root cf) (join " " argv) = true).
  { apply (contains_join _ path); [done|]. unfold path_for in Hpath. inv_ok. apply contains_here. }
  assert (Hmark : existsb (λ k, contains k (join " " argv)) ENGINE_MARKERS = true).
  { apply existsb_exists. destruct (decide (rq_backend q = MLX_LM)) as [Hb|Hb].
    - exists "mlx_lm.server"%string. split; [by left|]. apply (contains_join _ "mlx_lm.server"); [|done].
      rewrite Heq, (Hlm Hb). unfold engine_command. rewrite Hcmd. rewrite elem_of_app. left. by right; right; left.
    - exists "mlx_vlm.server"%string. split; [by right; left|]. apply (contains_join _ "mlx_vlm.server"); [|done].
      rewrite Heq, Hvlm by set_solver. rewrite elem_of_app. left. by right; right; left. }
  set (e := sampled (processes m) (orphan_engine cf id (join " " argv) pid
              (if pr_created_readable p then Some (pr_born p) else None) now)).
  assert (Hfind : find_engine id (add_engine id e m) = Some e).
  { unfold find_engine, find_ref. simpl. rewrite dict_get_set. simpl. apply lookup_insert_eq. }
  exists (add_engine id e m), e. split.
  - unfold consider. rewrite run_get. unfold readable in Hread. guards.
    destruct (is_in pid known) eqn:Hk; [by guards|]. rewrite Hp, Ha.
    match goal with H : pr_argv_readable p = true |- _ => rewrite H end. rewrite Hmark, Hroot. cbn [negb orb].
    fold e. destruct (existsb (λ x, same (e_pid x) (Some pid)) (values m)) eqn:Hex.
    { apply existsb_exists in Hex as (x & Hin & Hs). guards. exfalso. apply (Hfree x); [|done].
      by apply list_elem_of_In. }
    assert (Hal : _alive (processes m) (Some pid) (if pr_created_readable p then Some (pr_born p) else None)
                    (Some (cf_store_root cf)) = true).
    { unfold _alive. rewrite Hp, Ha, Hroot, Hx. repeat match goal with H : _ = true |- _ => rewrite H end.
      rewrite Z.sub_diag. done. }
    rewrite Hal. cbn [negb orb]. unfold mbind, M_bind, modify. rewrite Hid. done.
  - split_and!; [done|done|done|done| |].
    + by apply port_read.
    + by apply (slug_read cf argv (rq_slug q) path).
Qed.
