(* ===== verification/EngineReconcile.v ===== *)
(** * Reconciliation accounts for every expected engine

    The part of [reconcile] under the lock: each expectation of the registry ends as
    adopted, as an orphan or as dead, by whether its process lives and is the expected one. *)
From S2P Require Import Prelude Effects Instances Engines EngineFacts EngineSafety.
Open Scope Z_scope.

Definition face (e : _Engine) :=
  (e_engine_id e, e_target e, e_slug e, e_backend e, e_pid e, e_create_time e).

(** One judgement keeps what an engine is, and an orphan that lives stays one. *)
Record judged_engine (m : Manager) (e e' : _Engine) : Prop := {
  je_face : face e' = face e;
  je_orphan : is_alive m e = true → e_state e = EOrphan → e_state e' = EOrphan;
}.
Definition judged_opt (m : Manager) (o o' : option _Engine) : Prop :=
  match o, o' with Some e, Some e' => judged_engine m e e' | None, None => True | _, _ => False end.
Record judged (m m' : Manager) : Prop := {
  ju_engines : engines m' = engines m;
  ju_processes : processes m' = processes m;
  ju_objects : ∀ r, judged_opt m (objects m !! r) (objects m' !! r);
}.

Lemma face_alive m m' e e' : processes m' = processes m → face e' = face e → is_alive m' e' = is_alive m e.
Proof. unfold is_alive. intros -> [= _ _ _ _ -> ->]. done. Qed.
Lemma face_expects x e e' : face e' = face e → expects x e' = expects x e.
Proof. unfold expects. by intros [= _ -> -> -> _ _]. Qed.

#[global] Instance judged_preorder : PreOrder judged.
Proof.
  split.
  - intros m. split; try done. intros r. by destruct (objects m !! r).
  - intros m1 m2 m3 [He1 Hp1 Ho1] [He2 Hp2 Ho2]. split; [congruence..|]. intros r.
    specialize (Ho1 r). specialize (Ho2 r).
    destruct (objects m1 !! r) as [e1|], (objects m2 !! r) as [e2|], (objects m3 !! r) as [e3|];
      simpl in *; try done. destruct Ho1 as [Hf1 H1], Ho2 as [Hf2 H2]. split; [congruence|].
    intros Ha Hs. apply H2; [|by apply H1]. by rewrite (face_alive m1 m2 e1 e2).
Qed.

Lemma judged_update m r f :
  (∀ e, objects m !! r = Some e → judged_engine m e (f e)) → judged m (set_objects (alter f r) m).
Proof.
  intros Hf. split; try done. intros r'. simpl. destruct (decide (r' = r)) as [->|Hne].
  - rewrite lookup_alter_eq. destruct (objects m !! r) as [e|] eqn:E; simpl; auto.
  - rewrite lookup_alter_ne by done. by destruct (objects m !! r').
Qed.

(** How one expectation is judged. *)
Definition verdict (m : Manager) (x : ReconcileExpectation) (j : Judged) (m' : Manager) : Prop :=
  match j with
  | Adopted s => ∃ e, find_engine (re_engine_id x) m = Some e ∧ is_alive m e = true
                      ∧ expects x e = true ∧ es_pid s = e_pid e
  | Differs => ∃ r e e', find_ref (re_engine_id x) m = Some r ∧ objects m !! r = Some e
                 ∧ is_alive m e = true ∧ expects x e = false
                 ∧ objects m' !! r = Some e' ∧ face e' = face e ∧ e_state e' = EOrphan
  | Dead id => id = re_engine_id x
               ∧ ∀ e, find_engine (re_engine_id x) m = Some e → is_alive m e = false
  end.

Lemma judge_spec now x m : ∃ j m', judge now x m = (Ok j, m') ∧ judged m m' ∧ verdict m x j m'.
Proof.
  unfold judge. rewrite run_get. unfold verdict, find_engine.
  destruct (find_ref (re_engine_id x) m) as [r|] eqn:Hr; simpl.
  2: { exists (Dead (re_engine_id x)), m. by split_and!. }
  destruct (objects m !! r) as [e|] eqn:E; simpl.
  2: { exists (Dead (re_engine_id x)), m. by split_and!. }
  destruct (is_alive m e) eqn:Ha; simpl.
  - destruct (expects x e) eqn:Hx; simpl.
    + exists (Adopted (status e)), m. split_and!; [done|done|]. by exists e.
    + do 2 eexists. split; [reflexivity|]. split.
      * apply judged_update. intros e' _. by split.
      * eexists r, e, (with_reason _ (with_state EOrphan e)). split_and!; try done.
        simpl. rewrite lookup_alter_eq, E. reflexivity.
  - rewrite andb_false_r. destruct (is_in _ _) eqn:Hst.
    + exists (Dead (re_engine_id x)), m. split_and!; [done|done|done|]. by intros e' [= <-].
    + do 2 eexists. split; [reflexivity|]. split.
      * apply judged_update. intros e' E'. replace e' with e by congruence. split; [done|]. by rewrite Ha.
      * split; [done|]. by intros e' [= <-].
Qed.

(** The outcome of one expectation, in the end. *)
Definition accounted (m m' : Manager) (res : list EngineStatus * list string) (x : ReconcileExpectation) : Prop :=
  (∃ e s, find_engine (re_engine_id x) m = Some e ∧ is_alive m e = true ∧ expects x e = true
          ∧ s ∈ res.1 ∧ es_pid s = e_pid e)
  ∨ (∃ r e e', find_ref (re_engine_id x) m = Some r ∧ objects m !! r = Some e ∧ is_alive m e = true
               ∧ expects x e = false ∧ objects m' !! r = Some e' ∧ e_pid e' = e_pid e ∧ e_state e' = EOrphan)
  ∨ ((∀ e, find_engine (re_engine_id x) m = Some e → is_alive m e = false) ∧ re_engine_id x ∈ res.2).

Lemma judged_find m m' k e' :
  judged m m' → find_engine k m' = Some e' →
  ∃ e, find_engine k m = Some e ∧ face e' = face e ∧ is_alive m' e' = is_alive m e.
Proof.
  intros [He Hp Ho] Hf. unfold find_engine, find_ref in *. rewrite He in Hf.
  destruct (dict_get k (engines m)) as [r|]; [|done]. simpl in *. specialize (Ho r). rewrite Hf in Ho.
  destruct (objects m !! r) as [e|]; [|done]. exists e. split_and!; [done|apply Ho|].
  apply face_alive; [done|apply Ho].
Qed.
Lemma judged_find_inv m m' k e :
  judged m m' → find_engine k m = Some e →
  ∃ e', find_engine k m' = Some e' ∧ face e' = face e ∧ is_alive m' e' = is_alive m e.
Proof.
  intros [He Hp Ho] Hf. unfold find_engine, find_ref in *. rewrite He.
  destruct (dict_get k (engines m)) as [r|]; [|done]. simpl in *. specialize (Ho r). rewrite Hf in Ho.
  destruct (objects m' !! r) as [e'|]; [|done]. exists e'. split_and!; [done|apply Ho|].
  apply face_alive; [done|apply Ho].
Qed.

(** An account given from an intermediate state is one from the first. *)
Lemma accounted_earlier m m1 m' res x : judged m m1 → accounted m1 m' res x → accounted m m' res x.
Proof.
  intros Hj [(e1 & s & Hf & Ha & Hx & Hs & Hp)|[(r & e1 & e' & Hr & E1 & Ha & Hx & E' & Hp & Hst)|[Hn Hd]]].
  - left. destruct (judged_find _ _ _ _ Hj Hf) as (e & Hf0 & Hface & Hal). exists e, s.
    split_and!; [done|congruence| |done|]; [by rewrite <- (face_expects x e e1)|]. injection Hface. congruence.
  - right; left. destruct Hj as [He Hpr Ho]. unfold find_ref in *. rewrite He in Hr. specialize (Ho r).
    rewrite E1 in Ho. destruct (objects m !! r) as [e|] eqn:E; [|done]. destruct Ho as [Hface _].
    exists r, e, e'. pose proof Hface as [= _ _ _ _ Hpid _]. split_and!; try done.
    + by rewrite <- (face_alive m m1 e e1).
    + by rewrite <- (face_expects x e e1).
    + congruence.
  - right; right. split; [|done]. intros e Hf. destruct (judged_find_inv _ _ _ _ Hj Hf) as (e1 & Hf1 & _ & Hal).
    rewrite <- Hal. by apply Hn.
Qed.

Lemma judge_all_spec now xs m :
  ∃ res m', judge_all now xs m = (Ok res, m') ∧ judged m m' ∧ (∀ x, x ∈ xs → accounted m m' res x)
    ∧ ∀ id, id ∈ res.2 → ∃ x, x ∈ xs ∧ id = re_engine_id x
                              ∧ ∀ e, find_engine id m = Some e → is_alive m e = false.
Proof.
  revert m. induction xs as [|x xs IH]; intros m; simpl.
  { exists ([], []), m. split_and!; [done|done|..]; simpl; set_solver. }
  destruct (judge_spec now x m) as (j & m1 & Hrun & Hj1 & Hv).
  destruct (IH m1) as (res & m' & Hrest & Hj2 & Hacc & Hdead).
  unfold mbind, M_bind. rewrite Hrun, Hrest. do 2 eexists. split; [reflexivity|]. split; [by etrans|]. split.
  - intros y [->|Hy]%elem_of_cons.
    + destruct j as [s|id|]; simpl in Hv.
      * left. destruct Hv as (e & ? & ? & ? & ?). exists e, s. split_and!; try done. by left.
      * right; right. destruct Hv as [-> Hv]. split; [done|by left].
      * right; left. destruct Hv as (r & e & e1 & Hr & E & Ha & Hx & E1 & Hface & Hst).
        destruct Hj1 as [_ Hp1 _]. destruct Hj2 as [_ _ Ho2]. specialize (Ho2 r). rewrite E1 in Ho2.
        destruct (objects m' !! r) as [e'|] eqn:E'; [|done]. destruct Ho2 as [Hf2 Horph].
        exists r, e, e'. pose proof Hf2 as [= _ _ _ _ Hpid2 _]. pose proof Hface as [= _ _ _ _ Hpid1 _].
        split_and!; try done; [congruence|]. apply Horph; [|done]. by rewrite (face_alive m m1 e e1).
    + specialize (Hacc y Hy). apply (accounted_earlier m m1) in Hacc; [|done].
      destruct Hacc as [(e & s & H)|[H|[Hn Hd]]]; [left|by right; left|right; right].
      * exists e, s. destruct H as (? & ? & ? & Hs & ?). split_and!; try done. destruct j; simpl; [by right|done..].
      * split; [done|]. destruct j; simpl; [done|by right|done].
  - intros id Hid.
    assert (Hcase : id ∈ res.2 ∨ j = Dead id).
    { destruct j; simpl in Hid; [by left| |by left]. apply elem_of_cons in Hid as [->|]; auto. }
    destruct Hcase as [Hin| ->].
    + destruct (Hdead id Hin) as (y & Hy & -> & Hn). exists y. split_and!; [by right|done|].
      intros e Hf. destruct (judged_find_inv _ _ _ _ Hj1 Hf) as (e1 & Hf1 & _ & <-). by apply Hn.
    + destruct Hv as [-> Hn]. exists x. split_and!; [by left|done|done].
Qed.

(** C39. Reconciliation.  It returns, and every engine the registry expects is accounted
    for: reported adopted if its process lives and is the expected model, target and
    backend; an orphan (marked, counted and reported) if it lives but is not; and dead only
    if no process of it lives. *)
Theorem reconcile_accounts cf expected discovered now w m
    (Hw : w = true ∨ cf_strict_persistence cf = false) :
  ∃ res m', reconcile_locked cf expected discovered now w m = (Ok res, m')
  ∧ (∀ x, x ∈ expected →
       (∃ e s, find_engine (re_engine_id x) m = Some e ∧ is_alive m e = true ∧ expects x e = true
               ∧ s ∈ rr_adopted res ∧ es_pid s = e_pid e)
       ∨ (∃ e e' s, find_engine (re_engine_id x) m = Some e ∧ is_alive m e = true ∧ expects x e = false
               ∧ find_engine (re_engine_id x) m' = Some e' ∧ e_state e' = EOrphan ∧ counted e' = true
               ∧ s ∈ rr_orphans res ∧ es_pid s = e_pid e)
       ∨ ((∀ e, find_engine (re_engine_id x) m = Some e → is_alive m e = false)
          ∧ re_engine_id x ∈ rr_dead res))
  ∧ (∀ id e, id ∈ rr_dead res → find_engine id m = Some e → is_alive m e = false).
Proof.
  destruct (judge_all_spec now expected m) as (res & m1 & Hrun & Hj & Hacc & Hdead).
  set (orphans := status <$> List.filter (unexpected expected) (values m1)).
  set (all := orphans ++ List.filter (λ o, negb (is_in (es_pid o) (es_pid <$> orphans))) discovered).
  assert (Hper : ∃ m', _persist cf w m1 = (Ok tt, m')).
  { unfold _persist. rewrite run_get. destruct Hw as [->| ->]; [by eexists|]. destruct w; by eexists. }
  destruct Hper as [m' Hper]. pose proof (persist_same _ _ _ _ _ Hper) as [He Ho _ _].
  exists (mkReconciled res.1 res.2 all), m'. split_and!.
  - unfold reconcile_locked. unfold mbind at 1, M_bind at 1. rewrite Hrun, run_get.
    unfold mbind, M_bind. rewrite Hper. reflexivity.
  - intros x Hx. destruct (Hacc x Hx) as [H|[(r & e & e' & Hr & E & Ha & Hne & E' & Hpid & Hst)|H]];
      [by left|right; left|by right; right].
    exists e, e', (status e'). split_and!; try done.
    + unfold find_engine. by rewrite Hr.
    + unfold find_engine, find_ref in *. rewrite He, (ju_engines _ _ Hj), Ho, Hr. done.
    + unfold counted. by rewrite Hst, same_refl, orb_true_r.
    + simpl. unfold all. rewrite elem_of_app. left. unfold orphans. apply list_elem_of_fmap_2.
      apply list_elem_of_In, List.filter_In. split.
      * apply list_elem_of_In, elem_of_values. exists (re_engine_id x), r. split; [|done].
        apply dict_get_elem. by rewrite (ju_engines _ _ Hj).
      * unfold unexpected. by rewrite Hst, same_refl.
  - intros id e Hid Hf. simpl in Hid. destruct (Hdead id Hid) as (x & _ & _ & Hn). by apply Hn.
Qed.
