(* ===== verification/EngineScenario.v ===== *)
(** * Concrete runs of the engine manager

    One engine becomes ready; a start that times out releases its memory before its process
    is dead; an orphan and an engine that was being stopped come back as serving engines
    after a restart of the agent; and the theorems about engines at concrete runs. *)
From S2P Require Import Prelude Effects Instances Engines EngineFacts EngineSafety EngineLife CommandLines EngineAdoption EngineReconcile.
Open Scope Z_scope.

Definition cf : Settings :=
  mkSettings 100 9000 9009 600000000 false "127.0.0.1" "python" None "/store" "/state".
Definition copy : Disk :=
  mkDisk (λ _, true) (λ _, Some "m1"%string) (λ _, mkArtifact false false None None ∅).
Definition inspection : Inspection := mkInspection (Ok "render"%string) false false.
Definition stderr_file (c : string) : string := (String.concat "" (replicate 32 c) +:+ ".log")%string.
Definition env (now pid : Z) (file : string) : Env :=
  mkEnv now true copy (Ok tt) 0 (λ _, true) (Some (stderr_file file))
    (Some (pid, mkProc now [] None true true true None (Some 30) None)) true (Some "0.1"%string)
    (λ t, t).
Definition load (id slug : string) (bytes : Z) : EngineStartRequest :=
  mkStart id slug None MLX_LM bytes None None None None.
Definition hears (now : Z) (r : Reply) : Input := mkInput now true r "".
Definition start_of (id slug : string) (bytes now pid : Z) (file : string) : Label :=
  LStart (load id slug bytes) copy inspection (env now pid file).

Definition states (s : System) : list (string * EngineState) :=
  omap (λ kr, (λ e, (kr.1, e_state e)) <$> objects (mgr s) !! kr.2) (engines (mgr s)).
Definition summary (s : System) := (states s, committed_bytes (mgr s), held_bytes (processes (mgr s))).

(** Load one model; its probe hears nothing, then an error, then a generation. *)
Definition loaded : list Label :=
  [ start_of "e1" "org--a" 60 1000 501 "a";
    LThread 0 (hears 1000 NoListener); LThread 0 (hears 2000 NoListener);
    LThread 0 (hears 2000 NoListener); LThread 0 (hears 3000 NoListener);
    LThread 0 (hears 4000 (Response 503)); LThread 0 (hears 5000 NoListener);
    LThread 0 (hears 6000 (Response 200)); LThread 0 (hears 7000 NoListener) ].

Example loads : summary (exec_all cf loaded booted) = ([("e1"%string, EReady)], 60, 60).
Proof. vm_compute. reflexivity. Qed.

(** A second load that does not fit is refused with the figures. *)
Example refuses :
  (start cf (load "e2" "org--b" 50) copy inspection (env 8000 502 "b") (mgr (exec_all cf loaded booted))).1
  = Err (BudgetExceeded (mkRefused 50 60 100)).
Proof. vm_compute. reflexivity. Qed.

(** ** Where the books and the processes part *)

Definition timed_out : list Label :=
  [ start_of "e1" "org--a" 60 1000 501 "a";
    LThread 0 (hears 1000 NoListener);                 (* the probe begins *)
    LThread 0 (hears 600002000 NoListener);            (* the deadline has passed *)
    LThread 0 (hears 600002000 NoListener);            (* failed; about to terminate *)
    start_of "e2" "org--b" 50 600003000 502 "b" ].

(** One engine of a dictionary stops being counted. *)
Lemma committed_drop m k r e f :
  NoDup (engines m).*2 → (k, r) ∈ engines m → objects m !! r = Some e →
  counted e = true → counted (f e) = false →
  committed_bytes (set_objects (alter f r) m) = committed_bytes m - charge e.
Proof.
  intros Hnd Hin He Hc Hc'. rewrite !committed_weight. simpl.
  apply list_elem_of_split in Hin as (d1 & d2 & Hd). rewrite Hd in *.
  rewrite fmap_app in Hnd. simpl in Hnd. apply NoDup_app in Hnd as (_ & Hd1 & [Hd2 _]%NoDup_cons).
  assert (Hrest : ∀ d, r ∉ d.*2 → weight (alter f r (objects m)) <$> d = weight (objects m) <$> d).
  { intros d Hr. apply fmap_ext_in. intros [k' r'] Hk. unfold weight. simpl.
    rewrite lookup_alter_ne; [done|]. intros ->. apply Hr. by apply (list_elem_of_fmap_2 snd _ (k', r')). }
  rewrite !fmap_app, !fmap_cons, !Hrest, !sum_Z_app; [|set_solver..].
  assert (weight (objects m) (k, r) = charge e) as E1 by (unfold weight; simpl; by rewrite He, Hc).
  assert (weight (alter f r (objects m)) (k, r) = 0) as E2
    by (unfold weight; simpl; rewrite lookup_alter_eq, He; simpl; by rewrite Hc').
  cbn [sum_Z]. rewrite E1, E2. lia.
Qed.

(** C40. A start that times out gives its memory back before its process is dead.  In any
    state, when the probe of a starting engine has expired, the engine is marked failed and
    its charge leaves the committed bytes, while no signal has been sent and the process table
    is as it was; the next load is compared only with what is left, and once it is admitted
    the processes hold its estimate on top of everything they held before, whatever the
    budget. *)
Theorem timed_out_start_overcommits cf m k r e i t m1 q before insp ev pid p st th m2 :
  NoDup (engines m).*2 → (k, r) ∈ engines m → objects m !! r = Some e → e_state e = EStarting →
  thread_step cf (ProbeExpired r) i m = (Ok t, m1) →
  start cf q before insp ev m1 = (Ok (false, st, th), m2) →
  ev_spawn ev = Some (pid, p) → processes m !! pid = None →
  t = TermBegin r ∧ processes m1 = processes m ∧ signals m1 = signals m
  ∧ committed_bytes m1 = committed_bytes m - charge e
  ∧ committed_bytes m - charge e + ev_additional ev + rq_estimate_bytes q ≤ cf_budget_bytes cf
  ∧ held_bytes (processes m2) = held_bytes (processes m) + rq_estimate_bytes q
  ∧ ∀ x, x ≠ pid → processes m2 !! x = processes m !! x.
Proof.
  intros Hnd Hin He Hs Hstep Hstart Hsp Hfree.
  unfold thread_step in Hstep. cbv [mbind M_bind get mret M_ret] in Hstep. rewrite He in Hstep.
  unfold _still_starting in Hstep. rewrite (proj2 (same_true _ _) Hs) in Hstep.
  set (f := with_stopped_at _ ∘ _ ∘ _) in Hstep.
  change (update r f m) with (Ok tt : result Exn unit, set_objects (alter f r) m) in Hstep. cbv beta iota in Hstep.
  destruct (_persist cf (in_written i) (set_objects (alter f r) m)) as [[[]|x] m1'] eqn:Hp; [|done].
  injection Hstep as <- <-.
  assert (Hm1 : committed_bytes m1' = committed_bytes m - charge e).
  { rewrite <- (committed_drop m k r e f Hnd Hin He); [|unfold counted, live; by rewrite Hs|done].
    apply persist_same in Hp as [E1 E2 _ _]. rewrite !committed_weight. by rewrite E1, E2. }
  assert (Hsig : signals m1' = signals m).
  { unfold _persist in Hp. cbv [mbind M_bind get put throw mret M_ret] in Hp.
    destruct (in_written i); [by injection Hp as <-|]. by destruct (cf_strict_persistence cf); simplify_eq. }
  pose proof (se_processes _ _ (persist_same _ _ _ _ _ Hp)) as Hps. simpl in Hps.
  apply start_cases in Hstart as [[_ Hno]|[Hfit _ _ _ _ _ Hst]]; [by destruct (Hno st th)|].
  destruct Hst as (path & port & adapter & argv & pid' & p' & rendering & _ & _ & _ & _ & Hsp' & Hp2 & _).
  rewrite Hsp in Hsp'. injection Hsp' as <- <-. rewrite Hm1 in Hfit. rewrite Hps in Hp2.
  split_and!; try done.
  - rewrite Hp2, held_bytes_insert by done. unfold held_by at 1. simpl. lia.
  - intros x Hx. rewrite Hp2. by apply lookup_insert_ne.
Qed.

Example timed_out_books :
  summary (exec_all cf timed_out booted) = ([("e1"%string, EFailed); ("e2"%string, EStarting)], 50, 110).
Proof. vm_compute. reflexivity. Qed.

(** The state in which the deadline of the first start has passed, and the load of 50 that is
    admitted beside it: the processes hold 110 of a budget of 100. *)
Definition expired : Manager := mgr (exec_all cf (take 3 timed_out) booted).
Definition marked_failed : Manager := (thread_step cf (ProbeExpired 0) (hears 600002000 NoListener) expired).2.
Lemma timed_out_start_overcommits_witness :
  held_bytes (processes (start cf (load "e2" "org--b" 50) copy inspection (env 600003000 502 "b") marked_failed).2)
    = held_bytes (processes expired) + 50
  ∧ held_bytes (processes expired) = 60 ∧ cf_budget_bytes cf = 100.
Proof.
  split; [|by split; vm_compute].
  eapply (timed_out_start_overcommits cf expired "e1" 0 _ (hears 600002000 NoListener) (TermBegin 0) marked_failed
    (load "e2" "org--b" 50) copy inspection (env 600003000 502 "b") 502).
  - apply (bool_decide_unpack _). vm_compute. exact I.
  - apply (bool_decide_unpack _). vm_compute. exact I.
  - vm_compute. reflexivity.
  - vm_compute. reflexivity.
  - vm_compute. reflexivity.
  - vm_compute. reflexivity.
  - vm_compute. reflexivity.
  - vm_compute. reflexivity.
Defined.

(** The same engine id is started again while its stop is under way: the first engine is
    not in the dictionary any more, and what it still holds is not counted. *)
Definition restarted_while_stopping : list Label :=
  loaded ++ [ LStop "e1" true; start_of "e1" "org--a" 40 8000 502 "b" ].
Example replaced_engine_uncounted :
  summary (exec_all cf restarted_while_stopping booted) = ([("e1"%string, EStarting)], 40, 100).
Proof. vm_compute. reflexivity. Qed.

(** The probe of the engine at the head of the table, run to readiness. *)
Definition probed (n : nat) (now : Z) : list Label :=
  [ LThread n (hears now NoListener); LThread n (hears now (Response 200)); LThread n (hears now NoListener) ].

(** A stop that the agent does not survive: the stopped engine serves again. *)
Definition stop_interrupted : list Label :=
  loaded ++ [ LStop "e1" true; LRestart copy 8000 true ] ++ probed 0 9000.
Example stop_forgotten :
  summary (exec_all cf stop_interrupted booted) = ([("e1"%string, EReady)], 60, 60).
Proof. vm_compute. reflexivity. Qed.

(** An engine process that is not ours; it is found, marked an orphan and recorded. *)
Definition stranger : Proc :=
  mkProc 500 ["python"; "-m"; "mlx_lm.server"; "--model"; "/store/org--x"; "--port"; "9100"]%string
    None true true true None (Some 20) None.
Definition orphaned : list Label :=
  [ LOs (Appears 700 stranger); LConsider [] 1000 (700, "u1"%string); LReconcile [] [] 1000 true ].
Definition orphan_restarted : list Label := orphaned ++ [ LRestart copy 2000 true ] ++ probed 0 3000.

(** An orphan is adopted by a restart: the journal records it like an owned engine and
    does not record its state, so after a restart of the agent it is probed, becomes ready,
    and a load of its model is answered with it. *)
Theorem orphan_served_after_restart :
  states (exec_all cf orphaned booted) = [("u1"%string, EOrphan)]
  ∧ states (exec_all cf orphan_restarted booted) = [("u1"%string, EReady)]
  ∧ (λ r, (λ '(already, st, _), (already, es_engine_id st)) <$> r)
      (start cf (load "e9" "org--x" 10) copy inspection (env 4000 502 "b")
         (mgr (exec_all cf orphan_restarted booted))).1
    = Ok (true, Some "u1"%string).
Proof. by split_and!; vm_compute. Qed.

(** ** The memory theorem at a run with two loads, a stop and an exit *)

Definition two_loads : list Label :=
  loaded ++
  [ start_of "e2" "org--b" 40 8000 502 "b";
    LStop "e1" true;
    LThread 2 (hears 9000 NoListener);         (* alive *)
    LThread 2 (hears 9000 NoListener);         (* SIGTERM *)
    LOs (Exits 501 0);
    LThread 2 (hears 9000 NoListener);
    LThread 2 (hears 9000 NoListener);
    LThread 2 (hears 9000 NoListener);
    LThread 2 (hears 9000 NoListener);         (* proven dead *)
    start_of "e3" "org--a" 60 10000 503 "c" ].

Ltac allow_start :=
  split_and!; [done|done|
    intros ? ? [= <- <-]; split_and!;
      [by vm_compute|unfold fresh_birth; apply (bool_decide_unpack _); by vm_compute|done|by intros ? [= <-]]
  | intros ? H; vm_compute in H; discriminate H ].
Ltac allow_thread := intros ? H; vm_compute in H; injection H as <-; exact I.
Ltac allow :=
  match goal with
  | |- allowed (LStart _ _ _ _) _ => allow_start
  | |- allowed (LThread _ _) _ => allow_thread
  | |- allowed _ _ => exact I
  end.

(** Witness of [EngineSafety.engines_fit]: after it all, the second and the third engine
    hold what was admitted, the first nothing. *)
Lemma engines_fit_witness :
  allowed_all cf two_loads booted
  ∧ summary (exec_all cf two_loads booted)
    = ([("e1"%string, EStopped); ("e2"%string, EStarting); ("e3"%string, EStarting)], 100, 100)
  ∧ held_bytes (processes (mgr (exec_all cf two_loads booted))) ≤ 100.
Proof.
  assert (Ha : allowed_all cf two_loads booted).
  { unfold two_loads, loaded, start_of. cbn [app allowed_all]. repeat (split; [allow|]). exact I. }
  split_and!; [exact Ha|vm_compute; reflexivity|].
  apply (engines_fit cf two_loads); [done|exact Ha].
Defined.

(** ** The other theorems at concrete runs *)

Abbreviation after_load := (exec_all cf loaded booted).
Lemma after_load_engine : ∃ e, objects (mgr after_load) !! 0%nat = Some e ∧ e_state e = EReady.
Proof.
  assert (H : e_state <$> objects (mgr after_load) !! 0%nat = Some EReady) by (vm_compute; reflexivity).
  apply fmap_Some in H as (e & E & Hs). exists e. split; [exact E|symmetry; exact Hs].
Qed.

(** Witness of [EngineLife.ready_after_generation]. *)
Lemma ready_after_generation_witness : heard cf loaded 0.
Proof.
  destruct after_load_engine as (e & E & Hr).
  exact (ready_after_generation cf loaded 0 e E Hr).
Defined.

(** Witness of [EngineLife.engines_move_forward]: a ready engine, a stop and a health pass. *)
Lemma engines_move_forward_witness :
  ∃ e', objects (mgr (exec_all cf (loaded ++ [LStop "e1" true; LCheck 8000 true]) booted)) !! 0%nat = Some e'
        ∧ phase EReady ≤ phase (e_state e').
Proof.
  destruct after_load_engine as (e & E & Hr). rewrite <- Hr.
  exact (engines_move_forward cf loaded [LStop "e1" true; LCheck 8000 true] 0 e E eq_refl).
Defined.

Definition journal_of (s : System) : list JournalRecord := default [] (journal (mgr s)).
(** The one record of the journal, and that its process can be adopted. *)
Definition recorded (s : System) : bool :=
  match journal (mgr s) with
  | Some [j] => same (record_key j) "e1"%string && same (jr_pid j) (Some 501)
                && same (named j) (Some "org--a"%string)
                && match adoptable cf (processes (mgr s)) copy j with Ok b => b | Err _ => false end
  | _ => false
  end.
Lemma recorded_inv s : recorded s = true →
  ∃ j, journal (mgr s) = Some [j] ∧ record_key j = "e1"%string ∧ jr_pid j = Some 501
       ∧ named j = Some "org--a"%string ∧ adoptable cf (processes (mgr s)) copy j = Ok true.
Proof.
  unfold recorded. destruct (journal (mgr s)) as [[|j [|]]|]; try done. intros. guards. exists j.
  split_and!; try done. by destruct (adoptable _ _ _ _) as [[]|].
Qed.
Lemma after_load_recorded : recorded after_load = true.
Proof. vm_compute. reflexivity. Qed.


Lemma plain_load id slug bytes : plain_start cf (load id slug bytes).
Proof. by split. Qed.

Definition first_start := start cf (load "e1" "org--a" 60) copy inspection (env 1000 501 "a") empty_manager.
Definition spawns (r : result Exn (bool * EngineStatus * option Thread)) : bool :=
  match r with Ok (b, _, _) => negb b | Err _ => false end.
Lemma spawns_inv (x : result Exn (bool * EngineStatus * option Thread) * Manager) :
  spawns x.1 = true → ∃ st t m', x = (Ok (false, st, t), m').
Proof. destruct x as [[[[[] st] t]|e] m']; simpl; try done. by eauto. Qed.
Lemma first_start_spawns : spawns first_start.1 = true.
Proof. vm_compute. reflexivity. Qed.

(** Witness of [EngineAdoption.started_engine_adoptable]. *)
Lemma started_engine_adoptable_witness :
  ∃ e js, find_engine "e1" first_start.2 = Some e ∧ e_state e = EStarting
    ∧ journal first_start.2 = Some js ∧ record e ∈ js
    ∧ adoptable cf (processes first_start.2) copy (record e) = Ok true.
Proof.
  destruct (spawns_inv _ first_start_spawns) as (st & t & m' & E). rewrite E.
  apply (started_engine_adoptable cf (load "e1" "org--a" 60) copy inspection (env 1000 501 "a") empty_manager st t m' E).
  - apply plain_load.
  - done.
  - done.
  - by intros pid p [= <- <-].
Defined.

Definition lost : Manager := set_journal None (restarted (mgr after_load)).
Definition lost_row : Proc := default stranger (processes lost !! 501).
Lemma lost_row_found : processes lost !! 501 = Some lost_row.
Proof.
  assert (Hgen : ∀ o : option Proc, present o = true → o = Some (default stranger o)) by by intros [].
  apply Hgen. vm_compute. reflexivity.
Qed.

(** Witness of [EngineAdoption.forgotten_engine_found]: the journal is gone. *)
Lemma forgotten_engine_found_witness :
  ∃ m' e, consider cf [] 9000 (501, "u2"%string) lost = (Ok (Some (status e)), m')
    ∧ find_engine "u2" m' = Some e ∧ e_state e = EOrphan ∧ counted e = true
    ∧ e_pid e = Some 501 ∧ e_port e = 9000 ∧ e_slug e = Some "org--a"%string.
Proof.
  apply (forgotten_engine_found cf (load "e1" "org--a" 60) "/store/org--a" 9000 None
           (pr_argv lost_row) lost [] 9000 501 lost_row "u2").
  - vm_compute. reflexivity.
  - vm_compute. reflexivity.
  - apply plain_load.
  - done.
  - by left.
  - vm_compute. reflexivity.
  - apply lost_row_found.
  - done.
  - vm_compute. reflexivity.
  - vm_compute. reflexivity.
  - by apply not_elem_of_nil.
  - intros e He. by apply elem_of_nil in He.
  - done.
Defined.

Definition expectation (slug : string) : ReconcileExpectation := mkExpectation "e1" slug MLX_LM 9000 None.

(** Witness of [EngineReconcile.reconcile_accounts]: the registry expects another model
    under the id of a running engine. *)
Lemma reconcile_accounts_witness :
  ∃ res m', reconcile_locked cf [expectation "org--b"] [] 9000 true (mgr after_load) = (Ok res, m')
    ∧ ∀ id e, id ∈ rr_dead res → find_engine id (mgr after_load) = Some e → is_alive (mgr after_load) e = false.
Proof.
  destruct (reconcile_accounts cf [expectation "org--b"] [] 9000 true (mgr after_load)) as (res & m' & Hrun & _ & Hd);
    [by left|].
  exists res, m'. exact (conj Hrun Hd).
Defined.
(** In that run the engine is an orphan, and nothing is dead. *)
Example differing_expectation :
  (λ r, (es_state <$> rr_orphans r, rr_dead r))
    <$> (reconcile_locked cf [expectation "org--b"] [] 9000 true (mgr after_load)).1 = Ok ([EOrphan], []).
Proof. vm_compute. reflexivity. Qed.
